(* ===== verification/_CoqProject ===== *)
-Q . S2P
Prelude.v
GoStrings.v
GoFloat.v
GoTime.v
Errors.v
Monitor.v
Alerts.v
Kube.v
Commands.v
KubeClient.v
Tasks.v
Base64.v
Config.v
AgentTasks.v
AgentTasksProps.v
Json.v
Smtp.v
Mime.v
Notify.v
NotifyProps.v
SmtpProps.v
Database.v
StoreHosts.v
Login.v
LoginProps.v
StoreUsers.v
StoreUsersSpec.v
StoreUsersProps.v
StoreEnrollment.v
StoreEnrollmentProps.v
Snapshot.v
StoreIngest.v
StoreSeries.v
StoreSeriesProps.v
StoreTasks.v
StoreTasksProps.v
StoreAlerts.v
StoreQuery.v
StoreNotifications.v
StoreKube.v
StoreRules.v
StoreSchema.v
Migrations.v
Texts.v
Evaluator.v
Notices.v
NoticesProps.v
EvaluatorSpec.v
StoreForecast.v
Api.v
Systats.v
AgentCollect.v
AgentUpdate.v
AgentUpdateProps.v
AgentMain.v
CollectorMain.v
ApiTasks.v
ApiTasksProps.v
AgentMainProps.v
AgentRun.v
ApiChannels.v
ApiLogin.v
ApiAuth.v
ApiAuthProps.v
Transport.v
CollectorRun.v
Dashboard.v
DashboardRoutes.v
DashboardJson.v
DashboardProps.v
DashboardSessions.v
DashboardViewers.v
Metrics.v
MetricsProps.v
EvaluatorStore.v
Alerting.v
Pipeline.v
StoreRulesProps.v
EvaluatorProps.v
RuleTransfer.v
