(* ===== verification/Prelude.v ===== *)
(** * SyMon: a verification of its collector, agent and dashboard

    SyMon watches hosts and Kubernetes clusters.  An _agent_ on each host
    (src/agent) collects a snapshot every interval, pings the collector every
    minute, runs the tasks its own file lists when an admin asks, and replaces
    itself by a signed build.  The _collector_ (src/collector, src/internal/api)
    keeps everything in Postgres (src/internal/store), evaluates the alert
    rules, queues and delivers notifications, and probes endpoints.  The
    _dashboard_ (src/client) shows it to users who logged in, and passes their
    changes on to the collector.  This library translates the Go code of the
    three programs into executable definitions, under the source's names where
    Rocq allows it, and proves theorems about them.

    ** How Go is modelled

    A function that returns [(A, error)] is a [result]; a method that also
    changes state is an [SM] computation (Prelude.v), and an error keeps the
    changes made before it, as in Go; [transaction] (Database.v) undoes them, as
    Postgres does.  [int], [int64] and [time.Duration] are [Z] with [wrap64]
    where the code can overflow; [time.Time] is the nanoseconds since the epoch
    without bounds, in UTC (GoTime.v).  Strings are byte strings with the parts
    of [strings] and [unicode/utf8] the code uses (GoStrings.v); [float64] is
    the Standard Library's binary64 (GoFloat.v).  Errors are one value per
    sentinel error, or a text (Errors.v).  JSON is modelled as a value, not as
    text (Json.v).  The database is a record of tables, each a list of rows in
    the order they were inserted, with one sequence for ids; constraints,
    cascades and ON CONFLICT are written out where an operation relies on them
    (Database.v).

    Code that is not in the repository is a class or an argument: URLs and
    addresses ([UrlParse], [ParseAddress], [PathEscape]), number formats
    ([ParseFloat], [FormatFloat]), JSON decoders and encoders ([SnapshotJSON],
    [ApiJSON], [ServicesJSON], [ClusterJSON], [KubeJSON], [JsonText],
    [DecodeTasks]), hashes ([Crypto]),
    [Ed25519] with the laws of RFC 8032, the JWT library ([JWT], and [Tokens] for
    its answer at one moment),
    the rows TimescaleDB answers to an aggregate query ([SeriesRows],
    [QueryRows], [ForecastRows], [EndpointAverages]), the network ([Outside] with
    the mail server's answers, [Net], [CheckNet], [KubeHTTP]), the systats
    library ([Systats]).  Random bytes and the
    clock are arguments.  Theorems take these as they are unless they name the
    laws they need, and the witnesses instantiate them.

    ** The files

    Shared: Prelude.v (results, the state monad, machine integers, lists as
    tables, stable sorting, sums), GoStrings.v, GoFloat.v, GoTime.v, Errors.v,
    Json.v, Base64.v (and the secrets made of random bytes), Monitor.v (metric
    names), Commands.v (internal/command, internal/logger).

    Rules and clusters: Alerts.v is internal/alerts (the rule record,
    [Validate], [ParseRules]); Kube.v is internal/kube (states, restarts, the
    objects of the API, the paged reads) and KubeClient.v its HTTP requests;
    Tasks.v is internal/tasks.

    The store, one file per file of internal/store: StoreHosts.v (hosts.go,
    agents.go), StoreAlerts.v (alerts.go, endpoints.go), StoreRules.v,
    StoreForecast.v, StoreKube.v, StoreTasks.v, StoreNotifications.v,
    StoreUsers.v, StoreEnrollment.v, StoreIngest.v, StoreSeries.v, StoreQuery.v,
    Migrations.v ([Migrate] of store.go).  StoreSchema.v puts every operation
    that writes into one type [StoreOp], and says what each leaves alone.

    The collector: Evaluator.v (evaluator.go, alerts.go, kube.go) against the
    class [AlertStore], which EvaluatorStore.v implements by the database;
    Texts.v (the words of alerts); Notices.v (notify.go) over Notify.v
    (internal/notify), which sends mail through Smtp.v and Mime.v (what the code
    uses of net/smtp, mime and mime/quotedprintable); CollectorMain.v (main.go,
    purge.go, tasks.go, rules.go, users.go, endpoints.go) and CollectorRun.v
    ([main] as a whole).  The API: Api.v, ApiTasks.v, ApiChannels.v,
    ApiLogin.v, ApiAuth.v (internal/api, the call checks of internal/transport),
    Login.v (the counter of wrong passwords), Transport.v (the credentials of
    internal/transport and internal/auth).

    The agent: Snapshot.v, Systats.v (the records of the systats library) and
    AgentCollect.v (internal/monitor), Config.v (internal/config, all three
    programs' settings), AgentTasks.v (tasks.go), AgentUpdate.v (update.go,
    internal/update, tools/sign), AgentMain.v (main.go, kube.go) and AgentRun.v
    ([main] and its goroutines).  The dashboard: Dashboard.v, DashboardRoutes.v,
    DashboardJson.v, Metrics.v (client/internal/server), against the class
    [Collector] of calls.

    A file named ...Props.v holds the theorems about the file it is named after,
    ...Spec.v an abstract specification.  Alerting.v, Pipeline.v, RuleTransfer.v,
    DashboardViewers.v and DashboardSessions.v are about several components
    together.

    ** What is shown

    - Alerting.  The evaluator refines a machine per target (idle, pending,
      firing, recovering): EvaluatorSpec.v has the machine and the laws of the
      store, EvaluatorProps.v that one check is one step with exactly its
      notices, that an alert opens and resolves only after a run of samples
      lasting the trigger interval (another severity is told at once), that a
      lasting breach opens exactly one alert, that cluster rules step the
      machine of every target they show and resolve those gone, and that over
      the database at most one alert is open per target.  Alerting.v: what a
      round of the checker writes about alerts is what the channels of its
      rules are told, message by message, and nothing else.  Pipeline.v: a reading of the agent is what a rule is
      checked on, through the snapshot, the collector's tables and the sample.
    - The store.  StoreSchema.v: any sequence of its operations keeps every
      primary key, unique index and foreign key.  StoreRulesProps.v: names,
      ids and open alerts of rules stay consistent; what UpdateRule and
      ImportRules do on every branch; RuleTransfer.v: an exported file imports
      as no change.  StoreUsersProps.v: users and sessions implement the maps
      of StoreUsersSpec.v.  StoreEnrollmentProps.v: what a token gives whom.
      StoreTasksProps.v: a run moves along queued, running, ended only.
      StoreKube.v, StoreHosts.v: cluster reports, the update protocol.
      StoreSeriesProps.v: how many points a chart has.  Migrations.v: a run of
      migrations cut short is taken up by the next.
    - Who may do what.  ApiAuthProps.v: an agent's key reaches its own host's
      rows only.  Transport.v: an agent that enrolled is let in as its host.
      LoginProps.v: how many passwords are checked in a window and when a name
      is refused, for calls one after another; and that calls that overlap
      pass the limit.  DashboardProps.v: every call to the collector and every
      answer to a browser is traced to the session, the admin's session or
      (for /metrics) the password the collector accepted before it.
      AgentTasksProps.v: only listed commands run.
      DashboardSessions.v: a session that ended lets nobody in for more than
      the minute of the cache and an answer's time, whatever overlaps, and a
      role is used no longer than that after the collector gave it.
      DashboardViewers.v: two collectors that differ only in what is for admins
      look the same to a viewer (noninterference, by a relation on handlers).
      AgentUpdateProps.v: only signed builds of the version asked for are
      installed, and what the sign tool leaves verifies.  Tasks.v: which files of
      tasks are trusted.  NotifyProps.v: the
      secrets that are spelled as documented are blanked and kept.
      SmtpProps.v: the password goes over TLS or to this machine only.
    - Delivery.  NoticesProps.v: notifications arrive in order and at most six
      times, whatever interleaves, and a queue left alone empties.  SmtpProps.v: what a delivery says to a mail
      server, whatever it answers, and that the mail is read back as written, no
      text becoming a header.  AgentTasksProps.v and StoreTasksProps.v:
      output arrives whole, whatever is lost and retried.  ApiTasksProps.v: no
      long poll sleeps through a run.  AgentMainProps.v: an update asked for
      arrives, is installed and is confirmed, and a run asked for is run and read
      back whole, agent and collector together.
      AgentRun.v: tasks and updates of a running agent keep apart.
    - Texts and settings.  MetricsProps.v: the text of /metrics against a
      reference grouping.  Config.v: what a settings file sets.
      CollectorMain.v: the retention settings, with the days at which they
      wrap.  CollectorRun.v: what has been done when the collector serves (the
      migrations, the retention policy of each table, the rules of the file)
      and that starting it again does nothing twice.  Kube.v: which restarts
      of a container are news, and when the paged list returns.

    ** Bounds and fuel

    [runes] walks a string with its length as fuel, and every rune takes a
    byte or more.  [list_pages] has fuel since a server may hand out
    continue tokens for ever: [list_returns] says it ends exactly when the
    chain of tokens does, with any fuel over its length.  The other functions
    recurse on their lists.

    ** Concurrency

    A handler of the collector is a computation on the server's state, one
    after another, except where the code itself has a race to win: the counter
    of wrong passwords (Login.v), the long poll (ApiTasks.v, in halves around
    its sleep) and delivery beside the evaluator (NoticesProps.v) are step
    relations in which calls interleave.  So is the running agent (AgentRun.v):
    the task loop, the pings with their updates, the samples and the cluster
    reader, with the mutex between tasks and updates; and so are the requests
    of the dashboard around the cache of sessions (DashboardSessions.v), each
    cut where it waits for the collector.

    ** Not modelled

    The retention policies are a map from tables to texts, with
    TimescaleDB's documented remove and add on it.  Generated protocol code (api.pb.go, api_grpc.pb.go), static web pages, the
    inside of TLS, dialling and listening, flag parsing, tickers, the shell and
    the process group of a task, the clock.  The database of the model does not
    fail and runs one operation after another; where a round of
    the collector handles a failing call, which calls fail is an argument.
    Aggregate SQL over rollups is a parameter, and its text is built as the
    code builds it. *)
From stdpp Require Export base tactics list strings gmap fin_maps relations sorting.
From Stdlib Require Export ZArith Lia.

#[global] Open Scope Z_scope.

(** ** Results and the state monad of Go methods that can fail

    A Go function that returns [(A, error)] is modelled as a [result]; a
    method that also changes state is an [SM] computation.  An error does not
    undo the state changes made before it, exactly as in Go. *)

Inductive result (E A : Type) : Type :=
  | Ok (a : A)
  | Err (e : E).
Arguments Ok {_ _} _.
Arguments Err {_ _} _.

Definition rbind {E A B} (m : result E A) (k : A → result E B) : result E B :=
  match m with Ok a => k a | Err e => Err e end.

Definition SM (S E A : Type) : Type := S → result E A * S.

Definition sret {S E A} (a : A) : SM S E A := λ s, (Ok a, s).
Definition sfail {S E A} (e : E) : SM S E A := λ s, (Err e, s).
Definition sbind {S E A B} (m : SM S E A) (k : A → SM S E B) : SM S E B :=
  λ s, match m s with
       | (Ok a, s') => k a s'
       | (Err e, s') => (Err e, s')
       end.
(** [stry m] hands the outcome of [m] to the caller, like [x, err := m()]. *)
Definition stry {S E A} (m : SM S E A) : SM S E (result E A) :=
  λ s, let '(r, s') := m s in (Ok r, s').
Definition sget {S E} : SM S E S := λ s, (Ok s, s).
Definition smodify {S E} (f : S → S) : SM S E unit := λ s, (Ok (), f s).

#[global] Instance result_bind {E} : MBind (result E) := λ A B k m, rbind m k.
#[global] Instance result_ret {E} : MRet (result E) := λ A, Ok.
#[global] Instance SM_bind {S E} : MBind (SM S E) := λ A B k m, sbind m k.
#[global] Instance SM_ret {S E} : MRet (SM S E) := λ A, sret.

(** A loop over a slice that stops at the first error. *)
Fixpoint sfor {S E A} (l : list A) (body : A → SM S E unit) : SM S E unit :=
  match l with
  | [] => sret ()
  | x :: l' => body x;; sfor l' body
  end.

(** Go's [if ...; err != nil] chains over pure checks. *)
Definition is_ok {E A} (r : result E A) : bool :=
  match r with Ok _ => true | Err _ => false end.

#[global] Instance result_eq_dec {E A} `{EqDecision E} `{EqDecision A} : EqDecision (result E A).
Proof. solve_decision. Defined.

(** ** Machine integers *)

Definition int64_min : Z := - 2 ^ 63.
Definition int64_max : Z := 2 ^ 63 - 1.
(** Wrap-around of Go's [int], [int64] and [time.Duration] on 64 bits. *)
Definition wrap64 (z : Z) : Z := (z + 2 ^ 63) mod 2 ^ 64 - 2 ^ 63.
Definition wrap32 (z : Z) : Z := (z + 2 ^ 31) mod 2 ^ 32 - 2 ^ 31.
Definition in_int64 (z : Z) : Prop := int64_min ≤ z ≤ int64_max.
Definition in_int64b (z : Z) : bool := bool_decide (int64_min ≤ z) && bool_decide (z ≤ int64_max).

Lemma wrap64_id z : in_int64 z → wrap64 z = z.
Proof.
  unfold in_int64, int64_min, int64_max, wrap64. intros H.
  rewrite Z.mod_small by lia. lia.
Qed.

Lemma wrap64_range z : in_int64 (wrap64 z).
Proof.
  unfold in_int64, int64_min, int64_max, wrap64.
  pose proof (Z.mod_pos_bound (z + 2 ^ 63) (2 ^ 64)). lia.
Qed.

Lemma wrap32_id z : - 2 ^ 31 ≤ z < 2 ^ 31 → wrap32 z = z.
Proof. unfold wrap32. intros H. rewrite Z.mod_small by lia. lia. Qed.

(** ** Reachability and invariants *)

Section Reachability.
Context {State : Type} (step : relation State).

(** A predicate that holds initially and is kept by every step holds in
    every reachable state. *)
Lemma rtc_invariant (P : State → Prop) s s' :
  (∀ x y, step x y → P x → P y) → rtc step s s' → P s → P s'.
Proof. intros Hstep. induction 1; eauto. Qed.

(** The same for a relation between the start and the current state. *)
Lemma rtc_preorder (R : relation State) `{!PreOrder R} s s' :
  (∀ x y, step x y → R x y) → rtc step s s' → R s s'.
Proof.
  intros Hstep. induction 1 as [|x y z Hxy _ IH]; [reflexivity|].
  transitivity y; auto.
Qed.
End Reachability.

(** ** Lists as database tables: UPDATE ... WHERE, DELETE and RowsAffected *)

Definition update_where {A} (p : A → bool) (f : A → A) (l : list A) : list A :=
  map (λ x, if p x then f x else x) l.
Definition delete_where {A} (p : A → bool) (l : list A) : list A :=
  List.filter (λ x, negb (p x)) l.
Definition select_where {A} (p : A → bool) (l : list A) : list A := List.filter p l.
Definition rows_affected {A} (p : A → bool) (l : list A) : Z := Z.of_nat (length (List.filter p l)).
Definition exists_where {A} (p : A → bool) (l : list A) : bool := existsb p l.

Lemma elem_of_update_where {A} p (f : A → A) l y :
  y ∈ update_where p f l ↔ ∃ x, x ∈ l ∧ y = (if p x then f x else x).
Proof.
  unfold update_where. rewrite list_elem_of_fmap.
  split; intros (x & ? & ?); exists x; auto.
Qed.

Lemma list_elem_of_filter_b {A} p (l : list A) x : x ∈ List.filter p l ↔ x ∈ l ∧ p x = true.
Proof. rewrite !list_elem_of_In. apply filter_In. Qed.

Lemma elem_of_delete_where {A} p (l : list A) x : x ∈ delete_where p l ↔ x ∈ l ∧ p x = false.
Proof. unfold delete_where. rewrite list_elem_of_filter_b, negb_true_iff. done. Qed.

Lemma elem_of_select_where {A} p (l : list A) x : x ∈ select_where p l ↔ x ∈ l ∧ p x = true.
Proof. apply list_elem_of_filter_b. Qed.

Lemma exists_where_true {A} p (l : list A) : exists_where p l = true ↔ ∃ x, x ∈ l ∧ p x = true.
Proof.
  unfold exists_where. rewrite existsb_exists.
  split; intros (x & Hx & E); exists x; by rewrite list_elem_of_In in *.
Qed.

Lemma exists_where_false {A} p (l : list A) : exists_where p l = false ↔ ∀ x, x ∈ l → p x = false.
Proof.
  rewrite <- not_true_iff_false, exists_where_true. split.
  - intros H x Hx. destruct (p x) eqn:E; [|done]. destruct H; eauto.
  - intros H (x & Hx & E). rewrite H in E; done.
Qed.

(** An update that keeps a projection keeps the list of its values. *)
Lemma map_update_where {A B} (g : A → B) p f (l : list A) :
  (∀ x, g (f x) = g x) → map g (update_where p f l) = map g l.
Proof.
  intros Hg. unfold update_where. rewrite map_map. apply map_ext.
  intros x. destruct (p x); auto.
Qed.

Lemma rows_affected_zero {A} p (l : list A) :
  rows_affected p l = 0 ↔ ∀ x, x ∈ l → p x = false.
Proof.
  unfold rows_affected. split.
  - intros H x Hx. destruct (p x) eqn:E; [|done].
    assert (x ∈ List.filter p l) as Hf by by apply list_elem_of_filter_b.
    destruct (List.filter p l); [by apply not_elem_of_nil in Hf | simpl in H; lia].
  - intros H. destruct (List.filter p l) as [|x l'] eqn:E; [done|].
    assert (x ∈ List.filter p l) as Hf by (rewrite E; left).
    apply list_elem_of_filter_b in Hf as [Hx Hp]. rewrite H in Hp; done.
Qed.

Lemma update_where_none {A} p (f : A → A) l :
  (∀ x, x ∈ l → p x = false) → update_where p f l = l.
Proof.
  induction l as [|x l IH]; intros H; [done|]. simpl.
  rewrite (H x) by left. f_equal. apply IH. intros y Hy. apply H. by right.
Qed.

(** Two updates of the same rows are one. *)
Lemma update_where_twice {A} p (f g : A → A) l : (∀ x, p (f x) = p x) →
  update_where p g (update_where p f l) = update_where p (λ x, g (f x)) l.
Proof.
  intros Hp. unfold update_where. rewrite map_map. apply map_ext. intros x.
  destruct (p x) eqn:E; rewrite ?Hp, E; done.
Qed.

Lemma update_where_ext {A} p (f g : A → A) l : (∀ x, x ∈ l → p x = true → f x = g x) →
  update_where p f l = update_where p g l.
Proof.
  intros Hfg. unfold update_where. apply map_ext_in. intros x Hx%list_elem_of_In. destruct (p x) eqn:E; auto.
Qed.

Lemma rows_affected_update {A} p (f : A → A) l : (∀ x, p (f x) = p x) →
  rows_affected p (update_where p f l) = rows_affected p l.
Proof.
  intros Hp. unfold rows_affected, update_where. f_equal. induction l as [|x l IH]; [done|]. cbn.
  destruct (p x) eqn:E; rewrite ?Hp, E; cbn; by rewrite IH.
Qed.

Lemma NoDup_map_filter {A B} (g : A → B) p (l : list A) :
  NoDup (map g l) → NoDup (map g (List.filter p l)).
Proof.
  induction l as [|x l IH]; simpl; [done|]. rewrite NoDup_cons. intros [Hx Hl].
  destruct (p x); simpl; [|by apply IH]. apply NoDup_cons. split; [|by apply IH].
  rewrite list_elem_of_fmap. intros (y & Hy & Hin). apply Hx.
  apply list_elem_of_filter_b in Hin as [Hin _]. rewrite list_elem_of_fmap. eauto.
Qed.

Lemma NoDup_map_inj {A B} (g : A → B) (l : list A) x y :
  NoDup (map g l) → x ∈ l → y ∈ l → g x = g y → x = y.
Proof.
  induction l as [|z l IH]; simpl; [by intros _ ?%not_elem_of_nil|].
  rewrite NoDup_cons, !elem_of_cons. intros [Hz Hl] Hx Hy Hg.
  assert (∀ w, w ∈ l → g z ≠ g w) as Hne.
  { intros w Hw E. apply Hz. rewrite E. by apply list_elem_of_fmap_2. }
  destruct Hx as [->|Hx], Hy as [->|Hy]; [done| | |by apply IH].
  - by destruct (Hne y).
  - symmetry in Hg. by destruct (Hne x).
Qed.

(** The row a key finds *)
Lemma find_unique {A} (p : A → bool) l x : x ∈ l → p x = true → (∀ y, y ∈ l → p y = true → y = x) → List.find p l = Some x.
Proof.
  intros Hx Hp Hone. destruct (List.find p l) as [y|] eqn:E.
  - apply find_some in E as [Hy Ey]. f_equal. apply Hone; [by apply list_elem_of_In|done].
  - apply list_elem_of_In in Hx. pose proof (find_none _ _ E _ Hx). congruence.
Qed.

Lemma find_in {A} (p : A → bool) l x : List.find p l = Some x → x ∈ l ∧ p x = true.
Proof. intros [Hx Hp]%find_some. by rewrite list_elem_of_In. Qed.

Lemma find_nothing {A} (p : A → bool) l : List.find p l = None ↔ ∀ x, x ∈ l → p x = false.
Proof.
  split.
  - intros E x Hx%list_elem_of_In. exact (find_none _ _ E x Hx).
  - intros H. destruct (List.find p l) as [x|] eqn:E; [|done]. apply find_in in E as [Hx Hp]. by rewrite H in Hp.
Qed.

(** A row that takes a value no other row has keeps the column's values
    different. *)
Lemma NoDup_map_update {A B} (g : A → B) p f (l : list A) :
  NoDup (map g l) → (∀ x y, x ∈ l → y ∈ l → p x = true → p y = true → g x = g y) →
  (∀ x y, x ∈ l → y ∈ l → p x = true → p y = false → g (f x) ≠ g y) →
  NoDup (map g (update_where p f l)).
Proof.
  induction l as [|z l IH]; simpl; [done|]. rewrite !NoDup_cons. intros [Hz Hl] Hone Hnew.
  setoid_rewrite elem_of_cons in Hone. setoid_rewrite elem_of_cons in Hnew.
  split; [|apply IH; auto].
  intros (w & Hw & (y & Hy & ->)%elem_of_update_where)%list_elem_of_fmap.
  assert (Hzy : g z ≠ g y) by (intros E; apply Hz; rewrite E; by apply list_elem_of_fmap_2).
  destruct (p z) eqn:Ez, (p y) eqn:Ey.
  - by destruct Hzy; apply Hone; auto.
  - apply (Hnew z y); auto.
  - apply (Hnew y z); auto.
  - done.
Qed.

(** ** Stable sorting, [slices.SortStableFunc] and SQL's ORDER BY

    An insertion sort: equal elements keep their order. *)

Section StableSort.
Context {A : Type} (le : A → A → bool).

Fixpoint insert_sorted (x : A) (l : list A) : list A :=
  match l with
  | [] => [x]
  | y :: l' => if le x y then x :: l else y :: insert_sorted x l'
  end.
Definition stable_sort (l : list A) : list A := foldr insert_sorted [] l.

Lemma insert_sorted_perm x l : insert_sorted x l ≡ₚ x :: l.
Proof.
  induction l as [|y l IH]; simpl; [done|]. destruct (le x y); [done|].
  rewrite IH. constructor.
Qed.

Lemma stable_sort_perm l : stable_sort l ≡ₚ l.
Proof. induction l as [|x l IH]; simpl; [done|]. by rewrite insert_sorted_perm, IH. Qed.

Lemma elem_of_stable_sort x l : x ∈ stable_sort l ↔ x ∈ l.
Proof. by rewrite stable_sort_perm. Qed.

Lemma length_stable_sort l : length (stable_sort l) = length l.
Proof. apply Permutation_length, stable_sort_perm. Qed.

Context (Hle_total : ∀ x y, le x y = true ∨ le y x = true).
Context (Hle_trans : ∀ x y z, le x y = true → le y z = true → le x z = true).

Lemma insert_sorted_sorted x l :
  StronglySorted (λ a b, le a b = true) l → StronglySorted (λ a b, le a b = true) (insert_sorted x l).
Proof.
  induction 1 as [|y l Hs IH Hy]; simpl; [repeat constructor|].
  destruct (le x y) eqn:E.
  - constructor; [by constructor|]. constructor; [done|].
    eapply Forall_impl; [exact Hy|]. intros z Hz. eauto.
  - constructor; [done|]. rewrite insert_sorted_perm. constructor; [|done].
    destruct (Hle_total x y); congruence.
Qed.

Lemma stable_sort_sorted l : StronglySorted (λ a b, le a b = true) (stable_sort l).
Proof. induction l; simpl; [constructor|]. by apply insert_sorted_sorted. Qed.
End StableSort.

(** [l[:n]] when the list is longer than [n]. *)
Definition take_at_most {A} (n : Z) (l : list A) : list A := take (Z.to_nat n) l.

(** The sum of an integer function over a list. *)
Definition zsum {A} (f : A → Z) (l : list A) : Z := foldr (λ x acc, f x + acc) 0 l.

Lemma zsum_app {A} (f : A → Z) l1 l2 : zsum f (l1 ++ l2) = zsum f l1 + zsum f l2.
Proof. induction l1 as [|x l1 IH]; simpl; [done|]. rewrite IH. lia. Qed.

Lemma zsum_ext {A} (f g : A → Z) l : (∀ x, x ∈ l → f x = g x) → zsum f l = zsum g l.
Proof.
  induction l as [|x l IH]; intros H; simpl; [done|].
  rewrite H by (by left). rewrite IH; [done|]. intros y Hy. apply H. by right.
Qed.

Lemma zsum_nonneg {A} (f : A → Z) l : (∀ x, x ∈ l → 0 ≤ f x) → 0 ≤ zsum f l.
Proof.
  induction l as [|x l IH]; intros H; simpl; [done|].
  pose proof (H x ltac:(by left)). assert (0 ≤ zsum f l); [|lia]. apply IH. intros y Hy. apply H. by right.
Qed.

Lemma zsum_zero {A} (f : A → Z) l : (∀ x, x ∈ l → f x = 0) → zsum f l = 0.
Proof.
  induction l as [|x l IH]; intros H; simpl; [done|].
  rewrite H by (by left). rewrite IH; [done|]. intros y Hy. apply H. by right.
Qed.

Lemma zsum_le {A} (f g : A → Z) l : (∀ x, x ∈ l → f x ≤ g x) → zsum f l ≤ zsum g l.
Proof.
  induction l as [|x l IH]; intros H; simpl; [done|].
  pose proof (H x ltac:(by left)). specialize (IH ltac:(intros y Hy; apply H; by right)). lia.
Qed.
Lemma zsum_lt {A} (f g : A → Z) l x : (∀ y, y ∈ l → f y ≤ g y) → x ∈ l → f x < g x → zsum f l < zsum g l.
Proof.
  intros H Hx Hlt. apply list_elem_of_split in Hx as (l1 & l2 & ->). rewrite !zsum_app. simpl.
  pose proof (zsum_le f g l1 ltac:(intros y Hy; apply H; set_solver)).
  pose proof (zsum_le f g l2 ltac:(intros y Hy; apply H; set_solver)). lia.
Qed.
Lemma zsum_map {A B} (f : B → Z) (g : A → B) l : zsum f (map g l) = zsum (λ x, f (g x)) l.
Proof. induction l as [|x l IH]; simpl; [done|]. by rewrite IH. Qed.

(** A list of rows that has one with a property has a first one by key. *)
Lemma least_exists {A} (key : A → Z) (P : A → Prop) (l : list A) x : x ∈ l → P x → (∀ y, Decision (P y)) →
  ∃ m, m ∈ l ∧ P m ∧ ∀ y, y ∈ l → P y → key m ≤ key y.
Proof.
  intros Hx Hp Hdec. revert x Hx Hp. induction l as [|a l IH]; intros x Hx Hp; [by apply not_elem_of_nil in Hx|].
  destruct (decide (Exists P l)) as [(y & Hy & Hpy)%Exists_exists|Hn].
  - destruct (IH y Hy Hpy) as (m & Hm & Hpm & Hleast). destruct (decide (P a ∧ key a ≤ key m)) as [[Hpa Hle]|Hna].
    + exists a. split_and!; [by left|done|]. intros z [->|Hz]%elem_of_cons Hpz; [lia|]. specialize (Hleast z Hz Hpz). lia.
    + exists m. split_and!; [by right|done|]. intros z [->|Hz]%elem_of_cons Hpz; [|by apply Hleast].
      destruct (decide (key m ≤ key a)); [done|]. destruct Hna. split; [done|lia].
  - exists x. split_and!; [done|done|]. assert (x = a) as ->.
    { apply elem_of_cons in Hx as [->|Hx]; [done|]. destruct Hn. apply Exists_exists. by exists x. }
    intros z [->|Hz]%elem_of_cons Hpz; [done|]. destruct Hn. apply Exists_exists. by exists z.
Qed.

Lemma zsum_flat_map {A B} (f : B → Z) (g : A → list B) l :
  zsum f (flat_map g l) = zsum (λ x, zsum f (g x)) l.
Proof. induction l as [|x l IH]; simpl; [done|]. by rewrite zsum_app, IH. Qed.

(** A sum with one term that is not zero. *)
Lemma zsum_single {A} (f : A → Z) l x :
  NoDup l → x ∈ l → (∀ y, y ∈ l → y ≠ x → f y = 0) → zsum f l = f x.
Proof.
  induction 1 as [|y l Hy Hnd IH]; intros Hx Hz; [by apply not_elem_of_nil in Hx|]. simpl.
  apply elem_of_cons in Hx as [->|Hx].
  - rewrite zsum_zero; [lia|]. intros z Hin. apply Hz; [by right|]. by intros ->.
  - rewrite (Hz y); [|by left|by intros ->]. rewrite IH; [lia|done|]. intros z Hin. apply Hz. by right.
Qed.


(** ** Maps filled by a loop *)

Section FoldInsert.
Context `{FinMap K M} {A : Type}.

Definition insert_all (l : list (K * A)) (m : M A) : M A := fold_left (λ m p, <[p.1:=p.2]> m) l m.

Lemma lookup_insert_all_notin l : ∀ (m : M A) k, k ∉ map fst l → insert_all l m !! k = m !! k.
Proof.
  induction l as [|[k' v'] l IH]; intros m k Hk; [done|].
  cbn in Hk. rewrite not_elem_of_cons in Hk. destruct Hk as [Hne Hk].
  change (insert_all ((k', v') :: l) m) with (insert_all l (<[k':=v']> m)).
  rewrite IH by done. by rewrite lookup_insert_ne.
Qed.

Lemma lookup_insert_all l : ∀ (m : M A) k v, NoDup (map fst l) → (k, v) ∈ l → insert_all l m !! k = Some v.
Proof.
  induction l as [|[k' v'] l IH]; intros m k v Hnd Hin; [by apply not_elem_of_nil in Hin|].
  cbn in Hnd. apply NoDup_cons in Hnd as [Hk' Hnd].
  change (insert_all ((k', v') :: l) m) with (insert_all l (<[k':=v']> m)).
  apply elem_of_cons in Hin as [[= -> ->]|Hin].
  - rewrite lookup_insert_all_notin by done. apply lookup_insert_eq.
  - by apply IH.
Qed.
End FoldInsert.

(** [split_ifs] destructs every conditional and [match] on data left in the
    goal or in a hypothesis; [inv_result] also inverts equal results. *)
Ltac split_ifs :=
  repeat (case_match; simplify_eq/=; try done).
Ltac inv_result :=
  repeat match goal with
  | H : Ok _ = Ok _ |- _ => injection H as H; subst
  | H : Err _ = Err _ |- _ => injection H as H; subst
  | H : Ok _ = Err _ |- _ => discriminate H
  | H : Err _ = Ok _ |- _ => discriminate H
  end.

Create HintDb symon.
#[export] Hint Resolve wrap64_range : symon.
Create Rewrite HintDb symon_rw.
#[export] Hint Rewrite @elem_of_update_where @elem_of_delete_where @elem_of_select_where : symon_rw.
