(* ===== verification/GoStrings.v ===== *)
(** * Go strings: byte strings, the [strings] and [unicode/utf8] functions
    the code uses, executable, with the lemmas the components share.

    A Go string is a sequence of bytes, here a Rocq [string] of 8-bit
    [ascii].  Functions on runes decode UTF-8 exactly as Go does: an invalid
    byte decodes as U+FFFD with size 1. *)
From S2P Require Import Prelude.
From stdpp Require Export pretty.
From Stdlib Require Import Ascii.
Local Open Scope Z_scope.

Definition byte_of (c : ascii) : Z := Z.of_N (N_of_ascii c).
Definition chr (z : Z) : ascii := ascii_of_N (Z.to_N z).
Definition str1 (z : Z) : string := String (chr z) "".
(** The bytes of a string, as a list. *)
Fixpoint chars (s : string) : list ascii :=
  match s with "" => [] | String c s' => c :: chars s' end.
Fixpoint of_chars (l : list ascii) : string :=
  match l with [] => "" | c :: l' => String c (of_chars l') end.
Definition slen (s : string) : Z := Z.of_nat (String.length s).

(** ** [strings.HasPrefix], [CutPrefix], [CutSuffix], [Cut], ... *)

Fixpoint cut_prefix (p s : string) : option string :=
  match p, s with
  | "", _ => Some s
  | String c p', String d s' => if decide (c = d) then cut_prefix p' s' else None
  | String _ _, "" => None
  end.
Definition has_prefix (s p : string) : bool :=
  match cut_prefix p s with Some _ => true | None => false end.

(** [cut_suffix suf s] is the text before [suf] when [s] ends in it. *)
Fixpoint cut_suffix (suf s : string) : option string :=
  if decide (s = suf) then Some ""
  else match s with
       | "" => None
       | String c s' => String c <$> cut_suffix suf s'
       end.
Definition has_suffix (s suf : string) : bool :=
  match cut_suffix suf s with Some _ => true | None => false end.
Definition trim_suffix (s suf : string) : string := default s (cut_suffix suf s).
Definition trim_prefix (s p : string) : string := default s (cut_prefix p s).

(** [strings.Cut]: before and after the first [sep]. *)
Fixpoint cut (sep s : string) : option (string * string) :=
  match cut_prefix sep s with
  | Some rest => Some ("", rest)
  | None => match s with
            | "" => None
            | String c s' => prod_map (String c) id <$> cut sep s'
            end
  end.

Definition char_in (c : ascii) (set : string) : bool :=
  existsb (Ascii.eqb c) (chars set).

(** [strings.TrimRight s cutset] for a cutset of single bytes. *)
Fixpoint trim_right (cutset s : string) : string :=
  match s with
  | "" => ""
  | String c s' =>
      match trim_right cutset s' with
      | "" => if char_in c cutset then "" else String c ""
      | t => String c t
      end
  end.

(** [strings.Split s sep] for a separator of one byte. *)
Fixpoint split_byte (sep : ascii) (s : string) : list string :=
  match s with
  | "" => [""]
  | String c s' =>
      if Ascii.eqb c sep then "" :: split_byte sep s'
      else match split_byte sep s' with
           | [] => [String c ""]
           | w :: ws => String c w :: ws
           end
  end.

Fixpoint join (sep : string) (l : list string) : string :=
  match l with
  | [] => ""
  | [w] => w
  | w :: l' => w +:+ sep +:+ join sep l'
  end.

(** [strings.ReplaceAll] and [strings.NewReplacer(...).Replace]: at each
    position the first pair (in argument order) whose old string matches is
    applied, and the match is skipped. *)
Definition first_match (pairs : list (string * string)) (s : string) : option (nat * string) :=
  match List.find (λ p, has_prefix s p.1) pairs with
  | Some (old, new) => Some (String.length old, new)
  | None => None
  end.
Fixpoint replace_from (pairs : list (string * string)) (skip : nat) (s : string) : string :=
  match s with
  | "" => ""
  | String c s' =>
      match skip with
      | S k => replace_from pairs k s'
      | O => match first_match pairs s with
             | Some (n, new) => new +:+ replace_from pairs (pred n) s'
             | None => String c (replace_from pairs 0 s')
             end
      end
  end.
Definition replacer (pairs : list (string * string)) (s : string) : string := replace_from pairs 0 s.
Definition replace_all (old new s : string) : string := replacer [(old, new)] s.

Definition contains_any (s set : string) : bool :=
  existsb (λ c, char_in c set) (chars s).

(** The text before the first byte of a set ([IndexAny] and a slice). *)
Fixpoint before_any (set s : string) : string :=
  match s with
  | "" => ""
  | String c s' => if char_in c set then "" else String c (before_any set s')
  end.

(** [strconv.Itoa] and [strconv.FormatInt(n, 10)] *)
Definition itoa (z : Z) : string := pretty z.

(** ** UTF-8 *)

Definition rune_error : Z := 65533.
Definition is_cont (lo hi b : Z) : bool := (lo <=? b) && (b <=? hi).

(** The first byte's sequence length and the range of its second byte, as
    Go's [first] and [acceptRanges] tables; [None] for an invalid first byte. *)
Definition first_info (b : Z) : option (nat * Z * Z) :=
  if b <? 128 then Some (1%nat, 0, 0)
  else if b <? 194 then None
  else if b <? 224 then Some (2%nat, 128, 191)
  else if b =? 224 then Some (3%nat, 160, 191)
  else if b =? 237 then Some (3%nat, 128, 159)
  else if b <? 240 then Some (3%nat, 128, 191)
  else if b =? 240 then Some (4%nat, 144, 191)
  else if b <? 244 then Some (4%nat, 128, 191)
  else if b =? 244 then Some (4%nat, 128, 143)
  else None.

(** [utf8.DecodeRuneInString] on a string that is not empty: the rune and
    the number of bytes it takes. *)
Definition decode_rune (s : string) : Z * nat :=
  let bad := (rune_error, 1%nat) in
  match s with
  | "" => (rune_error, 0%nat)
  | String c0 s1 =>
      let b0 := byte_of c0 in
      match first_info b0 with
      | None => bad
      | Some (1%nat, _, _) => (b0, 1%nat)
      | Some (n, lo, hi) =>
          match s1 with
          | "" => bad
          | String c1 s2 =>
              let b1 := byte_of c1 in
              if negb (is_cont lo hi b1) then bad
              else if (n =? 2)%nat then (Z.land b0 31 * 64 + Z.land b1 63, 2%nat)
              else match s2 with
                   | "" => bad
                   | String c2 s3 =>
                       let b2 := byte_of c2 in
                       if negb (is_cont 128 191 b2) then bad
                       else if (n =? 3)%nat
                       then (Z.land b0 15 * 4096 + Z.land b1 63 * 64 + Z.land b2 63, 3%nat)
                       else match s3 with
                            | "" => bad
                            | String c3 _ =>
                                let b3 := byte_of c3 in
                                if negb (is_cont 128 191 b3) then bad
                                else (Z.land b0 7 * 262144 + Z.land b1 63 * 4096
                                      + Z.land b2 63 * 64 + Z.land b3 63, 4%nat)
                            end
                   end
          end
      end
  end.

#[global] Arguments decode_rune : simpl never.

Definition rune_start (b : Z) : bool := negb (Z.land b 192 =? 128).

(** [utf8.FullRune]: whether the bytes begin with a whole rune (an invalid
    sequence counts as a whole rune of width 1). *)
Definition full_rune (s : string) : bool :=
  match s with
  | "" => false
  | String c0 s1 =>
      match first_info (byte_of c0) with
      | None => true
      | Some (n, lo, hi) =>
          if (n <=? String.length s)%nat then true
          else match s1 with
               | "" => false
               | String c1 s2 =>
                   if negb (is_cont lo hi (byte_of c1)) then true
                   else match s2 with
                        | "" => false
                        | String c2 _ => negb (is_cont 128 191 (byte_of c2))
                        end
               end
      end
  end.

Fixpoint sdrop (n : nat) (s : string) : string :=
  match n, s with
  | S n', String _ s' => sdrop n' s'
  | _, _ => s
  end.
Fixpoint stake (n : nat) (s : string) : string :=
  match n, s with
  | S n', String c s' => String c (stake n' s')
  | _, _ => ""
  end.

(** A string as its runes, each with the bytes it was decoded from: what
    [for _, r := range s] and [[]rune(s)] see.  [n] bounds the recursion and
    [String.length s] is enough, since every rune takes at least a byte. *)
Fixpoint runes_fuel (n : nat) (s : string) : list (Z * string) :=
  match n, s with
  | S n', String _ _ =>
      let '(r, w) := decode_rune s in (r, stake w s) :: runes_fuel n' (sdrop w s)
  | _, _ => []
  end.
Definition runes (s : string) : list (Z * string) := runes_fuel (String.length s) s.
Definition rune_count (s : string) : Z := Z.of_nat (length (runes s)).

(** [utf8.AppendRune]: runes outside Unicode encode as U+FFFD. *)
Definition encode_rune (r : Z) : string :=
  let r := if (r <? 0) || (1114111 <? r) || ((55296 <=? r) && (r <=? 57343)) then rune_error else r in
  if r <? 128 then str1 r
  else if r <? 2048 then str1 (192 + r / 64) +:+ str1 (128 + r mod 64)
  else if r <? 65536 then
    str1 (224 + r / 4096) +:+ str1 (128 + (r / 64) mod 64) +:+ str1 (128 + r mod 64)
  else str1 (240 + r / 262144) +:+ str1 (128 + (r / 4096) mod 64)
       +:+ str1 (128 + (r / 64) mod 64) +:+ str1 (128 + r mod 64).
(** [string(rs)] for a [[]rune] *)
Fixpoint of_runes (rs : list Z) : string :=
  match rs with [] => "" | r :: rs' => encode_rune r +:+ of_runes rs' end.

(** ** [unicode.IsSpace], [unicode.IsControl], [strings.TrimSpace] *)
Definition is_space (r : Z) : bool :=
  ((9 <=? r) && (r <=? 13)) || (r =? 32) || (r =? 133) || (r =? 160) || (r =? 5760)
  || ((8192 <=? r) && (r <=? 8202)) || (r =? 8232) || (r =? 8233) || (r =? 8239)
  || (r =? 8287) || (r =? 12288).
Definition is_control (r : Z) : bool := ((0 <=? r) && (r <? 32)) || ((127 <=? r) && (r <? 160)).

Definition concat_runes (l : list (Z * string)) : string := foldr (λ r acc, r.2 +:+ acc) "" l.
Fixpoint drop_while {A} (p : A → bool) (l : list A) : list A :=
  match l with
  | [] => []
  | x :: l' => if p x then drop_while p l' else l
  end.
(** Drops the elements at the end that satisfy [p]. *)
Fixpoint drop_while_end {A} (p : A → bool) (l : list A) : list A :=
  match l with
  | [] => []
  | x :: l' => match drop_while_end p l' with
               | [] => if p x then [] else [x]
               | t => x :: t
               end
  end.
Definition is_space_rune (r : Z * string) : bool := is_space r.1.
Definition trim_space (s : string) : string :=
  concat_runes (drop_while_end is_space_rune (drop_while is_space_rune (runes s))).
Definition contains_func (s : string) (p : Z → bool) : bool := existsb (λ r, p r.1) (runes s).

(** [strings.Fields]: the words between runs of white space. *)
Fixpoint fields_go (cur : string) (l : list (Z * string)) : list string :=
  match l with
  | [] => if decide (cur = "") then [] else [cur]
  | (r, bs) :: l' =>
      if is_space r then (if decide (cur = "") then [] else [cur]) ++ fields_go "" l'
      else fields_go (cur +:+ bs) l'
  end.
Definition fields (s : string) : list string := fields_go "" (runes s).

(** [strings.ToLower] and [strings.ToUpper]: rune by rune, an invalid byte
    becomes the replacement character.  Exact for the runes whose image is
    ASCII (the ASCII letters, the Kelvin sign, the dotted capital I, the long
    s and the dotless i); other letters outside ASCII are left alone, which
    the code, comparing the result with ASCII text, cannot tell. *)
Definition lower_rune (r : Z) : Z :=
  if (65 <=? r) && (r <=? 90) then r + 32
  else if r =? 8490 then 107 else if r =? 304 then 105 else r.
Definition upper_rune (r : Z) : Z :=
  if (97 <=? r) && (r <=? 122) then r - 32
  else if r =? 383 then 83 else if r =? 305 then 73 else r.
Definition to_lower (s : string) : string := of_runes (map (λ r, lower_rune r.1) (runes s)).
Definition to_upper (s : string) : string := of_runes (map (λ r, upper_rune r.1) (runes s)).

(** [strconv.Quote], the [%q] of error messages: runes outside ASCII are
    kept, which is what Go does with the printable ones. *)
Definition dquote : string := str1 34.
Definition hex_digit (n : Z) : string := str1 (if n <? 10 then 48 + n else 87 + n).
Definition quote_rune (r : Z * string) : string :=
  if (r.1 =? rune_error) && (String.length r.2 =? 1)%nat
  then match r.2 with
       | String c _ => "\x" +:+ hex_digit (byte_of c / 16) +:+ hex_digit (byte_of c mod 16)
       | "" => ""
       end
  else if r.1 =? 34 then "\" +:+ dquote
  else if r.1 =? 92 then "\\"
  else if r.1 =? 7 then "\a" else if r.1 =? 8 then "\b" else if r.1 =? 12 then "\f"
  else if r.1 =? 10 then "\n" else if r.1 =? 13 then "\r" else if r.1 =? 9 then "\t"
  else if r.1 =? 11 then "\v"
  else if (r.1 <? 32) || (r.1 =? 127)
  then "\x" +:+ hex_digit (r.1 / 16) +:+ hex_digit (r.1 mod 16)
  else r.2.
Definition quote (s : string) : string :=
  dquote +:+ foldr (λ r acc, quote_rune r +:+ acc) "" (runes s) +:+ dquote.

(** [strings.ToValidUTF8]: every run of invalid bytes becomes [rep]. *)
Fixpoint to_valid_go (rep : string) (invalid : bool) (l : list (Z * string)) : string :=
  match l with
  | [] => ""
  | (r, bs) :: l' =>
      if (r =? rune_error) && (String.length bs =? 1)%nat
      then (if invalid then "" else rep) +:+ to_valid_go rep true l'
      else bs +:+ to_valid_go rep false l'
  end.
Definition to_valid_utf8 (s rep : string) : string := to_valid_go rep false (runes s).

(** The replacement character and the ellipsis the code puts in texts. *)
Definition fffd : string := encode_rune rune_error.
Definition ellipsis : string := encode_rune 8230.

(** [strconv.Atoi]/[ParseInt(s, 10, 64)]: an optional sign and digits, in
    the range of [int64]. *)
Fixpoint digits_val (acc : Z) (s : string) : option Z :=
  match s with
  | "" => Some acc
  | String c s' =>
      let d := byte_of c - 48 in
      if (0 <=? d) && (d <=? 9) then digits_val (acc * 10 + d) s' else None
  end.
Definition parse_int (s : string) : option Z :=
  let '(neg, body) := match s with
                      | String c s' =>
                          if (byte_of c =? 45) then (true, s')
                          else if (byte_of c =? 43) then (false, s') else (false, s)
                      | "" => (false, "")
                      end in
  match body with
  | "" => None
  | _ => match digits_val 0 body with
         | Some v => let z := if neg : bool then - v else v in
                     if in_int64b z then Some z else None
         | None => None
         end
  end.

(** ** Reading back the digits [itoa] wrote *)
Definition digit_first (s : string) : Prop := match s with String c _ => 48 ≤ byte_of c ≤ 57 | "" => False end.

Lemma pretty_N_char_spec n : (n < 10)%N → byte_of (pretty_N_char n) = 48 + Z.of_N n.
Proof.
  intros Hn. destruct n as [|p]; [reflexivity|].
  destruct p as [[[[]|[]|]|[[]|[]|]|]|[[[]|[]|]|[[]|[]|]|]|]; try lia; reflexivity.
Qed.

Lemma digits_val_char (n : N) (acc : Z) s : (n < 10)%N →
  digits_val acc (String (pretty_N_char n) s) = digits_val (acc * 10 + Z.of_N n) s.
Proof.
  intros Hn. cbn [digits_val]. rewrite pretty_N_char_spec by done.
  replace (48 + Z.of_N n - 48) with (Z.of_N n) by lia.
  rewrite (proj2 (Z.leb_le 0 (Z.of_N n))), (proj2 (Z.leb_le (Z.of_N n) 9)) by lia. done.
Qed.

Lemma pretty_N_go_digits (n : N) : ∀ s, digits_val 0 (pretty_N_go n s) = digits_val (Z.of_N n) s
  ∧ (n ≠ 0%N ∨ digit_first s → digit_first (pretty_N_go n s)).
Proof.
  induction (N.lt_wf_0 n) as [n _ IH]. intros s.
  destruct (decide (n = 0)%N) as [->|Hn]; [rewrite pretty_N_go_0; split; [done|by intros [?|?]]|].
  rewrite pretty_N_go_step by lia. assert (Hm : (n `mod` 10 < 10)%N) by (apply N.mod_lt; lia).
  destruct (IH (n `div` 10)%N ltac:(apply N.div_lt; lia) (String (pretty_N_char (n `mod` 10)) s)) as [-> Hd]. split.
  - rewrite digits_val_char by done. f_equal. rewrite (N.div_mod n 10) at 3 by lia. rewrite N2Z.inj_add, N2Z.inj_mul, Z.mul_comm. done.
  - intros _. apply Hd. right. cbn [digit_first]. rewrite pretty_N_char_spec by done. revert Hm. generalize (n `mod` 10)%N. lia.
Qed.

Lemma pretty_digits (n : N) : digits_val 0 (pretty n) = Some (Z.of_N n) ∧ digit_first (pretty n).
Proof.
  unfold pretty, pretty_N. destruct (decide (n = 0)%N) as [->|Hn]; [split; [done|vm_compute; split; discriminate]|].
  destruct (pretty_N_go_digits n "") as [-> Hd]. split; [done|]. apply Hd. by left.
Qed.

(** [strconv.ParseInt] reads what [strconv.FormatInt] wrote. *)
Lemma parse_int_itoa z : int64_min ≤ z ≤ int64_max → parse_int (itoa z) = Some z.
Proof.
  intros Hz. assert (Hr : in_int64b z = true) by (unfold in_int64b; by rewrite andb_true_iff, !bool_decide_eq_true).
  unfold itoa, pretty, pretty_Z. destruct z as [|p|p]; [reflexivity|..].
  - destruct (pretty_digits (Npos p)) as [Hd Hf]. change (pretty p) with (pretty (Npos p)).
    destruct (pretty (Npos p)) as [|c s]; [done|]. cbn in Hf. unfold parse_int.
    rewrite (proj2 (Z.eqb_neq (byte_of c) 45)), (proj2 (Z.eqb_neq (byte_of c) 43)) by lia.
    rewrite Hd. cbn [Z.of_N]. by rewrite Hr.
  - destruct (pretty_digits (Npos p)) as [Hd Hf]. change (pretty p) with (pretty (Npos p)).
    destruct (pretty (Npos p)) as [|c s]; [done|].
    change (parse_int ("-" +:+ String c s)) with
      (match digits_val 0 (String c s) with Some v => if in_int64b (- v) then Some (- v) else None | None => None end).
    rewrite Hd. cbv beta iota. change (- Z.of_N (N.pos p)) with (Z.neg p). by rewrite Hr.
Qed.

(** ** Tests against known results of the Go functions *)
Example trim_space_ex : trim_space "  a b
" = "a b". Proof. reflexivity. Qed.
Example cut_ex : cut "://" "https://x/y" = Some ("https", "x/y"). Proof. reflexivity. Qed.
Example cut_suffix_ex : cut_suffix "-abc" "web-abc" = Some "web". Proof. reflexivity. Qed.
Example replacer_ex : replacer [("{a}", "1"); ("{b}", "{a}")] "x{b}y{a}{" = "x{a}y1{". Proof. reflexivity. Qed.
Example fields_ex : fields " a  bc d" = ["a"; "bc"; "d"]. Proof. reflexivity. Qed.
Example split_ex : split_byte "," "a,,b" = ["a"; ""; "b"]. Proof. reflexivity. Qed.
Example trim_right_ex : trim_right "/" "http://x//" = "http://x". Proof. reflexivity. Qed.
Example runes_ex : runes ("a" +:+ ellipsis) = [(97, "a"); (8230, ellipsis)]. Proof. reflexivity. Qed.
Example to_valid_ex : to_valid_utf8 (str1 255 +:+ str1 254 +:+ "a") "?" = "?a". Proof. reflexivity. Qed.
Example parse_int_ex : (parse_int "-42", parse_int "9223372036854775808", parse_int "+7", parse_int "") = (Some (-42), None, Some 7, None).
Proof. reflexivity. Qed.

(** ** Lemmas *)

Lemma append_nil_r s : s +:+ "" = s.
Proof. induction s as [|c s IH]; [done|]. change (String c (s +:+ "") = String c s). by rewrite IH. Qed.

Lemma append_nil_l s : "" +:+ s = s.
Proof. done. Qed.

Lemma append_assoc s1 s2 s3 : (s1 +:+ s2) +:+ s3 = s1 +:+ s2 +:+ s3.
Proof.
  induction s1 as [|c s1 IH]; [done|].
  change (String c ((s1 +:+ s2) +:+ s3) = String c (s1 +:+ s2 +:+ s3)). by rewrite IH.
Qed.

Lemma length_append s1 s2 : String.length (s1 +:+ s2) = (String.length s1 + String.length s2)%nat.
Proof. induction s1 as [|c s1 IH]; [done|]. simpl. by rewrite <- IH. Qed.

Lemma append_cons c s1 s2 : String c s1 +:+ s2 = String c (s1 +:+ s2).
Proof. done. Qed.

Lemma append_length_inj s1 s2 t1 t2 :
  String.length s1 = String.length t1 → s1 +:+ s2 = t1 +:+ t2 → s1 = t1 ∧ s2 = t2.
Proof.
  revert t1. induction s1 as [|c s1 IH]; intros [|d t1] Hl He; simpl in Hl; try lia; [done|].
  rewrite !append_cons in He. injection He as -> He.
  destruct (IH t1) as [-> ->]; [lia|done|done].
Qed.

(** The part before a separator that does not occur in it. *)
Lemma sep_split c s1 t1 s2 t2 : char_in c s1 = false → char_in c s2 = false →
  s1 +:+ String c t1 = s2 +:+ String c t2 → s1 = s2 ∧ t1 = t2.
Proof.
  unfold char_in. revert s2. induction s1 as [|c1 s1 IH]; intros [|c2 s2] H1 H2 E; simpl in H1, H2;
    rewrite ?append_nil_l, ?append_cons in E.
  - injection E as ->. done.
  - injection E as -> _. by rewrite Ascii.eqb_refl in H2.
  - injection E as <- _. by rewrite Ascii.eqb_refl in H1.
  - injection E as -> E. apply orb_false_iff in H1 as [_ H1]. apply orb_false_iff in H2 as [_ H2].
    destruct (IH s2 H1 H2 E) as [-> ->]. done.
Qed.

Lemma cut_prefix_spec p s r : cut_prefix p s = Some r ↔ s = p +:+ r.
Proof.
  revert s. induction p as [|c p IH]; intros s; simpl.
  - split; [by injection 1 as -> | by intros ->].
  - destruct s as [|d s]; [by split|]. rewrite append_cons. case_decide as Hd.
    + subst. rewrite IH. split; [by intros -> | by injection 1].
    + split; [done|]. injection 1 as Hc _. congruence.
Qed.

Lemma has_prefix_true s p : has_prefix s p = true ↔ ∃ r, s = p +:+ r.
Proof.
  unfold has_prefix. destruct (cut_prefix p s) as [r|] eqn:E.
  - apply cut_prefix_spec in E. split; eauto.
  - split; [done|]. intros [r Hr]. apply cut_prefix_spec in Hr. congruence.
Qed.

Lemma cut_suffix_spec suf s r : cut_suffix suf s = Some r ↔ s = r +:+ suf.
Proof.
  revert r. induction s as [|c s IH]; intros r; simpl.
  - case_decide as Hs.
    + subst. split; [by injection 1 as <-|].
      intros H. destruct r; [done|]. discriminate H.
    + split; [done|]. intros H. destruct r; [rewrite append_nil_l in H; congruence | discriminate H].
  - case_decide as Hs.
    + subst. split; [by injection 1 as <-|].
      intros H. destruct r as [|d r]; [done|]. exfalso.
      apply (f_equal String.length) in H. rewrite length_append in H. simpl in H. lia.
    + rewrite fmap_Some. setoid_rewrite IH. split.
      * intros (r' & -> & ->). done.
      * intros H. destruct r as [|d r]; [rewrite append_nil_l in H; congruence|].
        rewrite append_cons in H. injection H as -> ->. eauto.
Qed.

Lemma chars_append s t : chars (s +:+ t) = chars s ++ chars t.
Proof. induction s as [|c s IH]; [done|]. rewrite append_cons. simpl. by rewrite IH. Qed.

Lemma of_chars_chars s : of_chars (chars s) = s.
Proof. induction s; simpl; congruence. Qed.

Lemma stake_sdrop n s : stake n s +:+ sdrop n s = s.
Proof.
  revert s. induction n as [|n IH]; intros [|c s]; [done..|].
  simpl. rewrite append_cons. by rewrite IH.
Qed.

Lemma length_stake n s : String.length (stake n s) = Nat.min n (String.length s).
Proof. revert s. induction n as [|n IH]; intros [|c s]; simpl; [done..|]. by rewrite IH. Qed.

Lemma length_sdrop n s : String.length (sdrop n s) = (String.length s - n)%nat.
Proof. revert s. induction n as [|n IH]; intros [|c s]; simpl; [done..|]. by rewrite IH. Qed.

Lemma stake_append s t : stake (String.length s) (s +:+ t) = s.
Proof. induction s as [|c s IH]; [by destruct t|]. rewrite append_cons. simpl. by rewrite IH. Qed.

Lemma sdrop_append s t : sdrop (String.length s) (s +:+ t) = t.
Proof. induction s as [|c s IH]; [by destruct t|]. rewrite append_cons. simpl. done. Qed.

Lemma stake_all s : stake (String.length s) s = s.
Proof. rewrite <- (append_nil_r s) at 2. apply stake_append. Qed.

(** *** UTF-8 decoding *)

(** [decode_cases] runs through the branches of [decode_rune]. *)
Ltac decode_cases :=
  repeat (case_match; simplify_eq/=; try done; try lia).

Lemma decode_rune_width s r w :
  s ≠ "" → decode_rune s = (r, w) → (1 ≤ w ≤ String.length s)%nat ∧ (w ≤ 4)%nat.
Proof. intros Hs Hd. unfold decode_rune in Hd. destruct s; [done|]. decode_cases. Qed.

(** Bytes after the decoded rune do not matter. *)
Lemma decode_rune_prefix s t r w :
  s ≠ "" → decode_rune (s +:+ t) = (r, w) → (w ≤ String.length s)%nat → decode_rune s = (r, w).
Proof.
  intros Hs Hd Hw. destruct s as [|c0 s]; [done|]. rewrite append_cons in Hd.
  destruct s as [|c1 s]; [|rewrite append_cons in Hd; destruct s as [|c2 s];
    [|rewrite append_cons in Hd; destruct s as [|c3 s]; [|rewrite append_cons in Hd]]];
    simpl in Hw; unfold decode_rune in *; decode_cases.
Qed.

Lemma decode_rune_extend s t r w :
  decode_rune s = (r, w) → (2 ≤ w)%nat ∨ r ≠ rune_error → decode_rune (s +:+ t) = (r, w).
Proof.
  intros Hd Hr. destruct s as [|c0 s]; [unfold decode_rune in Hd; simplify_eq; destruct Hr; [lia|done]|].
  rewrite append_cons.
  destruct s as [|c1 s]; [|rewrite append_cons; destruct s as [|c2 s];
    [|rewrite append_cons; destruct s as [|c3 s]; [|rewrite append_cons]]];
    unfold decode_rune in *; decode_cases; destruct Hr; done || lia.
Qed.

Lemma runes_fuel_enough n m s :
  (String.length s ≤ n)%nat → (String.length s ≤ m)%nat → runes_fuel n s = runes_fuel m s.
Proof.
  revert m s. induction n as [|n IH]; intros [|m] [|c s]; simpl; try done; try lia.
  intros Hn Hm. destruct (decode_rune (String c s)) as [r w] eqn:E.
  apply decode_rune_width in E; [|done]. f_equal. destruct w as [|w]; [lia|]. simpl in *.
  apply IH; rewrite length_sdrop; lia.
Qed.

Lemma runes_cons s r w :
  s ≠ "" → decode_rune s = (r, w) → runes s = (r, stake w s) :: runes (sdrop w s).
Proof.
  intros Hs Hd. unfold runes. destruct s as [|c s]; [done|]. cbn [String.length runes_fuel].
  rewrite Hd. f_equal. pose proof (decode_rune_width _ _ _ Hs Hd) as [Hw _].
  destruct w as [|w]; [lia|]. simpl in *. apply runes_fuel_enough; rewrite length_sdrop; lia.
Qed.

(** Induction over the runes of a string. *)
Lemma rune_ind (P : string → Prop) :
  P "" →
  (∀ s r w, s ≠ "" → decode_rune s = (r, w) → P (sdrop w s) → P s) →
  ∀ s, P s.
Proof.
  intros H0 Hs s. remember (String.length s) as n eqn:Hn.
  revert s Hn. induction (lt_wf n) as [n _ IH]. intros s ->.
  destruct (decide (s = "")) as [->|Hne]; [done|].
  destruct (decode_rune s) as [r w] eqn:E.
  pose proof (decode_rune_width _ _ _ Hne E) as [Hw _].
  apply (Hs s r w Hne E). eapply IH; [|done]. rewrite length_sdrop.
  destruct s; [done|]. simpl in *. lia.
Qed.

Lemma concat_runes_runes s : concat_runes (runes s) = s.
Proof.
  induction s as [|s r w Hs Hd IH] using rune_ind; [done|].
  rewrite (runes_cons s r w) by done. simpl. rewrite IH. apply stake_sdrop.
Qed.

(** *** Trimming

    A list of runes is [wf_runes] when it is what its own bytes decode to. *)
Definition wf_runes (l : list (Z * string)) : Prop := runes (concat_runes l) = l.

Lemma wf_runes_runes s : wf_runes (runes s).
Proof. unfold wf_runes. by rewrite concat_runes_runes. Qed.

Lemma concat_runes_app l1 l2 : concat_runes (l1 ++ l2) = concat_runes l1 +:+ concat_runes l2.
Proof.
  induction l1 as [|x l1 IH]; [done|].
  change (x.2 +:+ concat_runes (l1 ++ l2) = (x.2 +:+ concat_runes l1) +:+ concat_runes l2).
  by rewrite IH, append_assoc.
Qed.

Lemma wf_runes_head x l :
  wf_runes (x :: l) →
  ∃ w, concat_runes (x :: l) ≠ "" ∧ decode_rune (concat_runes (x :: l)) = (x.1, w) ∧
       stake w (concat_runes (x :: l)) = x.2 ∧ sdrop w (concat_runes (x :: l)) = concat_runes l.
Proof.
  unfold wf_runes. generalize (concat_runes (x :: l)). intros s Hwf.
  assert (s ≠ "") as Hs by (intros E; rewrite E in Hwf; discriminate Hwf).
  destruct (decode_rune s) as [r w] eqn:E. exists w.
  rewrite (runes_cons s r w) in Hwf by done. injection Hwf as Hx Hl.
  rewrite <- Hx, <- Hl, concat_runes_runes. done.
Qed.

Lemma wf_runes_tail x l : wf_runes (x :: l) → wf_runes l.
Proof.
  intros Hwf. pose proof (wf_runes_head x l Hwf) as (w & Hs & Hd & _ & Hl).
  unfold wf_runes in Hwf. rewrite (runes_cons _ _ _ Hs Hd), Hl in Hwf. by injection Hwf.
Qed.

Lemma wf_runes_app_r l1 l2 : wf_runes (l1 ++ l2) → wf_runes l2.
Proof. induction l1 as [|x l1 IH]; [done|]. intros Hwf. by apply IH, (wf_runes_tail x). Qed.

Lemma wf_runes_app_l l1 l2 : wf_runes (l1 ++ l2) → wf_runes l1.
Proof.
  induction l1 as [|x l1 IH]; intros Hwf; [done|].
  pose proof (wf_runes_head x (l1 ++ l2) Hwf) as (w & Hs & Hd & Hx & Hl).
  specialize (IH (wf_runes_tail _ _ Hwf)).
  change (x :: l1 ++ l2) with ((x :: l1) ++ l2) in *. rewrite concat_runes_app in *.
  pose proof (decode_rune_width _ _ _ Hs Hd) as [Hw _].
  assert (concat_runes (x :: l1) = x.2 +:+ concat_runes l1) as Hsx by done.
  unfold wf_runes. revert Hs Hd Hx Hw Hsx.
  generalize (concat_runes (x :: l1)). intros s Hs Hd Hx Hw Hsx.
  assert (String.length x.2 = w) as Hxw by (rewrite <- Hx, length_stake; lia).
  assert (s ≠ "") as Hs0.
  { intros E. rewrite E in Hsx. destruct x as [r b]. simpl in *. destruct b; simpl in *; [lia|].
    discriminate Hsx. }
  apply decode_rune_prefix in Hd; [|done|rewrite Hsx, length_append; lia].
  rewrite (runes_cons s _ _ Hs0 Hd).
  rewrite Hsx, <- Hxw, stake_append, sdrop_append, IH. by destruct x.
Qed.

Lemma drop_while_suffix {A} p (l : list A) : ∃ k, l = k ++ drop_while p l.
Proof.
  induction l as [|x l [k IH]]; simpl; [by exists []|].
  destruct (p x); [exists (x :: k); simpl; congruence | by exists []].
Qed.

Lemma drop_while_end_prefix {A} p (l : list A) : ∃ k, l = drop_while_end p l ++ k.
Proof.
  induction l as [|x l [k IH]]; simpl; [by exists []|].
  destruct (drop_while_end p l) as [|y t].
  - destruct (p x); [by exists (x :: l) | by exists l].
  - exists k. simpl. by rewrite IH at 1.
Qed.

Lemma drop_while_head {A} p (l : list A) x t : drop_while p l = x :: t → p x = false.
Proof.
  induction l as [|y l IH]; simpl; [done|]. destruct (p y) eqn:E; [done|]. by injection 1 as -> _.
Qed.

Lemma drop_while_end_idemp {A} p (l : list A) :
  drop_while_end p (drop_while_end p l) = drop_while_end p l.
Proof.
  induction l as [|x l IH]; simpl; [done|].
  destruct (drop_while_end p l) as [|y t] eqn:E.
  - destruct (p x) eqn:Ex; simpl; [done|]. by rewrite Ex.
  - change (match drop_while_end p (y :: t) with [] => if p x then [] else [x] | t0 => x :: t0 end
            = x :: y :: t). by rewrite IH.
Qed.

(** What is left after trimming both ends of a list starts with an element
    to keep, so trimming again changes nothing. *)
Lemma trim_list_fixed {A} p (l : list A) :
  drop_while p (drop_while_end p (drop_while p l)) = drop_while_end p (drop_while p l).
Proof.
  destruct (drop_while p l) as [|x t] eqn:E; [done|].
  pose proof (drop_while_head _ _ _ _ E) as Hx. simpl.
  rewrite Hx. destruct (drop_while_end p t) as [|y t']; simpl; by rewrite Hx.
Qed.

Lemma trim_space_idemp s : trim_space (trim_space s) = trim_space s.
Proof.
  unfold trim_space. set (p := is_space_rune).
  assert (wf_runes (drop_while_end p (drop_while p (runes s)))) as Hwf.
  { destruct (drop_while_suffix p (runes s)) as [k Hk].
    destruct (drop_while_end_prefix p (drop_while p (runes s))) as [k' Hk'].
    apply (wf_runes_app_l _ k'). rewrite <- Hk'. apply (wf_runes_app_r k). rewrite <- Hk.
    apply wf_runes_runes. }
  rewrite Hwf. by rewrite trim_list_fixed, drop_while_end_idemp.
Qed.
#[global] Arguments trim_space : simpl never.
#[global] Arguments to_lower : simpl never.
#[global] Arguments to_upper : simpl never.
#[global] Arguments fields : simpl never.

(** *** Runes encoded and decoded again *)

Lemma byte_of_chr z : 0 ≤ z < 256 → byte_of (chr z) = z.
Proof.
  intros Hz. unfold byte_of, chr. rewrite N_ascii_embedding by lia. lia.
Qed.
(** The code points UTF-8 encodes. *)
Definition valid_rune (r : Z) : Prop := (0 ≤ r < 55296 ∨ 57344 ≤ r ≤ 1114111).

Lemma first_info_2 b : 194 ≤ b < 224 → first_info b = Some (2%nat, 128, 191).
Proof. intros. unfold first_info. repeat case_match; (done || lia). Qed.
Lemma first_info_3 b : 224 ≤ b < 240 → ∃ lo hi, first_info b = Some (3%nat, lo, hi) ∧
  lo = (if b =? 224 then 160 else 128) ∧ hi = (if b =? 237 then 159 else 191).
Proof. intros. unfold first_info. repeat case_match; eexists _, _; split_and!; (done || lia). Qed.
Lemma first_info_4 b : 240 ≤ b ≤ 244 → ∃ lo hi, first_info b = Some (4%nat, lo, hi) ∧
  lo = (if b =? 240 then 144 else 128) ∧ hi = (if b =? 244 then 143 else 191).
Proof. intros. unfold first_info. repeat case_match; eexists _, _; split_and!; (done || lia). Qed.

Lemma is_cont_true lo hi b : lo ≤ b ≤ hi → is_cont lo hi b = true.
Proof. unfold is_cont. lia. Qed.

Lemma encode_rune_valid r : valid_rune r → encode_rune r =
  if r <? 128 then str1 r
  else if r <? 2048 then str1 (192 + r / 64) +:+ str1 (128 + r mod 64)
  else if r <? 65536 then
    str1 (224 + r / 4096) +:+ str1 (128 + (r / 64) mod 64) +:+ str1 (128 + r mod 64)
  else str1 (240 + r / 262144) +:+ str1 (128 + (r / 4096) mod 64)
       +:+ str1 (128 + (r / 64) mod 64) +:+ str1 (128 + r mod 64).
Proof.
  unfold encode_rune, valid_rune. intros Hr.
  assert (E : (r <? 0) || (1114111 <? r) || ((55296 <=? r) && (r <=? 57343)) = false) by lia. by rewrite E.
Qed.

Lemma high_bits_off b n k q : b = k * n + q → 0 ≤ q < n → b mod n = q.
Proof. intros -> Hq. rewrite Z.add_comm, Z.mod_add by lia. by apply Z.mod_small. Qed.

Lemma decode_encode r t : valid_rune r →
  decode_rune (encode_rune r +:+ t) = (r, String.length (encode_rune r)).
Proof.
  intros Hr. rewrite (encode_rune_valid r Hr). unfold valid_rune in Hr.
  change 63 with (Z.ones 6). 
  destruct (Z.ltb_spec r 128) as [H1|H1]; [|destruct (Z.ltb_spec r 2048) as [H2|H2]; [|destruct (Z.ltb_spec r 65536) as [H3|H3]]];
    unfold decode_rune, str1; rewrite ?append_cons, ?append_nil_l, ?append_cons, ?append_nil_l, ?append_cons, ?append_nil_l, ?append_cons, ?append_nil_l.
  - rewrite byte_of_chr by lia. unfold first_info. by rewrite (proj2 (Z.ltb_lt _ _) H1).
  - pose proof (Z.div_mod r 64). pose proof (Z.mod_pos_bound r 64). rewrite !byte_of_chr by lia.
    rewrite first_info_2 by lia. rewrite is_cont_true by lia. cbn -[Z.land Z.mul Z.div Z.modulo Z.add].
    change 31 with (Z.ones 5). change 63 with (Z.ones 6). rewrite !Z.land_ones by lia.
    rewrite (high_bits_off (192 + r / 64) (2 ^ 5) 6 (r / 64)) by lia. rewrite (high_bits_off (128 + r mod 64) (2 ^ 6) 2 (r mod 64)) by lia. f_equal. lia.
  - pose proof (Z.div_mod r 64). pose proof (Z.mod_pos_bound r 64). pose proof (Z.div_mod (r / 64) 64). pose proof (Z.mod_pos_bound (r/64) 64).
    assert (Hq : r / 4096 = r / 64 / 64) by (rewrite Z.div_div by lia; done). rewrite Hq.
    rewrite !byte_of_chr by lia. destruct (first_info_3 (224 + r / 64 / 64) ltac:(lia)) as (lo & hi & -> & Hlo & Hhi).
    rewrite (is_cont_true lo hi) by (repeat case_match; lia). rewrite is_cont_true by lia. cbn -[Z.land Z.mul Z.div Z.modulo Z.add].
    change 15 with (Z.ones 4). change 63 with (Z.ones 6). rewrite !Z.land_ones by lia.
    rewrite (high_bits_off (224 + r / 64 / 64) (2 ^ 4) 14 (r / 64 / 64)) by lia. rewrite (high_bits_off (128 + r / 64 mod 64) (2 ^ 6) 2 (r / 64 mod 64)) by lia.
    rewrite (high_bits_off (128 + r mod 64) (2 ^ 6) 2 (r mod 64)) by lia. f_equal. lia.
  - pose proof (Z.div_mod r 64). pose proof (Z.mod_pos_bound r 64). pose proof (Z.div_mod (r / 64) 64). pose proof (Z.mod_pos_bound (r/64) 64).
    pose proof (Z.div_mod (r / 64 / 64) 64). pose proof (Z.mod_pos_bound (r/64/64) 64).
    assert (Hq : r / 4096 = r / 64 / 64) by (rewrite Z.div_div by lia; done).
    assert (Hq2 : r / 262144 = r / 64 / 64 / 64) by (rewrite !Z.div_div by lia; done). rewrite Hq2, Hq.
    rewrite !byte_of_chr by lia. destruct (first_info_4 (240 + r / 64 / 64 / 64) ltac:(lia)) as (lo & hi & -> & Hlo & Hhi).
    rewrite (is_cont_true lo hi) by (repeat case_match; lia). rewrite !is_cont_true by lia. cbn -[Z.land Z.mul Z.div Z.modulo Z.add].
    change 7 with (Z.ones 3). change 63 with (Z.ones 6). rewrite !Z.land_ones by lia.
    rewrite (high_bits_off (240 + r / 64 / 64 / 64) (2 ^ 3) 30 (r / 64 / 64 / 64)) by lia. rewrite (high_bits_off (128 + r / 64 / 64 mod 64) (2 ^ 6) 2 (r / 64 / 64 mod 64)) by lia.
    rewrite (high_bits_off (128 + r / 64 mod 64) (2 ^ 6) 2 (r / 64 mod 64)) by lia. rewrite (high_bits_off (128 + r mod 64) (2 ^ 6) 2 (r mod 64)) by lia. f_equal. lia.
Qed.

Lemma byte_of_range c : 0 ≤ byte_of c < 256.
Proof. unfold byte_of. pose proof (N_ascii_bounded c). lia. Qed.


Lemma first_info_spec b n lo hi : 0 ≤ b → first_info b = Some (n, lo, hi) →
  (n = 1%nat ∧ b < 128) ∨ (n = 2%nat ∧ 194 ≤ b < 224 ∧ lo = 128 ∧ hi = 191)
  ∨ (n = 3%nat ∧ 224 ≤ b < 240 ∧ 128 ≤ lo ∧ hi ≤ 191 ∧ (b = 237 → hi = 159))
  ∨ (n = 4%nat ∧ 240 ≤ b ≤ 244 ∧ 128 ≤ lo ∧ hi ≤ 191 ∧ (b = 244 → hi = 143) ∧ (b = 240 → lo = 144)).
Proof. intros Hb. unfold first_info. repeat case_match; intros [= <- <- <-]; lia. Qed.

Lemma cont_bits b lo hi : is_cont lo hi b = true → 128 ≤ lo → hi ≤ 191 → Z.land b 63 = b - 128 ∧ lo ≤ b ≤ hi.
Proof.
  unfold is_cont. intros Hc Hlo Hhi. change 63 with (Z.ones 6). rewrite Z.land_ones by lia.
  rewrite (high_bits_off b (2 ^ 6) 2 (b - 128)) by lia. lia.
Qed.

Lemma decode_rune_valid s r w : decode_rune s = (r, w) → valid_rune r.
Proof.
  assert (He : valid_rune rune_error) by (unfold valid_rune, rune_error; lia).
  unfold decode_rune. destruct s as [|c0 s1]; [by intros [= <- <-]|].
  pose proof (byte_of_range c0) as Hb0. revert Hb0. generalize (byte_of c0). intros b0 Hb0.
  destruct (first_info b0) as [[[n lo] hi]|] eqn:E; [|by intros [= <- <-]].
  apply (first_info_spec b0 n lo hi ltac:(lia)) in E as [[-> Hb]|[(-> & Hb & Hlo & Hhi)|[(-> & Hb & Hlo & Hhi & Hs)|(-> & Hb & Hlo & Hhi & Hs & Hs')]]].
  - intros [= <- <-]. unfold valid_rune. lia.
  - destruct s1 as [|c1 s2]; [by intros [= <- <-]|].
    destruct (is_cont lo hi (byte_of c1)) eqn:E1; [|by intros [= <- <-]].
    apply cont_bits in E1 as [E1 R1]; [|lia..]. intros [= <- <-]. rewrite E1.
    change 31 with (Z.ones 5). rewrite Z.land_ones by lia. rewrite (high_bits_off b0 (2 ^ 5) 6 (b0 - 192)) by lia.
    unfold valid_rune. lia.
  - destruct s1 as [|c1 s2]; [by intros [= <- <-]|].
    destruct (is_cont lo hi (byte_of c1)) eqn:E1; [|by intros [= <- <-]]. apply cont_bits in E1 as [E1 R1]; [|lia..].
    destruct s2 as [|c2 s3]; [by intros [= <- <-]|].
    destruct (is_cont 128 191 (byte_of c2)) eqn:E2; [|by intros [= <- <-]]. apply cont_bits in E2 as [E2 R2]; [|lia..].
    intros [= <- <-]. rewrite E1, E2. change 15 with (Z.ones 4). rewrite Z.land_ones by lia.
    rewrite (high_bits_off b0 (2 ^ 4) 14 (b0 - 224)) by lia. unfold valid_rune. lia.
  - destruct s1 as [|c1 s2]; [by intros [= <- <-]|].
    destruct (is_cont lo hi (byte_of c1)) eqn:E1; [|by intros [= <- <-]]. apply cont_bits in E1 as [E1 R1]; [|lia..].
    destruct s2 as [|c2 s3]; [by intros [= <- <-]|].
    destruct (is_cont 128 191 (byte_of c2)) eqn:E2; [|by intros [= <- <-]]. apply cont_bits in E2 as [E2 R2]; [|lia..].
    destruct s3 as [|c3 s4]; [by intros [= <- <-]|].
    destruct (is_cont 128 191 (byte_of c3)) eqn:E3; [|by intros [= <- <-]]. apply cont_bits in E3 as [E3 R3]; [|lia..].
    intros [= <- <-]. rewrite E1, E2, E3. change 7 with (Z.ones 3). rewrite Z.land_ones by lia.
    rewrite (high_bits_off b0 (2 ^ 3) 30 (b0 - 240)) by lia. unfold valid_rune. lia.
Qed.

Lemma valid_runes s : Forall (λ r, valid_rune r.1) (runes s).
Proof.
  induction s as [|s r w Hs Hd IH] using rune_ind; [constructor|].
  rewrite (runes_cons s r w) by done. constructor; [by eapply decode_rune_valid|done].
Qed.

Lemma encode_rune_nonempty r : encode_rune r ≠ "".
Proof. unfold encode_rune, str1. intros E. repeat case_match; discriminate. Qed.

(** Encoding and decoding runes is lossless. *)
Lemma runes_of_runes l t : Forall valid_rune l →
  runes (of_runes l +:+ t) = map (λ r, (r, encode_rune r)) l ++ runes t.
Proof.
  induction 1 as [|r l Hr Hl IH]; [done|]. cbn. rewrite append_assoc.
  assert (Hne : encode_rune r +:+ of_runes l +:+ t ≠ "").
  { pose proof (encode_rune_nonempty r). by destruct (encode_rune r). }
  rewrite (runes_cons _ r (String.length (encode_rune r)) Hne) by (by apply decode_encode).
  by rewrite stake_append, sdrop_append, IH.
Qed.

Lemma rune_count_of_runes l : Forall valid_rune l → rune_count (of_runes l) = Z.of_nat (length l).
Proof.
  intros Hl. unfold rune_count. pose proof (runes_of_runes l "" Hl) as E. rewrite append_nil_r in E.
  rewrite E, length_app, length_map. cbn. lia.
Qed.

Lemma of_runes_app l1 l2 : of_runes (l1 ++ l2) = of_runes l1 +:+ of_runes l2.
Proof. induction l1 as [|r l1 IH]; [done|]. cbn. by rewrite IH, append_assoc. Qed.

(** *** Valid UTF-8 *)

Lemma chr_byte_of c : chr (byte_of c) = c.
Proof. unfold chr, byte_of. rewrite N2Z.id. apply ascii_N_embedding. Qed.

Lemma str1_byte_of c : str1 (byte_of c) = String c "".
Proof. unfold str1. by rewrite chr_byte_of. Qed.

Lemma encode_2 a b : 194 ≤ a < 224 → 128 ≤ b ≤ 191 → encode_rune ((a - 192) * 64 + (b - 128)) = str1 a +:+ str1 b.
Proof.
  intros Ha Hb. set (r := (a - 192) * 64 + (b - 128)).
  assert (Hq : r / 64 = a - 192) by (symmetry; apply Z.div_unique_pos with (b - 128); subst r; lia).
  assert (Hm : r mod 64 = b - 128) by (symmetry; apply Z.mod_unique_pos with (a - 192); subst r; lia).
  rewrite encode_rune_valid by (unfold valid_rune; subst r; lia).
  rewrite (proj2 (Z.ltb_ge r 128)) by (subst r; lia). rewrite (proj2 (Z.ltb_lt r 2048)) by (subst r; lia).
  rewrite Hq, Hm. f_equal; f_equal; lia.
Qed.

Lemma encode_3 a b c : 224 ≤ a < 240 → 128 ≤ b ≤ 191 → 128 ≤ c ≤ 191 → (a = 224 → 160 ≤ b) → (a = 237 → b ≤ 159) →
  encode_rune ((a - 224) * 4096 + (b - 128) * 64 + (c - 128)) = str1 a +:+ str1 b +:+ str1 c.
Proof.
  intros Ha Hb Hc H1 H2. set (r := (a - 224) * 4096 + (b - 128) * 64 + (c - 128)).
  assert (Hq : r / 64 = (a - 224) * 64 + (b - 128)) by (symmetry; apply Z.div_unique_pos with (c - 128); subst r; lia).
  assert (Hm : r mod 64 = c - 128) by (symmetry; apply Z.mod_unique_pos with ((a - 224) * 64 + (b - 128)); subst r; lia).
  assert (Hq2 : r / 4096 = a - 224) by (symmetry; apply Z.div_unique_pos with ((b - 128) * 64 + (c - 128)); subst r; lia).
  assert (Hm2 : (r / 64) mod 64 = b - 128) by (rewrite Hq; symmetry; apply Z.mod_unique_pos with (a - 224); lia).
  rewrite encode_rune_valid by (unfold valid_rune; subst r; lia).
  rewrite (proj2 (Z.ltb_ge r 128)) by (subst r; lia). rewrite (proj2 (Z.ltb_ge r 2048)) by (subst r; lia).
  rewrite (proj2 (Z.ltb_lt r 65536)) by (subst r; lia).
  rewrite Hm2, Hq2, Hm. repeat f_equal; lia.
Qed.

Lemma encode_4 a b c d : 240 ≤ a ≤ 244 → 128 ≤ b ≤ 191 → 128 ≤ c ≤ 191 → 128 ≤ d ≤ 191 → (a = 240 → 144 ≤ b) →
  (a = 244 → b ≤ 143) →
  encode_rune ((a - 240) * 262144 + (b - 128) * 4096 + (c - 128) * 64 + (d - 128)) = str1 a +:+ str1 b +:+ str1 c +:+ str1 d.
Proof.
  intros Ha Hb Hc Hd H1 H2. set (r := (a - 240) * 262144 + (b - 128) * 4096 + (c - 128) * 64 + (d - 128)).
  assert (Hq : r / 64 = (a - 240) * 4096 + (b - 128) * 64 + (c - 128)) by (symmetry; apply Z.div_unique_pos with (d - 128); subst r; lia).
  assert (Hm : r mod 64 = d - 128) by (symmetry; apply Z.mod_unique_pos with ((a - 240) * 4096 + (b - 128) * 64 + (c - 128)); subst r; lia).
  assert (Hq2 : r / 4096 = (a - 240) * 64 + (b - 128)) by (symmetry; apply Z.div_unique_pos with ((c - 128) * 64 + (d - 128)); subst r; lia).
  assert (Hq3 : r / 262144 = a - 240) by (symmetry; apply Z.div_unique_pos with ((b - 128) * 4096 + (c - 128) * 64 + (d - 128)); subst r; lia).
  assert (Hm2 : (r / 64) mod 64 = c - 128) by (rewrite Hq; symmetry; apply Z.mod_unique_pos with ((a - 240) * 64 + (b - 128)); lia).
  assert (Hm3 : (r / 4096) mod 64 = b - 128) by (rewrite Hq2; symmetry; apply Z.mod_unique_pos with (a - 240); lia).
  rewrite encode_rune_valid by (unfold valid_rune; subst r; lia).
  rewrite (proj2 (Z.ltb_ge r 128)) by (subst r; lia). rewrite (proj2 (Z.ltb_ge r 2048)) by (subst r; lia).
  rewrite (proj2 (Z.ltb_ge r 65536)) by (subst r; lia).
  rewrite Hm3, Hm2, Hq3, Hm. repeat f_equal; lia.
Qed.

Lemma first_info_low b n lo hi : 0 ≤ b → first_info b = Some (n, lo, hi) → (b = 224 → lo = 160) ∧ (b = 240 → lo = 144).
Proof. intros Hb. unfold first_info. repeat case_match; intros [= <- <- <-]; lia. Qed.

(** A rune decoded from more than an invalid byte encodes to those bytes. *)
Lemma encode_decode s r w : s ≠ "" → decode_rune s = (r, w) → ¬ (r = rune_error ∧ w = 1%nat) →
  stake w s = encode_rune r.
Proof.
  unfold decode_rune. destruct s as [|c0 s1]; [done|]. intros _.
  pose proof (byte_of_range c0) as Hb0. pose proof (str1_byte_of c0) as S0. revert Hb0 S0. generalize (byte_of c0). intros b0 Hb0 S0.
  destruct (first_info b0) as [[[n lo] hi]|] eqn:E; [|by intros [= <- <-] []].
  pose proof (first_info_low b0 n lo hi ltac:(lia) E) as [Hl1 Hl2].
  apply (first_info_spec b0 n lo hi ltac:(lia)) in E as [[-> Hb]|[(-> & Hb & Hlo & Hhi)|[(-> & Hb & Hlo & Hhi & Hs)|(-> & Hb & Hlo & Hhi & Hs & Hs')]]].
  - intros [= <- <-] _. rewrite encode_rune_valid by (unfold valid_rune; lia).
    rewrite (proj2 (Z.ltb_lt b0 128)) by lia. by rewrite S0.
  - destruct s1 as [|c1 s2]; [by intros [= <- <-] []|].
    destruct (is_cont lo hi (byte_of c1)) eqn:E1; [|by intros [= <- <-] []].
    apply cont_bits in E1 as [E1 R1]; [|lia..]. intros [= <- <-] _. rewrite E1.
    change 31 with (Z.ones 5). rewrite Z.land_ones by lia. rewrite (high_bits_off b0 (2 ^ 5) 6 (b0 - 192)) by lia.
    rewrite encode_2 by lia. by rewrite S0, str1_byte_of.
  - destruct s1 as [|c1 s2]; [by intros [= <- <-] []|].
    destruct (is_cont lo hi (byte_of c1)) eqn:E1; [|by intros [= <- <-] []]. apply cont_bits in E1 as [E1 R1]; [|lia..].
    destruct s2 as [|c2 s3]; [by intros [= <- <-] []|].
    destruct (is_cont 128 191 (byte_of c2)) eqn:E2; [|by intros [= <- <-] []]. apply cont_bits in E2 as [E2 R2]; [|lia..].
    intros [= <- <-] _. rewrite E1, E2. change 15 with (Z.ones 4). rewrite Z.land_ones by lia.
    rewrite (high_bits_off b0 (2 ^ 4) 14 (b0 - 224)) by lia. rewrite encode_3 by lia. by rewrite S0, !str1_byte_of.
  - destruct s1 as [|c1 s2]; [by intros [= <- <-] []|].
    destruct (is_cont lo hi (byte_of c1)) eqn:E1; [|by intros [= <- <-] []]. apply cont_bits in E1 as [E1 R1]; [|lia..].
    destruct s2 as [|c2 s3]; [by intros [= <- <-] []|].
    destruct (is_cont 128 191 (byte_of c2)) eqn:E2; [|by intros [= <- <-] []]. apply cont_bits in E2 as [E2 R2]; [|lia..].
    destruct s3 as [|c3 s4]; [by intros [= <- <-] []|].
    destruct (is_cont 128 191 (byte_of c3)) eqn:E3; [|by intros [= <- <-] []]. apply cont_bits in E3 as [E3 R3]; [|lia..].
    intros [= <- <-] _. rewrite E1, E2, E3. change 7 with (Z.ones 3). rewrite Z.land_ones by lia.
    rewrite (high_bits_off b0 (2 ^ 3) 30 (b0 - 240)) by lia. rewrite encode_4 by lia. by rewrite S0, !str1_byte_of.
Qed.

(** [utf8.ValidString] *)
Definition invalid_rune (r : Z * string) : bool := (r.1 =? rune_error) && (String.length r.2 =? 1)%nat.
Definition utf8_valid (s : string) : bool := negb (existsb invalid_rune (runes s)).

Lemma utf8_valid_of_runes l : Forall valid_rune l → utf8_valid (of_runes l) = true.
Proof.
  intros Hl. unfold utf8_valid. pose proof (runes_of_runes l "" Hl) as E. rewrite append_nil_r in E. rewrite E. cbn.
  rewrite app_nil_r. apply negb_true_iff, not_true_iff_false. rewrite existsb_exists.
  intros ([r b] & (r' & [= <- <-] & Hr)%in_map_iff & [Hi Hb]%andb_true_iff). cbn in Hi, Hb.
  apply Z.eqb_eq in Hi as ->. done.
Qed.

Lemma utf8_valid_runes s : utf8_valid s = true → s = of_runes (map fst (runes s)).
Proof.
  unfold utf8_valid. rewrite negb_true_iff. induction s as [|s r w Hs Hd IH] using rune_ind; [done|].
  rewrite (runes_cons s r w) by done. cbn [existsb]. rewrite orb_false_iff. intros [Hi Hv]. cbn.
  rewrite <- IH by done. rewrite <- (encode_decode s r w); [by rewrite stake_sdrop|done..|].
  intros [-> ->]. unfold invalid_rune in Hi. cbn in Hi. destruct s as [|c s]; done.
Qed.

Lemma runes_valid s : utf8_valid s = true → ∃ l, Forall valid_rune l ∧ s = of_runes l ∧ runes s = map (λ r, (r, encode_rune r)) l.
Proof.
  intros Hv. apply utf8_valid_runes in Hv. exists (map fst (runes s)).
  assert (Hl : Forall valid_rune (map fst (runes s))) by (apply Forall_fmap, valid_runes).
  split_and!; [done|done|]. pose proof (runes_of_runes _ "" Hl) as E. rewrite append_nil_r, <- Hv in E.
  rewrite E at 1. cbn. by rewrite app_nil_r.
Qed.

Lemma concat_encoded l : concat_runes (map (λ r, (r, encode_rune r)) l) = of_runes l.
Proof. induction l as [|r l IH]; [done|]. cbn. by rewrite <- IH. Qed.

(** Removing a byte works on each part of a text. *)
Lemma replace_byte_append c rep s t : replace_all (str1 c) rep (s +:+ t) = replace_all (str1 c) rep s +:+ replace_all (str1 c) rep t.
Proof.
  unfold replace_all, replacer, str1. induction s as [|d s IH]; [done|]. rewrite append_cons.
  cbn [replace_from]. unfold first_match, has_prefix. cbn [List.find fst snd cut_prefix].
  destruct (decide (chr c = d)).
  - cbn [String.length Nat.pred]. rewrite IH. by rewrite append_assoc.
  - by rewrite IH.
Qed.

(** Valid texts put together are valid, and their characters add up. *)
Lemma utf8_valid_append a b : utf8_valid a = true → utf8_valid b = true →
  utf8_valid (a +:+ b) = true ∧ rune_count (a +:+ b) = rune_count a + rune_count b.
Proof.
  intros Ha Hb. destruct (runes_valid a Ha) as (m & Hm & -> & _), (runes_valid b Hb) as (n & Hn & -> & _).
  rewrite <- of_runes_app. assert (Hmn : Forall valid_rune (m ++ n)) by (by apply Forall_app).
  rewrite !rune_count_of_runes, length_app by done. split; [by apply utf8_valid_of_runes|lia].
Qed.
