(* ===== verification/GoFloat.v ===== *)
(** * Go's [float64]: IEEE 754 binary64, on the Standard Library's executable
    [SpecFloat], with conversions, comparisons and [fmt]'s fixed notation. *)
From S2P Require Import Prelude GoStrings.
From Stdlib Require Export SpecFloat.
Local Open Scope Z_scope.

Definition float64 : Set := spec_float.
Definition f64_prec : Z := 53.
Definition f64_emax : Z := 1024.

(** [float64(n)] for an integer: rounds to nearest, ties to even. *)
Definition of_int (z : Z) : float64 := binary_normalize f64_prec f64_emax z 0 false.
Definition f0 : float64 := S754_zero false.
Definition fadd : float64 → float64 → float64 := SFadd f64_prec f64_emax.
Definition fsub : float64 → float64 → float64 := SFsub f64_prec f64_emax.
Definition fmul : float64 → float64 → float64 := SFmul f64_prec f64_emax.
Definition fdiv : float64 → float64 → float64 := SFdiv f64_prec f64_emax.

(** [==], [<], [<=], [>], [>=] and [!=]: every comparison with a NaN is
    false, except [!=]. *)
Definition feq (x y : float64) : bool := SFeqb x y.
Definition flt (x y : float64) : bool := SFltb x y.
Definition fle (x y : float64) : bool := SFleb x y.
Definition fgt (x y : float64) : bool := SFltb y x.
Definition fge (x y : float64) : bool := SFleb y x.
Definition fne (x y : float64) : bool := negb (SFeqb x y).
Definition is_nan (x : float64) : bool := match x with S754_nan => true | _ => false end.

(** [max] and [min] of floats: a NaN operand gives NaN. *)
Definition fmax (x y : float64) : float64 :=
  if is_nan x || is_nan y then S754_nan else if fgt y x then y else x.
Definition fmin (x y : float64) : float64 :=
  if is_nan x || is_nan y then S754_nan else if flt y x then y else x.

(** [int(x)]: truncation.  A value that does not fit is implementation
    defined in Go; this is what amd64 gives. *)
Definition trunc_exact (m : positive) (e : Z) : Z :=
  if 0 <=? e then Zpos m * 2 ^ e else Zpos m / 2 ^ (- e).
Definition to_int (x : float64) : Z :=
  match x with
  | S754_zero _ => 0
  | S754_finite s m e =>
      let t := if s then - trunc_exact m e else trunc_exact m e in
      if in_int64b t then t else int64_min
  | _ => int64_min
  end.

(** [fmt.Sprintf("%.<d>f", x)]: the exact value rounded half to even. *)
Definition round_half_even (num den : Z) : Z :=
  let q := num / den in
  let r := num mod den in
  if 2 * r <? den then q else if den <? 2 * r then q + 1 else if Z.even q then q else q + 1.
Definition zero_pad (n : nat) (z : Z) : string :=
  let s := itoa z in
  of_chars (replicate (n - String.length s) (chr 48)) +:+ s.
Definition fmt_fixed (d : nat) (x : float64) : string :=
  let scaled m e :=
    let n := Zpos m * 10 ^ Z.of_nat d in
    if 0 <=? e then n * 2 ^ e else round_half_even n (2 ^ (- e)) in
  let show (neg : bool) (n : Z) :=
    (if neg then "-" else "") +:+ itoa (n / 10 ^ Z.of_nat d)
    +:+ (match d with O => "" | _ => "." +:+ zero_pad d (n mod 10 ^ Z.of_nat d) end) in
  match x with
  | S754_nan => "NaN"
  | S754_infinity s => if s then "-Inf" else "+Inf"
  | S754_zero s => show s 0
  | S754_finite s m e => show s (scaled m e)
  end.

(** ** Comparison lemmas *)

Lemma pos_compare_cont_antisym p q :
  Pos.compare_cont Eq q p = CompOpp (Pos.compare_cont Eq p q).
Proof. rewrite (Pos.compare_cont_antisym p q Eq). done. Qed.

Lemma SFcompare_antisym x y :
  SFcompare y x = CompOpp <$> SFcompare x y.
Proof.
  destruct x as [[]|[]| |[] m1 e1], y as [[]|[]| |[] m2 e2]; try reflexivity; simpl;
    rewrite (Z.compare_antisym e1 e2); destruct (e1 ?= e2); simpl; try reflexivity;
    rewrite (Pos.compare_cont_antisym m1 m2 Eq); simpl;
    destruct (Pos.compare_cont Eq m1 m2); reflexivity.
Qed.

Lemma SFcompare_refl x : is_nan x = false → SFcompare x x = Some Eq.
Proof.
  destruct x as [[]|[]| |[] m e]; simpl; try done; intros _;
    rewrite Z.compare_refl; change (Pos.compare_cont Eq m m) with (Pos.compare m m);
    by rewrite Pos.compare_refl.
Qed.

Lemma SFcompare_nan x y : SFcompare x y = None ↔ is_nan x = true ∨ is_nan y = true.
Proof.
  destruct x as [[]|[]| |[] m1 e1], y as [[]|[]| |[] m2 e2]; simpl;
    (split; [by auto | intros [|]; done]).
Qed.

(** On numbers exactly one of [<], [==], [>] holds. *)
Lemma float_trichotomy x y :
  is_nan x = false → is_nan y = false →
  (flt x y = true ∧ feq x y = false ∧ fgt x y = false) ∨
  (flt x y = false ∧ feq x y = true ∧ fgt x y = false) ∨
  (flt x y = false ∧ feq x y = false ∧ fgt x y = true).
Proof.
  intros Hx Hy. unfold flt, feq, fgt, SFltb, SFeqb. rewrite (SFcompare_antisym x y).
  destruct (SFcompare x y) as [[]|] eqn:E; simpl; auto.
  apply SFcompare_nan in E. destruct E; congruence.
Qed.

Lemma fle_flt_feq x y : fle x y = flt x y || feq x y.
Proof. unfold fle, flt, feq, SFleb, SFltb, SFeqb. by destruct (SFcompare x y) as [[]|]. Qed.

Lemma fge_fgt_feq x y : fge x y = fgt x y || feq x y.
Proof.
  unfold fge, fgt, feq, SFleb, SFltb, SFeqb. rewrite (SFcompare_antisym x y).
  by destruct (SFcompare x y) as [[]|].
Qed.

Lemma flt_nan_l x y : is_nan x = true → flt x y = false ∧ feq x y = false ∧ fgt x y = false.
Proof. by destruct x, y. Qed.

(** ** Tests against known results *)
Example of_int_ex : of_int 3 = S754_finite false 6755399441055744 (-51). Proof. reflexivity. Qed.
Example to_int_ex : map to_int [of_int 404; fdiv (of_int 7) (of_int 2); fdiv (of_int (-7)) (of_int 2)] = [404; 3; -3].
Proof. reflexivity. Qed.
Example fmt_fixed_ex : fmt_fixed 2 (fdiv (of_int 1000) (of_int 3)) = "333.33". Proof. reflexivity. Qed.
Example fmt_fixed_ex2 : map (fmt_fixed 2) [of_int 0; fdiv (of_int (-5)) (of_int 100); fdiv (of_int 1) (of_int 8)] = ["0.00"; "-0.05"; "0.12"].
Proof. reflexivity. Qed.
Example fmt_fixed_ex0 : map (fmt_fixed 0) [of_int 12; fdiv (of_int 5) (of_int 2)] = ["12"; "2"]. Proof. reflexivity. Qed.
