(* ===== verification/GoTime.v ===== *)
(** * Go's [time]: instants, durations and the layouts the code prints.

    A [time.Time] is the number of nanoseconds since the Unix epoch, without
    bounds; a [time.Duration] is an [int64] number of nanoseconds.  Only UTC
    is printed.  Postgres keeps microseconds; a time read back is taken to be
    the time written. *)
From S2P Require Import Prelude GoStrings GoFloat.
Local Open Scope Z_scope.

Definition time : Set := Z.
Definition duration : Set := Z.

Definition nanosecond : duration := 1.
Definition second : duration := 1000000000.
Definition minute : duration := 60 * second.
Definition hour : duration := 60 * minute.
Definition day : duration := 24 * hour.

(** [time.Time{}], January 1 of year 1. *)
Definition zero_time : time := -62135596800 * second.
Definition is_zero (t : time) : bool := t =? zero_time.

(** [time.Unix(sec, 0)] and [t.Unix()] *)
Definition unix_time (sec : Z) : time := sec * second.
Definition to_unix (t : time) : Z := t / second.

(** [t.Sub(u)] saturates at the smallest and largest [Duration]. *)
Definition time_sub (t u : time) : duration := Z.max int64_min (Z.min int64_max (t - u)).
Definition time_add (t : time) (d : duration) : time := t + d.
Definition after (t u : time) : bool := u <? t.
Definition before (t u : time) : bool := t <? u.
(** [time.Duration(n) * time.Second] on [int64] *)
Definition seconds (n : Z) : duration := wrap64 (n * second).

(** [d.Seconds()] and [d.Hours()]: whole units plus the rest as a fraction. *)
Definition dur_seconds (d : duration) : float64 :=
  fadd (of_int (Z.quot d second)) (fdiv (of_int (Z.rem d second)) (of_int second)).
Definition dur_hours (d : duration) : float64 :=
  fadd (of_int (Z.quot d hour)) (fdiv (of_int (Z.rem d hour)) (of_int hour)).

(** ** The proleptic Gregorian calendar *)

Record civil := Civil { c_year : Z; c_month : Z; c_day : Z }.

(** Year, month and day of a number of days since 1970-01-01, counting in
    400 year eras of 146097 days that start on March 1. *)
Definition civil_of_days (n : Z) : civil :=
  let z := n + 719468 in
  let era := z / 146097 in
  let doe := z mod 146097 in
  let yoe := (doe - doe / 1460 + doe / 36524 - doe / 146096) / 365 in
  let doy := doe - (365 * yoe + yoe / 4 - yoe / 100) in
  let mp := (5 * doy + 2) / 153 in
  let m := if mp <? 10 then mp + 3 else mp - 9 in
  {| c_year := yoe + era * 400 + (if m <=? 2 then 1 else 0);
     c_month := m;
     c_day := doy - (153 * mp + 2) / 5 + 1 |}.

Definition month_names : list string :=
  ["Jan"; "Feb"; "Mar"; "Apr"; "May"; "Jun"; "Jul"; "Aug"; "Sep"; "Oct"; "Nov"; "Dec"].
Definition day_names : list string := ["Sun"; "Mon"; "Tue"; "Wed"; "Thu"; "Fri"; "Sat"].
Definition nth_name (l : list string) (n : Z) : string := List.nth (Z.to_nat n) l "".

Definition days_of (t : time) : Z := to_unix t / 86400.
Definition clock_of (t : time) : Z := to_unix t mod 86400.
Definition date_of (t : time) : civil := civil_of_days (days_of t).
Definition weekday_name (t : time) : string := nth_name day_names ((days_of t + 4) mod 7).
Definition month_name (t : time) : string := nth_name month_names (c_month (date_of t) - 1).
(** [15:04:05] and [15:04] *)
Definition hms (t : time) : string :=
  zero_pad 2 (clock_of t / 3600) +:+ ":" +:+ zero_pad 2 (clock_of t / 60 mod 60) +:+ ":" +:+ zero_pad 2 (clock_of t mod 60).
Definition hm (t : time) : string :=
  zero_pad 2 (clock_of t / 3600) +:+ ":" +:+ zero_pad 2 (clock_of t / 60 mod 60).
Definition ymd (t : time) : string :=
  zero_pad 4 (c_year (date_of t)) +:+ "-" +:+ zero_pad 2 (c_month (date_of t)) +:+ "-" +:+ zero_pad 2 (c_day (date_of t)).

(** [t.UTC().Format(time.RFC1123)], ["Mon, 02 Jan 2006 15:04:05 MST"] *)
Definition rfc1123 (t : time) : string :=
  weekday_name t +:+ ", " +:+ zero_pad 2 (c_day (date_of t)) +:+ " " +:+ month_name t +:+ " "
  +:+ zero_pad 4 (c_year (date_of t)) +:+ " " +:+ hms t +:+ " UTC".
(** [t.UTC().Format(time.RFC3339)] *)
Definition rfc3339 (t : time) : string := ymd t +:+ "T" +:+ hms t +:+ "Z".
(** [t.UTC().Format("Jan 2 2006 15:04 MST")] *)
Definition day_minute (t : time) : string :=
  month_name t +:+ " " +:+ itoa (c_day (date_of t)) +:+ " " +:+ zero_pad 4 (c_year (date_of t)) +:+ " " +:+ hm t +:+ " UTC".
(** The fraction in [t.String()]: up to 9 digits without trailing zeros. *)
Definition fraction (t : time) : string :=
  let ns := t mod second in
  if ns =? 0 then "" else "." +:+ trim_right "0" (zero_pad 9 ns).
(** [t.UTC().String()], ["2006-01-02 15:04:05.999999999 -0700 MST"] *)
Definition time_string (t : time) : string :=
  ymd t +:+ " " +:+ hms t +:+ fraction t +:+ " +0000 UTC".

(** ** Lemmas *)

Lemma time_sub_exact t u : in_int64 (t - u) → time_sub t u = t - u.
Proof. unfold in_int64, time_sub. lia. Qed.

Lemma time_sub_mono t t' u : t ≤ t' → time_sub t u ≤ time_sub t' u.
Proof. unfold time_sub. lia. Qed.

(** Comparing a saturated difference with a duration compares the exact one. *)
Lemma time_sub_lt t u d : in_int64 d → time_sub t u < d → t - u < d.
Proof. unfold in_int64, time_sub. lia. Qed.

Lemma time_sub_ge t u d : in_int64 d → d ≤ time_sub t u → d ≤ t - u ∨ (d = int64_min).
Proof. unfold in_int64, time_sub. lia. Qed.

Lemma seconds_exact n : 0 ≤ n ≤ 9223372036 → seconds n = n * second.
Proof.
  intros H. unfold seconds. apply wrap64_id.
  unfold in_int64, int64_min, int64_max, second. lia.
Qed.

Lemma to_unix_unix_time s : to_unix (unix_time s) = s.
Proof. unfold to_unix, unix_time, second. apply Z.div_mul. lia. Qed.

(** ** Tests against known results *)
Example rfc1123_ex : rfc1123 (unix_time 1136239445) = "Mon, 02 Jan 2006 22:04:05 UTC". Proof. vm_compute. reflexivity. Qed.
Example rfc3339_ex : rfc3339 (unix_time 951782400) = "2000-02-29T00:00:00Z". Proof. vm_compute. reflexivity. Qed.
Example zero_time_ex : rfc3339 zero_time = "0001-01-01T00:00:00Z". Proof. vm_compute. reflexivity. Qed.
Example time_string_ex : time_string (unix_time 1136239445 + 120000000) = "2006-01-02 22:04:05.12 +0000 UTC". Proof. vm_compute. reflexivity. Qed.
Example day_minute_ex : day_minute (unix_time 1136239445) = "Jan 2 2006 22:04 UTC". Proof. vm_compute. reflexivity. Qed.
Example hours_ex : dur_hours (90 * minute) = fdiv (of_int 3) (of_int 2). Proof. vm_compute. reflexivity. Qed.
