(* ===== verification/Errors.v ===== *)
(** * The errors of the program.

    One value per sentinel error of the packages under src/internal (the ones
    callers compare with [errors.Is]), and the errors that only carry a text.
    [ErrInvalid m] is [fmt.Errorf("%w: ...", ErrInvalid)] with the text [m]
    after the colon. *)
From S2P Require Import Prelude GoStrings.
Local Open Scope Z_scope.

Inductive error :=
  | ErrNotFound
  | ErrInvalid (msg : string)
  | ErrHostExists
  | ErrRuleExists
  | ErrTaskBusy
  | ErrChannelExists
  | ErrClusterTaken
  | ErrBadToken
  | ErrBadLogin
  | ErrBadSession
  | ErrUserExists
  | ErrNoKey
  (** context.Canceled and context.DeadlineExceeded *)
  | ErrCanceled
  | ErrDeadlineExceeded
  (** an error of the database, the network or a library *)
  | ErrOther (msg : string)
  (** errors.New and fmt.Errorf without a sentinel *)
  | ErrText (msg : string)
  (** fmt.Errorf with a context in front of [%w] *)
  | ErrWrap (context : string) (cause : error)
  (** a gRPC status *)
  | ErrStatus (code : Z) (msg : string).

#[global] Instance error_eq_dec : EqDecision error.
Proof. solve_decision. Defined.

(** [err.Error()] *)
Fixpoint error_text (e : error) : string :=
  match e with
  | ErrNotFound => "not found"
  | ErrInvalid "" => "invalid request"
  | ErrInvalid m => "invalid request: " +:+ m
  | ErrHostExists => "host already registered"
  | ErrRuleExists => "there is already a rule with that name"
  | ErrTaskBusy => "this host is already running a task"
  | ErrChannelExists => "there is already a channel with that name"
  | ErrClusterTaken => "another host reports this cluster, remove the cluster on the dashboard to move its reader"
  | ErrBadToken => "invalid or expired enrollment token"
  | ErrBadLogin => "wrong user name or password"
  | ErrBadSession => "not logged in"
  | ErrUserExists => "user already exists"
  | ErrNoKey => "this agent was built without an update key, update it with the install command"
  | ErrCanceled => "context canceled"
  | ErrDeadlineExceeded => "context deadline exceeded"
  | ErrOther m => m
  | ErrText m => m
  | ErrWrap m e => m +:+ ": " +:+ error_text e
  | ErrStatus _ m => m
  end.

(** The error [errors.Is] and [errors.As] compare: the one a wrapper holds. *)
Fixpoint cause_of (e : error) : error :=
  match e with ErrWrap _ e' => cause_of e' | _ => e end.

(** gRPC status codes the program uses. *)
Definition codes_OK : Z := 0.
Definition codes_Canceled : Z := 1.
Definition codes_InvalidArgument : Z := 3.
Definition codes_DeadlineExceeded : Z := 4.
Definition codes_NotFound : Z := 5.
Definition codes_AlreadyExists : Z := 6.
Definition codes_PermissionDenied : Z := 7.
Definition codes_ResourceExhausted : Z := 8.
Definition codes_FailedPrecondition : Z := 9.
Definition codes_Internal : Z := 13.
Definition codes_Unavailable : Z := 14.
Definition codes_Unauthenticated : Z := 16.

(** [status.Code(err)]: 2 is Unknown *)
Definition status_code (e : error) : Z :=
  match cause_of e with ErrStatus code _ => code | _ => 2 end.
