(* ===== verification/Monitor.v ===== *)
(** * The metric names of src/internal/monitor/monitor.go.

    The section names of a snapshot, the alert metrics that are not in a
    snapshot, and the Kubernetes metrics.  The pure parts of the agent's
    collectors are in AgentCollector.v. *)
From S2P Require Import Prelude GoStrings.
Local Open Scope Z_scope.

Definition SYSTEM : string := "system".
Definition MEMORY : string := "memory".
Definition SWAP : string := "swap".
Definition PROC_USAGE : string := "procUsage".
Definition PROCESSES : string := "processes".
Definition DISKS : string := "disks".
Definition SERVICES : string := "services".
Definition NETWORKS : string := "networks".
Definition PING : string := "ping".
Definition DISK_IO : string := "diskIO".
Definition TCP_STATES : string := "tcpStates".
Definition PRESSURE : string := "pressure".
Definition TEMPERATURES : string := "temperatures".
Definition CONTAINERS : string := "containers".

Definition DISK_FORECAST : string := "disk_forecast".
Definition ENDPOINT : string := "endpoint".
Definition CERTIFICATE : string := "certificate".

Definition KUBE_NODE : string := "kube_node".
Definition KUBE_WORKLOAD : string := "kube_workload".
Definition KUBE_PENDING : string := "kube_pending".
Definition KUBE_RESTARTS : string := "kube_restarts".

(** Membership in a Go slice, [slices.Contains]. *)
Definition contains (l : list string) (s : string) : bool := bool_decide (s ∈ l).
(** String equality as Go's [==]. *)
Definition str_eq (s t : string) : bool := bool_decide (s = t).

Definition IsKube (metric : string) : bool :=
  contains [KUBE_NODE; KUBE_WORKLOAD; KUBE_PENDING; KUBE_RESTARTS] metric.

(** The metrics a rule that is not custom may name (the cases of
    [AlertConfig.Validate]), and the certificate metric the collector derives. *)
Definition host_metrics : list string :=
  [PROC_USAGE; MEMORY; SWAP; DISKS; DISK_FORECAST; SERVICES; PING].
Definition rule_metrics : list string :=
  host_metrics ++ [ENDPOINT; KUBE_NODE; KUBE_WORKLOAD; KUBE_PENDING; KUBE_RESTARTS].

Lemma contains_spec l s : contains l s = true ↔ s ∈ l.
Proof. unfold contains. apply bool_decide_eq_true. Qed.

Lemma str_eq_spec s t : str_eq s t = true ↔ s = t.
Proof. unfold str_eq. apply bool_decide_eq_true. Qed.

Lemma str_eq_refl s : str_eq s s = true.
Proof. by apply str_eq_spec. Qed.

Lemma IsKube_spec m :
  IsKube m = true ↔ m = KUBE_NODE ∨ m = KUBE_WORKLOAD ∨ m = KUBE_PENDING ∨ m = KUBE_RESTARTS.
Proof.
  unfold IsKube. rewrite contains_spec. rewrite !elem_of_cons.
  split; intros H.
  - destruct H as [?|[?|[?|[?|H]]]]; auto. by apply not_elem_of_nil in H.
  - destruct H as [?|[?|[?|?]]]; auto.
Qed.

#[global] Arguments contains : simpl never.
#[global] Arguments str_eq : simpl never.
#[global] Arguments IsKube : simpl never.
