(* ===== verification/Alerts.v ===== *)
(** * Alert rules: src/internal/alerts and src/internal/alertstatus.

    [AlertConfig] is the rule record with the source's field names (the
    source spells [TriggerIntveral]); [Validate] changes the rule while it
    checks it (it trims names), so it is a state computation whose error path
    keeps the changes made before the error.  [ParseRules] is modelled from
    the decoded list of rules on: the JSON decoder is not. *)
From S2P Require Import Prelude GoStrings Errors Monitor.
Local Open Scope Z_scope.

(** ** alertstatus *)

Inductive StatusType := Normal | Warning | Critical.
#[global] Instance StatusType_eq_dec : EqDecision StatusType.
Proof. solve_decision. Defined.

(** [int(status)] *)
Definition status_int (s : StatusType) : Z :=
  match s with Normal => 0 | Warning => 1 | Critical => 2 end.

Lemma status_int_inj s t : status_int s = status_int t → s = t.
Proof. by destruct s, t. Qed.

(** ** The rule *)

Record AlertConfig := {
  rule_Name : string;
  rule_Description : string;
  rule_MetricName : string;
  rule_IsCustom : bool;
  rule_Op : string;
  rule_Template : string;
  rule_WarnThreshold : Z;
  rule_CriticalThreshold : Z;
  rule_TriggerIntveral : Z;
  rule_Servers : list string;
  rule_Endpoint : string;
  rule_ExpectedHTTPCode : Z;
  rule_Method : string;
  rule_CustomCACert : string;
  rule_POSTContentType : string;
  rule_POSTBody : string;
  rule_Disk : string;
  rule_Service : string;
  rule_Cluster : string;
  rule_Namespace : string;
  rule_Channels : list string;
  rule_Email : bool;
  rule_Pagerduty : bool;
  rule_Slack : bool;
  rule_SlackChannel : string;
  rule_CertWarnDays : option Z;
  rule_CertCriticalDays : option Z
}.

#[global] Instance AlertConfig_eq_dec : EqDecision AlertConfig.
Proof. solve_decision. Defined.

(** A Go struct literal that names some fields starts from zero values. *)
Definition zero_rule : AlertConfig := {|
  rule_Name := "";
  rule_Description := "";
  rule_MetricName := "";
  rule_IsCustom := false;
  rule_Op := "";
  rule_Template := "";
  rule_WarnThreshold := 0;
  rule_CriticalThreshold := 0;
  rule_TriggerIntveral := 0;
  rule_Servers := [];
  rule_Endpoint := "";
  rule_ExpectedHTTPCode := 0;
  rule_Method := "";
  rule_CustomCACert := "";
  rule_POSTContentType := "";
  rule_POSTBody := "";
  rule_Disk := "";
  rule_Service := "";
  rule_Cluster := "";
  rule_Namespace := "";
  rule_Channels := [];
  rule_Email := false;
  rule_Pagerduty := false;
  rule_Slack := false;
  rule_SlackChannel := "";
  rule_CertWarnDays := None;
  rule_CertCriticalDays := None
|}.

(** The assignments [rule.F = v] the code makes. *)
Definition set_rule_Name (v : string) (r : AlertConfig) : AlertConfig := {|
  rule_Name := v;
  rule_Description := rule_Description r;
  rule_MetricName := rule_MetricName r;
  rule_IsCustom := rule_IsCustom r;
  rule_Op := rule_Op r;
  rule_Template := rule_Template r;
  rule_WarnThreshold := rule_WarnThreshold r;
  rule_CriticalThreshold := rule_CriticalThreshold r;
  rule_TriggerIntveral := rule_TriggerIntveral r;
  rule_Servers := rule_Servers r;
  rule_Endpoint := rule_Endpoint r;
  rule_ExpectedHTTPCode := rule_ExpectedHTTPCode r;
  rule_Method := rule_Method r;
  rule_CustomCACert := rule_CustomCACert r;
  rule_POSTContentType := rule_POSTContentType r;
  rule_POSTBody := rule_POSTBody r;
  rule_Disk := rule_Disk r;
  rule_Service := rule_Service r;
  rule_Cluster := rule_Cluster r;
  rule_Namespace := rule_Namespace r;
  rule_Channels := rule_Channels r;
  rule_Email := rule_Email r;
  rule_Pagerduty := rule_Pagerduty r;
  rule_Slack := rule_Slack r;
  rule_SlackChannel := rule_SlackChannel r;
  rule_CertWarnDays := rule_CertWarnDays r;
  rule_CertCriticalDays := rule_CertCriticalDays r
|}.
Definition set_rule_Channels (v : list string) (r : AlertConfig) : AlertConfig := {|
  rule_Name := rule_Name r;
  rule_Description := rule_Description r;
  rule_MetricName := rule_MetricName r;
  rule_IsCustom := rule_IsCustom r;
  rule_Op := rule_Op r;
  rule_Template := rule_Template r;
  rule_WarnThreshold := rule_WarnThreshold r;
  rule_CriticalThreshold := rule_CriticalThreshold r;
  rule_TriggerIntveral := rule_TriggerIntveral r;
  rule_Servers := rule_Servers r;
  rule_Endpoint := rule_Endpoint r;
  rule_ExpectedHTTPCode := rule_ExpectedHTTPCode r;
  rule_Method := rule_Method r;
  rule_CustomCACert := rule_CustomCACert r;
  rule_POSTContentType := rule_POSTContentType r;
  rule_POSTBody := rule_POSTBody r;
  rule_Disk := rule_Disk r;
  rule_Service := rule_Service r;
  rule_Cluster := rule_Cluster r;
  rule_Namespace := rule_Namespace r;
  rule_Channels := v;
  rule_Email := rule_Email r;
  rule_Pagerduty := rule_Pagerduty r;
  rule_Slack := rule_Slack r;
  rule_SlackChannel := rule_SlackChannel r;
  rule_CertWarnDays := rule_CertWarnDays r;
  rule_CertCriticalDays := rule_CertCriticalDays r
|}.
Definition set_rule_Cluster (v : string) (r : AlertConfig) : AlertConfig := {|
  rule_Name := rule_Name r;
  rule_Description := rule_Description r;
  rule_MetricName := rule_MetricName r;
  rule_IsCustom := rule_IsCustom r;
  rule_Op := rule_Op r;
  rule_Template := rule_Template r;
  rule_WarnThreshold := rule_WarnThreshold r;
  rule_CriticalThreshold := rule_CriticalThreshold r;
  rule_TriggerIntveral := rule_TriggerIntveral r;
  rule_Servers := rule_Servers r;
  rule_Endpoint := rule_Endpoint r;
  rule_ExpectedHTTPCode := rule_ExpectedHTTPCode r;
  rule_Method := rule_Method r;
  rule_CustomCACert := rule_CustomCACert r;
  rule_POSTContentType := rule_POSTContentType r;
  rule_POSTBody := rule_POSTBody r;
  rule_Disk := rule_Disk r;
  rule_Service := rule_Service r;
  rule_Cluster := v;
  rule_Namespace := rule_Namespace r;
  rule_Channels := rule_Channels r;
  rule_Email := rule_Email r;
  rule_Pagerduty := rule_Pagerduty r;
  rule_Slack := rule_Slack r;
  rule_SlackChannel := rule_SlackChannel r;
  rule_CertWarnDays := rule_CertWarnDays r;
  rule_CertCriticalDays := rule_CertCriticalDays r
|}.
Definition set_rule_Namespace (v : string) (r : AlertConfig) : AlertConfig := {|
  rule_Name := rule_Name r;
  rule_Description := rule_Description r;
  rule_MetricName := rule_MetricName r;
  rule_IsCustom := rule_IsCustom r;
  rule_Op := rule_Op r;
  rule_Template := rule_Template r;
  rule_WarnThreshold := rule_WarnThreshold r;
  rule_CriticalThreshold := rule_CriticalThreshold r;
  rule_TriggerIntveral := rule_TriggerIntveral r;
  rule_Servers := rule_Servers r;
  rule_Endpoint := rule_Endpoint r;
  rule_ExpectedHTTPCode := rule_ExpectedHTTPCode r;
  rule_Method := rule_Method r;
  rule_CustomCACert := rule_CustomCACert r;
  rule_POSTContentType := rule_POSTContentType r;
  rule_POSTBody := rule_POSTBody r;
  rule_Disk := rule_Disk r;
  rule_Service := rule_Service r;
  rule_Cluster := rule_Cluster r;
  rule_Namespace := v;
  rule_Channels := rule_Channels r;
  rule_Email := rule_Email r;
  rule_Pagerduty := rule_Pagerduty r;
  rule_Slack := rule_Slack r;
  rule_SlackChannel := rule_SlackChannel r;
  rule_CertWarnDays := rule_CertWarnDays r;
  rule_CertCriticalDays := rule_CertCriticalDays r
|}.

Definition defaultCertWarnDays : Z := 14.
Definition defaultCertCriticalDays : Z := 3.

(** The days left at which the certificate alert of an HTTPS endpoint rule
    turns warning and critical. *)
Definition CertDays (rule : AlertConfig) : Z * Z :=
  if negb (str_eq (rule_MetricName rule) ENDPOINT)
     || negb (has_prefix (to_lower (rule_Endpoint rule)) "https://")
  then (0, 0)
  else (default defaultCertWarnDays (rule_CertWarnDays rule),
        default defaultCertCriticalDays (rule_CertCriticalDays rule)).

(** ** Validation *)

Definition AllHosts : string := "*".
Definition thresholdOps : list string := [">"; "<"; ">="; "<="; "=="; "!="].

(** What [checkEndpoint] reads of [url.Parse]'s answer; [None] is its error. *)
Record URL := { url_Scheme : string; url_Host : string }.
Class UrlParse := url_Parse : string → option URL.

(** The loop of [checkChannels]: every name is trimmed in place before it is
    looked at, the rest of the list is as it was when a name is refused. *)
Fixpoint checkChannels_from (seen names : list string) : result error unit * list string :=
  match names with
  | [] => (Ok (), [])
  | name :: names' =>
      let t := trim_space name in
      if str_eq t "" then (Err (ErrText "a channel name in Channels is empty"), t :: names')
      else if contains seen t
      then (Err (ErrText ("the channel " +:+ quote t +:+ " is in Channels twice")), t :: names')
      else let '(r, rest) := checkChannels_from (t :: seen) names' in (r, t :: rest)
  end.

Definition RuleM := SM AlertConfig error.

Definition checkChannels : RuleM unit := λ rule,
  let '(r, names) := checkChannels_from [] (rule_Channels rule) in
  (r, set_rule_Channels names rule).

Definition checkServers (rule : AlertConfig) : result error unit :=
  match rule_Servers rule with
  | [] => Err (ErrText ("a rule needs Servers, host names or " +:+ dquote +:+ AllHosts +:+ dquote +:+ " for all hosts"))
  | servers =>
      if existsb (λ server, str_eq (trim_space server) "") servers
      then Err (ErrText "a host name in Servers is empty") else Ok ()
  end.

Definition checkCluster : RuleM unit := λ rule,
  let rule := set_rule_Cluster (trim_space (rule_Cluster rule)) rule in
  let rule := set_rule_Namespace (trim_space (rule_Namespace rule)) rule in
  if str_eq (rule_Cluster rule) ""
  then (Err (ErrText "a kubernetes rule needs Cluster, the name its agent reports the cluster as"), rule)
  else (Ok (), rule).

Definition checkOp (rule : AlertConfig) : result error unit :=
  if contains thresholdOps (rule_Op rule) then Ok ()
  else Err (ErrText ("unknown Op " +:+ quote (rule_Op rule) +:+ ", it can be >, <, >=, <=, == or !=")).

(** [firstError] of errors that are already computed. *)
Definition firstError (errs : list (result error unit)) : result error unit :=
  foldr (λ e acc, match e with Err _ => e | Ok _ => acc end) (Ok ()) errs.

Definition negative (days : option Z) : bool := match days with Some d => d <? 0 | None => false end.

Section Validate.
Context {Hurl : UrlParse}.

Definition checkEndpoint (rule : AlertConfig) : result error unit :=
    match url_Parse (rule_Endpoint rule) with
    | Some target =>
        if (negb (str_eq (url_Scheme target) "http") && negb (str_eq (url_Scheme target) "https"))
           || str_eq (url_Host target) ""
        then Err (ErrText "an endpoint rule needs Endpoint, an http:// or https:// URL")
        else if negb (contains [""; "GET"; "HEAD"; "POST"] (to_upper (trim_space (rule_Method rule))))
        then Err (ErrText ("unknown Method " +:+ quote (rule_Method rule) +:+ ", it can be GET, HEAD or POST"))
        else if negb (rule_ExpectedHTTPCode rule =? 0)
                && ((rule_ExpectedHTTPCode rule <? 100) || (599 <? rule_ExpectedHTTPCode rule))
        then Err (ErrText "ExpectedHTTPCode has to be an HTTP status code, like 200")
        else if negative (rule_CertWarnDays rule) || negative (rule_CertCriticalDays rule)
        then Err (ErrText "CertWarnDays and CertCriticalDays cannot be negative, 0 switches them off")
        else let '(warn, critical) := CertDays rule in
             if (0 <? warn) && (warn <? critical)
             then Err (ErrText "CertCriticalDays has to be at most CertWarnDays")
             else Ok ()
    | None => Err (ErrText "an endpoint rule needs Endpoint, an http:// or https:// URL")
    end.

(** A check that does not change the rule, inside [Validate]. *)
Definition checked (f : AlertConfig → result error unit) : RuleM unit := λ rule, (f rule, rule).

(** The switch on MetricName. *)
Definition checkMetric (rule : AlertConfig) : RuleM unit :=
    let metric := rule_MetricName rule in
    if rule_IsCustom rule then
      (if str_eq (trim_space metric) ""
       then sfail (ErrText "a custom metric rule needs MetricName, the custom metric's name")
       else checked (λ r, firstError [checkServers r; checkOp r]))
    else if contains [PROC_USAGE; MEMORY; SWAP] metric
    then checked (λ r, firstError [checkServers r; checkOp r])
    else if contains [DISKS; DISK_FORECAST] metric then
      (if str_eq (trim_space (rule_Disk rule)) ""
       then sfail (ErrText "a disk rule needs Disk, the device like /dev/sda1")
       else checked (λ r, firstError [checkServers r; checkOp r]))
    else if str_eq metric SERVICES then
      (if str_eq (trim_space (rule_Service rule)) ""
       then sfail (ErrText "a service rule needs Service, a name from the agent's service list")
       else if negb (str_eq (rule_Op rule) "active") && negb (str_eq (rule_Op rule) "inactive")
       then sfail (ErrText ("a service rule needs Op " +:+ dquote +:+ "inactive" +:+ dquote
                   +:+ " (alert when it stops) or " +:+ dquote +:+ "active" +:+ dquote +:+ " (alert when it runs)"))
       else checked checkServers)
    else if str_eq metric PING then checked checkServers
    else if str_eq metric ENDPOINT then checked checkEndpoint
    else if contains [KUBE_NODE; KUBE_WORKLOAD; KUBE_PENDING] metric then checkCluster
    else if str_eq metric KUBE_RESTARTS then
      (* both arguments of firstError are evaluated *)
      r ← stry checkCluster; rule' ← sget; checked (λ _, firstError [r; checkOp rule'])
    else if str_eq metric "" then sfail (ErrText "a rule needs MetricName")
    else sfail (ErrText ("unknown MetricName " +:+ quote metric +:+ ", it can be procUsage, memory, swap, disks, disk_forecast, services, ping, endpoint, kube_node, kube_workload, kube_pending, kube_restarts, or a custom metric's name with IsCustom")).

Definition Validate : RuleM unit :=
    smodify (λ rule, set_rule_Name (trim_space (rule_Name rule)) rule);;
    rule ← sget;
    if str_eq (rule_Name rule) "" then sfail (ErrText "a rule needs a Name")
    else if 100 <? slen (rule_Name rule) then sfail (ErrText "a Name can be at most 100 characters")
    else if rule_TriggerIntveral rule <? 0 then sfail (ErrText "TriggerIntveral cannot be negative")
    else checkChannels;; rule ← sget; checkMetric rule.

(** The loop of [ParseRules] over the decoded rules: [i] is the index of
    the next rule, [names] the names so far. *)
Fixpoint parse_from (i : Z) (names : list string) (rules : list AlertConfig) : result error (list AlertConfig) :=
    match rules with
    | [] => Ok []
    | rule :: rules' =>
        match Validate rule with
        | (Err e, rule') =>
            Err (ErrText ("rule " +:+ itoa (i + 1) +:+ " " +:+ quote (rule_Name rule') +:+ ": " +:+ error_text e))
        | (Ok _, rule') =>
            if contains names (rule_Name rule')
            then Err (ErrText ("rule " +:+ itoa (i + 1) +:+ ": there is already a rule named " +:+ quote (rule_Name rule')))
            else rest ← parse_from (i + 1) (rule_Name rule' :: names) rules'; Ok (rule' :: rest)
        end
    end.

Definition ParseRules (rules : list AlertConfig) : result error (list AlertConfig) := parse_from 0 [] rules.
End Validate.

(** ** What a valid rule is *)

Definition servers_ok (rule : AlertConfig) : Prop :=
  rule_Servers rule ≠ [] ∧ Forall (λ s, trim_space s ≠ "") (rule_Servers rule).

(** What [Validate] leaves behind: the name and the channels are trimmed, and
    for a Kubernetes rule the cluster and the namespace. *)
Definition norm_cluster (rule : AlertConfig) : AlertConfig :=
  if negb (rule_IsCustom rule) && IsKube (rule_MetricName rule)
  then set_rule_Namespace (trim_space (rule_Namespace rule))
         (set_rule_Cluster (trim_space (rule_Cluster rule)) rule)
  else rule.
Definition normalise (rule : AlertConfig) : AlertConfig :=
  norm_cluster (set_rule_Channels (map trim_space (rule_Channels rule))
                  (set_rule_Name (trim_space (rule_Name rule)) rule)).

Section ValidRule.
Context {Hurl : UrlParse}.

Record endpoint_ok (rule : AlertConfig) : Prop := {
  endpoint_url : ∃ u, url_Parse (rule_Endpoint rule) = Some u
    ∧ url_Scheme u ∈ ["http"; "https"] ∧ url_Host u ≠ "";
  endpoint_method : to_upper (trim_space (rule_Method rule)) ∈ [""; "GET"; "HEAD"; "POST"];
  endpoint_code : rule_ExpectedHTTPCode rule = 0 ∨ 100 ≤ rule_ExpectedHTTPCode rule ≤ 599;
  endpoint_days : ∀ d, rule_CertWarnDays rule = Some d ∨ rule_CertCriticalDays rule = Some d → 0 ≤ d;
  endpoint_levels : 0 < (CertDays rule).1 → (CertDays rule).2 ≤ (CertDays rule).1
}.

Inductive metric_ok (rule : AlertConfig) : Prop :=
  | ok_custom : rule_IsCustom rule = true → trim_space (rule_MetricName rule) ≠ "" →
      servers_ok rule → rule_Op rule ∈ thresholdOps → metric_ok rule
  | ok_usage : rule_IsCustom rule = false → rule_MetricName rule ∈ [PROC_USAGE; MEMORY; SWAP] →
      servers_ok rule → rule_Op rule ∈ thresholdOps → metric_ok rule
  | ok_disk : rule_IsCustom rule = false → rule_MetricName rule ∈ [DISKS; DISK_FORECAST] →
      trim_space (rule_Disk rule) ≠ "" → servers_ok rule → rule_Op rule ∈ thresholdOps → metric_ok rule
  | ok_service : rule_IsCustom rule = false → rule_MetricName rule = SERVICES →
      trim_space (rule_Service rule) ≠ "" → rule_Op rule ∈ ["active"; "inactive"] →
      servers_ok rule → metric_ok rule
  | ok_ping : rule_IsCustom rule = false → rule_MetricName rule = PING → servers_ok rule → metric_ok rule
  | ok_endpoint : rule_IsCustom rule = false → rule_MetricName rule = ENDPOINT →
      endpoint_ok rule → metric_ok rule
  | ok_cluster : rule_IsCustom rule = false →
      rule_MetricName rule ∈ [KUBE_NODE; KUBE_WORKLOAD; KUBE_PENDING] →
      rule_Cluster rule ≠ "" → metric_ok rule
  | ok_restarts : rule_IsCustom rule = false → rule_MetricName rule = KUBE_RESTARTS →
      rule_Cluster rule ≠ "" → rule_Op rule ∈ thresholdOps → metric_ok rule.

Record valid_rule (rule : AlertConfig) : Prop := {
  valid_name : rule_Name rule ≠ "" ∧ slen (rule_Name rule) ≤ 100;
  valid_trigger : 0 ≤ rule_TriggerIntveral rule;
  valid_channels : NoDup (rule_Channels rule) ∧ Forall (λ c, c ≠ "") (rule_Channels rule);
  valid_metric : metric_ok rule
}.

(** *** The checks decide their part *)

Lemma checkServers_spec rule : is_ok (checkServers rule) = true ↔ servers_ok rule.
Proof.
  unfold checkServers, servers_ok. destruct (rule_Servers rule) as [|s l]; [split; [done|by intros [? _]]|].
  split.
  - destruct (existsb _ _) eqn:E; [done|]. intros _. split; [done|].
    apply Forall_forall. intros x Hx Ht.
    assert (existsb (λ server, str_eq (trim_space server) "") (s :: l) = true); [|congruence].
    apply existsb_exists. exists x. split; [by apply list_elem_of_In|]. rewrite Ht. apply str_eq_refl.
  - intros [_ Hall]. destruct (existsb _ _) eqn:E; [|done].
    apply existsb_exists in E as (x & Hx & Ht). apply str_eq_spec in Ht.
    rewrite Forall_forall in Hall. by destruct (Hall x); [apply list_elem_of_In|].
Qed.

Lemma checkOp_spec rule : is_ok (checkOp rule) = true ↔ rule_Op rule ∈ thresholdOps.
Proof.
  unfold checkOp. rewrite <- contains_spec. by destruct (contains _ _).
Qed.

Lemma firstError_spec l : is_ok (firstError l) = true ↔ Forall (λ r, is_ok r = true) l.
Proof.
  induction l as [|[[]|e] l IH]; simpl; rewrite ?Forall_cons; simpl; [by rewrite Forall_nil|tauto|].
  split; [done|by intros [? _]].
Qed.

(** The channel loop decides that the trimmed names are not empty and
    differ from each other and from the ones seen before; when it refuses
    none, it leaves the trimmed list. *)
Lemma checkChannels_from_spec names : ∀ seen,
  match checkChannels_from seen names with
  | (Ok _, names') => names' = map trim_space names ∧ NoDup names' ∧ Forall (λ c, c ≠ "" ∧ c ∉ seen) names'
  | (Err _, _) => ¬ (NoDup (map trim_space names) ∧ Forall (λ c, c ≠ "" ∧ c ∉ seen) (map trim_space names))
  end.
Proof.
  induction names as [|n names IH]; intros seen; simpl.
  { split_and!; [done|constructor|constructor]. }
  destruct (str_eq (trim_space n) "") eqn:E1.
  { apply str_eq_spec in E1. rewrite Forall_cons. tauto. }
  assert (Hne : trim_space n ≠ "") by (rewrite <- str_eq_spec; congruence).
  destruct (contains seen (trim_space n)) eqn:E2.
  { apply contains_spec in E2. rewrite Forall_cons. tauto. }
  assert (Hns : trim_space n ∉ seen) by (rewrite <- contains_spec; congruence).
  specialize (IH (trim_space n :: seen)).
  assert (Hfa : ∀ l, Forall (λ c, c ≠ "" ∧ c ∉ trim_space n :: seen) l ↔
                Forall (λ c, c ≠ "" ∧ c ∉ seen) l ∧ trim_space n ∉ l).
  { intros l. rewrite !Forall_forall. setoid_rewrite not_elem_of_cons. split.
    - intros Hl. split; [intros x Hx; specialize (Hl x Hx); tauto|intros Hx; by destruct (Hl _ Hx) as (_ & ? & _)].
    - intros [Hl Hn] x Hx. specialize (Hl x Hx). split_and!; [tauto| |tauto]. intros ->. done. }
  destruct (checkChannels_from _ names) as [[[]|e] rest].
  - destruct IH as (-> & Hnd & Hall). apply Hfa in Hall. rewrite NoDup_cons, Forall_cons. tauto.
  - rewrite NoDup_cons, Forall_cons. intros [[? ?] [_ ?]]. apply IH. split; [done|]. apply Hfa. done.
Qed.

Lemma negative_spec d : negative d = false ↔ ∀ z, d = Some z → 0 ≤ z.
Proof.
  destruct d as [z|]; simpl; [|split; [done|reflexivity]].
  rewrite Z.ltb_ge. split; [intros ? ? [= <-]; done|eauto].
Qed.

Lemma checkEndpoint_spec rule : is_ok (checkEndpoint rule) = true ↔ endpoint_ok rule.
Proof.
  unfold checkEndpoint. destruct (url_Parse _) as [u|] eqn:Hu; cycle 1.
  { split; [done|]. intros [(u & Hu' & _) _ _ _ _]. congruence. }
  destruct ((negb (str_eq (url_Scheme u) "http") && negb (str_eq (url_Scheme u) "https")) || str_eq (url_Host u) "") eqn:E1.
  { split; [done|]. intros [(u' & Hu' & Hs & Hh) _ _ _ _]. rewrite Hu in Hu'. injection Hu' as <-.
    rewrite !elem_of_cons in Hs. apply orb_true_iff in E1 as [E1|E1]; [|by apply str_eq_spec in E1].
    apply andb_true_iff in E1 as [E1 E2]. rewrite negb_true_iff in E1, E2.
    destruct Hs as [Hs|[Hs|Hs]]; [rewrite Hs in E1|rewrite Hs in E2|by apply not_elem_of_nil in Hs];
      by rewrite str_eq_refl in *. }
  destruct (contains _ _) eqn:E2; simpl; cycle 1.
  { split; [done|]. intros [_ Hm _ _ _]. apply contains_spec in Hm. congruence. }
  destruct (negb (rule_ExpectedHTTPCode rule =? 0) && _) eqn:E3.
  { split; [done|]. intros [_ _ Hc _ _]. lia. }
  destruct (negative _ || negative _) eqn:E4.
  { split; [done|]. intros [_ _ _ Hd _]. apply orb_true_iff in E4.
    destruct E4 as [E4|E4];
      match type of E4 with ?b = true => assert (b = false); [|congruence] end;
      apply negative_spec; eauto. }
  destruct (CertDays rule) as [warn critical] eqn:E5.
  destruct ((0 <? warn) && (warn <? critical)) eqn:E6.
  { split; [done|]. intros [_ _ _ _ Hl]. rewrite E5 in Hl. simpl in Hl. lia. }
  split; [intros _|done].
  apply orb_false_iff in E1 as [E1 Hh]. apply orb_false_iff in E4 as [E4 E4'].
  rewrite negative_spec in E4, E4'. constructor.
  - exists u. split_and!; [done| |].
    + rewrite !elem_of_cons. destruct (str_eq (url_Scheme u) "http") eqn:?; [left; by apply str_eq_spec|].
      destruct (str_eq (url_Scheme u) "https") eqn:?; [right; left; by apply str_eq_spec|done].
    + rewrite <- str_eq_spec. congruence.
  - by apply contains_spec.
  - lia.
  - intros d [Hd|Hd]; eauto.
  - rewrite E5. simpl. lia.
Qed.

(** *** [Validate] decides [valid_rule] *)

Lemma not_ok_err {A} (r : result error A) (P : Prop) : (is_ok r = true ↔ P) →
  match r with Ok _ => P | Err _ => ¬ P end.
Proof. intros H. destruct r; simpl in H; [by apply H|]. intros HP. by apply H in HP. Qed.

(** Membership of a known name in a list of literals, decided. *)
Ltac in_literals H :=
  repeat (apply elem_of_cons in H as [H|H]; [try discriminate H|]);
  try (by apply not_elem_of_nil in H).

(** A rule with none of the cases' metrics is not [metric_ok]. *)
Lemma metric_ok_known rule : metric_ok rule →
  rule_IsCustom rule = true ∨ rule_MetricName rule ∈ rule_metrics.
Proof.
  unfold rule_metrics, host_metrics.
  destruct 1 as [|? H|? H|? H|? H|? H|? H|? H]; [by left|..]; right;
    first [rewrite H|in_literals H; rewrite H]; apply contains_spec; reflexivity.
Qed.

Ltac inv_metric Hm :=
  let Hi := fresh "Hi" in let Hb := fresh "Hb" in let Hl := fresh "Hl" in
  intros Hi;
  destruct Hi as [Hb Hl|Hb Hl|Hb Hl|Hb Hl|Hb Hl|Hb Hl|Hb Hl|Hb Hl];
  try congruence; rewrite Hm in Hl; try discriminate Hl; in_literals Hl; auto.

Definition metric_spec (rule : AlertConfig) (out : result error unit * AlertConfig) : Prop :=
  match out with
  | (Ok _, r') => r' = norm_cluster rule ∧ metric_ok r'
  | (Err _, _) => ¬ metric_ok (norm_cluster rule)
  end.

Lemma checkServersOp_spec rule :
  match firstError [checkServers rule; checkOp rule] with
  | Ok _ => servers_ok rule ∧ rule_Op rule ∈ thresholdOps
  | Err _ => ¬ (servers_ok rule ∧ rule_Op rule ∈ thresholdOps)
  end.
Proof.
  apply not_ok_err. rewrite firstError_spec, !Forall_cons, Forall_nil, checkServers_spec, checkOp_spec. tauto.
Qed.

Lemma norm_cluster_custom rule : rule_IsCustom rule = true → norm_cluster rule = rule.
Proof. unfold norm_cluster. by intros ->. Qed.

Lemma norm_cluster_not_kube rule m : rule_MetricName rule = m → IsKube m = false → norm_cluster rule = rule.
Proof. unfold norm_cluster. intros -> ->. by rewrite andb_false_r. Qed.

Lemma norm_cluster_kube rule m : rule_IsCustom rule = false → rule_MetricName rule = m → IsKube m = true →
  norm_cluster rule = set_rule_Namespace (trim_space (rule_Namespace rule))
       (set_rule_Cluster (trim_space (rule_Cluster rule)) rule).
Proof. unfold norm_cluster. by intros -> -> ->. Qed.

Lemma checkMetric_custom rule : rule_IsCustom rule = true → metric_spec rule (checkMetric rule rule).
Proof.
  intros Hc. unfold checkMetric, metric_spec, checked, sfail. rewrite Hc, norm_cluster_custom by done.
  pose proof (checkServersOp_spec rule) as Hso.
  destruct (str_eq (trim_space (rule_MetricName rule)) "") eqn:E.
  { apply str_eq_spec in E. destruct 1; congruence. }
  assert (trim_space (rule_MetricName rule) ≠ "") by (rewrite <- str_eq_spec; congruence).
  destruct (firstError _).
  - split; [done|]. destruct Hso. by apply ok_custom.
  - destruct 1; try congruence. tauto.
Qed.

Lemma checkMetric_usage rule m : rule_IsCustom rule = false → rule_MetricName rule = m →
  m ∈ [PROC_USAGE; MEMORY; SWAP] → metric_spec rule (checkMetric rule rule).
Proof.
  intros Hc Hm Hin. unfold checkMetric, metric_spec, checked. rewrite Hc, Hm.
  rewrite (proj2 (contains_spec _ _) Hin).
  rewrite (norm_cluster_not_kube _ _ Hm) by (in_literals Hin; by rewrite Hin).
  pose proof (checkServersOp_spec rule) as Hso. destruct (firstError _).
  - split; [done|]. destruct Hso. apply ok_usage; auto. by rewrite Hm.
  - in_literals Hin; rewrite Hin in Hm; inv_metric Hm.
Qed.

Lemma checkMetric_disk rule m : rule_IsCustom rule = false → rule_MetricName rule = m →
  m ∈ [DISKS; DISK_FORECAST] → metric_spec rule (checkMetric rule rule).
Proof.
  intros Hc Hm Hin. unfold checkMetric, metric_spec, checked, sfail. rewrite Hc, Hm.
  replace (contains [PROC_USAGE; MEMORY; SWAP] m) with false by (in_literals Hin; by rewrite Hin).
  rewrite (proj2 (contains_spec _ _) Hin).
  rewrite (norm_cluster_not_kube _ _ Hm) by (in_literals Hin; by rewrite Hin).
  destruct (str_eq (trim_space (rule_Disk rule)) "") eqn:E.
  { apply str_eq_spec in E. in_literals Hin; rewrite Hin in Hm; inv_metric Hm. }
  assert (trim_space (rule_Disk rule) ≠ "") by (rewrite <- str_eq_spec; congruence).
  pose proof (checkServersOp_spec rule) as Hso. destruct (firstError _).
  - split; [done|]. destruct Hso. apply ok_disk; auto. by rewrite Hm.
  - in_literals Hin; rewrite Hin in Hm; inv_metric Hm.
Qed.

Lemma checkMetric_service rule : rule_IsCustom rule = false → rule_MetricName rule = SERVICES →
  metric_spec rule (checkMetric rule rule).
Proof.
  intros Hc Hm. unfold checkMetric, metric_spec, checked, sfail. rewrite Hc, Hm.
  change (contains [PROC_USAGE; MEMORY; SWAP] SERVICES) with false.
  change (contains [DISKS; DISK_FORECAST] SERVICES) with false.
  change (str_eq SERVICES SERVICES) with true. cbv iota.
  rewrite (norm_cluster_not_kube _ _ Hm) by done.
  destruct (str_eq (trim_space (rule_Service rule)) "") eqn:E.
  { apply str_eq_spec in E. inv_metric Hm. }
  assert (trim_space (rule_Service rule) ≠ "") by (rewrite <- str_eq_spec; congruence).
  destruct (negb (str_eq (rule_Op rule) "active") && negb (str_eq (rule_Op rule) "inactive")) eqn:E2.
  { inv_metric Hm. match goal with H : rule_Op rule ∈ _ |- _ => rename H into Ho end.
    in_literals Ho; by rewrite Ho in E2. }
  assert (Hop : rule_Op rule ∈ ["active"; "inactive"]).
  { rewrite !elem_of_cons. destruct (str_eq (rule_Op rule) "active") eqn:?; [left; by apply str_eq_spec|].
    destruct (str_eq (rule_Op rule) "inactive") eqn:?; [right; left; by apply str_eq_spec|done]. }
  pose proof (not_ok_err _ _ (checkServers_spec rule)) as Hs. destruct (checkServers rule).
  - split; [done|]. by apply ok_service.
  - inv_metric Hm.
Qed.

Lemma checkMetric_ping rule : rule_IsCustom rule = false → rule_MetricName rule = PING →
  metric_spec rule (checkMetric rule rule).
Proof.
  intros Hc Hm. assert (checkMetric rule = checked checkServers) as -> by (unfold checkMetric; by rewrite Hc, Hm).
  unfold metric_spec, checked.
  rewrite (norm_cluster_not_kube _ _ Hm) by done.
  pose proof (not_ok_err _ _ (checkServers_spec rule)) as Hs. destruct (checkServers rule).
  - split; [done|]. by apply ok_ping.
  - inv_metric Hm.
Qed.

Lemma checkMetric_endpoint rule : rule_IsCustom rule = false → rule_MetricName rule = ENDPOINT →
  metric_spec rule (checkMetric rule rule).
Proof.
  intros Hc Hm. assert (checkMetric rule = checked checkEndpoint) as -> by (unfold checkMetric; by rewrite Hc, Hm).
  unfold metric_spec, checked.
  rewrite (norm_cluster_not_kube _ _ Hm) by done.
  pose proof (not_ok_err _ _ (checkEndpoint_spec rule)) as Hs. destruct (checkEndpoint rule).
  - split; [done|]. by apply ok_endpoint.
  - inv_metric Hm.
Qed.

(** [checkCluster] trims, and refuses an empty cluster. *)
Lemma checkCluster_spec rule m : rule_IsCustom rule = false → rule_MetricName rule = m → IsKube m = true →
  match checkCluster rule with
  | (Ok _, r') => r' = norm_cluster rule ∧ rule_Cluster (norm_cluster rule) ≠ ""
  | (Err _, r') => r' = norm_cluster rule ∧ rule_Cluster (norm_cluster rule) = ""
  end.
Proof.
  intros Hc Hm Hk. rewrite (norm_cluster_kube _ _ Hc Hm Hk). unfold checkCluster. cbn -[trim_space].
  destruct (str_eq (trim_space (rule_Cluster rule)) "") eqn:E.
  - by apply str_eq_spec in E.
  - split; [done|]. rewrite <- str_eq_spec. congruence.
Qed.

Lemma norm_cluster_fields rule : rule_IsCustom (norm_cluster rule) = rule_IsCustom rule
  ∧ rule_MetricName (norm_cluster rule) = rule_MetricName rule ∧ rule_Op (norm_cluster rule) = rule_Op rule
  ∧ rule_Name (norm_cluster rule) = rule_Name rule ∧ rule_Channels (norm_cluster rule) = rule_Channels rule
  ∧ rule_TriggerIntveral (norm_cluster rule) = rule_TriggerIntveral rule.
Proof. unfold norm_cluster. by destruct (_ && _). Qed.

Lemma checkMetric_cluster rule m : rule_IsCustom rule = false → rule_MetricName rule = m →
  m ∈ [KUBE_NODE; KUBE_WORKLOAD; KUBE_PENDING] → metric_spec rule (checkMetric rule rule).
Proof.
  intros Hc Hm Hin. pose proof (norm_cluster_fields rule) as (Hc' & Hm' & _). rewrite Hc in Hc'.
  assert (Hk : IsKube m = true) by (in_literals Hin; by rewrite Hin).
  assert (checkMetric rule = checkCluster) as ->
    by (unfold checkMetric; rewrite Hc, Hm; in_literals Hin; by rewrite Hin).
  pose proof (checkCluster_spec _ _ Hc Hm Hk) as Hs. unfold metric_spec.
  destruct (checkCluster rule) as [[[]|e] r']; destruct Hs as [-> Hs].
  - split; [done|]. apply ok_cluster; [done|by rewrite Hm', Hm|done].
  - rewrite Hm in Hm'. in_literals Hin; rewrite Hin in Hm'; inv_metric Hm'.
Qed.

Lemma checkMetric_restarts rule : rule_IsCustom rule = false → rule_MetricName rule = KUBE_RESTARTS →
  metric_spec rule (checkMetric rule rule).
Proof.
  intros Hc Hm. pose proof (norm_cluster_fields rule) as (Hc' & Hm' & Hop & _). rewrite Hc in Hc'. rewrite Hm in Hm'.
  assert (checkMetric rule = (r ← stry checkCluster; rule' ← sget; checked (λ _, firstError [r; checkOp rule']))) as ->
    by (unfold checkMetric; by rewrite Hc, Hm).
  pose proof (checkCluster_spec _ _ Hc Hm eq_refl) as Hs. unfold metric_spec.
  unfold mbind, SM_bind, sbind, stry, sget, checked.
  destruct (checkCluster rule) as [rc r']. 
  pose proof (not_ok_err _ _ (checkOp_spec r')) as Ho.
  destruct rc as [[]|e]; destruct Hs as [-> Hs]; simpl.
  - destruct (checkOp _).
    + split; [done|]. by apply ok_restarts.
    + inv_metric Hm'.
  - inv_metric Hm'.
Qed.

Lemma checkMetric_unknown rule : rule_IsCustom rule = false → rule_MetricName rule ∉ rule_metrics →
  metric_spec rule (checkMetric rule rule).
Proof.
  intros Hc Hn. unfold metric_spec.
  assert (Hbad : ¬ metric_ok (norm_cluster rule)).
  { pose proof (norm_cluster_fields rule) as (Hc' & Hm' & _).
    intros [Hk|Hk]%metric_ok_known; [congruence|]. by rewrite Hm' in Hk. }
  assert (Hf : ∀ l, l ⊆ rule_metrics → contains l (rule_MetricName rule) = false).
  { intros l Hl. apply not_true_iff_false. rewrite contains_spec. auto. }
  assert (Hg : ∀ m, m ∈ rule_metrics → str_eq (rule_MetricName rule) m = false).
  { intros m Hm. apply not_true_iff_false. rewrite str_eq_spec. by intros <-. }
  unfold checkMetric. rewrite Hc.
  repeat first [rewrite Hf by (intros x Hx; in_literals Hx; rewrite Hx; by apply contains_spec)
               |rewrite Hg by (by apply contains_spec)].
  by destruct (str_eq _ _).
Qed.

Lemma checkMetric_spec rule : metric_spec rule (checkMetric rule rule).
Proof.
  destruct (rule_IsCustom rule) eqn:Hc; [by apply checkMetric_custom|].
  destruct (decide (rule_MetricName rule ∈ rule_metrics)) as [Hk|Hk]; [|by apply checkMetric_unknown].
  unfold rule_metrics, host_metrics in Hk. cbn [app] in Hk.
  in_literals Hk;
    first [eapply checkMetric_usage; [done|exact Hk|by apply contains_spec]
          |eapply checkMetric_disk; [done|exact Hk|by apply contains_spec]
          |by apply checkMetric_service|by apply checkMetric_ping|by apply checkMetric_endpoint
          |eapply checkMetric_cluster; [done|exact Hk|by apply contains_spec]
          |by apply checkMetric_restarts].
Qed.

(** [Validate] accepts a rule exactly when its normal form is valid, and
    leaves that normal form behind. *)
Lemma Validate_spec rule :
  match Validate rule with
  | (Ok _, rule') => rule' = normalise rule ∧ valid_rule rule'
  | (Err _, _) => ¬ valid_rule (normalise rule)
  end.
Proof.
  unfold Validate, normalise, mbind, SM_bind, sbind, smodify, sget, sfail.
  set (r1 := set_rule_Name (trim_space (rule_Name rule)) rule).
  set (r2 := set_rule_Channels (map trim_space (rule_Channels rule)) r1).
  pose proof (norm_cluster_fields r2) as (Hc & Hm & Ho & Hn & Hch & Ht).
  destruct (str_eq (rule_Name r1) "") eqn:E1.
  { apply str_eq_spec in E1. intros [[Hv _] _ _ _]. apply Hv. by rewrite Hn. }
  destruct (100 <? slen (rule_Name r1)) eqn:E2.
  { intros [[_ Hv] _ _ _]. rewrite Hn in Hv. change (rule_Name r2) with (rule_Name r1) in Hv. lia. }
  destruct (rule_TriggerIntveral r1 <? 0) eqn:E3.
  { intros [_ Hv _ _]. rewrite Ht in Hv. change (rule_TriggerIntveral r2) with (rule_TriggerIntveral r1) in Hv. lia. }
  unfold checkChannels. pose proof (checkChannels_from_spec (rule_Channels r1) []) as Hcs.
  assert (Hfa : ∀ l, Forall (λ c : string, c ≠ "" ∧ c ∉ []) l ↔ Forall (λ c, c ≠ "") l).
  { intros l. apply Forall_iff. intros x. pose proof (not_elem_of_nil x). tauto. }
  destruct (checkChannels_from [] _) as [[[]|e] names'].
  - destruct Hcs as (-> & Hnd & Hall). rewrite Hfa in Hall.
    change (set_rule_Channels (map trim_space (rule_Channels r1)) r1) with r2.
    pose proof (checkMetric_spec r2) as Hms. unfold metric_spec in Hms.
    assert (Hne : rule_Name r1 ≠ "") by (rewrite <- str_eq_spec; congruence).
    destruct (checkMetric r2 r2) as [[[]|e] r'].
    + destruct Hms as [-> Hok]. split; [done|]. constructor; [|rewrite Ht; change (rule_TriggerIntveral r2) with (rule_TriggerIntveral r1); lia|by rewrite Hch|done].
      rewrite Hn. change (rule_Name r2) with (rule_Name r1). split; [done|lia].
    + by intros [_ _ _ Hv].
  - intros [_ _ [Hv1 Hv2] _]. rewrite Hch in Hv1, Hv2. apply Hcs. rewrite Hfa. done.
Qed.

Lemma map_trim_idemp l : map trim_space (map trim_space l) = map trim_space l.
Proof. rewrite map_map. apply map_ext, trim_space_idemp. Qed.

Lemma normalise_idemp rule : normalise (normalise rule) = normalise rule.
Proof.
  destruct (negb (rule_IsCustom rule) && IsKube (rule_MetricName rule)) eqn:E;
    destruct rule; cbv -[trim_space map IsKube negb andb];
    cbn [rule_IsCustom rule_MetricName] in E; rewrite E; cbv -[trim_space map IsKube negb andb];
    rewrite E, ?map_trim_idemp, ?trim_space_idemp; reflexivity.
Qed.

Lemma Validate_valid rule rule' : Validate rule = (Ok (), rule') → Validate rule' = (Ok (), rule').
Proof.
  intros HV. pose proof (Validate_spec rule) as Hs. rewrite HV in Hs. destruct Hs as [-> Hv].
  pose proof (Validate_spec (normalise rule)) as Hs.
  destruct (Validate (normalise rule)) as [[[]|e] r'].
  - destruct Hs as [-> _]. by rewrite normalise_idemp.
  - by rewrite normalise_idemp in Hs.
Qed.

Lemma parse_from_spec rules : ∀ i names,
  match parse_from i names rules with
  | Ok out => out = map normalise rules ∧ Forall valid_rule out ∧ NoDup (map rule_Name out)
              ∧ Forall (λ r, rule_Name r ∉ names) out
  | Err _ => ¬ (Forall valid_rule (map normalise rules) ∧ NoDup (map rule_Name (map normalise rules))
                ∧ Forall (λ r, rule_Name r ∉ names) (map normalise rules))
  end.
Proof.
  induction rules as [|rule rules IH]; intros i names; simpl.
  { split_and!; constructor. }
  pose proof (Validate_spec rule) as Hs. destruct (Validate rule) as [[[]|e] rule'].
  2:{ rewrite Forall_cons. tauto. }
  destruct Hs as [-> Hv]. destruct (contains names _) eqn:E.
  { apply contains_spec in E. rewrite !Forall_cons. tauto. }
  assert (Hn : rule_Name (normalise rule) ∉ names) by (rewrite <- contains_spec; congruence).
  specialize (IH (i + 1) (rule_Name (normalise rule) :: names)).
  assert (Hfa : ∀ l, Forall (λ r, rule_Name r ∉ rule_Name (normalise rule) :: names) l ↔
     Forall (λ r, rule_Name r ∉ names) l ∧ rule_Name (normalise rule) ∉ map rule_Name l).
  { intros l. rewrite !Forall_forall, list_elem_of_fmap. setoid_rewrite not_elem_of_cons. split.
    - intros Hl. split; [intros x Hx; by apply Hl|intros (y & Hy & Hin); by destruct (Hl y Hin)].
    - intros [Hl Hx] y Hy. split; [intros Heq; apply Hx; eauto|auto]. }
  destruct (parse_from _ _ rules) as [rest|e]; unfold mbind, result_bind, rbind; cbn -[normalise].
  - destruct IH as (-> & ? & ? & Hf). apply Hfa in Hf as [? ?].
    rewrite !Forall_cons, NoDup_cons. tauto.
  - rewrite !Forall_cons, NoDup_cons. intros ([? ?] & [? ?] & [? ?]). apply IH. split_and!; auto.
    apply Hfa. done.
Qed.
End ValidRule.

(** ** Properties *)

(** C31: [AlertConfig.Validate] accepts a rule exactly when its trimmed form
    is a valid rule, leaves that form behind, and validating an accepted rule
    again accepts it unchanged. *)
Theorem Validate_correct `{UrlParse} (rule : AlertConfig) :
  match Validate rule with
  | (Ok _, rule') => rule' = normalise rule ∧ valid_rule rule' ∧ Validate rule' = (Ok (), rule')
  | (Err _, _) => ¬ valid_rule (normalise rule)
  end.
Proof.
  pose proof (Validate_spec rule) as Hs.
  destruct (Validate rule) as [[[]|e] rule'] eqn:HV; [|done].
  destruct Hs. split_and!; auto. by eapply Validate_valid.
Qed.

(** [ParseRules] returns the normal forms of all the rules of the list,
    in order, exactly when each is valid and their names differ; otherwise it
    is an error. *)
Lemma ParseRules_correct `{UrlParse} (rules : list AlertConfig) :
  match ParseRules rules with
  | Ok out => out = map normalise rules ∧ Forall valid_rule out ∧ NoDup (map rule_Name out)
  | Err _ => ¬ (Forall valid_rule (map normalise rules) ∧ NoDup (map rule_Name (map normalise rules)))
  end.
Proof.
  pose proof (parse_from_spec rules 0 []) as Hs. unfold ParseRules.
  destruct (parse_from 0 [] rules); [tauto|].
  intros [Hv Hn]. apply Hs. split_and!; [done..|]. apply Forall_forall. intros x _. apply not_elem_of_nil.
Qed.
