(* ===== verification/Kube.v ===== *)
(** * Kubernetes states: src/internal/kube/types.go, restarts.go, objects.go
    and client.go.

    [ClusterState] and its parts are the source's structs.  The API objects
    ([apiNode], [apiPod], ...) are the decoded JSON; the functions that turn
    them into a state are translated.  [strconv.ParseFloat] is a parameter.
    The pages of a list come from a server that answers a path, a field
    selector and a continue token; KubeClient.v makes one of HTTP requests. *)
From S2P Require Import Prelude GoStrings GoFloat GoTime Errors Monitor.
Local Open Scope Z_scope.

(** ** types.go *)

Definition ReportInterval : duration := 30 * second.
Definition StaleAfter : duration := 3 * ReportInterval.

Record Node := {
  node_Name : string; node_Ready : bool; node_ReadyChanged : Z; node_Roles : list string;
  node_KubeletVersion : string; node_Unschedulable : bool; node_Pressure : list string;
  node_CPUCores : float64; node_MemoryBytes : float64 }.

Record Workload := {
  wl_Namespace : string; wl_Kind : string; wl_Name : string;
  wl_Desired : Z; wl_Ready : Z; wl_Available : Z }.

Record PodContainer := {
  ctr_Name : string; ctr_ID : string; ctr_Image : string; ctr_Ready : bool; ctr_Restarts : Z;
  ctr_State : string; ctr_Reason : string; ctr_LastReason : string; ctr_LastFinished : Z }.

Record Pod := {
  pod_Namespace : string; pod_Name : string; pod_UID : string; pod_Node : string;
  pod_Workload : string; pod_Phase : string; pod_Ready : bool; pod_Reason : string;
  pod_Created : Z; pod_Containers : list PodContainer }.

Record Event := {
  ev_Namespace : string; ev_Kind : string; ev_Name : string; ev_Reason : string;
  ev_Message : string; ev_Count : Z; ev_LastSeen : Z }.

Record ClusterState := {
  cs_Cluster : string; cs_Time : Z; cs_Error : string; cs_Nodes : list Node;
  cs_Workloads : list Workload; cs_Pods : list Pod; cs_Events : list Event }.

(** [kube.ClusterState{Cluster: name}] and the state that only carries an error *)
Definition empty_state (name : string) (at_ : Z) (err : string) : ClusterState := {|
  cs_Cluster := name; cs_Time := at_; cs_Error := err; cs_Nodes := []; cs_Workloads := [];
  cs_Pods := []; cs_Events := [] |}.

Definition Workload_Key (w : Workload) : string :=
  wl_Namespace w +:+ "/" +:+ wl_Kind w +:+ "/" +:+ wl_Name w.
Definition Missing (w : Workload) : Z := Z.max (wl_Desired w - wl_Available w) 0.
Definition WorkloadKey (p : Pod) : string := pod_Namespace p +:+ "/" +:+ pod_Workload p.
Definition Pod_Restarts (p : Pod) : Z := zsum ctr_Restarts (pod_Containers p).

Record Counts := {
  n_Nodes : Z; n_NodesReady : Z; n_Pods : Z; n_PodsRunning : Z; n_PodsPending : Z;
  n_PodsNotReady : Z; n_PodsFailed : Z; n_Workloads : Z; n_WorkloadsReady : Z }.

Definition count_if {A} (p : A → bool) (l : list A) : Z := Z.of_nat (length (List.filter p l)).
Definition len {A} (l : list A) : Z := Z.of_nat (length l).

Definition phase_is (phase : string) (p : Pod) : bool := str_eq (pod_Phase p) phase.

Definition State_Counts (s : ClusterState) : Counts := {|
  n_Nodes := len (cs_Nodes s);
  n_NodesReady := count_if node_Ready (cs_Nodes s);
  n_Pods := len (cs_Pods s);
  n_PodsRunning := count_if (phase_is "Running") (cs_Pods s);
  n_PodsPending := count_if (phase_is "Pending") (cs_Pods s);
  n_PodsNotReady := count_if (λ p, phase_is "Running" p && negb (pod_Ready p)) (cs_Pods s);
  n_PodsFailed := count_if (phase_is "Failed") (cs_Pods s);
  n_Workloads := len (cs_Workloads s);
  n_WorkloadsReady := count_if (λ w, Missing w =? 0) (cs_Workloads s) |}.

(** ** restarts.go *)

Record Restart := {
  rs_Namespace : string; rs_Workload : string; rs_Pod : string; rs_Container : string;
  rs_Count : Z; rs_Reason : string }.

(** The two maps made from the state before: the restart counts by
    "UID/container" and the pods' UIDs. *)
Definition container_key (uid name : string) : string := uid +:+ "/" +:+ name.
Definition add_container (uid : string) (m : gmap string Z) (c : PodContainer) : gmap string Z :=
  <[container_key uid (ctr_Name c) := ctr_Restarts c]> m.
Definition before_map (pods : list Pod) : gmap string Z :=
  fold_left (λ m pod, fold_left (add_container (pod_UID pod)) (pod_Containers pod) m) pods ∅.
Definition known_set (pods : list Pod) : gset string := list_to_set (map pod_UID pods).

(** The body of the loop over a pod's containers. *)
Definition new_count (before : gmap string Z) (uid : string) (c : PodContainer) : Z :=
  match before !! container_key uid (ctr_Name c) with
  | Some old => if old <=? ctr_Restarts c then ctr_Restarts c - old else ctr_Restarts c
  | None => ctr_Restarts c
  end.
Definition container_restart (before : gmap string Z) (pod : Pod) (c : PodContainer) : list Restart :=
  let count := new_count before (pod_UID pod) c in
  if count <=? 0 then []
  else [{| rs_Namespace := pod_Namespace pod; rs_Workload := pod_Workload pod; rs_Pod := pod_Name pod;
           rs_Container := ctr_Name c; rs_Count := count; rs_Reason := ctr_LastReason c |}].
Definition pod_restarts (prev : ClusterState) (before : gmap string Z) (known : gset string) (pod : Pod) : list Restart :=
  if negb (bool_decide (pod_UID pod ∈ known)) && (pod_Created pod <=? cs_Time prev) then []
  else flat_map (container_restart before pod) (pod_Containers pod).

Definition Restarts (prev next : ClusterState) : list Restart :=
  if cs_Time prev =? 0 then []
  else flat_map (pod_restarts prev (before_map (cs_Pods prev)) (known_set (cs_Pods prev))) (cs_Pods next).

(** ** objects.go *)

Record ownerReference := { own_Kind : string; own_Name : string; own_Controller : bool }.
Record objectMeta := {
  meta_Name : string; meta_Namespace : string; meta_UID : string; meta_CreationTimestamp : time;
  meta_Labels : gmap string string; meta_OwnerReferences : list ownerReference }.
Record condition := {
  cond_Type : string; cond_Status : string; cond_Reason : string; cond_LastTransitionTime : time }.

Definition findCondition (conditions : list condition) (kind : string) : option condition :=
  List.find (λ c, str_eq (cond_Type c) kind) conditions.

(** [unix] is 0 for a time the API left out *)
Definition unix (t : time) : Z := if is_zero t then 0 else to_unix t.

Class ParseFloat := parse_float : string → option float64.

Definition quantity_suffixes : list (string * float64) :=
  [("Ki", of_int (2 ^ 10)); ("Mi", of_int (2 ^ 20)); ("Gi", of_int (2 ^ 30)); ("Ti", of_int (2 ^ 40));
   ("k", of_int 1000); ("M", of_int (10 ^ 6)); ("G", of_int (10 ^ 9)); ("T", of_int (10 ^ 12))].

Section Objects.
Context {Hparse : ParseFloat}.

Fixpoint quantity_from (suffixes : list (string * float64)) (q : string) : float64 :=
  match suffixes with
  | [] => default f0 (parse_float q)
  | (suffix, factor) :: rest =>
      match cut_suffix suffix q with
      | Some number => match parse_float number with Some value => fmul value factor | None => f0 end
      | None => quantity_from rest q
      end
  end.
Definition quantity (q : string) : float64 :=
  match cut_suffix "m" q with
  | Some number => match parse_float number with Some value => fdiv value (of_int 1000) | None => f0 end
  | None => quantity_from quantity_suffixes q
  end.

Record apiNode := {
  an_Metadata : objectMeta; an_Unschedulable : bool; an_Conditions : list condition;
  an_Allocatable : gmap string string; an_KubeletVersion : string }.

Definition roleLabel : string := "node-role.kubernetes.io/".
Definition string_leb (s t : string) : bool := String.leb s t.

Definition node_of (n : apiNode) : Node := {|
  node_Name := meta_Name (an_Metadata n);
  node_Ready := match findCondition (an_Conditions n) "Ready" with
                | Some ready => str_eq (cond_Status ready) "True" | None => false end;
  node_ReadyChanged := match findCondition (an_Conditions n) "Ready" with
                | Some ready => unix (cond_LastTransitionTime ready) | None => 0 end;
  node_Roles := stable_sort string_leb
    (omap (λ label, match cut_prefix roleLabel label with
                    | Some role => if str_eq role "" then None else Some role
                    | None => None end)
       (map fst (map_to_list (meta_Labels (an_Metadata n)))));
  node_KubeletVersion := an_KubeletVersion n;
  node_Unschedulable := an_Unschedulable n;
  node_Pressure := map cond_Type
    (List.filter (λ c, has_suffix (cond_Type c) "Pressure" && str_eq (cond_Status c) "True") (an_Conditions n));
  node_CPUCores := quantity (default "" (an_Allocatable n !! "cpu"));
  node_MemoryBytes := quantity (default "" (an_Allocatable n !! "memory")) |}.
End Objects.

Record apiReplicated := {
  ar_Metadata : objectMeta; ar_Replicas : option Z; ar_ReadyReplicas : Z; ar_AvailableReplicas : Z }.

Definition replicated_workload (r : apiReplicated) (kind : string) : Workload := {|
  wl_Namespace := meta_Namespace (ar_Metadata r); wl_Kind := kind; wl_Name := meta_Name (ar_Metadata r);
  wl_Desired := default 1 (ar_Replicas r); wl_Ready := ar_ReadyReplicas r; wl_Available := ar_AvailableReplicas r |}.

Record apiDaemonSet := {
  ad_Metadata : objectMeta; ad_DesiredNumberScheduled : Z; ad_NumberReady : Z; ad_NumberAvailable : Z }.

Definition daemonset_workload (d : apiDaemonSet) : Workload := {|
  wl_Namespace := meta_Namespace (ad_Metadata d); wl_Kind := "daemonset"; wl_Name := meta_Name (ad_Metadata d);
  wl_Desired := ad_DesiredNumberScheduled d; wl_Ready := ad_NumberReady d; wl_Available := ad_NumberAvailable d |}.

(** The three pointers of a container state: waiting with its reason,
    running, terminated with its reason and end. *)
Record containerState := {
  st_Waiting : option string; st_Running : bool; st_Terminated : option (string * time) }.
Record containerStatus := {
  cst_Name : string; cst_Image : string; cst_ContainerID : string; cst_Ready : bool;
  cst_RestartCount : Z; cst_State : containerState; cst_LastState : containerState }.
Record apiPod := {
  ap_Metadata : objectMeta; ap_NodeName : string; ap_Phase : string; ap_Reason : string;
  ap_Conditions : list condition; ap_InitContainerStatuses : list containerStatus;
  ap_ContainerStatuses : list containerStatus }.

Definition container_of (s : containerStatus) : PodContainer :=
  let '(state, reason) :=
    if st_Running (cst_State s) then ("running", "")
    else match st_Waiting (cst_State s), st_Terminated (cst_State s) with
         | Some r, _ => ("waiting", r)
         | None, Some (r, _) => ("terminated", r)
         | None, None => ("", "")
         end in
  {| ctr_Name := cst_Name s;
     ctr_ID := match cut "://" (cst_ContainerID s) with Some (_, id) => id | None => "" end;
     ctr_Image := cst_Image s; ctr_Ready := cst_Ready s; ctr_Restarts := cst_RestartCount s;
     ctr_State := state; ctr_Reason := reason;
     ctr_LastReason := match st_Terminated (cst_LastState s) with Some (r, _) => r | None => "" end;
     ctr_LastFinished := match st_Terminated (cst_LastState s) with Some (_, t) => unix t | None => 0 end |}.

Definition startingReasons : list string := ["ContainerCreating"; "PodInitializing"].

(** The reason of a waiting container that is not part of a normal start. *)
Definition waiting_reason (s : containerStatus) : option string :=
  match st_Waiting (cst_State s) with
  | Some r => if str_eq r "" || contains startingReasons r then None else Some r
  | None => None
  end.
Definition terminated_reason (s : containerStatus) : option string :=
  match st_Terminated (cst_State s) with
  | Some (r, _) => if str_eq r "" || str_eq r "Completed" then None else Some r
  | None => None
  end.
(** The first element a loop returns from. *)
Fixpoint first_some {A B} (f : A → option B) (l : list A) : option B :=
  match l with
  | [] => None
  | x :: l' => match f x with Some y => Some y | None => first_some f l' end
  end.

Definition unscheduled_reason (conditions : list condition) : option string :=
  match findCondition conditions "PodScheduled" with
  | Some c => if str_eq (cond_Status c) "False" && negb (str_eq (cond_Reason c) "") then Some (cond_Reason c) else None
  | None => None
  end.

Definition reason (p : apiPod) : string :=
  if str_eq (ap_Phase p) "Succeeded" then ""
  else if str_eq (ap_Phase p) "Failed" && negb (str_eq (ap_Reason p) "") then ap_Reason p
  else match unscheduled_reason (ap_Conditions p) with
  | Some r => r
  | None =>
  match first_some waiting_reason (ap_InitContainerStatuses p) with
  | Some r => "Init:" +:+ r
  | None =>
  match first_some waiting_reason (ap_ContainerStatuses p) with
  | Some r => r
  | None => default "" (first_some terminated_reason (ap_ContainerStatuses p))
  end end end.

Definition podWorkload (meta : objectMeta) : string :=
  match List.find own_Controller (meta_OwnerReferences meta) with
  | None => "pod/" +:+ meta_Name meta
  | Some owner =>
      let fallthrough := to_lower (own_Kind owner) +:+ "/" +:+ own_Name owner in
      if str_eq (own_Kind owner) "ReplicaSet" then
        let hash := default "" (meta_Labels meta !! "pod-template-hash") in
        if str_eq hash "" then fallthrough
        else match cut_suffix ("-" +:+ hash) (own_Name owner) with
             | Some deployment => "deployment/" +:+ deployment
             | None => fallthrough
             end
      else if str_eq (own_Kind owner) "Node" then "pod/" +:+ meta_Name meta
      else fallthrough
  end.

Definition pod_of (p : apiPod) : Pod := {|
  pod_Namespace := meta_Namespace (ap_Metadata p); pod_Name := meta_Name (ap_Metadata p);
  pod_UID := meta_UID (ap_Metadata p); pod_Node := ap_NodeName p; pod_Workload := podWorkload (ap_Metadata p);
  pod_Phase := ap_Phase p;
  pod_Ready := match findCondition (ap_Conditions p) "Ready" with
               | Some ready => str_eq (cond_Status ready) "True" | None => false end;
  pod_Reason := reason p; pod_Created := unix (meta_CreationTimestamp (ap_Metadata p));
  pod_Containers := map container_of (ap_ContainerStatuses p) |}.

Record apiEvent := {
  ae_Metadata : objectMeta; ae_ObjKind : string; ae_ObjName : string; ae_ObjNamespace : string;
  ae_Reason : string; ae_Message : string; ae_Count : Z; ae_LastTimestamp : time; ae_EventTime : time;
  (** the series' count and last time *)
  ae_Series : option (Z * time) }.

Definition eventWindow : duration := hour.
Definition maxEvents : Z := 50.

(** When an event was last seen and how often, from its three sources. *)
Definition event_last (e : apiEvent) : time :=
  let last := if after (ae_EventTime e) (ae_LastTimestamp e) then ae_EventTime e else ae_LastTimestamp e in
  match ae_Series e with
  | Some (_, t) => if after t last then t else last
  | None => last
  end.
Definition event_count (e : apiEvent) : Z :=
  match ae_Series e with Some (n, _) => Z.max (ae_Count e) n | None => ae_Count e end.
(** [message[:n] + "…"] for a message longer than [n] bytes *)
Definition cut_message (n : Z) (message : string) : string :=
  if n <? slen message then stake (Z.to_nat n) message +:+ ellipsis else message.
Definition event_of (e : apiEvent) : Event := {|
  ev_Namespace := if str_eq (ae_ObjNamespace e) "" then meta_Namespace (ae_Metadata e) else ae_ObjNamespace e;
  ev_Kind := ae_ObjKind e; ev_Name := ae_ObjName e; ev_Reason := ae_Reason e;
  ev_Message := cut_message 300 (ae_Message e);
  ev_Count := Z.max (event_count e) 1; ev_LastSeen := to_unix (event_last e) |}.

Definition warningEvents (events : list apiEvent) (now : time) : list Event :=
  let kept := List.filter (λ e, negb (eventWindow <? time_sub now (event_last e))) events in
  take_at_most maxEvents (stable_sort (λ a b, ev_LastSeen b <=? ev_LastSeen a) (map event_of kept)).

(** ** client.go *)

(** [list]: the pages of one list.  The server is a parameter: it answers a
    path, a field selector and a continue token (empty for the first page)
    with items and the next token, or with an error.  Its answers may change
    from one request to the next, so a request is numbered. *)
Definition ListServer (T : Type) := nat → string → string → string → result error (list T * string).

Fixpoint list_pages {T} (fuel : nat) (server : ListServer T) (path fieldSelector : string)
    (n : nat) (next : string) (items : list T) : option (result error (list T)) :=
  match fuel with
  | O => None
  | S fuel' =>
      match server n path fieldSelector next with
      | Err e => Some (Err e)
      | Ok (page, continue) =>
          let items := items ++ page in
          if str_eq continue "" then Some (Ok items)
          else list_pages fuel' server path fieldSelector (S n) continue items
      end
  end.

(** The six lists [read] asks for, with the token of this round. *)
Record ApiServer := {
  srv_Nodes : result error (list apiNode); srv_Pods : result error (list apiPod);
  srv_Deployments : result error (list apiReplicated); srv_StatefulSets : result error (list apiReplicated);
  srv_DaemonSets : result error (list apiDaemonSet); srv_Events : result error (list apiEvent) }.

Section Client.
Context {Hparse : ParseFloat}.

(** [token] is the token file's content or the error of reading it. *)
Definition client_read (tokenPath : string) (token : result error string) (srv : ApiServer) (now : time)
    : result error ClusterState :=
  match token with
  | Err e => Err (ErrText ("cannot read the token: " +:+ error_text e))
  | Ok raw =>
  if str_eq (trim_space raw) "" then Err (ErrText ("the token file " +:+ tokenPath +:+ " is empty"))
  else
  nodes ← srv_Nodes srv; pods ← srv_Pods srv; deployments ← srv_Deployments srv;
  statefulSets ← srv_StatefulSets srv; daemonSets ← srv_DaemonSets srv; events ← srv_Events srv;
  Ok {| cs_Cluster := ""; cs_Time := 0; cs_Error := ""; cs_Nodes := map node_of nodes;
        cs_Workloads := map (λ d, replicated_workload d "deployment") deployments
          ++ map (λ s, replicated_workload s "statefulset") statefulSets
          ++ map daemonset_workload daemonSets;
        cs_Pods := map pod_of pods; cs_Events := warningEvents events now |}
  end.

Definition client_Read (tokenPath : string) (token : result error string) (srv : ApiServer)
    (cluster : string) (now : time) : ClusterState :=
  match client_read tokenPath token srv now with
  | Err e => empty_state cluster (to_unix now) (error_text e)
  | Ok s => {| cs_Cluster := cluster; cs_Time := to_unix now; cs_Error := cs_Error s; cs_Nodes := cs_Nodes s;
               cs_Workloads := cs_Workloads s; cs_Pods := cs_Pods s; cs_Events := cs_Events s |}
  end.
End Client.

(** ** Lemmas about restarts *)

Definition no_slash (s : string) : Prop := char_in (chr 47) s = false.

Lemma slash_split s1 t1 s2 t2 : no_slash s1 → no_slash s2 →
  s1 +:+ "/" +:+ t1 = s2 +:+ "/" +:+ t2 → s1 = s2 ∧ t1 = t2.
Proof. intros H1 H2 E. by apply (sep_split (chr 47)). Qed.

(** A state as the API server makes it: a pod's UID is unique and is not a
    path, a pod's name is unique in its namespace, and so is a container's in
    its pod. *)
Record wf_state (s : ClusterState) : Prop := {
  wf_uids : NoDup (map pod_UID (cs_Pods s));
  wf_names : NoDup (map (λ p, (pod_Namespace p, pod_Name p)) (cs_Pods s));
  wf_containers : ∀ p, p ∈ cs_Pods s → NoDup (map ctr_Name (pod_Containers p));
  wf_no_slash : ∀ p, p ∈ cs_Pods s → no_slash (pod_UID p) }.

(** The restarts a list of records counts for one container. *)
Definition rs_of (ns pod ctr : string) (r : Restart) : bool :=
  str_eq (rs_Namespace r) ns && str_eq (rs_Pod r) pod && str_eq (rs_Container r) ctr.
Definition recorded (ns pod ctr : string) (l : list Restart) : Z :=
  zsum (λ r, if rs_of ns pod ctr r then rs_Count r else 0) l.

Definition pod_entries (p : Pod) : list (string * Z) :=
  map (λ c, (container_key (pod_UID p) (ctr_Name c), ctr_Restarts c)) (pod_Containers p).

Lemma before_map_entries pods : before_map pods = insert_all (flat_map pod_entries pods) ∅.
Proof.
  unfold before_map, insert_all. generalize (∅ : gmap string Z).
  induction pods as [|p pods IH]; intros m; simpl; [done|].
  rewrite fold_left_app. rewrite IH. f_equal.
  unfold pod_entries. generalize (pod_Containers p). intros l. revert m.
  induction l as [|c l IHl]; intros m; simpl; [done|]. apply IHl.
Qed.

Lemma entries_nodup s : wf_state s → NoDup (map fst (flat_map pod_entries (cs_Pods s))).
Proof.
  intros [Hu _ Hc Hs]. revert Hu Hc Hs. induction (cs_Pods s) as [|p pods IH]; intros Hu Hc Hs; simpl; [constructor|].
  cbn in Hu. apply NoDup_cons in Hu as [Hp Hu]. rewrite map_app, NoDup_app. split_and!.
  - unfold pod_entries. rewrite map_map. cbn.
    pose proof (Hc p ltac:(by left)) as Hnd. revert Hnd. generalize (pod_Containers p).
    induction l as [|c l IHl]; intros Hnd; simpl; [constructor|]. cbn in Hnd. apply NoDup_cons in Hnd as [Hc0 Hnd].
    constructor; [|auto]. rewrite list_elem_of_fmap. intros (c' & E & Hin). apply Hc0.
    apply slash_split in E as [_ ->]; [|apply Hs; by left..]. by apply list_elem_of_fmap_2.
  - intros k Hk Hk'. apply list_elem_of_fmap in Hk as ([k1 v1] & -> & Hk).
    apply list_elem_of_fmap in Hk' as ([k2 v2] & E & Hk'). cbn in E. subst k2.
    apply list_elem_of_fmap in Hk as (c & [= -> ->] & Hin).
    apply list_elem_of_In, in_flat_map in Hk' as (p' & Hp' & Hk'). apply list_elem_of_In in Hp', Hk'.
    apply list_elem_of_fmap in Hk' as (c' & [= E ->] & Hin').
    apply slash_split in E as [E _]; [|apply Hs; by left|apply Hs; by right].
    apply Hp. rewrite E. by apply list_elem_of_fmap_2.
  - apply IH; [done|intros q Hq; apply Hc; by right|intros q Hq; apply Hs; by right].
Qed.

Lemma before_map_lookup s p c : wf_state s → p ∈ cs_Pods s → c ∈ pod_Containers p →
  before_map (cs_Pods s) !! container_key (pod_UID p) (ctr_Name c) = Some (ctr_Restarts c).
Proof.
  intros Hwf Hp Hc. rewrite before_map_entries. apply lookup_insert_all; [by apply entries_nodup|].
  apply list_elem_of_In, in_flat_map. exists p. split; [by apply list_elem_of_In|].
  apply list_elem_of_In. unfold pod_entries. apply list_elem_of_fmap. by exists c.
Qed.

Lemma before_map_none s uid name : wf_state s → no_slash uid →
  (∀ p c, p ∈ cs_Pods s → c ∈ pod_Containers p → pod_UID p = uid → ctr_Name c ≠ name) →
  before_map (cs_Pods s) !! container_key uid name = None.
Proof.
  intros [_ _ _ Hs] Hu Hn. rewrite before_map_entries, lookup_insert_all_notin; [done|].
  intros Hk. apply list_elem_of_fmap in Hk as ([k v] & E & Hk). cbn in E.
  apply list_elem_of_In, in_flat_map in Hk as (p & Hp & Hk). apply list_elem_of_In in Hp, Hk.
  apply list_elem_of_fmap in Hk as (c & [= -> _] & Hc).
  apply slash_split in E as [E1 E2]; [|done|by apply Hs]. by eapply Hn; eauto.
Qed.

Lemma known_set_spec pods uid : uid ∈ known_set pods ↔ ∃ p, p ∈ pods ∧ pod_UID p = uid.
Proof.
  unfold known_set. rewrite elem_of_list_to_set, list_elem_of_fmap.
  split; intros (p & ? & ?); exists p; auto.
Qed.

(** What one pod records for one of its containers. *)
Lemma pod_recorded before p c : NoDup (map ctr_Name (pod_Containers p)) → c ∈ pod_Containers p →
  recorded (pod_Namespace p) (pod_Name p) (ctr_Name c) (flat_map (container_restart before p) (pod_Containers p))
  = Z.max 0 (new_count before (pod_UID p) c).
Proof.
  intros Hnd Hc. unfold recorded. rewrite zsum_flat_map.
  rewrite (zsum_single _ _ c); [| |done|].
  - unfold container_restart. destruct (Z.leb_spec (new_count before (pod_UID p) c) 0); simpl; [lia|].
    unfold rs_of. cbn. rewrite !str_eq_refl. cbn. lia.
  - eapply NoDup_fmap_1. exact Hnd.
  - intros c' Hc' Hne. apply zsum_zero. intros r Hr. unfold container_restart in Hr.
    destruct (_ <=? 0); [by apply not_elem_of_nil in Hr|]. apply list_elem_of_singleton in Hr as ->.
    unfold rs_of. cbn. destruct (str_eq (ctr_Name c') (ctr_Name c)) eqn:E; [|by rewrite andb_false_r].
    apply str_eq_spec in E. destruct Hne. eapply (NoDup_map_inj ctr_Name); eauto.
Qed.

Lemma pod_recorded_other before prev known p ns pn ctr : (pod_Namespace p, pod_Name p) ≠ (ns, pn) →
  recorded ns pn ctr (pod_restarts prev before known p) = 0.
Proof.
  intros Hne. apply zsum_zero. intros r Hr. unfold pod_restarts in Hr.
  destruct (_ && _); [by apply not_elem_of_nil in Hr|].
  apply list_elem_of_In, in_flat_map in Hr as (c & _ & Hr). apply list_elem_of_In in Hr.
  unfold container_restart in Hr. destruct (_ <=? 0); [by apply not_elem_of_nil in Hr|].
  apply list_elem_of_singleton in Hr as ->. unfold rs_of. cbn.
  destruct (str_eq (pod_Namespace p) ns) eqn:E1; [|done]. destruct (str_eq (pod_Name p) pn) eqn:E2; [|done].
  apply str_eq_spec in E1, E2. congruence.
Qed.

Lemma Restarts_recorded prev next p c :
  wf_state next → p ∈ cs_Pods next → c ∈ pod_Containers p → cs_Time prev ≠ 0 →
  recorded (pod_Namespace p) (pod_Name p) (ctr_Name c) (Restarts prev next)
  = if negb (bool_decide (pod_UID p ∈ known_set (cs_Pods prev))) && (pod_Created p <=? cs_Time prev) then 0
    else Z.max 0 (new_count (before_map (cs_Pods prev)) (pod_UID p) c).
Proof.
  intros [Hu Hn Hcs _] Hp Hc Ht. unfold Restarts. destruct (Z.eqb_spec (cs_Time prev) 0); [done|].
  unfold recorded at 1. rewrite zsum_flat_map.
  change (zsum (λ x, recorded (pod_Namespace p) (pod_Name p) (ctr_Name c)
    (pod_restarts prev (before_map (cs_Pods prev)) (known_set (cs_Pods prev)) x)) (cs_Pods next) = 
    if negb (bool_decide (pod_UID p ∈ known_set (cs_Pods prev))) && (pod_Created p <=? cs_Time prev) then 0
    else Z.max 0 (new_count (before_map (cs_Pods prev)) (pod_UID p) c)).
  rewrite (zsum_single _ _ p); [|by eapply NoDup_fmap_1|done|].
  - unfold pod_restarts. destruct (_ && _); [done|]. by apply pod_recorded; [apply Hcs|].
  - intros q Hq Hne. apply pod_recorded_other. intros E. apply Hne.
    by eapply (NoDup_map_inj (λ p, (pod_Namespace p, pod_Name p))).
Qed.

(** The pod [p] of a state is [ns/pn], and [c] its container [ctr]. *)
Definition shows (s : ClusterState) (ns pn ctr : string) (p : Pod) (c : PodContainer) : Prop :=
  p ∈ cs_Pods s ∧ c ∈ pod_Containers p ∧ pod_Namespace p = ns ∧ pod_Name p = pn ∧ ctr_Name c = ctr.

(** What can have become of the container [ctr] of the pod [ns/pn] between
    two reads, and how many restarts of it are news then.  A pod that is
    replaced keeps its name at most, never its UID. *)
Inductive since (prev next : ClusterState) (ns pn ctr : string) : Z → Prop :=
  | Gone : (∀ p c, ¬ shows next ns pn ctr p c) → since prev next ns pn ctr 0
  | Restarted p c p0 c0 n : shows next ns pn ctr p c →
      p0 ∈ cs_Pods prev → c0 ∈ pod_Containers p0 → pod_UID p0 = pod_UID p → ctr_Name c0 = ctr →
      0 ≤ n → ctr_Restarts c = ctr_Restarts c0 + n → since prev next ns pn ctr n
  | Count_lost p c p0 c0 : shows next ns pn ctr p c →
      p0 ∈ cs_Pods prev → c0 ∈ pod_Containers p0 → pod_UID p0 = pod_UID p → ctr_Name c0 = ctr →
      ctr_Restarts c < ctr_Restarts c0 → since prev next ns pn ctr (ctr_Restarts c)
  | Joined p c p0 : shows next ns pn ctr p c → p0 ∈ cs_Pods prev → pod_UID p0 = pod_UID p →
      (∀ c0, c0 ∈ pod_Containers p0 → ctr_Name c0 ≠ ctr) → since prev next ns pn ctr (ctr_Restarts c)
  | New_pod p c : shows next ns pn ctr p c → (∀ p0, p0 ∈ cs_Pods prev → pod_UID p0 ≠ pod_UID p) →
      cs_Time prev < pod_Created p → since prev next ns pn ctr (ctr_Restarts c)
  | Unknown_past p c : shows next ns pn ctr p c → (∀ p0, p0 ∈ cs_Pods prev → pod_UID p0 ≠ pod_UID p) →
      pod_Created p ≤ cs_Time prev → since prev next ns pn ctr 0.

(** The news of a whole series of states; there are none before the first. *)
Inductive news (ns pn ctr : string) : ClusterState → list ClusterState → Z → Prop :=
  | News_end s : news ns pn ctr s [] 0
  | News_first s s' rest m : cs_Time s = 0 → news ns pn ctr s' rest m → news ns pn ctr s (s' :: rest) m
  | News_more s s' rest n m : cs_Time s ≠ 0 → since s s' ns pn ctr n → news ns pn ctr s' rest m →
      news ns pn ctr s (s' :: rest) (n + m).

(** What is recorded for a container over a series of states. *)
Fixpoint total_recorded (ns pn ctr : string) (s : ClusterState) (rest : list ClusterState) : Z :=
  match rest with
  | [] => 0
  | s' :: rest' => recorded ns pn ctr (Restarts s s') + total_recorded ns pn ctr s' rest'
  end.

(** ** Tests *)

Definition ex_container (name : string) (n : Z) : PodContainer := {|
  ctr_Name := name; ctr_ID := ""; ctr_Image := "img"; ctr_Ready := true; ctr_Restarts := n;
  ctr_State := "running"; ctr_Reason := ""; ctr_LastReason := "OOMKilled"; ctr_LastFinished := 0 |}.
Definition ex_pod (name uid : string) (created n : Z) : Pod := {|
  pod_Namespace := "media"; pod_Name := name; pod_UID := uid; pod_Node := "n1"; pod_Workload := "deployment/web";
  pod_Phase := "Running"; pod_Ready := true; pod_Reason := ""; pod_Created := created;
  pod_Containers := [ex_container "app" n] |}.
Definition ex_state (t : Z) (pods : list Pod) : ClusterState := {|
  cs_Cluster := "homelab"; cs_Time := t; cs_Error := ""; cs_Nodes := []; cs_Workloads := []; cs_Pods := pods;
  cs_Events := [] |}.

Example restarts_ex1 :
  map rs_Count (Restarts (ex_state 100 [ex_pod "a" "u1" 50 3]) (ex_state 130 [ex_pod "a" "u1" 50 5; ex_pod "b" "u2" 120 2; ex_pod "c" "u3" 90 7])) = [2; 2].
Proof. vm_compute. reflexivity. Qed.
Example restarts_ex2 : Restarts (ex_state 0 []) (ex_state 130 [ex_pod "a" "u1" 120 5]) = [].
Proof. vm_compute. reflexivity. Qed.

Lemma ex_state_wf t created n : wf_state (ex_state t [ex_pod "a" "u1" created n]).
Proof.
  constructor; cbn.
  - apply NoDup_singleton.
  - apply NoDup_singleton.
  - intros p Hp. apply list_elem_of_singleton in Hp as ->. apply NoDup_singleton.
  - intros p Hp. apply list_elem_of_singleton in Hp as ->. reflexivity.
Qed.

Lemma ex_state_shows t created n : shows (ex_state t [ex_pod "a" "u1" created n]) "media" "a" "app" (ex_pod "a" "u1" created n) (ex_container "app" n).
Proof. split_and!; try done; by left. Qed.

(** ** Properties *)

(** For a container of a pod in the next state, [Restarts] records its
    growth since the state before when the count did not fall, the whole
    count when it fell or the container was not there before, and nothing
    when the pod was created before the reader first saw it. *)
Lemma Restarts_counts (prev next : ClusterState) (p : Pod) (c : PodContainer)
  (Hprev : wf_state prev) (Hnext : wf_state next) (Htime : cs_Time prev ≠ 0)
  (Hp : p ∈ cs_Pods next) (Hc : c ∈ pod_Containers p) (Hpos : 0 ≤ ctr_Restarts c) :
  let r := recorded (pod_Namespace p) (pod_Name p) (ctr_Name c) (Restarts prev next) in
  (∀ p0 c0, p0 ∈ cs_Pods prev → c0 ∈ pod_Containers p0 → pod_UID p0 = pod_UID p → ctr_Name c0 = ctr_Name c →
     0 ≤ ctr_Restarts c0 →
     r = if ctr_Restarts c0 <=? ctr_Restarts c then ctr_Restarts c - ctr_Restarts c0 else ctr_Restarts c)
  ∧ ((∀ p0, p0 ∈ cs_Pods prev → pod_UID p0 ≠ pod_UID p) →
     r = if pod_Created p <=? cs_Time prev then 0 else ctr_Restarts c)
  ∧ ((∃ p0, p0 ∈ cs_Pods prev ∧ pod_UID p0 = pod_UID p) →
     (∀ p0 c0, p0 ∈ cs_Pods prev → c0 ∈ pod_Containers p0 → pod_UID p0 = pod_UID p → ctr_Name c0 ≠ ctr_Name c) →
     r = ctr_Restarts c).
Proof.
  intros r. subst r. rewrite Restarts_recorded by done. unfold new_count. split_and!.
  - intros p0 c0 Hp0 Hc0 Eu Ec H0. rewrite bool_decide_true; [|apply known_set_spec; eauto].
    cbn [negb andb]. rewrite <- Eu, <- Ec, (before_map_lookup prev p0 c0) by done.
    destruct (Z.leb_spec (ctr_Restarts c0) (ctr_Restarts c)); lia.
  - intros Hnew. rewrite bool_decide_false.
    2:{ rewrite known_set_spec. intros (p0 & Hp0 & E). by destruct (Hnew p0). }
    cbn [negb andb]. destruct (_ <=? _); [done|].
    rewrite before_map_none; [lia|done|by apply (wf_no_slash next)|].
    intros p0 c0 Hp0 _ E. by destruct (Hnew p0).
  - intros Hknown Hn. rewrite bool_decide_true; [|by apply known_set_spec]. cbn [negb andb].
    rewrite before_map_none; [lia|done|by apply (wf_no_slash next)|done].
Qed.

Lemma Restarts_counts_witness :
  recorded "media" "a" "app" (Restarts (ex_state 100 [ex_pod "a" "u1" 50 3]) (ex_state 130 [ex_pod "a" "u1" 50 5])) = 2.
Proof.
  destruct (Restarts_counts (ex_state 100 [ex_pod "a" "u1" 50 3]) (ex_state 130 [ex_pod "a" "u1" 50 5])
    (ex_pod "a" "u1" 50 5) (ex_container "app" 5)) as [H _].
  - apply ex_state_wf.
  - apply ex_state_wf.
  - done.
  - by left.
  - by left.
  - done.
  - apply (H (ex_pod "a" "u1" 50 3) (ex_container "app" 3)); try done; by left.
Defined.

Lemma recorded_gone ns pn ctr prev next : (∀ p c, ¬ shows next ns pn ctr p c) → recorded ns pn ctr (Restarts prev next) = 0.
Proof.
  intros Hno. apply zsum_zero. intros r Hr. unfold Restarts in Hr.
  destruct (_ =? 0); [by apply not_elem_of_nil in Hr|].
  apply list_elem_of_In, in_flat_map in Hr as (p & Hp & Hr). apply list_elem_of_In in Hp, Hr.
  unfold pod_restarts in Hr. destruct (_ && _); [by apply not_elem_of_nil in Hr|].
  apply list_elem_of_In, in_flat_map in Hr as (c & Hc & Hr). apply list_elem_of_In in Hc, Hr.
  unfold container_restart in Hr. destruct (_ <=? 0); [by apply not_elem_of_nil in Hr|].
  apply list_elem_of_singleton in Hr as ->. unfold rs_of. cbn.
  destruct (str_eq (pod_Namespace p) ns) eqn:E1; [|done]. destruct (str_eq (pod_Name p) pn) eqn:E2; [|done].
  destruct (str_eq (ctr_Name c) ctr) eqn:E3; [|done]. apply str_eq_spec in E1, E2, E3.
  by destruct (Hno p c).
Qed.

(** The kubelet's counts are never negative. *)
Definition counts_natural (s : ClusterState) : Prop :=
  ∀ p c, p ∈ cs_Pods s → c ∈ pod_Containers p → 0 ≤ ctr_Restarts c.

Lemma Restarts_since (prev next : ClusterState) (ns pn ctr : string) :
  wf_state prev → wf_state next → counts_natural prev → counts_natural next → cs_Time prev ≠ 0 →
  since prev next ns pn ctr (recorded ns pn ctr (Restarts prev next)).
Proof.
  intros Hwp Hwn Hnp Hnn Ht.
  destruct (decide (Exists (λ p, Exists (λ c, (pod_Namespace p, pod_Name p, ctr_Name c) = (ns, pn, ctr)) (pod_Containers p)) (cs_Pods next)))
    as [Hex|Hno].
  2:{ assert (Hgone : ∀ p c, ¬ shows next ns pn ctr p c).
      { intros p c (Hp & Hc & <- & <- & <-). apply Hno, Exists_exists. exists p. split; [done|]. apply Exists_exists. by exists c. }
      rewrite recorded_gone by done. by apply Gone. }
  apply Exists_exists in Hex as (p & Hp & Hex). apply Exists_exists in Hex as (c & Hc & [= <- <- <-]).
  assert (Hs : shows next (pod_Namespace p) (pod_Name p) (ctr_Name c) p c) by done.
  destruct (Restarts_counts prev next p c Hwp Hwn Ht Hp Hc (Hnn p c Hp Hc)) as (Hold & Hnew & Hjoined).
  destruct (decide (Exists (λ p0, pod_UID p0 = pod_UID p) (cs_Pods prev))) as [Hk|Hk].
  - apply Exists_exists in Hk as (p0 & Hp0 & Eu).
    destruct (decide (Exists (λ c0, ctr_Name c0 = ctr_Name c) (pod_Containers p0))) as [Hk|Hk].
    + apply Exists_exists in Hk as (c0 & Hc0 & Ec). rewrite (Hold p0 c0) by eauto.
      destruct (Z.leb_spec (ctr_Restarts c0) (ctr_Restarts c)).
      * eapply (Restarted _ _ _ _ _ p c p0 c0); eauto; lia.
      * by eapply (Count_lost _ _ _ _ _ p c p0 c0).
    + rewrite Exists_exists in Hk. assert (Hn : ∀ c0, c0 ∈ pod_Containers p0 → ctr_Name c0 ≠ ctr_Name c) by eauto.
      rewrite Hjoined; [by eapply (Joined _ _ _ _ _ p c p0)|by exists p0|].
      intros q c0 Hq Hc0 Eq. assert (q = p0) as -> by (eapply (NoDup_map_inj pod_UID); [apply Hwp|done|done|congruence]). by apply Hn.
  - rewrite Exists_exists in Hk. assert (Hn : ∀ p0, p0 ∈ cs_Pods prev → pod_UID p0 ≠ pod_UID p) by eauto.
    rewrite Hnew by done. destruct (Z.leb_spec (pod_Created p) (cs_Time prev)).
    + by eapply (Unknown_past _ _ _ _ _ p c).
    + by eapply (New_pod _ _ _ _ _ p c).
Qed.

Lemma since_recorded (prev next : ClusterState) (ns pn ctr : string) (n : Z) :
  wf_state prev → wf_state next → counts_natural prev → counts_natural next → cs_Time prev ≠ 0 →
  since prev next ns pn ctr n → n = recorded ns pn ctr (Restarts prev next).
Proof.
  intros Hwp Hwn Hnp Hnn Ht.
  intros Hs. destruct Hs as [Hno|p c p0 c0 n Hs Hp0 Hc0 Eu Ec H0 E|p c p0 c0 Hs Hp0 Hc0 Eu Ec E|p c p0 Hs Hp0 Eu Hj|p c Hs Hu E|p c Hs Hu E].
  { by rewrite recorded_gone. }
  all: pose proof Hs as (Hp & Hc & <- & <- & <-); destruct (Restarts_counts prev next p c Hwp Hwn Ht Hp Hc (Hnn p c Hp Hc)) as (Hold & Hnew & Hjoined).
  - rewrite (Hold p0 c0) by eauto. destruct (Z.leb_spec (ctr_Restarts c0) (ctr_Restarts c)); lia.
  - rewrite (Hold p0 c0) by eauto. by destruct (Z.leb_spec (ctr_Restarts c0) (ctr_Restarts c)); [lia|].
  - rewrite Hjoined; [done|by exists p0|]. intros q c0 Hq Hc0 Eq.
    assert (q = p0) as -> by (eapply (NoDup_map_inj pod_UID); [apply Hwp|done|done|congruence]). by apply Hj.
  - rewrite Hnew by done. by destruct (Z.leb_spec (pod_Created p) (cs_Time prev)); [lia|].
  - rewrite Hnew by done. by destruct (Z.leb_spec (pod_Created p) (cs_Time prev)); [|lia].
Qed.

(** C33: Over any series of states, what is recorded for a container is
    exactly the news of it, each restart once: the growth of its count while
    its pod lives, the whole count when it fell (the kubelet counts from zero
    again) and when the container or its pod is new since the state before,
    and nothing for a past that was never seen, a container that is gone, or
    a cluster's first state; and the news of a series are one number. *)
Theorem Restarts_are_news (ns pn ctr : string) (s0 : ClusterState) (rest : list ClusterState)
  (Hall : Forall (λ s, wf_state s ∧ counts_natural s) (s0 :: rest)) (n : Z) :
  news ns pn ctr s0 rest n ↔ n = total_recorded ns pn ctr s0 rest.
Proof.
  revert s0 n Hall. induction rest as [|s1 rest IH]; intros s0 n Hall; cbn [total_recorded].
  { split; [by inversion 1|intros ->; constructor]. }
  apply Forall_cons in Hall as [[Hw0 Hn0] Hall]. pose proof Hall as [[Hw1 Hn1] _]%Forall_cons. split.
  - inversion 1 as [|? ? ? ? Ht Hm|? ? ? k m Ht Hk Hm]; subst; apply IH in Hm as ->; try done.
    + unfold Restarts. by rewrite (proj2 (Z.eqb_eq _ _) Ht).
    + f_equal. by apply since_recorded.
  - intros ->. destruct (decide (cs_Time s0 = 0)) as [Ht|Ht].
    + unfold Restarts at 1. rewrite (proj2 (Z.eqb_eq _ _) Ht). apply News_first; [done|]. by apply IH.
    + apply News_more; [done|by apply Restarts_since|by apply IH].
Qed.

Lemma Restarts_are_news_witness :
  total_recorded "media" "a" "app" (ex_state 100 [ex_pod "a" "u1" 50 3])
    [ex_state 130 [ex_pod "a" "u1" 50 5]; ex_state 160 [ex_pod "a" "u1" 50 1]] = 3.
Proof.
  symmetry. apply (Restarts_are_news "media" "a" "app").
  - repeat (apply Forall_cons; split; [split; [apply ex_state_wf|]|]); [..|by apply Forall_nil];
      intros p c Hp Hc; apply list_elem_of_singleton in Hp as ->; by apply list_elem_of_singleton in Hc as ->.
  - apply (News_more _ _ _ _ _ _ 2 1); [done| |apply (News_more _ _ _ _ _ _ 1 0); [done| |constructor]].
    + eapply (Restarted _ _ _ _ _ (ex_pod "a" "u1" 50 5) (ex_container "app" 5) (ex_pod "a" "u1" 50 3) (ex_container "app" 3));
        [apply (ex_state_shows 130 50 5)|by left|by left|done..].
    + eapply (Count_lost _ _ _ _ _ (ex_pod "a" "u1" 50 1) (ex_container "app" 1) (ex_pod "a" "u1" 50 5) (ex_container "app" 5));
        [apply (ex_state_shows 160 50 1)|by left|by left|done..].
Defined.

(** ** The pages of a list *)

Section Pages.
Context {T : Type} (server : ListServer T) (path fieldSelector : string).

(** The token of the [k]-th request, when [list] comes that far, and the
    items it has by then *)
Fixpoint request (k : nat) : option (string * list T) :=
  match k with
  | O => Some ("", [])
  | S k' =>
      '(token, items) ← request k';
      match server k' path fieldSelector token with
      | Ok (page, continue) => if str_eq continue "" then None else Some (continue, items ++ page)
      | Err _ => None
      end
  end.

(** The [k]-th request is the last one, and this is what comes of it *)
Definition list_ends (k : nat) (r : result error (list T)) : Prop :=
  match request k with
  | Some (token, items) =>
      match server k path fieldSelector token with
      | Ok (page, continue) => continue = "" ∧ r = Ok (items ++ page)
      | Err e => r = Err e
      end
  | None => False
  end.

Lemma list_pages_from fuel n token items r : request n = Some (token, items) →
  list_pages fuel server path fieldSelector n token items = Some r ↔ ∃ k, (n ≤ k < n + fuel)%nat ∧ list_ends k r.
Proof.
  revert n token items. induction fuel as [|fuel IH]; intros n token items Hn; cbn; [split; [done|]; intros (k & ? & _); lia|].
  assert (En : ∀ r, list_ends n r ↔ match server n path fieldSelector token with
    | Ok (page, continue) => continue = "" ∧ r = Ok (items ++ page) | Err e => r = Err e end)
    by (intros r'; unfold list_ends; by rewrite Hn).
  assert (Es : request (S n) = match server n path fieldSelector token with
    | Ok (page, continue) => if str_eq continue "" then None else Some (continue, items ++ page) | Err _ => None end)
    by (cbn; by rewrite Hn).
  assert (Hlater : ∀ k, (n < k)%nat → request (S n) = None → ¬ list_ends k r).
  { intros k Hk Hs. assert (Hnone : request k = None); [|intros Hc; unfold list_ends in Hc; by rewrite Hnone in Hc].
    induction Hk as [|k Hk IHk]; [done|]. cbn. by rewrite IHk. }
  destruct (server n path fieldSelector token) as [[page continue]|e].
  2:{ split; [intros [= <-]; exists n; split; [lia|by apply En]|]. intros (k & Hk & Hr).
      destruct (decide (k = n)) as [->|]; [apply En in Hr; by rewrite Hr|]. by destruct (Hlater k ltac:(lia) Es). }
  destruct (str_eq continue "") eqn:Ec.
  - apply str_eq_spec in Ec. split; [intros [= <-]; exists n; split; [lia|by apply En]|]. intros (k & Hk & Hr).
    destruct (decide (k = n)) as [->|]; [apply En in Hr as [_ ->]; done|]. by destruct (Hlater k ltac:(lia) Es).
  - rewrite (IH _ _ _ Es). split; intros (k & Hk & Hr); exists k; (split; [|done]); [lia|].
    destruct (decide (k = n)) as [->|]; [|lia]. apply En in Hr as [-> _]. done.
Qed.

(** C39: [list] returns exactly when the server's chain of continue tokens
    ends: with the items of all pages in order when the last answer has no
    token, with the error when one fails, after one request per page; a
    server that always hands out another token keeps it asking for ever. *)
Theorem list_returns (fuel : nat) (r : result error (list T)) :
  list_pages fuel server path fieldSelector 0 "" [] = Some r ↔ ∃ k, (k < fuel)%nat ∧ list_ends k r.
Proof.
  rewrite (list_pages_from fuel 0 "" []) by done. split; intros (k & Hk & Hr); exists k; (split; [lia|done]).
Qed.
End Pages.
