(* ===== verification/Commands.v ===== *)
(** * src/internal/command/command.go: running a command, and the address a
    request came from.  Nothing of the repository calls it any more.  And the
    line of src/internal/logger/logger.go.

    The processes and the parser of addresses are parameters. *)
From S2P Require Import Prelude GoStrings Errors Monitor.
Local Open Scope Z_scope.

(** The line the standard logger is given *)
Definition Log (prefix msg : string) : string := prefix +:+ " " +:+ msg.

Section Execute.
(** [exec.Command(name, args...).Output()] *)
Context (output : string → list string → result error string).

Definition Execute (command : string) (isUsingPipes : bool) (params : list string) : string :=
  match (if isUsingPipes then output "bash" ["-c"; command] else output command params) with
  | Ok stdout => stdout
  | Err err => error_text err
  end.

(** [None] is the panic of an index out of range. *)
Definition GetExecPath (cmd : string) : option string :=
  match fields (trim_space (Execute "whereis" false [cmd])) with
  | [_] => Some ""
  | [] => None
  | _ :: path :: _ => Some path
  end.
End Execute.

Definition ByteToM (input : Z) : Z := if input =? 0 then 0 else input / (1024 * 1024).

(** The first of X-REAL-IP, the addresses of X-FORWARDED-FOR as they stand
    between its commas, and the peer's that is an address *)
Definition GetIncomingIPAddr (is_ip : string → bool) (split_host : string → result error string)
    (real_ip forwarded_for remote : string) : result error string :=
  if is_ip real_ip then Ok real_ip
  else match List.find is_ip (split_byte (chr 44) forwarded_for) with
  | Some ip => Ok ip
  | None =>
      match split_host remote with
      | Err err => Err err
      | Ok ip => if is_ip ip then Ok ip else Err (ErrText "could not find valid ip for request")
      end
  end.

Lemma GetIncomingIPAddr_valid is_ip split_host real forwarded remote ip :
  GetIncomingIPAddr is_ip split_host real forwarded remote = Ok ip → is_ip ip = true.
Proof.
  unfold GetIncomingIPAddr. destruct (is_ip real) eqn:Er; [by intros [= <-]|].
  destruct (List.find _ _) as [x|] eqn:Ef; [intros [= <-]; by apply find_some in Ef as [_ Ef]|].
  destruct (split_host remote) as [x|]; [|done]. destruct (is_ip x) eqn:Ex; [by intros [= <-]|done].
Qed.

(** A machine without whereis: the second word of the error is the path. *)
Example error_as_path :
  GetExecPath (λ _ _, Err (ErrOther "exec: not found in $PATH")) "df" = Some "not".
Proof. vm_compute. reflexivity. Qed.
