(* ===== verification/KubeClient.v ===== *)
(** * The HTTP side of the cluster reader: [NewClient], [list], [get] and
    [statusMessage] of src/internal/kube/client.go.

    The API server answers a GET of a URL with the bearer token; requests are
    numbered, since its answers may change.  JSON decoders are parameters.
    [client_Read] of Kube.v is run on what the six lists gave. *)
From S2P Require Import Prelude GoStrings GoTime Errors Monitor Alerts Kube.
From Stdlib Require Import Ascii.
Local Open Scope Z_scope.

(** ** NewClient *)

(** What the CA file holds: its text, or the error of reading it *)
Record KubeClient := { kc_base : string; kc_tokenPath : string }.

(** [url_String] is [base.String()], [has_certificate] is AppendCertsFromPEM. *)
Definition NewClient `{UrlParse} (url_String : string → string) (has_certificate : string → bool)
    (apiURL caPath : string) (ca : result error string) (tokenPath : string) : result error KubeClient :=
  let trimmed := trim_right "/" apiURL in
  let client := Ok {| kc_base := url_String trimmed; kc_tokenPath := tokenPath |} in
  match url_Parse trimmed with
  | Some base =>
      if negb (str_eq (url_Scheme base) "https") || str_eq (url_Host base) ""
      then Err (ErrText ("the API URL " +:+ quote apiURL +:+ " is not an https:// URL"))
      else if str_eq caPath "" then client
      else match ca with
           | Err err => Err (ErrWrap "cannot read the cluster CA" err)
           | Ok pem => if has_certificate pem then client else Err (ErrText ("no certificate in " +:+ caPath))
           end
  | None => Err (ErrText ("the API URL " +:+ quote apiURL +:+ " is not an https:// URL"))
  end.

(** ** Requests *)

(** [url.Values.Encode] of single values: the keys in order, both sides
    escaped *)
Definition query_byte (c : ascii) : string :=
  let b := byte_of c in
  if (48 <=? b) && (b <=? 57) || (65 <=? b) && (b <=? 90) || (97 <=? b) && (b <=? 122)
     || (b =? 45) || (b =? 46) || (b =? 95) || (b =? 126) then String c ""
  else if b =? 32 then "+"
  else "%" +:+ str1 (if b / 16 <? 10 then 48 + b / 16 else 55 + b / 16) +:+ str1 (if b mod 16 <? 10 then 48 + b mod 16 else 55 + b mod 16).
Fixpoint query_escape (s : string) : string :=
  match s with "" => "" | String c s' => query_byte c +:+ query_escape s' end.
Definition encode_query (values : list (string * string)) : string :=
  join "&" (map (λ kv, query_escape kv.1 +:+ "=" +:+ query_escape kv.2) values).

Definition listLimit : Z := 500.
Definition list_query (fieldSelector next : string) : string := encode_query
  ((if str_eq next "" then [] else [("continue", next)])
   ++ (if str_eq fieldSelector "" then [] else [("fieldSelector", fieldSelector)])
   ++ [("limit", itoa listLimit)]).

Record KubeResponse := { kr_StatusCode : Z; kr_Status : string; kr_Body : string }.
(** Request number n with a token for a URL.  The error is the cause in the
    [url.Error]. *)
Definition KubeHTTP := nat → string → string → result error KubeResponse.

(** encoding/json on the bodies: a page of a list with its continue token,
    and the message of a Status *)
Class KubeJSON := {
  dec_nodes : string → result error (list apiNode * string);
  dec_pods : string → result error (list apiPod * string);
  dec_replicated : string → result error (list apiReplicated * string);
  dec_daemonsets : string → result error (list apiDaemonSet * string);
  dec_events : string → result error (list apiEvent * string);
  (** of at most so many bytes *)
  dec_status : Z → string → option string }.

Section Requests.
Context `{KubeJSON} (c : KubeClient) (http : KubeHTTP) (token : string).

Definition statusMessage (body : string) : string :=
  match dec_status 65536 body with
  | None => ""
  | Some message => if str_eq message "" then "" else ": " +:+ cut_message 200 message
  end.

Definition client_get {A} (n : nat) (pathAndQuery : string) (decode : string → result error A) : result error A :=
  let path := match cut "?" pathAndQuery with Some (path, _) => path | None => pathAndQuery end in
  match http n token (kc_base c +:+ pathAndQuery) with
  | Err err => Err (ErrWrap ("cannot reach the API for " +:+ path) err)
  | Ok resp =>
      if negb (kr_StatusCode resp =? 200)
      then Err (ErrText ("the API answered " +:+ kr_Status resp +:+ " for " +:+ path +:+ statusMessage (kr_Body resp)))
      else match decode (kr_Body resp) with
           | Err err => Err (ErrWrap ("cannot decode " +:+ path) err)
           | Ok page => Ok page
           end
  end.

(** The server [list_pages] asks, made of [get] *)
Definition page_server {T} (decode : string → result error (list T * string)) : ListServer T :=
  λ n path fieldSelector next, client_get n (path +:+ "?" +:+ list_query fieldSelector next) decode.

(** [list], when the reader's time is enough for so many requests: the next
    one is cut by the deadline. *)
Definition list_all {T} (requests : nat) (decode : string → result error (list T * string)) (path fieldSelector : string) : result error (list T) :=
  match list_pages requests (page_server decode) path fieldSelector 0 "" [] with
  | Some r => r
  | None => Err (ErrWrap ("cannot reach the API for " +:+ path) ErrDeadlineExceeded)
  end.

(** The six lists [read] makes, in its order.  Each has its own answers. *)
Definition api_server (requests : nat) : ApiServer := {|
  srv_Nodes := list_all requests dec_nodes "/api/v1/nodes" "";
  srv_Pods := list_all requests dec_pods "/api/v1/pods" "";
  srv_Deployments := list_all requests dec_replicated "/apis/apps/v1/deployments" "";
  srv_StatefulSets := list_all requests dec_replicated "/apis/apps/v1/statefulsets" "";
  srv_DaemonSets := list_all requests dec_daemonsets "/apis/apps/v1/daemonsets" "";
  srv_Events := list_all requests dec_events "/api/v1/events" "type=Warning" |}.
End Requests.

Example query_ex : list_query "type=Warning" "a/b c" = "continue=a%2Fb+c&fieldSelector=type%3DWarning&limit=500".
Proof. reflexivity. Qed.

(** A page that cannot be had, for whatever reason, names the path and not
    the query: a continue token is in no error. *)
Lemma get_errors `{KubeJSON} (c : KubeClient) (http : KubeHTTP) (token : string) {A} n path query (decode : string → result error A) err :
  char_in (chr 63) path = false → client_get c http token n (path +:+ "?" +:+ query) decode = Err err →
  (∃ cause, err = ErrWrap ("cannot reach the API for " +:+ path) cause)
  ∨ (∃ resp, kr_StatusCode resp ≠ 200 ∧ err = ErrText ("the API answered " +:+ kr_Status resp +:+ " for " +:+ path +:+ statusMessage (kr_Body resp)))
  ∨ ∃ cause, err = ErrWrap ("cannot decode " +:+ path) cause.
Proof.
  intros Hp. unfold client_get. assert (E : cut "?" (path +:+ "?" +:+ query) = Some (path, query)).
  { revert Hp. induction path as [|x path IH]; intros Hp; [done|].
    cbn in Hp. apply orb_false_iff in Hp as [Hx Hp]. rewrite append_cons. cbn [cut cut_prefix].
    rewrite decide_False; [by rewrite IH|]. intros <-. done. }
  rewrite E. destruct (http n token _) as [resp|cause]; [|intros [= <-]; left; by exists cause].
  destruct (Z.eqb_spec (kr_StatusCode resp) 200) as [_|Hne]; cbn [negb].
  - destruct (decode _) as [page|cause]; [done|]. intros [= <-]. right. right. by exists cause.
  - intros [= <-]. right. left. by exists resp.
Qed.
