(* ===== verification/Tasks.v ===== *)
(** * The tasks file of a host: src/internal/tasks/tasks.go.

    [Validate_tasks] trims names and fills in the default timeout while it
    checks; on an error the tasks before the bad one keep those changes, so
    it returns the list with its outcome.  [Load] is modelled from what the
    operating system says of the file; the JSON decoder is a parameter. *)
From S2P Require Import Prelude GoStrings GoTime Errors Monitor Kube.
Local Open Scope Z_scope.

Definition defaultTimeoutSeconds : Z := 300.
Definition maxTimeoutSeconds : Z := 24 * 60 * 60.
Definition maxTasks : Z := 50.
Definition maxNameLength : Z := 64.
Definition maxDescriptionLength : Z := 200.
Definition maxCommandLength : Z := 4096.
Definition maxFileSize : Z := 2 ^ 20.

Record Task := {
  task_Name : string; task_Description : string; task_Command : string; task_TimeoutSeconds : Z }.
#[global] Instance Task_eq_dec : EqDecision Task.
Proof. solve_decision. Defined.

Definition Timeout (task : Task) : duration := seconds (task_TimeoutSeconds task).

(** The assignments at the start of [validate]. *)
Definition fill_task (task : Task) : Task := {|
  task_Name := trim_space (task_Name task);
  task_Description := trim_space (task_Description task);
  task_Command := task_Command task;
  task_TimeoutSeconds := if task_TimeoutSeconds task =? 0 then defaultTimeoutSeconds else task_TimeoutSeconds task |}.

(** [strings.ContainsRune(s, 0)] *)
Definition contains_nul (s : string) : bool := char_in (chr 0) s.

Definition validate_filled (task : Task) : result error unit :=
  if str_eq (task_Name task) "" then Err (ErrText "a task needs a Name")
  else if maxNameLength <? rune_count (task_Name task)
  then Err (ErrText ("a Name can be at most " +:+ itoa maxNameLength +:+ " characters"))
  else if contains_func (task_Name task) is_control then Err (ErrText "a Name is one line of text")
  else if maxDescriptionLength <? rune_count (task_Description task)
  then Err (ErrText ("a Description can be at most " +:+ itoa maxDescriptionLength +:+ " characters"))
  else if contains_func (task_Description task) is_control then Err (ErrText "a Description is one line of text")
  else if str_eq (trim_space (task_Command task)) "" then Err (ErrText "a task needs a Command")
  else if maxCommandLength <? slen (task_Command task)
  then Err (ErrText ("a Command can be at most " +:+ itoa maxCommandLength +:+ " bytes, put longer ones in a script"))
  else if contains_nul (task_Command task) then Err (ErrText "a Command cannot hold a NUL character")
  else if (task_TimeoutSeconds task <? 0) || (maxTimeoutSeconds <? task_TimeoutSeconds task)
  then Err (ErrText ("TimeoutSeconds goes from 1 to " +:+ itoa maxTimeoutSeconds))
  else Ok ().

Fixpoint validate_from (i : Z) (names : list string) (tasks : list Task) : result error unit * list Task :=
  match tasks with
  | [] => (Ok (), [])
  | task :: rest =>
      let task := fill_task task in
      match validate_filled task with
      | Err e => (Err (ErrText ("task " +:+ itoa (i + 1) +:+ " " +:+ quote (task_Name task) +:+ ": " +:+ error_text e)), task :: rest)
      | Ok _ =>
          if contains names (task_Name task)
          then (Err (ErrText ("task " +:+ itoa (i + 1) +:+ ": there is already a task named " +:+ quote (task_Name task))), task :: rest)
          else let '(r, rest') := validate_from (i + 1) (task_Name task :: names) rest in (r, task :: rest')
      end
  end.

Definition Validate_tasks (tasks : list Task) : result error unit * list Task :=
  if maxTasks <? len tasks
  then (Err (ErrText ("a host can list at most " +:+ itoa maxTasks +:+ " tasks")), tasks)
  else validate_from 0 [] tasks.

Definition Find (tasks : list Task) (name : string) : option Task :=
  List.find (λ task, str_eq (task_Name task) name) tasks.

(** ** Loading the file *)

(** What [file.Stat] says: the permission bits, the owner when the system
    knows one, and whether it is a regular file. *)
Record FileInfo := { fi_regular : bool; fi_perm : Z; fi_uid : option Z }.

Definition checkOwner (euid : Z) (info : FileInfo) : result error unit :=
  if negb (fi_regular info) then Err (ErrText "not a regular file")
  else if negb (Z.land (fi_perm info) 18 =? 0)
  then Err (ErrText "group or others can write to it, run chmod go-w on it")
  else match fi_uid info with
       | Some uid => if negb (uid =? 0) && negb (uid =? euid)
                     then Err (ErrText "it has to belong to root or to the user the agent runs as") else Ok ()
       | None => Ok ()
       end.

(** What is at a path: nothing, or a file that opens with these attributes
    and content, or an error. *)
Inductive FileAt := NoFile | OpenFails (e : error) | File (info : FileInfo) (data : result error string).

(** The decoder of [strictjson.Unmarshal] into [[]Task]. *)
Class DecodeTasks := decode_tasks : string → result error (list Task).

Section Load.
Context {Hdec : DecodeTasks}.

Definition Parse_tasks (data : string) : result error (list Task) :=
  tasks ← decode_tasks data;
  match Validate_tasks tasks with
  | (Ok _, tasks') => Ok tasks'
  | (Err e, _) => Err e
  end.

Definition Load (euid : Z) (path : string) (f : FileAt) : result error (list Task) :=
  if str_eq path "" then Ok []
  else match f with
  | NoFile => Ok []
  | OpenFails e => Err e
  | File info data =>
      match checkOwner euid info with
      | Err e => Err (ErrText (path +:+ ": " +:+ error_text e))
      | Ok _ =>
          data ← data;
          (* io.LimitReader(file, maxFileSize+1) *)
          let data := stake (Z.to_nat (maxFileSize + 1)) data in
          if maxFileSize <? slen data then Err (ErrText (path +:+ ": too big for a tasks file"))
          else match Parse_tasks data with
               | Ok tasks => Ok tasks
               | Err e => Err (ErrText (path +:+ ": " +:+ error_text e))
               end
      end
  end.
End Load.

(** ** What a valid list is *)

Record valid_task (task : Task) : Prop := {
  vt_name : task_Name task ≠ "" ∧ trim_space (task_Name task) = task_Name task
    ∧ rune_count (task_Name task) ≤ 64 ∧ contains_func (task_Name task) is_control = false;
  vt_description : trim_space (task_Description task) = task_Description task
    ∧ rune_count (task_Description task) ≤ 200 ∧ contains_func (task_Description task) is_control = false;
  vt_command : trim_space (task_Command task) ≠ "" ∧ slen (task_Command task) ≤ 4096
    ∧ contains_nul (task_Command task) = false;
  vt_timeout : 1 ≤ task_TimeoutSeconds task ≤ 86400 }.

Record valid_tasks (tasks : list Task) : Prop := {
  vts_count : len tasks ≤ 50;
  vts_each : Forall valid_task tasks;
  vts_names : NoDup (map task_Name tasks) }.

Lemma fill_task_trimmed task : trim_space (task_Name (fill_task task)) = task_Name (fill_task task)
  ∧ trim_space (task_Description (fill_task task)) = task_Description (fill_task task)
  ∧ task_TimeoutSeconds (fill_task task) ≠ 0.
Proof.
  cbn. rewrite !trim_space_idemp. split_and!; [done..|].
  destruct (Z.eqb_spec (task_TimeoutSeconds task) 0); [done|lia].
Qed.

Lemma validate_filled_spec task :
  match validate_filled (fill_task task) with
  | Ok _ => valid_task (fill_task task)
  | Err _ => ¬ valid_task (fill_task task)
  end.
Proof.
  destruct (fill_task_trimmed task) as (Hn & Hd & Ht). revert Hn Hd Ht.
  generalize (fill_task task). clear task. intros task Hn Hd Ht.
  unfold validate_filled, maxNameLength, maxDescriptionLength, maxCommandLength, maxTimeoutSeconds.
  destruct (str_eq (task_Name task) "") eqn:E1; [apply str_eq_spec in E1; intros [(? & _) _ _ _]; done|].
  destruct (Z.ltb_spec 64 (rune_count (task_Name task))); [intros [(_ & _ & ? & _) _ _ _]; lia|].
  destruct (contains_func (task_Name task) is_control) eqn:?; [intros [(_ & _ & _ & ?) _ _ _]; congruence|].
  destruct (Z.ltb_spec 200 (rune_count (task_Description task))); [intros [_ (_ & ? & _) _ _]; lia|].
  destruct (contains_func (task_Description task) is_control) eqn:?; [intros [_ (_ & _ & ?) _ _]; congruence|].
  destruct (str_eq (trim_space (task_Command task)) "") eqn:E2; [apply str_eq_spec in E2; intros [_ _ (? & _) _]; done|].
  destruct (Z.ltb_spec 4096 (slen (task_Command task))); [intros [_ _ (_ & ? & _) _]; lia|].
  destruct (contains_nul (task_Command task)) eqn:?; [intros [_ _ (_ & _ & ?) _]; congruence|].
  destruct ((task_TimeoutSeconds task <? 0) || _) eqn:E3; [intros [_ _ _ ?]; lia|].
  constructor; split_and!; try done; try lia; rewrite <- str_eq_spec; congruence.
Qed.

Lemma validate_from_spec tasks : ∀ i names,
  match validate_from i names tasks with
  | (Ok _, out) => out = map fill_task tasks ∧ Forall valid_task out ∧ NoDup (map task_Name out)
                   ∧ Forall (λ t, task_Name t ∉ names) out
  | (Err _, _) => ¬ (Forall valid_task (map fill_task tasks) ∧ NoDup (map task_Name (map fill_task tasks))
                   ∧ Forall (λ t, task_Name t ∉ names) (map fill_task tasks))
  end.
Proof.
  induction tasks as [|task tasks IH]; intros i names; [simpl; split_and!; constructor|].
  cbn [validate_from map]. pose proof (validate_filled_spec task) as Hs.
  destruct (validate_filled (fill_task task)); [|rewrite Forall_cons; tauto].
  destruct (contains names _) eqn:E; [apply contains_spec in E; rewrite !Forall_cons; tauto|].
  assert (Hn : task_Name (fill_task task) ∉ names) by (rewrite <- contains_spec; congruence).
  specialize (IH (i + 1) (task_Name (fill_task task) :: names)).
  assert (Hfa : ∀ l, Forall (λ t, task_Name t ∉ task_Name (fill_task task) :: names) l ↔
     Forall (λ t, task_Name t ∉ names) l ∧ task_Name (fill_task task) ∉ map task_Name l).
  { intros l. rewrite !Forall_forall, list_elem_of_fmap. setoid_rewrite not_elem_of_cons. split.
    - intros Hl. split; [intros x Hx; by apply Hl|intros (y & Hy & Hin); by destruct (Hl y Hin)].
    - intros [Hl Hx] y Hy. split; [intros Heq; apply Hx; eauto|auto]. }
  destruct (validate_from _ _ tasks) as [[[]|e] rest].
  - destruct IH as (-> & ? & ? & Hf). apply Hfa in Hf as [? ?].
    rewrite !Forall_cons; cbn [map]; rewrite NoDup_cons. tauto.
  - rewrite !Forall_cons; cbn [map]; rewrite NoDup_cons. intros ([? ?] & [? ?] & [? ?]).
    apply IH. split_and!; auto. apply Hfa. done.
Qed.

Lemma len_map {A B} (f : A → B) l : len (map f l) = len l.
Proof. unfold len. by rewrite length_map. Qed.

Lemma Validate_tasks_spec tasks :
  match Validate_tasks tasks with
  | (Ok _, out) => out = map fill_task tasks ∧ valid_tasks out
  | (Err _, _) => ¬ valid_tasks (map fill_task tasks)
  end.
Proof.
  unfold Validate_tasks, maxTasks. destruct (Z.ltb_spec 50 (len tasks)).
  { intros [Hc _ _]. rewrite len_map in Hc. lia. }
  pose proof (validate_from_spec tasks 0 []) as Hs.
  destruct (validate_from 0 [] tasks) as [[[]|e] out].
  - destruct Hs as (-> & ? & ? & _). split; [done|]. constructor; [by rewrite len_map|done..].
  - intros [_ ? ?]. apply Hs. split_and!; [done..|]. apply Forall_forall. intros ? _. apply not_elem_of_nil.
Qed.

Lemma Find_spec tasks name task : Find tasks name = Some task → task ∈ tasks ∧ task_Name task = name.
Proof.
  unfold Find. intros H. apply find_some in H as [Hin He]. by rewrite <- list_elem_of_In, str_eq_spec in *.
Qed.

Lemma Find_unique tasks name task : NoDup (map task_Name tasks) → task ∈ tasks → task_Name task = name →
  Find tasks name = Some task.
Proof.
  intros Hnd Hin Hn. unfold Find. destruct (List.find _ tasks) as [t|] eqn:E.
  - apply find_some in E as [Ht He]. rewrite <- list_elem_of_In, str_eq_spec in *.
    f_equal. eapply (NoDup_map_inj task_Name); eauto. congruence.
  - rewrite list_elem_of_In in Hin. eapply find_none in E; [|exact Hin]. cbn in E. by rewrite Hn, str_eq_refl in E.
Qed.

(** ** Properties *)

(** C32: [tasks.Load] returns a non-empty list only from a regular file that
    group and others cannot write, of root or the agent's own user; the list
    is valid: at most 50 tasks with different one-line names, commands
    without NUL and timeouts of 1 to 86400 seconds.  Any mistake is an error. *)
Theorem Load_safe `{DecodeTasks} (euid : Z) (path : string) (f : FileAt) :
  match Load euid path f with
  | Ok tasks => valid_tasks tasks ∧ (tasks ≠ [] → ∃ info data raw, f = File info (Ok data)
      ∧ fi_regular info = true ∧ Z.land (fi_perm info) 18 = 0
      ∧ (∀ uid, fi_uid info = Some uid → uid = 0 ∨ uid = euid)
      ∧ slen data ≤ 2 ^ 20 ∧ decode_tasks data = Ok raw ∧ tasks = map fill_task raw)
  | Err _ => path ≠ "" ∧ f ≠ NoFile
  end.
Proof.
  assert (Hnil : valid_tasks []) by (constructor; [done|constructor|constructor]).
  unfold Load. destruct (str_eq path "") eqn:Ep; [done|].
  assert (Hp : path ≠ "") by (rewrite <- str_eq_spec; congruence).
  destruct f as [|e|info data]; [done|done|].
  unfold checkOwner. destruct (fi_regular info) eqn:Hr; [|done]. cbn [negb].
  destruct (Z.eqb_spec (Z.land (fi_perm info) 18) 0) as [Hperm|]; [|done]. cbn [negb].
  destruct (match fi_uid info with
            | Some uid => if negb (uid =? 0) && negb (uid =? euid) then _ else _ | None => _ end) as [[]|e] eqn:Eu; [|done].
  assert (Hu : ∀ uid, fi_uid info = Some uid → uid = 0 ∨ uid = euid).
  { intros uid Hid. rewrite Hid in Eu. destruct (Z.eqb_spec uid 0); [by left|]. destruct (Z.eqb_spec uid euid); [by right|done]. }
  destruct data as [data|e]; [|done]. unfold mbind, result_bind, rbind. cbn beta iota.
  destruct (Z.ltb_spec maxFileSize (slen (stake (Z.to_nat (maxFileSize + 1)) data))) as [|Hlen]; [done|].
  assert (Hfull : stake (Z.to_nat (maxFileSize + 1)) data = data ∧ slen data ≤ 2 ^ 20).
  { unfold slen, maxFileSize in *. pose proof (stake_sdrop (Z.to_nat (2 ^ 20 + 1)) data) as Hsd.
    pose proof (length_stake (Z.to_nat (2 ^ 20 + 1)) data). pose proof (length_sdrop (Z.to_nat (2 ^ 20 + 1)) data).
    destruct (sdrop (Z.to_nat (2 ^ 20 + 1)) data) eqn:Es; cbn in *; [|lia].
    rewrite append_nil_r in Hsd. split; [done|lia]. }
  destruct Hfull as [-> Hsize]. unfold Parse_tasks, mbind, result_bind, rbind.
  destruct (decode_tasks data) as [raw|e] eqn:Ed; [|done].
  pose proof (Validate_tasks_spec raw) as Hv. destruct (Validate_tasks raw) as [[[]|e] out]; [|done].
  destruct Hv as [-> Hv]. split; [done|]. intros _. exists info, data, raw. done.
Qed.
