(* ===== verification/Base64.v ===== *)
(** * [base64.StdEncoding] of the standard library, which the signatures of
    src/internal/update/update.go are written in: encoding, decoding, and that
    decoding inverts encoding; and the passwords and secrets the collector makes
    up, in the alphabet for URLs. *)
From S2P Require Import Prelude GoStrings Monitor.
From Stdlib Require Import Ascii.
Local Open Scope Z_scope.

Definition b64_char (i : Z) : ascii :=
  if i <? 26 then chr (65 + i) else if i <? 52 then chr (71 + i) else if i <? 62 then chr (i - 4)
  else if i =? 62 then chr 43 else chr 47.
Definition b64_val (c : ascii) : option Z :=
  let b := byte_of c in
  if (65 <=? b) && (b <=? 90) then Some (b - 65)
  else if (97 <=? b) && (b <=? 122) then Some (b - 71)
  else if (48 <=? b) && (b <=? 57) then Some (b + 4)
  else if b =? 43 then Some 62 else if b =? 47 then Some 63 else None.
Definition pad : ascii := chr 61.

(** [EncodeToString] *)
Fixpoint b64_encode (s : string) : string :=
  match s with
  | "" => ""
  | String a "" =>
      let a := byte_of a in
      String (b64_char (a / 4)) (String (b64_char (a mod 4 * 16)) (String pad (String pad "")))
  | String a (String b "") =>
      let a := byte_of a in let b := byte_of b in
      String (b64_char (a / 4)) (String (b64_char (a mod 4 * 16 + b / 16)) (String (b64_char (b mod 16 * 4)) (String pad "")))
  | String a (String b (String c rest)) =>
      let a := byte_of a in let b := byte_of b in let c := byte_of c in
      String (b64_char (a / 4)) (String (b64_char (a mod 4 * 16 + b / 16))
        (String (b64_char (b mod 16 * 4 + c / 64)) (String (b64_char (c mod 64)) (b64_encode rest))))
  end.

(** The decoder skips line ends, wants the padding, and ignores the bits of
    the last character that no byte uses. *)
Definition b64_skipped (c : ascii) : bool := (byte_of c =? 10) || (byte_of c =? 13).
Fixpoint b64_quads (s : string) : option string :=
  match s with
  | "" => Some ""
  | String a (String b (String c (String d rest))) =>
      x ← b64_val a; y ← b64_val b;
      let first := chr (x * 4 + y / 16) in
      if Ascii.eqb c pad then if Ascii.eqb d pad && str_eq rest "" then Some (String first "") else None
      else
        z ← b64_val c;
        let second := chr (y mod 16 * 16 + z / 4) in
        if Ascii.eqb d pad then if str_eq rest "" then Some (String first (String second "")) else None
        else
          w ← b64_val d; bytes ← b64_quads rest;
          Some (String first (String second (String (chr (z mod 4 * 64 + w)) bytes)))
  | _ => None
  end.
(** [DecodeString] *)
Definition b64_decode (s : string) : option string :=
  b64_quads (of_chars (List.filter (λ c, negb (b64_skipped c)) (chars s))).

Example b64_ex : (b64_encode "SyMon", b64_decode "U3lN
b24=", b64_decode "U3lNb24", b64_decode "U3lN=b24") = ("U3lNb24=", Some "SyMon", None, None).
Proof. reflexivity. Qed.

(** ** Decoding what was encoded *)

Definition in_alphabet (c : ascii) : bool := negb (b64_skipped c) && (byte_of c <? 128) && negb (is_space (byte_of c)).

Lemma b64_index i : 0 ≤ i < 64 → b64_val (b64_char i) = Some i ∧ Ascii.eqb (b64_char i) pad = false ∧ in_alphabet (b64_char i) = true.
Proof.
  intros Hi. assert (H : forallb (λ n, let i := Z.of_nat n in
    bool_decide (b64_val (b64_char i) = Some i) && negb (Ascii.eqb (b64_char i) pad) && in_alphabet (b64_char i)) (List.seq 0 64) = true)
    by (vm_compute; reflexivity).
  rewrite forallb_forall in H. specialize (H (Z.to_nat i)). cbv beta zeta in H. rewrite Z2Nat.id in H by lia.
  assert (Hin : List.In (Z.to_nat i) (List.seq 0 64)) by (apply in_seq; lia).
  specialize (H Hin). apply andb_prop in H as [[H1%bool_decide_eq_true H2%negb_true_iff]%andb_prop H3]. done.
Qed.

(** Three bytes at a time *)
Lemma b64_ind (P : string → Prop) : P "" → (∀ a, P (String a "")) → (∀ a b, P (String a (String b ""))) →
  (∀ a b c rest, P rest → P (String a (String b (String c rest)))) → ∀ s, P s.
Proof.
  intros H0 H1 H2 H3. fix IH 1. intros [|a [|b [|c rest]]]; [done|apply H1|apply H2|apply H3, IH].
Qed.

Lemma chr_of c z : z = byte_of c → chr z = c.
Proof. intros ->. apply chr_byte_of. Qed.

Lemma b64_quads_encode s : b64_quads (b64_encode s) = Some s.
Proof.
  induction s as [|a|a b|a b c rest IH] using b64_ind; [done|..]; cbn [b64_encode b64_quads];
    pose proof (byte_of_range a); try pose proof (byte_of_range b); try pose proof (byte_of_range c);
    repeat (match goal with |- context [b64_val (b64_char ?i)] =>
      destruct (b64_index i) as (-> & -> & _) || destruct (b64_index i) as (-> & _ & _);
        [Z.to_euclidean_division_equations; lia|] end; cbn [mbind option_bind]).
  - cbn [Ascii.eqb]. rewrite !Ascii.eqb_refl. cbn. do 2 f_equal. apply chr_of. Z.to_euclidean_division_equations; lia.
  - rewrite !Ascii.eqb_refl. cbn. repeat f_equal; apply chr_of; Z.to_euclidean_division_equations; lia.
  - rewrite IH. cbn. repeat f_equal; apply chr_of; Z.to_euclidean_division_equations; lia.
Qed.

Lemma b64_encode_alphabet s c : c ∈ chars (b64_encode s) → in_alphabet c = true.
Proof.
  assert (Hpad : in_alphabet pad = true) by (vm_compute; reflexivity).
  induction s as [|a|a b|a b d rest IH] using b64_ind; cbn [b64_encode chars]; rewrite ?elem_of_cons;
    [by intros ?%not_elem_of_nil|..]; pose proof (byte_of_range a);
    try pose proof (byte_of_range b); try pose proof (byte_of_range d);
    intros Hc; repeat (destruct Hc as [->|Hc]); try (by apply not_elem_of_nil in Hc); try done; try (by apply IH);
    apply b64_index; Z.to_euclidean_division_equations; lia.
Qed.

Lemma filter_all {A} (p : A → bool) l : (∀ x, x ∈ l → p x = true) → List.filter p l = l.
Proof.
  induction l as [|x l IH]; intros H; [done|]. cbn. rewrite H by (by left). f_equal. apply IH. intros y Hy. apply H. by right.
Qed.

Lemma b64_decode_encode s : b64_decode (b64_encode s) = Some s.
Proof.
  unfold b64_decode. rewrite filter_all, of_chars_chars; [apply b64_quads_encode|].
  intros c Hc%b64_encode_alphabet. unfold in_alphabet in Hc. by apply andb_prop in Hc as [[Hc _]%andb_prop _].
Qed.

(** ASCII text is its bytes. *)
Definition ascii_text (s : string) : Prop := ∀ c, c ∈ chars s → byte_of c < 128.
Lemma encode_rune_ascii b : 0 ≤ b < 128 → encode_rune b = str1 b.
Proof. intros Hb. rewrite encode_rune_valid by (unfold valid_rune; lia). by rewrite (proj2 (Z.ltb_lt b 128)) by lia. Qed.
Lemma of_runes_ascii s : ascii_text s → of_runes (map byte_of (chars s)) = s.
Proof.
  induction s as [|c s IH]; intros H; [done|]. cbn. pose proof (byte_of_range c).
  rewrite encode_rune_ascii, str1_byte_of by (split; [lia|apply H; by left]). rewrite IH; [done|]. intros d Hd. apply H. by right.
Qed.
Lemma runes_ascii s : ascii_text s → runes s = map (λ c, (byte_of c, String c "")) (chars s).
Proof.
  intros H. rewrite <- (of_runes_ascii s H) at 1. rewrite <- (append_nil_r (of_runes _)), runes_of_runes.
  - cbn. rewrite app_nil_r, map_map. apply map_ext_in. intros c Hc%list_elem_of_In. pose proof (byte_of_range c).
    by rewrite encode_rune_ascii, str1_byte_of by (split; [lia|by apply H]).
  - apply Forall_forall. intros r (c & -> & Hc)%list_elem_of_fmap. pose proof (byte_of_range c). unfold valid_rune.
    specialize (H c Hc). lia.
Qed.

Lemma drop_while_end_none {A} (p : A → bool) l : (∀ x, x ∈ l → p x = false) → drop_while_end p l = l.
Proof.
  induction l as [|x l IH]; intros H; [done|]. cbn. rewrite IH by (intros y Hy; apply H; by right).
  rewrite H by (by left). by destruct l.
Qed.
Lemma drop_while_end_snoc {A} (p : A → bool) l x : p x = true → drop_while_end p (l ++ [x]) = drop_while_end p l.
Proof. intros Hx. induction l as [|y l IH]; cbn; [by rewrite Hx|by rewrite IH]. Qed.

(** A line of the alphabet, without its line end *)
Lemma trim_line s : (∀ c, c ∈ chars s → in_alphabet c = true) → trim_space (s +:+ str1 10) = s.
Proof.
  intros H. assert (Hasc : ascii_text (s +:+ str1 10)).
  { intros c. rewrite chars_append, elem_of_app. intros [Hc|Hc].
    - apply H in Hc. unfold in_alphabet in Hc. apply andb_prop in Hc as [[_ Hc]%andb_prop _]. lia.
    - apply list_elem_of_singleton in Hc as ->. by vm_compute. }
  unfold trim_space. rewrite (runes_ascii _ Hasc), chars_append, map_app. cbn [map str1 chars].
  set (l := map _ (chars s)).
  assert (Hl : ∀ x, x ∈ l → is_space_rune x = false).
  { intros x (c & -> & Hc)%list_elem_of_fmap. apply H in Hc. unfold in_alphabet in Hc.
    apply andb_prop in Hc as [_ Hc]. unfold is_space_rune. cbn. by destruct (is_space _). }
  assert (E : concat_runes l = s).
  { subst l. unfold concat_runes. clear. induction s as [|c s IH]; [done|]. cbn. by rewrite IH. }
  destruct s as [|c s]; [done|].
  assert (Ed : drop_while is_space_rune (l ++ [(byte_of (chr 10), String (chr 10) "")]) = l ++ [(byte_of (chr 10), String (chr 10) "")]).
  { subst l. cbn. by rewrite (Hl (byte_of c, String c "")) by (by left). }
  rewrite Ed, drop_while_end_snoc by done. by rewrite drop_while_end_none.
Qed.

Lemma b64_line s : b64_decode (trim_space (b64_encode s +:+ str1 10)) = Some s.
Proof. rewrite trim_line by apply b64_encode_alphabet. apply b64_decode_encode. Qed.

(** ** Passwords and secrets the collector makes up: [NewPassword] of
    src/internal/store/users.go and [newSecret] of enrollment.go, and the
    alphabet that makes them fit in a URL and a shell command *)

(** [base64.RawURLEncoding]: two characters of the alphabet are others, and
    there is no padding. *)
Definition url_char (c : ascii) : ascii :=
  if Ascii.eqb c (chr 43) then chr 45 else if Ascii.eqb c (chr 47) then chr 95 else c.
Definition b64url_encode (s : string) : string :=
  of_chars (map url_char (List.filter (λ c, negb (Ascii.eqb c pad)) (chars (b64_encode s)))).

(** [random n] is what [rand.Read] filled n bytes with. *)
Definition NewPassword {E} (random : nat → result E string) : result E string :=
  rbind (random 15%nat) (λ bytes, Ok (b64url_encode bytes)).
Definition newSecret {E} (random : nat → result E string) : result E string :=
  rbind (random 32%nat) (λ bytes, Ok (b64url_encode bytes)).

Definition url_safe (c : ascii) : bool :=
  let b := byte_of c in
  (48 <=? b) && (b <=? 57) || (65 <=? b) && (b <=? 90) || (97 <=? b) && (b <=? 122) || (b =? 45) || (b =? 95).

Lemma url_char_index i : 0 ≤ i < 64 → url_safe (url_char (b64_char i)) = true.
Proof.
  intros Hi. assert (H : forallb (λ n, url_safe (url_char (b64_char (Z.of_nat n)))) (List.seq 0 64) = true)
    by (vm_compute; reflexivity).
  rewrite forallb_forall in H. specialize (H (Z.to_nat i)). rewrite Z2Nat.id in H by lia. apply H, in_seq. lia.
Qed.

Lemma chars_of_chars l : chars (of_chars l) = l.
Proof. induction l as [|c l IH]; [done|]. cbn. by rewrite IH. Qed.

(** The characters of a code, one for 6 bits: all of them URL safe *)
Lemma b64url_chars s : Forall (λ c, url_safe c = true) (chars (b64url_encode s))
  ∧ length (chars (b64url_encode s)) = ((8 * length (chars s) + 5) / 6)%nat.
Proof.
  unfold b64url_encode. rewrite chars_of_chars, length_map.
  induction s as [|a|a b|a b c rest [IH1 IH2]] using b64_ind; [by split|..]; cbn [b64_encode chars List.filter];
    pose proof (byte_of_range a); try pose proof (byte_of_range b); try pose proof (byte_of_range c);
    repeat (match goal with |- context [Ascii.eqb (b64_char ?i) pad] =>
      destruct (b64_index i) as (_ & -> & _); [Z.to_euclidean_division_equations; lia|] end; cbn [negb]);
    change (Ascii.eqb pad pad) with true; cbn [negb map length]; rewrite ?Forall_cons.
  1-2: split; [repeat split; try apply url_char_index; try constructor; Z.to_euclidean_division_equations; lia|done].
  split.
  - repeat split; try apply url_char_index; try done; Z.to_euclidean_division_equations; lia.
  - rewrite IH2. replace (8 * S (S (S (length (chars rest)))) + 5)%nat with (8 * length (chars rest) + 5 + 4 * 6)%nat by lia.
    rewrite Nat.div_add by lia. lia.
Qed.

(** A password has 20 characters and a secret 43, for the bytes drawn. *)
Lemma made_up_lengths {E} (random : nat → result E string) (Hrandom : ∀ n s, random n = Ok s → length (chars s) = n) p :
  (NewPassword random = Ok p → length (chars p) = 20%nat) ∧ (newSecret random = Ok p → length (chars p) = 43%nat).
Proof.
  unfold NewPassword, newSecret, rbind. split; destruct (random _) as [s|] eqn:E1; try done; intros [= <-];
    by rewrite (proj2 (b64url_chars s)), (Hrandom _ _ E1).
Qed.
