(* ===== verification/Config.v ===== *)
(** * Settings: src/internal/config/envfile.go and config_handler.go.

    The environment of the process is a map.  What the operating system says
    of a file, the host name and the JSON decoder of the service list are
    parameters. *)
From S2P Require Import Prelude GoStrings GoTime Errors Monitor Kube Tasks.
From Stdlib Require Import Ascii.
Local Open Scope Z_scope.

Notation environ := (gmap string string).

(** [os.Getenv] *)
Definition getenv (e : environ) (key : string) : string := default "" (e !! key).

(** [os.Setenv]; [strings.Cut] leaves no = in a key. *)
Definition setenv (key value : string) : SM environ error unit := λ e,
  if str_eq key "" || contains_nul key || contains_nul value
  then (Err (ErrOther "setenv: invalid argument"), e)
  else (Ok (), <[key := value]> e).

(** ** The settings file *)

Definition DefaultEnvFile (component : string) : string := "/etc/symon/" +:+ component +:+ ".env".

(** unquote removes one pair of matching single or double quotes *)
Definition unquote (value : string) : string :=
  match value with
  | String c rest =>
      if ((byte_of c =? 34) || (byte_of c =? 39)) && (2 <=? slen value)
         && bool_decide (String.get (String.length value - 1) value = Some c)
      then stake (String.length rest - 1) rest else value
  | "" => value
  end.

(** What one line says *)
Inductive SettingLine := Skipped | Setting (key value : string) | BadLine.
Definition setting_line (text : string) : SettingLine :=
  let line := trim_space text in
  if str_eq line "" || has_prefix line "#" then Skipped
  else match cut "=" (trim_prefix line "export ") with
  | None => BadLine
  | Some (key, value) =>
      let key := trim_space key in
      if str_eq key "" then BadLine else Setting key (unquote (trim_space value))
  end.

(** [bufio.Scanner] with its 64 KiB of buffer: the lines without their line
    ends, and whether it stopped at a line that is too long *)
Definition maxScanTokenSize : Z := 65536.
Fixpoint drop_last_empty (l : list string) : list string :=
  match l with
  | [] => []
  | [w] => if str_eq w "" then [] else [w]
  | w :: l' => w :: drop_last_empty l'
  end.
Fixpoint scan_tokens (l : list string) : list string * bool :=
  match l with
  | [] => ([], false)
  | w :: l' =>
      if maxScanTokenSize <=? slen w then ([], true)
      else let '(lines, long) := scan_tokens l' in (trim_suffix w (str1 13) :: lines, long)
  end.
Definition scan_lines (content : string) : list string * bool :=
  scan_tokens (drop_last_empty (split_byte (chr 10) content)).
Definition ErrTooLong : error := ErrOther "bufio.Scanner: token too long".

(** What [os.Open] and reading give: [ended] is the error that cut the
    content short. *)
Inductive SettingsFile :=
  | NoFile
  | CannotOpen (err : error)
  | Opened (content : string) (ended : option error).

Definition line_error (path : string) (lineNo : Z) : error :=
  ErrText (path +:+ " line " +:+ itoa lineNo +:+ ": expected KEY=value").

Fixpoint load_lines (path : string) (lineNo : Z) (lines : list string) : SM environ error unit :=
  match lines with
  | [] => mret ()
  | text :: lines' =>
      match setting_line text with
      | Skipped => load_lines path (lineNo + 1) lines'
      | BadLine => sfail (line_error path lineNo)
      | Setting key value =>
          e ← sget;
          match e !! key with
          | Some _ => load_lines path (lineNo + 1) lines'
          | None => setenv key value;; load_lines path (lineNo + 1) lines'
          end
      end
  end.

(** [scanner.Err()] after the loop *)
Definition scan_error (long : bool) (ended : option error) : option error :=
  if long then Some ErrTooLong else ended.

Definition LoadEnvFile (path : string) (file : SettingsFile) : SM environ error unit :=
  match file with
  | NoFile => mret ()
  | CannotOpen err => sfail err
  | Opened content ended =>
      let '(lines, long) := scan_lines content in
      load_lines path 1 lines;;
      match scan_error long ended with Some err => sfail err | None => mret () end
  end.

(** ** The settings of the three programs *)

Definition DEFAULT_INTERVAL_SECS : Z := 30.
Definition DEFAULT_ENDPOINT_CHECK_INTERVAL : Z := 60.
Definition DEFAULT_REFRESH_SECS : Z := 15.
Definition DEFAULT_AGENT_KEY_PATH : string := "/etc/symon/agent.key".
Definition DEFAULT_TASKS_PATH : string := "/etc/symon/tasks.json".
Definition DEFAULT_CRI_SOCKET : string := "/run/containerd/containerd.sock".
Definition DEFAULT_KUBE_CA_PATH : string := "/etc/kubernetes/pki/ca.crt".
Definition DEFAULT_KUBE_TOKEN_PATH : string := "/etc/symon/kube.token".

(** The value of [strconv.Atoi], whose error some callers drop: a number out
    of range is the nearest [int], and a text that is no number is 0. *)
Definition atoi_value (s : string) : Z :=
  match s with
  | "" => 0
  | String c rest =>
      let '(neg, body) := if byte_of c =? 45 then (true, rest) else if byte_of c =? 43 then (false, rest) else (false, s) in
      match body with
      | "" => 0
      | _ => match digits_val 0 body with
             | Some v => Z.max int64_min (Z.min int64_max (if neg : bool then - v else v))
             | None => 0
             end
      end
  end.

(** positiveInt parses value, returning 0 when it is empty, invalid or not positive *)
Definition positiveInt (value : string) : Z :=
  match parse_int (trim_space value) with Some n => if n <? 0 then 0 else n | None => 0 end.

(** A setting that has to be a positive number, with the error dropped *)
Definition interval_setting (value : string) (otherwise : Z) : Z :=
  if (0 <? slen value) && (0 <? atoi_value value) then atoi_value value else otherwise.

Definition setting (e : environ) (key otherwise : string) : string :=
  if str_eq (getenv e key) "" then otherwise else getenv e key.
Definition is_true (value : string) : bool := str_eq (to_upper value) "TRUE".
Definition is_false (value : string) : bool := str_eq (to_upper value) "FALSE".

(** splitList turns "a, B,,c" into [a b c] *)
Definition splitList (value : string) : list string :=
  List.filter (λ item, negb (str_eq item "")) (map (λ item, to_lower (trim_space item)) (split_byte (chr 44) value)).

Record ServiceToMonitor := { stm_Name : string; stm_ServiceName : string }.
Class ServicesJSON := unmarshal_services : string → result error (list ServiceToMonitor).

Record Collector_config := {
  cc_TLSEnabled : bool; cc_LogFileEnabled : bool; cc_EndpointCheckInterval : Z; cc_EndpointMonitoringEnabled : bool;
  cc_DatabaseURL : string; cc_DashboardURL : string; cc_RetentionRawDays : Z; cc_RetentionMinuteDays : Z;
  cc_RetentionHourDays : Z; cc_TaskHistoryDays : Z; cc_Port : string; cc_CertPath : string; cc_KeyPath : string;
  cc_LogFilePath : string; cc_AlertsFilePath : string }.
Record Client_config := {
  cl_LogFileEnabled : bool; cl_Port : string; cl_CollectorEndpoint : string; cl_CollectorEndpointCACertPath : string;
  cl_LogFilePath : string; cl_RefreshSeconds : Z; cl_DownloadsDir : string; cl_AgentCollectorEndpoint : string;
  cl_MetricsEnabled : bool; cl_MetricsAuth : bool }.
Record Agent_config := {
  ag_MonitorIntervalSeconds : Z; ag_LogFileEnabled : bool; ag_CollectorEndpoint : string;
  ag_CollectorEndpointCACertPath : string; ag_LogFilePath : string; ag_DisksToIgnore : string; ag_ServerId : string;
  ag_Services : list ServiceToMonitor; ag_DisabledCollectors : list string; ag_ContainerAware : bool;
  ag_AgentKeyPath : string; ag_ContainerSocket : string; ag_ContainerLayerSize : bool; ag_CRISocket : string;
  ag_KubeCluster : string; ag_KubeAPIURL : string; ag_KubeCAPath : string; ag_KubeTokenPath : string;
  ag_TasksPath : string }.

(** [read] is [os.ReadFile]. *)
Definition GetServicesToMonitor `{ServicesJSON} (read : string → result error string) (path : string) : list ServiceToMonitor :=
  if str_eq path "" then []
  else match read path with
  | Err _ => []
  | Ok file => match unmarshal_services file with Ok services => services | Err _ => [] end
  end.

(** [hostname] is [os.Hostname], empty when it fails. *)
Definition GetAgent `{ServicesJSON} (read : string → result error string) (hostname : string) (e : environ) : Agent_config := {|
  ag_ServerId := setting e "SYMON_SERVER_ID" hostname;
  ag_AgentKeyPath := setting e "SYMON_AGENT_KEY_PATH" DEFAULT_AGENT_KEY_PATH;
  ag_TasksPath := setting e "SYMON_TASKS_PATH" DEFAULT_TASKS_PATH;
  ag_ContainerSocket := getenv e "SYMON_CONTAINER_SOCKET";
  ag_ContainerLayerSize := is_true (getenv e "SYMON_CONTAINER_LAYER_SIZE");
  ag_CRISocket := setting e "SYMON_CRI_SOCKET" DEFAULT_CRI_SOCKET;
  ag_KubeCluster := trim_space (getenv e "SYMON_KUBE_CLUSTER");
  ag_KubeAPIURL := getenv e "SYMON_KUBE_API_URL";
  ag_KubeCAPath := setting e "SYMON_KUBE_CA_PATH" DEFAULT_KUBE_CA_PATH;
  ag_KubeTokenPath := setting e "SYMON_KUBE_TOKEN_PATH" DEFAULT_KUBE_TOKEN_PATH;
  ag_CollectorEndpoint := getenv e "SYMON_COLLECTOR_ENDPOINT";
  ag_CollectorEndpointCACertPath := getenv e "SYMON_COLLECTOR_ENDPOINT_CERT_PATH";
  ag_LogFileEnabled := is_true (getenv e "SYMON_AGENT_LOG_FILE_ENABLED");
  ag_LogFilePath := getenv e "SYMON_AGENT_LOG_FILE_PATH";
  ag_DisksToIgnore := getenv e "SYMON_DISKS_TO_IGNORE";
  ag_Services := GetServicesToMonitor read (getenv e "SYMON_SERVICE_LIST_PATH");
  ag_MonitorIntervalSeconds := interval_setting (getenv e "SYMON_MONITOR_INTERVAL_SECONDS") DEFAULT_INTERVAL_SECS;
  ag_DisabledCollectors := splitList (getenv e "SYMON_DISABLED_COLLECTORS");
  ag_ContainerAware := is_true (getenv e "SYMON_CONTAINER_AWARE") |}.

Definition GetCollector (e : environ) : Collector_config := {|
  cc_Port := getenv e "SYMON_PORT";
  cc_TLSEnabled := is_true (getenv e "SYMON_TLS_ENABLED");
  cc_CertPath := getenv e "SYMON_TLS_CERT_PATH";
  cc_KeyPath := getenv e "SYMON_TLS_KEY_PATH";
  cc_LogFileEnabled := is_true (getenv e "SYMON_LOG_FILE_ENABLED");
  cc_LogFilePath := getenv e "SYMON_LOG_FILE_PATH";
  cc_DatabaseURL := getenv e "SYMON_DATABASE_URL";
  cc_DashboardURL := getenv e "SYMON_DASHBOARD_URL";
  cc_RetentionRawDays := positiveInt (getenv e "SYMON_RETENTION_RAW_DAYS");
  cc_RetentionMinuteDays := positiveInt (getenv e "SYMON_RETENTION_MINUTE_DAYS");
  cc_RetentionHourDays := positiveInt (getenv e "SYMON_RETENTION_HOUR_DAYS");
  cc_TaskHistoryDays := positiveInt (getenv e "SYMON_TASK_HISTORY_DAYS");
  cc_AlertsFilePath := getenv e "SYMON_ALERTS_CONFIG_PATH";
  cc_EndpointMonitoringEnabled := negb (is_false (getenv e "SYMON_ENABLE_ENDPOINT_MONITORING"));
  cc_EndpointCheckInterval := interval_setting (getenv e "SYMON_ENDPOINT_CHECK_INTERVAL") DEFAULT_ENDPOINT_CHECK_INTERVAL |}.

Definition GetClient (e : environ) : Client_config :=
  let refreshSeconds := positiveInt (getenv e "SYMON_CLIENT_REFRESH_SECONDS") in
  {| cl_Port := getenv e "SYMON_CLIENT_PORT";
     cl_CollectorEndpoint := getenv e "SYMON_CLIENT_COLLECTOR_ENDPOINT";
     cl_CollectorEndpointCACertPath := getenv e "SYMON_CLIENT_COLLECTOR_ENDPOINT_CA_CERT_PATH";
     cl_LogFileEnabled := is_true (getenv e "SYMON_CLIENT_LOG_FILE_ENABLED");
     cl_LogFilePath := getenv e "SYMON_CLIENT_LOG_FILE_PATH";
     cl_RefreshSeconds := if refreshSeconds =? 0 then DEFAULT_REFRESH_SECS else refreshSeconds;
     cl_DownloadsDir := setting e "SYMON_CLIENT_DOWNLOADS_DIR" "downloads";
     cl_AgentCollectorEndpoint := getenv e "SYMON_CLIENT_AGENT_COLLECTOR_ENDPOINT";
     cl_MetricsEnabled := negb (is_false (getenv e "SYMON_CLIENT_METRICS_ENABLED"));
     cl_MetricsAuth := is_true (getenv e "SYMON_CLIENT_METRICS_AUTH") |}.

Example settings_ex : setting_line " export  KEY = 'a=b' " = Setting "KEY" "a=b".
Proof. reflexivity. Qed.
Example scan_ex : scan_lines ("a" +:+ str1 13 +:+ str1 10 +:+ str1 10 +:+ "b") = (["a"; ""; "b"], false).
Proof. reflexivity. Qed.
Example atoi_ex : (atoi_value "99999999999999999999", atoi_value "-5", atoi_value "5x") = (int64_max, -5, 0).
Proof. reflexivity. Qed.

(** ** What the lines of a settings file say

    Declared by the form of the text, apart from the functions that read it. *)

Notation LF := (chr 10).
Definition CR : string := str1 13.
Definition without_cr (w text : string) : Prop := w = text +:+ CR ∨ (text = w ∧ ∀ t, w ≠ t +:+ CR).

(** The lines of a file, and whether one is too long for the scanner *)
Inductive file_lines : string → list string → bool → Prop :=
  | Lines_end : file_lines "" [] false
  | Lines_last w text : w ≠ "" → char_in LF w = false → slen w < maxScanTokenSize → without_cr w text →
      file_lines w [text] false
  | Lines_more w text rest lines long : char_in LF w = false → slen w < maxScanTokenSize → without_cr w text →
      file_lines rest lines long → file_lines (w +:+ String LF rest) (text :: lines) long
  | Lines_too_long w rest : char_in LF w = false → slen w = maxScanTokenSize → file_lines (w +:+ rest) [] true.

(** A value with its quotes, and without *)
Definition is_quote (q : ascii) : Prop := q = chr 34 ∨ q = chr 39.
Inductive quoted : string → string → Prop :=
  | In_quotes q value : is_quote q → quoted (String q (value +:+ String q "")) value
  | No_quotes value : (∀ q v, is_quote q → value ≠ String q (v +:+ String q "")) → quoted value value.

(** A line after the white space around it and [export] in front *)
Definition exported (line body : string) : Prop :=
  line = "export " +:+ body ∨ (body = line ∧ ∀ r, line ≠ "export " +:+ r).
Definition no_setting (line : string) : Prop := line = "" ∨ ∃ rest, line = "#" +:+ rest.
Inductive line_says (text : string) : SettingLine → Prop :=
  | Says_nothing : no_setting (trim_space text) → line_says text Skipped
  | Says_setting body k v value : ¬ no_setting (trim_space text) → exported (trim_space text) body →
      body = k +:+ "=" +:+ v → char_in "=" k = false → trim_space k ≠ "" → quoted (trim_space v) value →
      line_says text (Setting (trim_space k) value)
  | Says_no_name body k v : ¬ no_setting (trim_space text) → exported (trim_space text) body →
      body = k +:+ "=" +:+ v → char_in "=" k = false → trim_space k = "" → line_says text BadLine
  | Says_no_value body : ¬ no_setting (trim_space text) → exported (trim_space text) body →
      char_in "=" body = false → line_says text BadLine.

(** The settings before the first line that is none, and that line's error *)
Fixpoint settings (said : list SettingLine) : list (string * string) :=
  match said with
  | Skipped :: said' => settings said'
  | Setting key value :: said' => (key, value) :: settings said'
  | BadLine :: _ | [] => []
  end.
Fixpoint first_bad (path : string) (lineNo : Z) (said : list SettingLine) : option error :=
  match said with
  | [] => None
  | BadLine :: _ => Some (line_error path lineNo)
  | _ :: said' => first_bad path (lineNo + 1) said'
  end.
Definition ended_with (err : option error) : result error unit := match err with Some e => Err e | None => Ok () end.
Definition storable_setting (kv : string * string) : Prop := contains_nul kv.1 = false ∧ contains_nul kv.2 = false.

(** ** The functions read exactly that *)

Lemma trim_cr_spec w text : without_cr w text ↔ trim_suffix w CR = text.
Proof.
  unfold without_cr, trim_suffix. destruct (cut_suffix CR w) as [t|] eqn:E; cbn.
  - apply cut_suffix_spec in E as ->. split; [|intros ->; by left]. intros [Et|[_ Hno]]; [|by destruct (Hno t)].
    by apply (f_equal (cut_suffix CR)) in Et; rewrite !(proj2 (cut_suffix_spec _ _ _) eq_refl) in Et; injection Et.
  - assert (Hno : ∀ t, w ≠ t +:+ CR) by (intros t Ht; by rewrite (proj2 (cut_suffix_spec _ _ _) Ht) in E).
    split; [intros [Et|[-> _]]; [by destruct (Hno _ Et)|done]|]. intros <-. by right.
Qed.

Lemma split_byte_nil_free c s : ∃ w ws, split_byte c s = w :: ws.
Proof. induction s as [|d s (w & ws & IH)]; cbn; [eauto|]. rewrite IH. destruct (Ascii.eqb d c); eauto. Qed.
Lemma split_byte_app c w s : char_in c w = false →
  split_byte c (w +:+ s) = match split_byte c s with h :: t => (w +:+ h) :: t | [] => [w] end.
Proof.
  intros Hw. destruct (split_byte_nil_free c s) as (h & t & E). rewrite E. induction w as [|d w IH]; [done|].
  unfold char_in in *. cbn [chars existsb] in Hw. apply orb_false_iff in Hw as [Hd Hw].
  rewrite append_cons. cbn [split_byte]. by rewrite Ascii.eqb_sym, Hd, IH.
Qed.
Lemma split_byte_one c w : char_in c w = false → split_byte c w = [w].
Proof. intros Hw. rewrite <- (append_nil_r w), split_byte_app by done. cbn. by rewrite append_nil_r. Qed.

Lemma file_lines_read content lines long : file_lines content lines long → scan_lines content = (lines, long).
Proof.
  unfold scan_lines. induction 1 as [|w text Hne Hw Hlen Hcr|w text rest lines long Hw Hlen Hcr Hrest IH|w rest Hw Hlen].
  - done.
  - rewrite split_byte_one by done. cbn. rewrite (not_true_is_false _ (λ E, Hne (proj1 (str_eq_spec _ _) E))). cbn -[maxScanTokenSize].
    destruct (Z.leb_spec maxScanTokenSize (slen w)); [lia|]. apply trim_cr_spec in Hcr. unfold CR in Hcr. by rewrite Hcr.
  - rewrite split_byte_app by done. cbn [split_byte]. rewrite Ascii.eqb_refl, append_nil_r.
    destruct (split_byte_nil_free LF rest) as (h & t & E). rewrite E in *. cbn [drop_last_empty scan_tokens].
    destruct (Z.leb_spec maxScanTokenSize (slen w)); [lia|]. change (match t with [] => if str_eq h "" then [] else [h] | _ => h :: drop_last_empty t end) with (drop_last_empty (h :: t)).
    rewrite IH. apply trim_cr_spec in Hcr. unfold CR in Hcr. by rewrite Hcr.
  - rewrite split_byte_app by done. destruct (split_byte_nil_free LF rest) as (h & t & ->).
    assert (Hl : maxScanTokenSize ≤ slen (w +:+ h)) by (unfold slen in *; rewrite length_append; lia).
    assert (E : ∃ t', drop_last_empty ((w +:+ h) :: t) = (w +:+ h) :: t').
    { destruct t; cbn; [|eauto]. destruct (str_eq (w +:+ h) "") eqn:E; [|eauto].
      apply str_eq_spec in E. rewrite E in Hl. by cbn in Hl. }
    destruct E as (t' & ->). cbn -[maxScanTokenSize]. by destruct (Z.leb_spec maxScanTokenSize (slen (w +:+ h))); [|lia].
Qed.

Lemma first_line c s : ∃ w, char_in c w = false ∧ (s = w ∨ ∃ rest, s = w +:+ String c rest).
Proof.
  induction s as [|d s (w & Hw & Hs)]; [exists ""; auto|].
  destruct (Ascii.eqb_spec c d) as [->|Hne]; [exists ""; eauto|]. exists (String d w). split.
  - unfold char_in in *. cbn [chars existsb]. rewrite Hw, orb_false_r. by apply Ascii.eqb_neq.
  - destruct Hs as [->|(rest & ->)]; eauto.
Qed.

Lemma char_in_stake c n s : char_in c s = false → char_in c (stake n s) = false.
Proof.
  unfold char_in. revert n. induction s as [|d s IH]; intros [|n] H; try done. cbn [stake chars existsb] in *.
  apply orb_false_iff in H as [-> H]. by apply IH.
Qed.

Lemma without_cr_trim w : without_cr w (trim_suffix w CR).
Proof. by apply trim_cr_spec. Qed.

Lemma file_lines_exist content : ∃ lines long, file_lines content lines long.
Proof.
  induction content as [content IH] using (induction_ltof1 _ String.length). unfold ltof in IH.
  destruct (first_line LF content) as (w & Hw & Hc). destruct (Z.leb_spec maxScanTokenSize (slen w)) as [Hl|Hl].
  - assert (Hcut : ∀ s, content = w +:+ s → ∃ lines long, file_lines content lines long).
    { intros s ->. rewrite <- (stake_sdrop (Z.to_nat maxScanTokenSize) w), append_assoc. eexists _, _. apply Lines_too_long.
      - by apply char_in_stake.
      - unfold slen in *. rewrite length_stake. unfold maxScanTokenSize in *. lia. }
    destruct Hc as [->|(rest & ->)]; [apply (Hcut "")|apply (Hcut (String LF rest))]; by rewrite ?append_nil_r.
  - destruct Hc as [->|(rest & ->)].
    + destruct (decide (w = "")) as [->|Hne]; [exists [], false; apply Lines_end|].
      eexists _, _. apply Lines_last; try done. apply without_cr_trim.
    + destruct (IH rest) as (lines & long & Hr); [rewrite length_append; cbn; lia|].
      eexists _, _. by apply Lines_more; [..|apply without_cr_trim|].
Qed.

Lemma get_last s c : String.get (String.length s - 1) s = Some c → s = stake (String.length s - 1) s +:+ String c "".
Proof.
  induction s as [|d s IH]; [done|]. destruct s as [|d' s]; [by intros [= ->]|].
  cbn [String.length Nat.sub] in *. rewrite Nat.sub_0_r in IH. intros H. cbn [String.get] in H.
  cbn [stake]. rewrite append_cons. f_equal. by apply IH.
Qed.
Lemma get_end s c : String.get (String.length s) (s +:+ String c "") = Some c.
Proof. induction s as [|d s IH]; [done|]. cbn. apply IH. Qed.

Lemma quote_byte q : is_quote q ↔ ((byte_of q =? 34) || (byte_of q =? 39)) = true.
Proof.
  unfold is_quote. rewrite orb_true_iff, !Z.eqb_eq. split; intros [H|H]; subst; auto; [left|right];
    by rewrite <- (chr_byte_of q), H.
Qed.

Lemma unquote_in q value : is_quote q → unquote (String q (value +:+ String q "")) = value.
Proof.
  intros Hq. unfold unquote. apply quote_byte in Hq as ->. unfold slen. cbn [String.length].
  rewrite length_append. cbn [String.length]. destruct (Z.leb_spec 2 (Z.of_nat (S (String.length value + 1)))) as [_|]; [|lia].
  replace (S (String.length value + 1) - 1)%nat with (S (String.length value)) by lia. cbn [String.get].
  rewrite get_end, bool_decide_true by done. cbn [andb].
  replace (String.length value + 1 - 1)%nat with (String.length value) by lia. apply stake_append.
Qed.

Lemma unquote_quoted v value : quoted v value ↔ unquote v = value.
Proof.
  split; [intros [q s Hq|s Hno]; [by apply unquote_in|]|intros <-]; unfold unquote.
  - destruct s as [|c rest]; [done|]. case_match eqn:E; [|done]. apply andb_true_iff in E as [[Hc Hl]%andb_true_iff Hg].
    apply quote_byte in Hc. apply bool_decide_eq_true in Hg. apply Z.leb_le in Hl. exfalso.
    destruct rest as [|d rest]; [by cbn in Hl|]. apply get_last in Hg. cbn [String.length Nat.sub stake] in Hg.
    rewrite append_cons in Hg. injection Hg as Hg. eapply Hno; [exact Hc|]. f_equal. exact Hg.
  - destruct v as [|c rest]; [apply No_quotes; by intros|]. case_match eqn:E.
    + apply andb_true_iff in E as [[Hc Hl]%andb_true_iff Hg].
      apply quote_byte in Hc. apply bool_decide_eq_true in Hg. apply Z.leb_le in Hl.
      destruct rest as [|d rest]; [by cbn in Hl|]. apply get_last in Hg. cbn [String.length Nat.sub stake] in Hg.
      rewrite append_cons in Hg. injection Hg as Hg. rewrite Hg at 1. cbn [String.length Nat.sub]. rewrite Nat.sub_0_r in *. by apply In_quotes.
    + apply No_quotes. intros q s Hq Hv. injection Hv as -> ->. revert E. unfold slen. cbn [String.length]. rewrite length_append. cbn [String.length].
      apply quote_byte in Hq as ->. destruct (Z.leb_spec 2 (Z.of_nat (S (String.length s + 1)))) as [_|]; [|lia].
      replace (S (String.length s + 1) - 1)%nat with (S (String.length s)) by lia. cbn [String.get].
      by rewrite get_end, bool_decide_true.
Qed.

Lemma cut_at c k v : char_in c k = false → cut (String c "") (k +:+ String c v) = Some (k, v).
Proof.
  induction k as [|d k IH]; intros Hk; [simpl; by case_decide|].
  unfold char_in in *. cbn [chars existsb] in Hk. apply orb_false_iff in Hk as [Hd Hk]. apply Ascii.eqb_neq in Hd.
  rewrite append_cons. simpl. case_decide; [done|]. by rewrite IH.
Qed.
Lemma cut_nowhere c s : char_in c s = false → cut (String c "") s = None.
Proof.
  induction s as [|d s IH]; intros Hk; [done|].
  unfold char_in in *. cbn [chars existsb] in Hk. apply orb_false_iff in Hk as [Hd Hk]. apply Ascii.eqb_neq in Hd.
  simpl. case_decide; [done|]. by rewrite IH.
Qed.

Lemma no_setting_spec line : no_setting line ↔ str_eq line "" || has_prefix line "#" = true.
Proof. unfold no_setting. by rewrite orb_true_iff, str_eq_spec, has_prefix_true. Qed.

Lemma exported_spec line body : exported line body ↔ trim_prefix line "export " = body.
Proof.
  unfold exported, trim_prefix. destruct (cut_prefix "export " line) as [r|] eqn:E; cbn.
  - apply cut_prefix_spec in E as ->. unfold id. split; [|intros ->; by left].
    intros [Er|[_ Hno]]; [|by destruct (Hno r)]. by injection Er.
  - assert (Hno : ∀ r, line ≠ "export " +:+ r) by (intros r Hr; by rewrite (proj2 (cut_prefix_spec _ _ _) Hr) in E).
    split; [intros [Hr|[-> _]]; [by destruct (Hno body)|done]|]. intros <-. by right.
Qed.

(** A line says one thing, and [setting_line] reads it. *)
Lemma line_says_spec text said : line_says text said ↔ setting_line text = said.
Proof.
  unfold setting_line. split.
  - intros Hl. destruct Hl as [Hn|body k v value Hn Hb -> Hk Hne Hq|body k v Hn Hb -> Hk He|body Hn Hb Hk];
      rewrite no_setting_spec in Hn; [by rewrite Hn|..]; apply not_true_is_false in Hn; rewrite Hn; apply exported_spec in Hb; rewrite Hb.
    + change ("=" +:+ v) with (String "=" v). rewrite cut_at by done. apply unquote_quoted in Hq. rewrite Hq.
      destruct (str_eq (trim_space k) "") eqn:E; [|done]. by apply str_eq_spec in E.
    + change ("=" +:+ v) with (String "=" v). rewrite cut_at by done. by rewrite He.
    + by rewrite cut_nowhere.
  - intros <-. destruct (_ || _) eqn:Hn; [by apply Says_nothing, no_setting_spec|].
    assert (Hno : ¬ no_setting (trim_space text)) by (rewrite no_setting_spec; congruence).
    set (body := trim_prefix _ _). assert (Hb : exported (trim_space text) body) by by apply exported_spec.
    destruct (first_line "=" body) as (k & Hk & [E|(v & E)]).
    + rewrite E in *. rewrite cut_nowhere by done. by eapply Says_no_value.
    + rewrite E in *. rewrite cut_at by done. destruct (str_eq (trim_space k) "") eqn:Ek.
      * apply str_eq_spec in Ek. by eapply Says_no_name.
      * eapply Says_setting; try done; [|by apply unquote_quoted]. intros Ek'. by rewrite Ek' in Ek.
Qed.

Lemma setting_line_key text key value : setting_line text = Setting key value → str_eq key "" = false.
Proof. unfold setting_line. repeat case_match; try done. by intros [= <- _]. Qed.

Lemma load_lines_spec path lineNo lines said e : Forall2 line_says lines said → Forall storable_setting (settings said) →
  load_lines path lineNo lines e = (ended_with (first_bad path lineNo said), e ∪ list_to_map (settings said)).
Proof.
  intros Hl. revert lineNo e. induction Hl as [|text one lines said Ht _ IH]; intros lineNo e Hs; cbn [load_lines settings first_bad] in *.
  { cbn. by rewrite (right_id_L ∅ (∪)). }
  apply line_says_spec in Ht. rewrite Ht. destruct one as [|key value|]; [by apply IH| |cbn; by rewrite (right_id_L ∅ (∪))].
  apply Forall_cons in Hs as [[Hk Hv] Hs]. cbn [fst snd] in Hk, Hv. unfold mbind, SM_bind, sbind, sget. cbn [list_to_map foldr].
  destruct (e !! key) as [old|] eqn:Ee.
  - rewrite IH by done. f_equal. cbn. apply map_eq. intros k. rewrite !lookup_union.
    destruct (decide (k = key)) as [->|Hne]; [by rewrite Ee, !union_Some_l|by rewrite lookup_insert_ne].
  - unfold setenv. rewrite (setting_line_key _ _ _ Ht), Hk, Hv. cbn [orb]. rewrite IH by done. f_equal. cbn.
    by rewrite <- insert_union_r, insert_union_l.
Qed.

(** C38: every settings file has lines that say something each: nothing, a
    setting, or what is no setting.  Loading it sets, of each variable that
    is not set yet, the first value the file gives it up to the first line
    that is no setting (or is too long), and changes no variable that was
    set; the error is that line's, or the one that ended the file. *)
Theorem LoadEnvFile_correct (path content : string) (ended : option error) (e : environ) :
  (∃ lines long said, file_lines content lines long ∧ Forall2 line_says lines said)
  ∧ ∀ lines long said, file_lines content lines long → Forall2 line_says lines said →
      Forall storable_setting (settings said) →
      LoadEnvFile path (Opened content ended) e =
        (ended_with match first_bad path 1 said with Some err => Some err | None => scan_error long ended end,
         e ∪ list_to_map (settings said)).
Proof.
  split.
  - destruct (file_lines_exist content) as (lines & long & Hl). exists lines, long, (map setting_line lines).
    split; [done|]. clear Hl. induction lines; constructor; [by apply line_says_spec|done].
  - intros lines long said Hl Hs Hnul. unfold LoadEnvFile. rewrite (file_lines_read _ _ _ Hl).
    unfold mbind, SM_bind, sbind. rewrite (load_lines_spec _ _ _ said) by done.
    destruct (first_bad path 1 said); cbn; [done|]. by destruct (scan_error long ended).
Qed.

Definition env_example : string := "A=1" +:+ str1 10 +:+ "# B=0" +:+ str1 10 +:+ "export B='x y'" +:+ str1 10 +:+ "B=2" +:+ str1 10 +:+ "broken".
Lemma LoadEnvFile_correct_witness :
  LoadEnvFile "agent.env" (Opened env_example None) {[ "A" := "old" ]} =
    (Err (line_error "agent.env" 5), {[ "A" := "old" ]} ∪ list_to_map [("A", "1"); ("B", "x y"); ("B", "2")]).
Proof.
  apply (proj2 (LoadEnvFile_correct "agent.env" env_example None {[ "A" := "old" ]})
    ["A=1"; "# B=0"; "export B='x y'"; "B=2"; "broken"] false
    [Setting "A" "1"; Skipped; Setting "B" "x y"; Setting "B" "2"; BadLine]).
  - apply (Lines_more "A=1"), (Lines_more "# B=0"), (Lines_more "export B='x y'"), (Lines_more "B=2"), (Lines_last "broken");
      try done; by apply trim_cr_spec.
  - repeat (apply Forall2_cons; split; [by apply line_says_spec|]); by apply Forall2_nil.
  - repeat constructor.
Defined.

(** A value out of the range of [int] is taken as the largest one, and the
    agent's ticker of so many seconds then gets a negative interval, which
    [time.NewTicker] answers with a panic. *)
Lemma interval_overflows `{ServicesJSON} read hostname :
  let config := GetAgent read hostname {[ "SYMON_MONITOR_INTERVAL_SECONDS" := "10000000000" ]} in
  ag_MonitorIntervalSeconds config = 10000000000 ∧ seconds (ag_MonitorIntervalSeconds config) < 0.
Proof. split; vm_compute; reflexivity. Qed.
