(* ===== verification/AgentTasks.v ===== *)
(** * The agent's side of a task run: src/agent/tasks.go.

    The shell, the clock and the collector are outside: a run is the
    sequence of what happens to it (the task prints, the report ticker
    fires, the task ends), with the collector's answer to each report. *)
From S2P Require Import Prelude GoStrings GoTime Errors Monitor Kube Tasks.
Local Open Scope Z_scope.

Definition taskOutputLimit : Z := 262144.
Definition taskEndTries : nat := 5.

(** ** taskOutput *)

Record taskOutput := { to_pending : string; to_kept : Z; to_dropped : bool }.
Definition empty_output : taskOutput := {| to_pending := ""; to_kept := 0; to_dropped := false |}.

Definition Write (data : string) (o : taskOutput) : taskOutput :=
  let keep := Z.min (slen data) (taskOutputLimit - to_kept o) in
  {| to_pending := to_pending o +:+ stake (Z.to_nat keep) data; to_kept := to_kept o + keep;
     to_dropped := to_dropped o || (keep <? slen data) |}.

(** The byte at an index *)
Definition byte_at (s : string) (i : nat) : Z := match String.get i s with Some c => byte_of c | None => 0 end.

(** The loop of [wholeCharacters] from [back] on, [n] rounds left *)
Fixpoint whole_from (n back : nat) (data : string) : nat :=
  let len := String.length data in
  match n with
  | O => len
  | S n' =>
      if (len <? back)%nat then len
      else
        let start := (len - back)%nat in
        if rune_start (byte_at data start) then
          if full_rune (sdrop start data) then len else start
        else whole_from n' (S back) data
  end.
Definition UTFMax : nat := 4.
Definition wholeCharacters (data : string) : nat := whole_from UTFMax 1 data.

(** What goes into the database: valid text without NUL characters *)
Definition storable (text : string) : string := replace_all (str1 0) "" (to_valid_utf8 text fffd).

Definition take_output (end_ : bool) (o : taskOutput) : string * bool * taskOutput :=
  let whole := if end_ then String.length (to_pending o) else wholeCharacters (to_pending o) in
  (storable (stake whole (to_pending o)), to_dropped o,
   {| to_pending := sdrop whole (to_pending o); to_kept := to_kept o; to_dropped := to_dropped o |}).

(** ** What a run is allowed to be *)

Record TaskAssignment := { ta_Id : Z; ta_Task : string; ta_Command : string }.

Record TaskProgress := {
  tp_Output : string; tp_Truncated : bool; tp_Done : bool; tp_ExitCode : Z; tp_TimedOut : bool; tp_Error : string }.
Definition new_progress : TaskProgress := {|
  tp_Output := ""; tp_Truncated := false; tp_Done := false; tp_ExitCode := 0; tp_TimedOut := false; tp_Error := "" |}.

(** The start of [run]: the task of this host's file to run, or why not *)
Definition may_run (file : list Task) (a : TaskAssignment) : result string Task :=
  match Find file (ta_Task a) with
  | None => Err "this host's tasks file does not list the task any more"
  | Some task =>
      if str_eq (task_Command task) (ta_Command a) then Ok task
      else Err "the task changed on the host, load the page again and check its command"
  end.

(** ** The loop of a run *)

(** How [cmd.Wait] came back *)
Inductive Exit :=
  | Exited (code : Z)                  (* no error, or the exit code says it *)
  | DeadlineExceeded (code : Z)        (* the task's timeout *)
  | Died (code : Z) (err : string).    (* a signal, or it could not be waited for *)
Definition exit_code (e : Exit) : Z := match e with Exited c | DeadlineExceeded c | Died c _ => c end.

(** The code of a report's answer *)
Inductive Answer := AnswerOK | AnswerNotFound | AnswerFailed.

Inductive RunEvent :=
  | Printed (data : string)
  | Tick (answer : Answer).

Record Running := {
  rg_output : taskOutput; rg_progress : TaskProgress; rg_reporting : bool;
  rg_reports : list (TaskProgress * Answer) }.
Definition start_running : Running := {|
  rg_output := empty_output; rg_progress := new_progress; rg_reporting := true; rg_reports := [] |}.

Definition set_output (text : string) (truncated : bool) (p : TaskProgress) : TaskProgress := {|
  tp_Output := text; tp_Truncated := truncated; tp_Done := tp_Done p; tp_ExitCode := tp_ExitCode p;
  tp_TimedOut := tp_TimedOut p; tp_Error := tp_Error p |}.

Definition on_event (s : Running) (ev : RunEvent) : Running :=
  match ev with
  | Printed data => {| rg_output := Write data (rg_output s); rg_progress := rg_progress s;
                       rg_reporting := rg_reporting s; rg_reports := rg_reports s |}
  | Tick answer =>
      let '(text, truncated, output) := take_output false (rg_output s) in
      let p := set_output (tp_Output (rg_progress s) +:+ text) truncated (rg_progress s) in
      if rg_reporting s && negb (str_eq (tp_Output p) "") then
        {| rg_output := output;
           rg_progress := match answer with AnswerOK => set_output "" truncated p | _ => p end;
           rg_reporting := match answer with AnswerNotFound => false | _ => true end;
           rg_reports := rg_reports s ++ [(p, answer)] |}
      else {| rg_output := output; rg_progress := p; rg_reporting := rg_reporting s; rg_reports := rg_reports s |}
  end.

(** [report] with several tries: the reports it makes and its last answer.
    [answers] are the collector's, one per try. *)
Fixpoint report_tries (tries : nat) (p : TaskProgress) (answers : list Answer) : list (TaskProgress * Answer) :=
  match tries, answers with
  | S tries', a :: answers' =>
      match a with
      | AnswerFailed => (p, a) :: report_tries tries' p answers'
      | _ => [(p, a)]
      end
  | _, _ => []
  end.

Definition on_end (s : Running) (e : Exit) (answers : list Answer) : Running :=
  let '(text, truncated, output) := take_output true (rg_output s) in
  let p := {| tp_Output := tp_Output (rg_progress s) +:+ text; tp_Truncated := truncated; tp_Done := true;
              tp_ExitCode := exit_code e;
              tp_TimedOut := match e with DeadlineExceeded _ => true | _ => false end;
              tp_Error := match e with Died _ err => err | _ => tp_Error (rg_progress s) end |} in
  {| rg_output := output; rg_progress := p; rg_reporting := rg_reporting s;
     rg_reports := rg_reports s ++ (if rg_reporting s then report_tries taskEndTries p answers else []) |}.

Definition refused (why : string) : TaskProgress := {|
  tp_Output := ""; tp_Truncated := false; tp_Done := true; tp_ExitCode := -1; tp_TimedOut := false; tp_Error := why |}.

(** [run]: the command given to the shell, if any, and the reports made *)
Definition run (file : list Task) (a : TaskAssignment) (start_error : option string) (events : list RunEvent) (e : Exit)
    (answers : list Answer) : option string * list (TaskProgress * Answer) :=
  match may_run file a with
  | Err why => (None, report_tries taskEndTries (refused why) answers)
  | Ok task =>
      match start_error with
      | Some err => (Some (task_Command task),
                     report_tries taskEndTries (refused ("cannot start the task: " +:+ err)) answers)
      | None => (Some (task_Command task), rg_reports (on_end (foldl on_event start_running events) e answers))
      end
  end.

(** [taskEnv]: the environment without the agent's own settings *)
Definition taskEnv (environ : list string) : list string :=
  List.filter (λ entry, negb (has_prefix entry "SYMON_")) environ.

(** [step]: how long to wait before the next one *)
Definition taskCheckEvery : duration := 30 * second.
Definition taskOldCollector : duration := 5 * minute.
Inductive NextTask := Assigned (a : TaskAssignment) | TooOld | NextFailed.
Definition step_wait (retryAfter : duration) (file : list Task) (answer : NextTask) : duration * option TaskAssignment :=
  match file with
  | [] => (taskCheckEvery, None)
  | _ => match answer with
         | Assigned a => (0, if ta_Id a =? 0 then None else Some a)
         | TooOld => (taskOldCollector, None)
         | NextFailed => (retryAfter, None)
         end
  end.
