(* ===== verification/AgentTasksProps.v ===== *)
(** * An agent runs only what its file lists, and its output arrives whole. *)
From S2P Require Import Prelude GoStrings GoTime Errors Monitor Kube Tasks AgentTasks.
From Stdlib Require Import Ascii.
Local Open Scope Z_scope.

(** ** The bytes of an encoded rune *)

Lemma rune_start_spec b : 0 ≤ b < 256 → rune_start b = negb ((128 <=? b) && (b <? 192)).
Proof.
  intros Hb. assert (Hall : forallb (λ n, Bool.eqb (rune_start (Z.of_nat n)) (negb ((128 <=? Z.of_nat n) && (Z.of_nat n <? 192))))
    (seq 0 256) = true) by (vm_compute; reflexivity).
  rewrite forallb_forall in Hall. specialize (Hall (Z.to_nat b)). rewrite in_seq, Z2Nat.id in Hall by lia.
  apply Bool.eqb_prop, Hall. lia.
Qed.

Definition cont_byte (c : ascii) : Prop := 128 ≤ byte_of c ≤ 191.

(** A first byte that says how long the rune is, and continuation bytes *)
Record encoded (c : ascii) (rest : string) : Prop := {
  en_start : rune_start (byte_of c) = true;
  en_conts : Forall cont_byte (chars rest);
  en_short : (String.length rest ≤ 3)%nat;
  en_info : ∃ lo hi, first_info (byte_of c) = Some (S (String.length rest), lo, hi) ∧
    match rest with "" => True | String c1 _ => is_cont lo hi (byte_of c1) = true end }.

Lemma not_bad r c rest : String c rest = encode_rune r → (rune_error, 1%nat) ≠ (r, String.length (String c rest)).
Proof.
  intros E [= <- Hl]. destruct rest; [|done]. vm_compute in E. discriminate E.
Qed.

Lemma encode_shape r : valid_rune r → ∃ c rest, encode_rune r = String c rest ∧ encoded c rest.
Proof.
  intros Hr. pose proof (decode_encode r "" Hr) as Hd. rewrite append_nil_r in Hd.
  pose proof (encode_rune_nonempty r) as Hne. destruct (encode_rune r) as [|c rest] eqn:Ee; [done|].
  exists c, rest. split; [done|]. clear Hne. pose proof (not_bad r c rest (eq_sym Ee)) as Hbad.
  unfold decode_rune in Hd. pose proof (byte_of_range c) as Hb. pose proof (rune_start_spec (byte_of c) Hb) as Hst.
  destruct (first_info (byte_of c)) as [[[n lo] hi]|] eqn:E; [|done].
  assert (Hcont : ∀ d, is_cont 128 191 (byte_of d) = true → cont_byte d) by (intros d; unfold is_cont, cont_byte; lia).
  pose proof (first_info_spec (byte_of c) n lo hi ltac:(lia) E) as [[-> H1]|[(-> & H1 & Hlo & Hhi)|[(-> & H1 & Hlo & Hhi & _)|(-> & H1 & Hlo & Hhi & _ & _)]]].
  - injection Hd as _ Hl. destruct rest; [|done]. constructor; [rewrite Hst; lia|constructor|cbn; lia|].
    exists lo, hi. by rewrite E.
  - destruct rest as [|c1 rest]; [done|]. destruct (is_cont lo hi (byte_of c1)) eqn:E1; [|done].
    cbn [negb Nat.eqb] in Hd. injection Hd as _ Hl. destruct rest; [|done].
    constructor; [rewrite Hst; lia| |cbn; lia|exists lo, hi; by rewrite E].
    constructor; [|constructor]. apply Hcont. by subst.
  - destruct rest as [|c1 rest]; [done|]. destruct (is_cont lo hi (byte_of c1)) eqn:E1; [|done].
    destruct rest as [|c2 rest]; [done|]. cbn [negb Nat.eqb] in Hd. destruct (is_cont 128 191 (byte_of c2)) eqn:E2; [|done].
    injection Hd as _ Hl. destruct rest; [|done].
    constructor; [rewrite Hst; lia| |cbn; lia|exists lo, hi; by rewrite E].
    constructor; [unfold is_cont, cont_byte in *; lia|]. constructor; [by apply Hcont|constructor].
  - destruct rest as [|c1 rest]; [done|]. destruct (is_cont lo hi (byte_of c1)) eqn:E1; [|done].
    destruct rest as [|c2 rest]; [done|]. cbn [negb Nat.eqb] in Hd. destruct (is_cont 128 191 (byte_of c2)) eqn:E2; [|done].
    destruct rest as [|c3 rest]; [done|]. destruct (is_cont 128 191 (byte_of c3)) eqn:E3; [|done].
    injection Hd as _ Hl. destruct rest; [|done].
    constructor; [rewrite Hst; lia| |cbn; lia|exists lo, hi; by rewrite E].
    constructor; [unfold is_cont, cont_byte in *; lia|]. constructor; [by apply Hcont|]. constructor; [by apply Hcont|constructor].
Qed.

(** ** Whole and partial runes *)

(** The proper beginning of an encoded rune, or nothing *)
Inductive partial : string → Prop :=
  | partial_none : partial ""
  | partial_some c p t : t ≠ "" → encoded c (p +:+ t) → partial (String c p).

Lemma full_rune_encoded c rest : encoded c rest → full_rune (String c rest) = true.
Proof. intros [_ _ _ (lo & hi & E & _)]. unfold full_rune. rewrite E. cbn [String.length]. by rewrite Nat.leb_refl. Qed.

Lemma full_rune_partial c p t : t ≠ "" → encoded c (p +:+ t) → full_rune (String c p) = false.
Proof.
  intros Ht [_ Hc _ (lo & hi & E & Hn)]. unfold full_rune. rewrite E. rewrite length_append. cbn [String.length].
  assert (Hl : (0 < String.length t)%nat) by (destruct t; [done|cbn; lia]).
  rewrite (proj2 (Nat.leb_gt _ _)) by lia. destruct p as [|c1 p]; [done|]. rewrite append_cons in Hn. rewrite Hn. cbn [negb].
  destruct p as [|c2 p]; [done|]. rewrite !append_cons in Hc. cbn in Hc.
  apply Forall_cons in Hc as [_ Hc]. apply Forall_cons in Hc as [Hc _]. unfold cont_byte in Hc. unfold is_cont. lia.
Qed.

(** ** The search from the end *)

Lemma get_append s t i : String.get (String.length s + i) (s +:+ t) = String.get i t.
Proof. induction s as [|c s IH]; [done|]. apply IH. Qed.

Lemma byte_at_append s t i : byte_at (s +:+ t) (String.length s + i) = byte_at t i.
Proof. unfold byte_at. by rewrite get_append. Qed.

Lemma conts_not_start rest i : Forall cont_byte (chars rest) → (i < String.length rest)%nat → rune_start (byte_at rest i) = false.
Proof.
  revert i. induction rest as [|c rest IH]; intros i Hc Hi; [cbn in Hi; lia|]. cbn in Hc. apply Forall_cons in Hc as [Hc Hcs].
  destruct i as [|i]; [|apply (IH i Hcs); cbn in Hi; lia].
  unfold byte_at. cbn. rewrite rune_start_spec by apply byte_of_range. unfold cont_byte in Hc. lia.
Qed.

(** The last piece [w] of the data begins a rune and goes on with
    continuation bytes: the search stops at its first byte. *)
Lemma whole_from_piece D c rest : rune_start (byte_of c) = true → Forall cont_byte (chars rest) →
  ∀ n back, (1 ≤ back ≤ S (String.length rest))%nat → (S (String.length rest) < back + n)%nat →
  whole_from n back (D +:+ String c rest) =
    if full_rune (String c rest) then String.length (D +:+ String c rest) else String.length D.
Proof.
  intros Hst Hc. induction n as [|n IH]; intros back Hback Hn; [lia|]. cbn [whole_from].
  rewrite length_append. cbn [String.length]. rewrite (proj2 (Nat.ltb_ge _ _)) by lia.
  replace (String.length D + S (String.length rest) - back)%nat with (String.length D + (S (String.length rest) - back))%nat by lia.
  rewrite byte_at_append. destruct (decide (back = S (String.length rest))) as [->|Hne].
  - rewrite Nat.sub_diag, Nat.add_0_r. change (byte_at (String c rest) 0) with (byte_of c). rewrite Hst, sdrop_append.
    destruct (full_rune _); done.
  - destruct (S (String.length rest) - back)%nat as [|i] eqn:Ei; [lia|].
    change (byte_at (String c rest) (S i)) with (byte_at rest i). rewrite conts_not_start by (done || lia).
    rewrite IH by lia. rewrite length_append. done.
Qed.

Lemma whole_empty : wholeCharacters "" = 0%nat.
Proof. done. Qed.

(** [wholeCharacters] stops after the last whole rune. *)
Lemma wholeCharacters_spec l p : Forall valid_rune l → partial p →
  wholeCharacters (of_runes l +:+ p) = String.length (of_runes l).
Proof.
  intros Hl Hp. unfold wholeCharacters. destruct Hp as [|c p t Ht Hen].
  - rewrite append_nil_r. destruct l as [|r l _] using rev_ind; [done|].
    apply Forall_app in Hl as [Hl Hr]. apply Forall_cons in Hr as [Hr _]. rewrite of_runes_app. cbn [of_runes]. rewrite append_nil_r.
    destruct (encode_shape r Hr) as (c & rest & -> & Hen). pose proof Hen as [Hst Hc Hsh _].
    rewrite whole_from_piece by (done || (unfold UTFMax; lia)). by rewrite full_rune_encoded.
  - pose proof Hen as [Hst Hc Hsh _]. rewrite chars_append in Hc. apply Forall_app in Hc as [Hc _]. rewrite length_append in Hsh.
    rewrite whole_from_piece by (done || (unfold UTFMax; lia)). by rewrite (full_rune_partial c p t).
Qed.

(** ** Prefixes of valid text *)

Lemma of_runes_prefix l : ∀ full X, Forall valid_rune l → Forall valid_rune full → of_runes l +:+ X = of_runes full →
  ∃ m, Forall valid_rune m ∧ full = l ++ m ∧ X = of_runes m.
Proof.
  induction l as [|r l IH]; intros full X Hl Hf E; [by exists full|]. apply Forall_cons in Hl as [Hr Hl].
  cbn in E. rewrite append_assoc in E. destruct full as [|r' full].
  { exfalso. destruct (encode_shape r Hr) as (c & rest & Ee & _). rewrite Ee, append_cons in E. discriminate E. }
  apply Forall_cons in Hf as [Hr' Hf]. cbn in E.
  pose proof (decode_encode r (of_runes l +:+ X) Hr) as D1. pose proof (decode_encode r' (of_runes full) Hr') as D2.
  rewrite E in D1. rewrite D1 in D2. injection D2 as <- _. apply append_length_inj in E as [_ E]; [|done].
  destruct (IH full X Hl Hf E) as (m & Hm & -> & ->). by exists m.
Qed.

Lemma prefix_pieces full : ∀ q rest, Forall valid_rune full → q +:+ rest = of_runes full →
  ∃ m p, Forall valid_rune m ∧ partial p ∧ q = of_runes m +:+ p.
Proof.
  induction full as [|r full IH]; intros q rest Hf E.
  { cbn in E. destruct q; [|discriminate E]. exists [], "". split_and!; [constructor|constructor|done]. }
  apply Forall_cons in Hf as [Hr Hf]. cbn in E. destruct (encode_shape r Hr) as (c & en & Ee & Hen).
  destruct (le_lt_dec (String.length (encode_rune r)) (String.length q)) as [Hle|Hlt].
  - pose proof (stake_sdrop (String.length (encode_rune r)) q) as Hq. rewrite <- Hq in E. rewrite append_assoc in E.
    apply append_length_inj in E as [E1 E2]; [|rewrite length_stake; lia].
    destruct (IH _ rest Hf E2) as (m & p & Hm & Hp & Eq). exists (r :: m), p. split_and!; [by constructor|done|].
    rewrite <- Hq, E1, Eq. cbn. by rewrite append_assoc.
  - exists [], q. split_and!; [constructor| |done]. destruct q as [|d q]; [constructor|].
    set (t := sdrop (String.length (String d q)) (encode_rune r)).
    assert (Et : String d q +:+ t = encode_rune r).
    { rewrite <- (stake_sdrop (String.length (String d q)) (encode_rune r)). fold t. f_equal.
      rewrite <- (stake_sdrop (String.length (String d q)) (encode_rune r)), append_assoc in E.
      apply append_length_inj in E as [E _]; [done|rewrite length_stake; lia]. }
    rewrite Ee, append_cons in Et. injection Et as -> Et. apply (partial_some c q t); [|by rewrite Et].
    intros ->. rewrite append_nil_r in Et. rewrite Ee in Hlt. cbn in Hlt. subst. lia.
Qed.

(** ** What goes into the database *)

Definition no_nul (s : string) : string := replace_all (str1 0) "" s.

(** [to_valid_utf8] gives encoded runes, at most one per byte. *)
Lemma to_valid_go_runes s : ∀ inv, ∃ m, Forall valid_rune m ∧ to_valid_go fffd inv (runes s) = of_runes m
  ∧ (length m ≤ length (runes s))%nat.
Proof.
  induction s as [|s r w Hs Hd IH] using rune_ind; intros inv; [by exists []|].
  rewrite (runes_cons s r w) by done. cbn [to_valid_go].
  destruct ((r =? rune_error) && (String.length (stake w s) =? 1)%nat) eqn:E.
  - destruct (IH true) as (m & Hm & Em & Hl). rewrite Em. destruct inv.
    + exists m. split_and!; [done|by rewrite ?append_nil_l|cbn; lia].
    + exists (rune_error :: m). split_and!; [constructor; [unfold valid_rune, rune_error; lia|done]|done|cbn; lia].
  - destruct (IH false) as (m & Hm & Em & Hl). rewrite Em. exists (r :: m).
    split_and!; [constructor; [by eapply decode_rune_valid|done]| |cbn; lia]. cbn. f_equal.
    apply encode_decode; [done..|]. intros [-> ->]. rewrite length_stake in E.
    destruct s; [done|]. cbn in E. done.
Qed.

Lemma length_runes s : (length (runes s) ≤ String.length s)%nat.
Proof.
  induction s as [|s r w Hs Hd IH] using rune_ind; [done|]. rewrite (runes_cons s r w) by done. cbn.
  rewrite length_sdrop in IH. pose proof (decode_rune_width s r w Hs Hd). lia.
Qed.

Lemma no_nul_append s t : no_nul (s +:+ t) = no_nul s +:+ no_nul t.
Proof. apply replace_byte_append. Qed.

Lemma no_nul_encode r : valid_rune r → no_nul (encode_rune r) = if r =? 0 then "" else encode_rune r.
Proof.
  intros Hr. destruct (Z.eqb_spec r 0) as [->|Hne]; [by vm_compute|].
  assert (Hall : ∀ s, Forall (λ c, c ≠ chr 0) (chars s) → no_nul s = s).
  { intros s. induction s as [|c s IH]; [done|]. intros [Hc Hs]%Forall_cons.
    unfold no_nul, replace_all, replacer, str1. cbn [replace_from].
    unfold first_match, has_prefix. cbn [List.find fst snd cut_prefix]. rewrite decide_False by congruence.
    f_equal. by apply IH. }
  apply Hall. assert (Hz : byte_of (chr 0) = 0) by (by vm_compute).
  destruct (encode_shape r Hr) as (c & rest & E & [_ Hc _ _]). rewrite E. apply Forall_cons. split.
  - intros ->. pose proof (decode_encode r "" Hr) as Hd. rewrite append_nil_r, E in Hd.
    unfold decode_rune in Hd. rewrite Hz in Hd. by injection Hd as Hd _.
  - eapply Forall_impl; [exact Hc|]. intros d Hd ->. unfold cont_byte in Hd. lia.
Qed.

Lemma no_nul_of_runes l : Forall valid_rune l → no_nul (of_runes l) = of_runes (List.filter (λ r, negb (r =? 0)) l).
Proof.
  induction 1 as [|r l Hr Hl IH]; [done|]. cbn. rewrite no_nul_append, no_nul_encode, IH by done.
  by destruct (r =? 0).
Qed.

Lemma filter_valid p l : Forall valid_rune l → Forall valid_rune (List.filter p l).
Proof. rewrite !Forall_forall. intros Hl x [Hx _]%list_elem_of_filter_b. by apply Hl. Qed.

Lemma storable_spec s : utf8_valid (storable s) = true ∧ rune_count (storable s) ≤ slen s.
Proof.
  unfold storable, to_valid_utf8. destruct (to_valid_go_runes s false) as (m & Hm & -> & Hl).
  fold (no_nul (of_runes m)). rewrite no_nul_of_runes by done. split.
  - apply utf8_valid_of_runes. by apply filter_valid.
  - rewrite rune_count_of_runes by (by apply filter_valid).
    pose proof (filter_length_le (λ r, negb (r =? 0)) m). pose proof (length_runes s). unfold slen. lia.
Qed.

(** No NUL is left to take out. *)
Lemma no_nul_twice l : Forall valid_rune l → no_nul (no_nul (of_runes l)) = no_nul (of_runes l).
Proof.
  intros Hl. rewrite !no_nul_of_runes by (try apply filter_valid; done). f_equal. clear Hl.
  induction l as [|r l IH]; [done|]. cbn. destruct (r =? 0) eqn:E; cbn; [done|]. by rewrite E; cbn; rewrite IH.
Qed.
Lemma storable_clean s : no_nul (storable s) = storable s.
Proof.
  unfold storable, to_valid_utf8. destruct (to_valid_go_runes s false) as (m & Hm & -> & _). by apply no_nul_twice.
Qed.

Lemma storable_of_runes l : Forall valid_rune l → storable (of_runes l) = no_nul (of_runes l).
Proof.
  intros Hl. unfold storable, no_nul. f_equal. unfold to_valid_utf8.
  pose proof (runes_of_runes l "" Hl) as E. rewrite append_nil_r in E. rewrite E. cbn. rewrite app_nil_r. clear E.
  generalize false. induction Hl as [|r l Hr Hl IH]; intros inv; [done|]. cbn.
  destruct ((r =? rune_error) && _) eqn:E.
  - apply andb_true_iff in E as [E1 E2]. apply Z.eqb_eq in E1 as ->. vm_compute in E2. discriminate E2.
  - by rewrite IH.
Qed.

(** ** The run loop *)

Definition printed (events : list RunEvent) : string :=
  foldr (λ ev acc, match ev with Printed data => data +:+ acc | Tick _ => acc end) "" events.
Definition delivered (reports : list (TaskProgress * Answer)) : string :=
  foldr (λ r acc, match r.2 with AnswerOK => tp_Output r.1 +:+ acc | _ => acc end) "" reports.

Lemma delivered_app l1 l2 : delivered (l1 ++ l2) = delivered l1 +:+ delivered l2.
Proof. unfold delivered. induction l1 as [|[p []] l1 IH]; cbn; [done|by rewrite IH, append_assoc|done|done]. Qed.

Lemma printed_app l1 l2 : printed (l1 ++ l2) = printed l1 +:+ printed l2.
Proof. unfold printed. induction l1 as [|[data|a] l1 IH]; cbn; [done|by rewrite IH, append_assoc|done]. Qed.

(** After the events so far: nothing is dropped, what was taken is a whole
    number of runes, and it is either delivered or kept for the next report. *)
Record going (sofar : string) (s : Running) : Prop := {
  go_reporting : rg_reporting s = true;
  go_dropped : to_dropped (rg_output s) = false;
  go_kept : to_kept (rg_output s) = slen sofar;
  go_text : ∃ l, Forall valid_rune l ∧ sofar = of_runes l +:+ to_pending (rg_output s) ∧
    delivered (rg_reports s) +:+ tp_Output (rg_progress s) = no_nul (of_runes l) }.

Lemma slen_append s t : slen (s +:+ t) = slen s + slen t.
Proof. unfold slen. rewrite length_append. lia. Qed.

Lemma going_printed sofar s data : slen (sofar +:+ data) ≤ taskOutputLimit → going sofar s →
  going (sofar +:+ data) (on_event s (Printed data)).
Proof.
  rewrite slen_append. intros Hle [Hr Hd Hk (l & Hl & Es & Ed)].
  constructor; cbn; [done|rewrite Hd, Hk; lia|rewrite Hk, slen_append; lia|].
  exists l. split_and!; [done| |done]. rewrite Hk. rewrite Z.min_l by lia. unfold slen at 1. rewrite Nat2Z.id, stake_all.
  by rewrite Es, append_assoc.
Qed.

Lemma going_tick sofar s a rest : a ≠ AnswerNotFound → utf8_valid (sofar +:+ rest) = true → going sofar s →
  going sofar (on_event s (Tick a)).
Proof.
  intros Ha Hv [Hr Hd Hk (l & Hl & Es & Ed)]. destruct (runes_valid _ Hv) as (full & Hf & Ef & _).
  rewrite Es, append_assoc in Ef. destruct (of_runes_prefix l full _ Hl Hf Ef) as (f2 & Hf2 & _ & E2).
  destruct (prefix_pieces f2 _ rest Hf2 E2) as (m & p & Hm & Hp & Eq).
  cbn [on_event take_output]. rewrite Eq, wholeCharacters_spec, stake_append, sdrop_append, storable_of_runes by done.
  rewrite Hr. cbn [andb].
  assert (Hall : ∀ reports out, delivered reports +:+ out = (delivered (rg_reports s) +:+ tp_Output (rg_progress s)) +:+ no_nul (of_runes m) →
    ∃ l0, Forall valid_rune l0 ∧ sofar = of_runes l0 +:+ p ∧ delivered reports +:+ out = no_nul (of_runes l0)).
  { intros reports out E. exists (l ++ m). rewrite of_runes_app, no_nul_append, <- Ed. split_and!; [by apply Forall_app| |done].
    by rewrite Es, Eq, append_assoc. }
  destruct (negb _) eqn:En; constructor; cbn [rg_reporting rg_output rg_reports rg_progress to_dropped to_kept to_pending]; try done.
  - by destruct a.
  - apply Hall. rewrite delivered_app. destruct a; [| done|]; cbn; rewrite ?append_nil_r, ?append_assoc; done.
  - apply Hall. cbn. by rewrite append_assoc.
Qed.

Lemma going_events full events : ∀ before s, utf8_valid full = true → slen full ≤ taskOutputLimit →
  full = printed before +:+ printed events → Forall (λ ev, ev ≠ Tick AnswerNotFound) events →
  going (printed before) s → going full (foldl on_event s events).
Proof.
  induction events as [|ev events IH]; intros before s Hv Hle E Hne Hs; cbn.
  { cbn in E. rewrite append_nil_r in E. by rewrite E. }
  apply Forall_cons in Hne as [Hev Hne]. apply (IH (before ++ [ev])); [done|done| |done|].
  - rewrite printed_app. destruct ev as [data|a]; cbn in *; rewrite ?append_nil_r, ?append_assoc; done.
  - rewrite printed_app. destruct ev as [data|a]; cbn [printed foldr]; rewrite ?append_nil_r.
    + apply going_printed; [|done]. revert Hle. rewrite E. cbn. rewrite !slen_append. unfold slen. lia.
    + apply (going_tick _ _ _ (printed events)); [congruence| |done]. rewrite E in Hv. exact Hv.
Qed.

Lemma report_tries_ok p more : ∀ k tries, (k < tries)%nat →
  report_tries tries p (repeat AnswerFailed k ++ AnswerOK :: more) = repeat (p, AnswerFailed) k ++ [(p, AnswerOK)].
Proof.
  induction k as [|k IH]; intros [|tries] Hk; [lia|done|lia|]. cbn. f_equal. apply IH. lia.
Qed.

Lemma delivered_failed p k l : delivered (repeat (p, AnswerFailed) k ++ l) = delivered l.
Proof. induction k as [|k IH]; [done|]. exact IH. Qed.

Lemma delivered_one p : delivered [(p, AnswerOK)] = tp_Output p.
Proof. cbn. by rewrite append_nil_r. Qed.

(** ** How much a run reports *)

Record bounded (s : Running) : Prop := {
  bd_kept : to_kept (rg_output s) ≤ taskOutputLimit;
  bd_output : utf8_valid (tp_Output (rg_progress s)) = true;
  bd_delivered : utf8_valid (delivered (rg_reports s)) = true;
  bd_count : rune_count (delivered (rg_reports s)) + rune_count (tp_Output (rg_progress s))
    + slen (to_pending (rg_output s)) ≤ to_kept (rg_output s) }.

Lemma slen_split n s : slen (stake n s) + slen (sdrop n s) = slen s.
Proof. rewrite <- (stake_sdrop n s) at 3. by rewrite slen_append. Qed.

Lemma bounded_event s ev : bounded s → bounded (on_event s ev).
Proof.
  intros [Hk Hv Hd Hc]. destruct ev as [data|a].
  - constructor; cbn -[Z.min Z.to_nat slen rune_count taskOutputLimit delivered]; [lia|done|done|]. rewrite slen_append.
    assert (Hs : slen (stake (Z.to_nat (Z.min (slen data) (taskOutputLimit - to_kept (rg_output s)))) data)
      ≤ Z.max 0 (Z.min (slen data) (taskOutputLimit - to_kept (rg_output s)))) by (unfold slen; rewrite length_stake; lia).
    unfold slen in *. lia.
  - unfold on_event, take_output. cbv beta iota. set (w := wholeCharacters _).
    destruct (storable_spec (stake w (to_pending (rg_output s)))) as [Hsv Hsc].
    pose proof (slen_split w (to_pending (rg_output s))) as Hsp.
    destruct (utf8_valid_append _ _ Hv Hsv) as [Hjv Hjc].
    destruct (rg_reporting s && _) eqn:E.
    + destruct (utf8_valid_append _ _ Hd Hjv) as [Hdv Hdc].
      assert (Hok : ∀ p, delivered (rg_reports s ++ [(p, AnswerOK)]) = delivered (rg_reports s) +:+ tp_Output p)
        by (intros p; rewrite delivered_app; cbn; by rewrite append_nil_r).
      assert (Hno : ∀ p x, x ≠ AnswerOK → delivered (rg_reports s ++ [(p, x)]) = delivered (rg_reports s))
        by (intros p [] Hx; rewrite delivered_app; cbn; by rewrite ?append_nil_r).
      destruct a; constructor; cbn [rg_output rg_progress rg_reports tp_Output set_output to_kept to_pending];
        rewrite ?Hok, ?Hno by done; cbn [tp_Output set_output]; rewrite ?Hdc, ?Hjc; try done; try lia.
      change (rune_count "") with 0. lia.
    + constructor; cbn [rg_output rg_progress rg_reports tp_Output set_output to_kept to_pending]; rewrite ?Hjc; try done; lia.
Qed.

Lemma report_tries_delivered tries p : ∀ answers,
  delivered (report_tries tries p answers) = tp_Output p ∨ delivered (report_tries tries p answers) = "".
Proof.
  induction tries as [|tries IH]; intros [|a answers]; cbn; auto.
  destruct a; cbn; rewrite ?append_nil_r; auto.
Qed.

Lemma runes_nonneg s : 0 ≤ rune_count s.
Proof. unfold rune_count. lia. Qed.
(** The last report of a run fits too. *)
Lemma end_fits s e : bounded s → let out := tp_Output (rg_progress (on_end s e [])) in
  utf8_valid out = true ∧ rune_count (delivered (rg_reports s)) + rune_count out ≤ taskOutputLimit.
Proof.
  intros [Hk Hv Hd Hc]. unfold on_end, take_output. rewrite stake_all. cbn [rg_progress tp_Output].
  destruct (storable_spec (to_pending (rg_output s))) as [Hsv Hsc]. destruct (utf8_valid_append _ _ Hv Hsv) as [Hjv Hjc].
  split; [done|]. rewrite Hjc. lia.
Qed.
Lemma end_delivered s e answers : rg_reporting s = true →
  rg_reports (on_end s e answers) = rg_reports s ++ report_tries taskEndTries (rg_progress (on_end s e [])) answers.
Proof. intros Hr. unfold on_end. destruct (take_output true (rg_output s)) as [[text truncated] output]. cbn. by rewrite Hr. Qed.

(** ** Properties *)

(** Whatever the collector assigns, the agent gives the shell only a
    command that its own tasks file lists under the assigned name and that is
    the command the admin saw; otherwise it runs nothing and its only reports
    end the run with exit code -1 and the reason. *)
Lemma run_only_listed (file : list Task) (a : TaskAssignment) (start_error : option string) (events : list RunEvent)
  (e : Exit) (answers : list Answer) :
  match run file a start_error events e answers with
  | (Some command, _) => command = ta_Command a ∧ ∃ task, task ∈ file ∧ task_Name task = ta_Task a ∧ task_Command task = command
  | (None, reports) => (¬ ∃ task, Find file (ta_Task a) = Some task ∧ task_Command task = ta_Command a) ∧
      Forall (λ r, tp_Done r.1 = true ∧ tp_ExitCode r.1 = -1 ∧ tp_Error r.1 ≠ "" ∧ tp_Output r.1 = "") reports
  end.
Proof.
  assert (Htries : ∀ why, why ≠ "" → ∀ tries ans,
    Forall (λ r, tp_Done r.1 = true ∧ tp_ExitCode r.1 = -1 ∧ tp_Error r.1 ≠ "" ∧ tp_Output r.1 = "") (report_tries tries (refused why) ans)).
  { intros why Hwhy. induction tries as [|tries IH]; intros [|x ans]; cbn; try constructor.
    destruct x; repeat constructor; try done; apply IH. }
  unfold run, may_run. destruct (Find file (ta_Task a)) as [task|] eqn:Ef.
  - apply Find_spec in Ef as Hf. destruct (str_eq (task_Command task) (ta_Command a)) eqn:E.
    + apply str_eq_spec in E. destruct start_error; (split; [done|]; exists task; tauto).
    + split; [|by apply Htries]. intros (t & [= <-] & Ht). apply str_eq_spec in Ht. congruence.
  - split; [by intros (t & ? & _)|by apply Htries].
Qed.

(** Output arrives whole.  When a task prints valid text within the
    limit, in pieces cut anywhere, and reports may fail but the collector
    does not give up on the run and takes the last one within five tries,
    then the outputs of the reports it took, put together, are exactly what
    the task printed without its NUL characters, and the last report ends the
    run, not truncated. *)
Lemma output_arrives_whole (events : list RunEvent) (e : Exit) (k : nat) (more : list Answer) :
  utf8_valid (printed events) = true → slen (printed events) ≤ taskOutputLimit →
  Forall (λ ev, ev ≠ Tick AnswerNotFound) events → (k < taskEndTries)%nat →
  let s := on_end (foldl on_event start_running events) e (repeat AnswerFailed k ++ AnswerOK :: more) in
  delivered (rg_reports s) = no_nul (printed events) ∧
  ∃ p, last (rg_reports s) = Some (p, AnswerOK) ∧ tp_Done p = true ∧ tp_Truncated p = false ∧ tp_ExitCode p = exit_code e.
Proof.
  intros Hv Hle Hne Hk s.
  assert (Hgo : going (printed events) (foldl on_event start_running events)).
  { apply (going_events (printed events) events []); try done. constructor; try done. by exists []. }
  subst s. revert Hgo. generalize (foldl on_event start_running events). intros s [Hr Hd Hkept (l & Hl & Es & Ed)].
  unfold on_end, take_output. rewrite stake_all, Hr. cbn [rg_reports].
  rewrite report_tries_ok by done. split.
  - rewrite delivered_app, delivered_failed. cbn. rewrite append_nil_r, <- append_assoc, Ed.
    destruct (runes_valid _ Hv) as (full & Hf & Ef & _). rewrite Es in Ef.
    destruct (of_runes_prefix l full _ Hl Hf Ef) as (m & Hm & _ & Em). rewrite Em, storable_of_runes by done.
    by rewrite Es, Em, no_nul_append.
  - eexists. rewrite app_assoc, last_snoc. split; [reflexivity|]. by rewrite Hd.
Qed.

(** Whatever a task prints and however the reports fare, the outputs the
    collector takes of one run hold at most [taskOutputLimit] characters of
    valid text, which is the collector's own limit: it never has to cut what
    an agent of this version reports. *)
Lemma reports_fit (events : list RunEvent) (e : Exit) (answers : list Answer) :
  let reports := rg_reports (on_end (foldl on_event start_running events) e answers) in
  utf8_valid (delivered reports) = true ∧ rune_count (delivered reports) ≤ taskOutputLimit.
Proof.
  assert (Hb : bounded (foldl on_event start_running events)).
  { assert (H0 : bounded start_running) by (by constructor). revert H0. generalize start_running.
    induction events as [|ev events IH]; intros s Hs; [done|]. cbn. by apply IH, bounded_event. }
  revert Hb. generalize (foldl on_event start_running events). intros s Hb. pose proof (bd_delivered _ Hb) as Hd.
  destruct (end_fits s e Hb) as [Hv Hc]. cbv zeta. destruct (rg_reporting s) eqn:Er.
  - rewrite end_delivered, delivered_app by done. destruct (report_tries_delivered taskEndTries (rg_progress (on_end s e [])) answers) as [->| ->].
    + destruct (utf8_valid_append _ _ Hd Hv) as [Hdv ->]. by split.
    + rewrite append_nil_r. split; [done|]. pose proof (runes_nonneg (tp_Output (rg_progress (on_end s e [])))). lia.
  - assert (E : rg_reports (on_end s e answers) = rg_reports s).
    { unfold on_end. destruct (take_output true (rg_output s)) as [[text truncated] output]. cbn. by rewrite Er, app_nil_r. }
    rewrite E. split; [done|]. pose proof (runes_nonneg (tp_Output (rg_progress (on_end s e [])))). lia.
Qed.

(** ** Witnesses *)

(** A character printed in two pieces around a report, and a last report that
    needs two tries. *)
Definition split_events : list RunEvent :=
  [Printed (str1 195); Tick AnswerFailed; Printed (str1 169 +:+ "t"); Tick AnswerOK; Printed "e"].

Lemma output_arrives_whole_witness :
  delivered (rg_reports (on_end (foldl on_event start_running split_events) (Exited 0) [AnswerFailed; AnswerOK]))
  = encode_rune 233 +:+ "te".
Proof.
  destruct (output_arrives_whole split_events (Exited 0) 1 []) as [Hd _].
  - by vm_compute.
  - by vm_compute.
  - repeat constructor; discriminate.
  - unfold taskEndTries. lia.
  - cbn [repeat app] in Hd. rewrite Hd. by vm_compute.
Defined.
