(* ===== verification/Json.v ===== *)
(** * JSON values, and decoding an object into a struct as encoding/json does.

    The text of a JSON document is not modelled, its value is.  An object
    read into a Go map or kept in a jsonb column is a finite map, where the
    last of several members with one name counts; a struct is filled member
    by member, a field being found by its exact name first and by its name
    in any letter case otherwise. *)
From S2P Require Import Prelude GoStrings Errors Monitor.
Local Open Scope Z_scope.

Inductive json :=
  | JNull
  | JBool (b : bool)
  | JNumber (literal : string)
  | JString (s : string)
  | JArray (l : list json)
  | JObject (members : list (string * json)).

(** A [map[string]any], and a jsonb object *)
Notation object := (gmap string json).

(** jsonb keeps an object's members ordered by length, then by bytes. *)
Definition key_leb (a b : string * json) : bool :=
  (slen a.1 <? slen b.1) || ((slen a.1 =? slen b.1) && String.leb a.1 b.1).
Definition members (o : object) : list (string * json) := stable_sort key_leb (map_to_list o).

(** Reading an object into a map: the last of several equal names counts. *)
Definition of_members (l : list (string * json)) : object := insert_all l ∅.

(** ** Struct fields *)

(** encoding/json's [foldName], for names of ASCII letters: the long s and
    the Kelvin sign fold to S and K. *)
Definition fold_rune (r : Z) : Z :=
  if (97 <=? r) && (r <=? 122) then r - 32 else if r =? 383 then 83 else if r =? 8490 then 75 else r.
Definition fold_name (s : string) : string := of_runes (map (λ r, fold_rune r.1) (runes s)).

(** A struct's fields by their JSON names, each with how a value is stored
    in it; [None] is an UnmarshalTypeError. *)
Definition Fields (S : Type) : Type := list (string * (json → S → option S)).

Definition find_field {S} (fields : Fields S) (key : string) : option (json → S → option S) :=
  match List.find (λ f, str_eq f.1 key) fields with
  | Some f => Some f.2
  | None => option_map snd (List.find (λ f, str_eq (fold_name f.1) (fold_name key)) fields)
  end.

(** [strictjson.Unmarshal] of an object: unknown fields are errors. *)
Fixpoint decode_members {S} (fields : Fields S) (l : list (string * json)) (s : S) : result error S :=
  match l with
  | [] => Ok s
  | (key, v) :: l' =>
      match find_field fields key with
      | None => Err (ErrOther ("json: unknown field " +:+ quote key))
      | Some set =>
          match set v s with
          | None => Err (ErrOther ("json: cannot unmarshal the value of " +:+ key))
          | Some s' => decode_members fields l' s'
          end
      end
  end.

(** null leaves a field as it is *)
Definition string_field {S} (set : string → S → S) (v : json) (s : S) : option S :=
  match v with JString t => Some (set t s) | JNull => Some s | _ => None end.
Definition int_field {S} (set : Z → S → S) (v : json) (s : S) : option S :=
  match v with
  | JNumber t => match parse_int t with Some n => Some (set n s) | None => None end
  | JNull => Some s
  | _ => None
  end.
Fixpoint string_items (l : list json) : option (list string) :=
  match l with
  | [] => Some []
  | JString t :: l' => match string_items l' with Some r => Some (t :: r) | None => None end
  | JNull :: l' => match string_items l' with Some r => Some ("" :: r) | None => None end
  | _ :: _ => None
  end.
Definition strings_field {S} (set : list string → S → S) (v : json) (s : S) : option S :=
  match v with
  | JArray l => match string_items l with Some r => Some (set r s) | None => None end
  | JNull => Some (set [] s)
  | _ => None
  end.

(** ** internal/strictjson: where an error is *)

(** The newlines of the bytes read, and the bytes after the last of them *)
Definition count_newlines (before : string) : Z := zsum (λ c, if byte_of c =? 10 then 1 else 0) (chars before).
Fixpoint last_line (before : string) : string :=
  match before with
  | "" => ""
  | String c rest => if existsb (λ c, byte_of c =? 10) (chars rest) then last_line rest
                     else if byte_of c =? 10 then rest else before
  end.

(** [withPosition], for an error with an offset: the line and the column *)
Definition position (data : string) (offset : Z) : Z * Z :=
  let before := stake (Z.to_nat (Z.min offset (slen data))) data in
  (count_newlines before + 1, Z.max (slen (last_line before)) 1).

Definition withPosition (data : string) (offset : option Z) (e : error) : error :=
  match offset with
  | None => e
  | Some offset =>
      if offset <? 0 then e
      else let '(line, column) := position data offset in
           ErrWrap ("line " +:+ itoa line +:+ ", column " +:+ itoa column) e
  end.
