(* ===== verification/Smtp.v ===== *)
(** * Go's net/smtp client, as src/internal/notify/email.go uses it.

    The mail server is a parameter: what it answers to a connection, a TLS
    handshake and each line.  The client is the standard library's: it keeps
    whether it has greeted and what the server offers, checks every reply's
    code, writes the message with its dots doubled, and refuses to send a
    password over a connection without TLS.  Every line and every handshake is
    kept in a log, which no code reads. *)
From S2P Require Import Prelude GoStrings Errors Monitor Base64.
From Stdlib Require Import Ascii.
Local Open Scope Z_scope.

Definition crlf : string := String (chr 13) (str1 10).

(** ** The other side *)

Record MailServer := {
  ms_conn : Type;
  ms_dial : string → result error ms_conn;
  ms_handshake : string → ms_conn → result error ms_conn;
  (** the greeting, and what is read after something was sent: a code and the
      lines of the reply *)
  ms_greet : ms_conn → result error (Z * list string) * ms_conn;
  ms_send : string → ms_conn → result error (Z * list string) * ms_conn }.

Inductive wire :=
  | Handshake (name : string)
  | Command (line : string) (reply : result error Z)
  | Content (text : string) (reply : result error Z).

(** ** textproto *)

(** [parseCodeLine]: an expected code of fewer than three digits is a prefix. *)
Definition code_expected (expect code : Z) : bool :=
  if (1 <=? expect) && (expect <? 10) then code / 100 =? expect
  else if (10 <=? expect) && (expect <? 100) then code / 10 =? expect
  else if (100 <=? expect) && (expect <? 1000) then code =? expect
  else true.

Definition reply_message (lines : list string) : string := join (str1 10) lines.
Definition read_reply (expect : Z) (r : result error (Z * list string)) : result error (Z * list string) :=
  match r with
  | Err e => Err e
  | Ok (code, lines) =>
      if code_expected expect code then Ok (code, lines)
      else Err (ErrOther (itoa code +:+ " " +:+ reply_message lines))
  end.

(** [DotWriter]: every line feed goes out as a line end, and a line that
    starts with a dot gets another one.  Closing ends the last line. *)
Inductive dot_state := DotBegin | DotBeginLine | DotCR | DotData.
Definition lf : ascii := chr 10.
Definition cr : ascii := chr 13.
Definition dot : ascii := chr 46.

Definition dot_end (st : dot_state) : string :=
  match st with
  | DotBeginLine => String dot crlf
  | DotCR => String lf (String dot crlf)
  | _ => String cr (String lf (String dot crlf))
  end.
Fixpoint dot_write (st : dot_state) (text : string) : string :=
  match text with
  | "" => dot_end st
  | String c rest =>
      match st with
      | DotCR => String c (dot_write (if Ascii.eqb c lf then DotBeginLine else DotData) rest)
      | _ =>
          let stuffed := match st with DotData => false | _ => Ascii.eqb c dot end in
          let next := if Ascii.eqb c cr then String c (dot_write DotCR rest)
                      else if Ascii.eqb c lf then String cr (String c (dot_write DotBeginLine rest))
                      else String c (dot_write DotData rest) in
          if stuffed then String dot next else next
      end
  end.
Definition dot_text (text : string) : string := dot_write DotBegin text.

(** ** The client *)

Section Client.
Context (server : MailServer).

Record smtp_client := {
  sc_conn : ms_conn server; sc_tls : bool; sc_serverName : string; sc_ext : option (list string);
  sc_didHello : bool; sc_helloError : option error; sc_log : list wire }.
Definition ClientM := SM smtp_client error.

Definition with_conn (conn : ms_conn server) (w : wire) (c : smtp_client) : smtp_client := {|
  sc_conn := conn; sc_tls := sc_tls c; sc_serverName := sc_serverName c; sc_ext := sc_ext c;
  sc_didHello := sc_didHello c; sc_helloError := sc_helloError c; sc_log := sc_log c ++ [w] |}.
Definition with_ext (ext : option (list string)) (c : smtp_client) : smtp_client := {|
  sc_conn := sc_conn c; sc_tls := sc_tls c; sc_serverName := sc_serverName c; sc_ext := ext;
  sc_didHello := sc_didHello c; sc_helloError := sc_helloError c; sc_log := sc_log c |}.
Definition greeted (e : option error) (c : smtp_client) : smtp_client := {|
  sc_conn := sc_conn c; sc_tls := sc_tls c; sc_serverName := sc_serverName c; sc_ext := sc_ext c;
  sc_didHello := true; sc_helloError := e; sc_log := sc_log c |}.
Definition under_tls (conn : ms_conn server) (c : smtp_client) : smtp_client := {|
  sc_conn := conn; sc_tls := true; sc_serverName := sc_serverName c; sc_ext := sc_ext c;
  sc_didHello := sc_didHello c; sc_helloError := sc_helloError c; sc_log := sc_log c ++ [Handshake (sc_serverName c)] |}.

Definition code_of (r : result error (Z * list string)) : result error Z := rbind r (λ p, Ok p.1).

(** A line and the reply to it *)
Definition cmd (expect : Z) (line : string) : ClientM (Z * list string) := λ c,
  let '(r, conn) := ms_send server (line +:+ crlf) (sc_conn c) in
  (read_reply expect r, with_conn conn (Command line (code_of (read_reply expect r))) c).

(** The extensions a greeting names, without their parameters *)
Definition extensions (lines : list string) : list string :=
  map (λ line, match cut " " line with Some (k, _) => k | None => line end) (tl lines).

Definition ehlo : ClientM unit :=
  r ← cmd 250 "EHLO localhost"; smodify (with_ext (Some (extensions r.2))).
Definition helo : ClientM unit :=
  smodify (with_ext None);; cmd 250 "HELO localhost";; mret ().
(** [hello] greets once, and answers with the same error ever after. *)
Definition hello : ClientM unit :=
  c ← sget;
  (if sc_didHello c then mret ()
   else
     smodify (greeted None);;
     e ← stry ehlo;
     match e with
     | Ok _ => mret ()
     | Err _ =>
         h ← stry helo;
         smodify (greeted (match h with Ok _ => None | Err e => Some e end))
     end);;
  c ← sget;
  match sc_helloError c with None => mret () | Some e => sfail e end.

Definition has_ext (c : smtp_client) (ext : string) : bool :=
  match sc_ext c with Some l => contains l ext | None => false end.
Definition Extension (ext : string) : ClientM bool :=
  h ← stry hello;
  match h with Err _ => mret false | Ok _ => c ← sget; mret (has_ext c ext) end.

(** [tls.Client], and the handshake the next line waits for *)
Definition handshake : ClientM unit := λ c,
  match ms_handshake server (sc_serverName c) (sc_conn c) with
  | Err e => (Err e, c)
  | Ok conn => (Ok (), under_tls conn c)
  end.
Definition StartTLS : ClientM unit :=
  hello;;
  cmd 220 "STARTTLS";;
  handshake;;
  ehlo.

Definition Quit : ClientM unit :=
  stry hello;; cmd 221 "QUIT";; mret ().

Definition isLocalhost (name : string) : bool := contains ["localhost"; "127.0.0.1"; "::1"] name.
(** [PlainAuth]'s Start, for the name it was made for *)
Definition plain_start (user password host : string) (c : smtp_client) : result error string :=
  if negb (sc_tls c) && negb (isLocalhost (sc_serverName c)) then Err (ErrOther "unencrypted connection")
  else if negb (str_eq (sc_serverName c) host) then Err (ErrOther "wrong host name")
  else Ok (str1 0 +:+ user +:+ str1 0 +:+ password).

Definition Auth (user password host : string) : ClientM unit :=
  hello;;
  c ← sget;
  match plain_start user password host c with
  | Err e => stry Quit;; sfail e
  | Ok resp =>
      '(code, lines) ← cmd 0 ("AUTH PLAIN " +:+ b64_encode resp);
      let outcome :=
        if code =? 334
        then match b64_decode (reply_message lines) with
             | None => Err (ErrOther "illegal base64 data")
             | Some _ => Err (ErrOther "unexpected server challenge")
             end
        else if code =? 235 then Ok ()
        else Err (ErrOther (itoa code +:+ " " +:+ reply_message lines)) in
      match outcome with
      | Ok _ => mret ()
      | Err e => stry (cmd 501 "*");; stry Quit;; sfail e
      end
  end.

Definition validateLine (line : string) : ClientM unit :=
  if contains_any line crlf then sfail (ErrOther "smtp: A line must not contain CR or LF") else mret ().

Definition Mail (from : string) : ClientM unit :=
  validateLine from;;
  hello;;
  c ← sget;
  cmd 250 ("MAIL FROM:<" +:+ from +:+ ">" +:+ (if has_ext c "8BITMIME" then " BODY=8BITMIME" else "")
           +:+ (if has_ext c "SMTPUTF8" then " SMTPUTF8" else ""));;
  mret ().
Definition rcpt_line (to : string) : string := "RCPT TO:<" +:+ to +:+ ">".
Definition Rcpt (to : string) : ClientM unit := validateLine to;; cmd 25 (rcpt_line to);; mret ().

(** [Data], the one [Write] to it and its [Close] *)
Definition send_text (text : string) : ClientM unit := λ c,
  let '(r, conn) := ms_send server (dot_text text) (sc_conn c) in
  (rbind (read_reply 250 r) (λ _, Ok ()), with_conn conn (Content text (code_of (read_reply 250 r))) c).
Definition Data (text : string) : ClientM unit :=
  cmd 354 "DATA";; send_text text.

(** [NewClient]: the greeting, on a connection that is TLS or not *)
Definition NewClient (conn : ms_conn server) (tls : bool) (host : string) (log : list wire) : result error smtp_client :=
  let '(r, conn) := ms_greet server conn in
  rbind (read_reply 220 r) (λ _,
  Ok {| sc_conn := conn; sc_tls := tls; sc_serverName := host; sc_ext := None; sc_didHello := false;
        sc_helloError := None; sc_log := log |}).
End Client.
Arguments sc_log {_} _.
Arguments sc_tls {_} _.
Arguments sc_serverName {_} _.

(** [net.JoinHostPort] *)
Definition join_host_port (host port : string) : string :=
  if contains_any host ":" then "[" +:+ host +:+ "]:" +:+ port else host +:+ ":" +:+ port.

(** ** Dots: a server reads back what the client wrote *)

(** What goes out without the dots: bare line feeds and a last line without
    an end are completed. *)
Definition crlf_end (st : dot_state) : string :=
  match st with DotBeginLine => "" | DotCR => String lf "" | _ => crlf end.
Fixpoint crlf_text (st : dot_state) (text : string) : string :=
  match text with
  | "" => crlf_end st
  | String c rest =>
      match st with
      | DotCR => String c (crlf_text (if Ascii.eqb c lf then DotBeginLine else DotData) rest)
      | _ => if Ascii.eqb c cr then String c (crlf_text DotCR rest)
             else if Ascii.eqb c lf then String cr (String c (crlf_text DotBeginLine rest))
             else String c (crlf_text DotData rest)
      end
  end.

(** How a server reads the text of a mail (RFC 5321, 4.5.2): a line of one
    dot ends it, another line's leading dot goes. *)
Fixpoint read_dots (line_start : bool) (s : string) : option (string * string) :=
  match s with
  | "" => None
  | String c s' =>
      if line_start && Ascii.eqb c dot then
        match s' with
        | String c1 (String c2 rest) => if Ascii.eqb c1 cr && Ascii.eqb c2 lf then Some ("", rest) else read_dots false s'
        | _ => read_dots false s'
        end
      else '(text, rest) ← read_dots (Ascii.eqb c lf) s'; Some (String c text, rest)
  end.
