(* ===== verification/Mime.v ===== *)
(** * Go's mime, mime/quotedprintable and net/textproto, as the emails and the
    webhooks use them: the subject of a mail as encoded words, its body as
    quoted-printable, and the spelling of a header's name.

    [quoted] relates what was written to what it stands for, one character at
    a time; the writer keeps it, and a reader that ignores nothing and guesses
    nothing gets the text back. *)
From S2P Require Import Prelude GoStrings Smtp.
From Stdlib Require Import Ascii.
Local Open Scope Z_scope.

Definition upper_hex (n : Z) : ascii := chr (if n <? 10 then 48 + n else 55 + n).
Definition equals : ascii := chr 61.
Definition hex_code (b : ascii) : list ascii := [equals; upper_hex (byte_of b / 16); upper_hex (byte_of b mod 16)].

(** ** quotedprintable.Writer *)

Record qp_writer := { qp_out : list ascii; qp_line : list ascii; qp_cr : bool }.
Definition qp_start : qp_writer := {| qp_out := []; qp_line := []; qp_cr := false |}.
Definition lineMaxLen : nat := 76.

Definition is_blank (b : ascii) : bool := (byte_of b =? 32) || (byte_of b =? 9).
Definition is_break (b : ascii) : bool := Ascii.eqb b cr || Ascii.eqb b lf.

Definition qp_put (l : list ascii) (w : qp_writer) : qp_writer :=
  {| qp_out := qp_out w; qp_line := qp_line w ++ l; qp_cr := qp_cr w |}.
Definition qp_flush (w : qp_writer) : qp_writer :=
  {| qp_out := qp_out w ++ qp_line w; qp_line := []; qp_cr := qp_cr w |}.
Definition qp_set_cr (b : bool) (w : qp_writer) : qp_writer := {| qp_out := qp_out w; qp_line := qp_line w; qp_cr := b |}.
Definition insertCRLF (w : qp_writer) : qp_writer := qp_flush (qp_put [cr; lf] w).
Definition insertSoftLineBreak (w : qp_writer) : qp_writer := insertCRLF (qp_put [equals] w).
Definition qp_encode (b : ascii) (w : qp_writer) : qp_writer :=
  let w := if (lineMaxLen - 1 - length (qp_line w) <? 3)%nat then insertSoftLineBreak w else w in
  qp_put (hex_code b) w.
(** A blank at the end of a line is encoded after all. *)
Definition checkLastByte (w : qp_writer) : qp_writer :=
  match last (qp_line w) with
  | Some b =>
      if is_blank b
      then qp_encode b {| qp_out := qp_out w; qp_line := take (length (qp_line w) - 1) (qp_line w); qp_cr := qp_cr w |}
      else w
  | None => w
  end.
Definition qp_write_byte (b : ascii) (w : qp_writer) : qp_writer :=
  if is_break b then
    if qp_cr w && Ascii.eqb b lf then qp_set_cr false w
    else qp_set_cr (Ascii.eqb b cr) (insertCRLF (checkLastByte w))
  else
    let w := if (length (qp_line w) =? lineMaxLen - 1)%nat then insertSoftLineBreak w else w in
    qp_set_cr false (qp_put [b] w).
(** What is written as it is: printable ASCII but the equals sign, blanks,
    line breaks *)
Definition qp_simple (b : ascii) : bool :=
  (33 <=? byte_of b) && (byte_of b <=? 126) && negb (Ascii.eqb b equals) || is_blank b || is_break b.
Definition qp_byte (w : qp_writer) (b : ascii) : qp_writer := if qp_simple b then qp_write_byte b w else qp_encode b w.
Definition qp_write (l : list ascii) (w : qp_writer) : qp_writer := fold_left qp_byte l w.
Definition qp_close (w : qp_writer) : qp_writer := qp_flush (checkLastByte w).
Definition quoted_printable (text : string) : string := of_chars (qp_out (qp_close (qp_write (chars text) qp_start))).

(** ** mime.QEncoding *)

Definition q_plain (b : Z) : bool :=
  (33 <=? b) && (b <=? 126) && negb (b =? 61) && negb (b =? 63) && negb (b =? 95).
Definition needsEncoding (s : string) : bool :=
  existsb (λ c, ((byte_of c <? 32) || (126 <? byte_of c)) && negb (byte_of c =? 9)) (chars s).
Definition writeQString (s : string) : string :=
  of_chars (concat (map (λ c, if byte_of c =? 32 then [chr 95] else if q_plain (byte_of c) then [c] else hex_code c) (chars s))).
Definition openWord : string := "=?utf-8?q?".
Definition closeWord : string := "?=".
(** 75 less the frame of a word *)
Definition maxContentLen : Z := 63.

(** [qEncode]: characters are not split across words. *)
Fixpoint qEncode (currentLen : Z) (l : list (Z * string)) : string :=
  match l with
  | [] => ""
  | (_, s) :: l' =>
      let plain := match s with String c "" => (byte_of c =? 32) || q_plain (byte_of c) | _ => false end in
      let encLen := if plain then 1 else 3 * slen s in
      if maxContentLen <? currentLen + encLen
      then closeWord +:+ " " +:+ openWord +:+ writeQString s +:+ qEncode encLen l'
      else writeQString s +:+ qEncode (currentLen + encLen) l'
  end.
Definition q_encode (s : string) : string :=
  if needsEncoding s then openWord +:+ qEncode 0 (runes s) +:+ closeWord else s.

(** ** textproto.CanonicalMIMEHeaderKey *)

Definition token_byte (b : Z) : bool :=
  (48 <=? b) && (b <=? 57) || (65 <=? b) && (b <=? 90) || (97 <=? b) && (b <=? 122)
  || existsb (Z.eqb b) [33; 35; 36; 37; 38; 39; 42; 43; 45; 46; 94; 95; 96; 124; 126].
Fixpoint canonical_go (upper : bool) (l : list ascii) : list ascii :=
  match l with
  | [] => []
  | c :: l' =>
      let b := byte_of c in
      let b := if upper && (97 <=? b) && (b <=? 122) then b - 32
               else if negb upper && (65 <=? b) && (b <=? 90) then b + 32 else b in
      chr b :: canonical_go (b =? 45) l'
  end.
Definition canonical_header (s : string) : string :=
  if forallb (λ c, token_byte (byte_of c)) (chars s) then of_chars (canonical_go true (chars s)) else s.

(** ** Reading quoted-printable (RFC 2045, 6.7)

    An equals sign starts a code or ends a line that goes on; nothing else may
    end a line in a blank, because a mail server may have dropped it. *)
Definition hex_value (c : ascii) : option Z :=
  let b := byte_of c in
  if (48 <=? b) && (b <=? 57) then Some (b - 48) else if (65 <=? b) && (b <=? 70) then Some (b - 55) else None.
Definition line_over (l : list ascii) : bool :=
  match l with [] => true | c :: _ => Ascii.eqb c cr end.
Fixpoint read_quoted (l : list ascii) : option (list ascii) :=
  match l with
  | [] => Some []
  | c :: l' =>
      if Ascii.eqb c equals then
        match l' with
        | a :: (b :: rest) =>
            if Ascii.eqb a cr && Ascii.eqb b lf then read_quoted rest
            else x ← hex_value a; y ← hex_value b; text ← read_quoted rest; Some (chr (16 * x + y) :: text)
        | _ => None
        end
      else if is_blank c && line_over l' then None
      else text ← read_quoted l'; Some (c :: text)
  end.

(** ** Quoted-printable text: short lines, and what a reader makes of them *)

(** ** Lines *)

Definition unbroken (l : list ascii) : Prop := Forall (λ c, is_break c = false) l.
(** A finished line: at most 76 characters, none of them a line's end *)
Definition short_line (l : list ascii) : Prop := unbroken l ∧ (length l <= lineMaxLen)%nat.
Definition of_lines (lines : list (list ascii)) : list ascii := concat (map (λ l, l ++ [cr; lf]) lines).

Lemma of_lines_snoc lines l : of_lines (lines ++ [l]) = of_lines lines ++ l ++ [cr; lf].
Proof. unfold of_lines. rewrite map_app, concat_app. cbn. by rewrite app_nil_r. Qed.

(** ** What writing means *)

(** A character that stands for itself *)
Definition literal (c : ascii) : Prop := is_break c = false ∧ Ascii.eqb c equals = false.
Definition ends_blank (s : list ascii) : Prop := ∃ s' c, s = s' ++ [c] ∧ is_blank c = true.

Inductive quoted : list ascii → list ascii → Prop :=
  | quoted_nil : quoted [] []
  | quoted_literal s t c : literal c → quoted s t → quoted (s ++ [c]) (t ++ [c])
  | quoted_code s t c : quoted s t → quoted (s ++ hex_code c) (t ++ [c])
  | quoted_soft s t : quoted s t → quoted (s ++ [equals; cr; lf]) t
  | quoted_line s t : ¬ ends_blank s → quoted s t → quoted (s ++ [cr; lf]) (t ++ [cr; lf]).

Lemma is_blank_not_upper n : 0 ≤ n < 16 → is_blank (upper_hex n) = false ∧ is_break (upper_hex n) = false.
Proof.
  intros Hn. unfold is_blank, is_break, upper_hex, cr, lf. assert (E : ∀ z, 48 ≤ z < 91 → byte_of (chr z) = z) by (intros; apply byte_of_chr; lia).
  assert (Hc : ∀ z k, 48 ≤ z < 91 → 0 ≤ k < 48 → Ascii.eqb (chr z) (chr k) = false).
  { intros z k Hz Hk. apply Ascii.eqb_neq. intros Ez. apply (f_equal byte_of) in Ez. rewrite !byte_of_chr in Ez by lia. lia. }
  destruct (Z.ltb_spec n 10); rewrite E by lia; split; try lia; rewrite !Hc by lia; done.
Qed.
Lemma hex_nibbles c : 0 ≤ byte_of c / 16 < 16 ∧ 0 ≤ byte_of c mod 16 < 16 ∧ 16 * (byte_of c / 16) + byte_of c mod 16 = byte_of c.
Proof.
  pose proof (byte_of_range c). pose proof (Z.div_mod (byte_of c) 16 ltac:(lia)). pose proof (Z.mod_pos_bound (byte_of c) 16 ltac:(lia)).
  repeat split; lia.
Qed.

Lemma blank_literal c : is_blank c = true → literal c.
Proof.
  intros Hc. unfold is_blank in Hc.
  assert (Hn : ∀ k, byte_of (chr k) = k → k ≠ 32 → k ≠ 9 → Ascii.eqb c (chr k) = false).
  { intros k Ek H32 H9. apply Ascii.eqb_neq. intros ->. rewrite Ek in Hc.
    apply orb_true_iff in Hc as [Hc|Hc]; apply Z.eqb_eq in Hc; lia. }
  split; [unfold is_break, cr, lf|unfold equals]; rewrite !Hn; done.
Qed.

(** A blank at the end stands for itself. *)
Lemma quoted_last_blank s t c : quoted (s ++ [c]) t → is_blank c = true → ∃ t', t = t' ++ [c] ∧ quoted s t'.
Proof.
  intros Hq Hc. remember (s ++ [c]) as s0 eqn:E. destruct Hq as [|s1 t c' Hl Hq|s1 t c' Hq|s1 t Hq|s1 t Hb Hq].
  - by destruct s.
  - apply app_inj_tail in E as [-> ->]. by exists t.
  - exfalso. destruct (hex_nibbles c') as (_ & Hm & _). destruct (is_blank_not_upper _ Hm) as [Hx _].
    change (hex_code c') with ([equals; upper_hex (byte_of c' / 16)] ++ [upper_hex (byte_of c' mod 16)]) in E.
    rewrite app_assoc in E. apply app_inj_tail in E as [_ <-]. congruence.
  - exfalso. change [equals; cr; lf] with ([equals; cr] ++ [lf]) in E. rewrite app_assoc in E. by apply app_inj_tail in E as [_ <-].
  - exfalso. change [cr; lf] with ([cr] ++ [lf]) in E. rewrite app_assoc in E. by apply app_inj_tail in E as [_ <-].
Qed.

(** ** Reading it back *)

Lemma hex_value_upper n : 0 ≤ n < 16 → hex_value (upper_hex n) = Some n.
Proof.
  intros Hn. unfold hex_value, upper_hex. destruct (Z.ltb_spec n 10); rewrite byte_of_chr by lia.
  - replace (48 <=? 48 + n) with true by lia. replace (48 + n <=? 57) with true by lia. cbn [andb]. f_equal. lia.
  - replace (55 + n <=? 57) with false by lia. rewrite andb_false_r. replace (65 <=? 55 + n) with true by lia.
    replace (55 + n <=? 70) with true by lia. cbn [andb]. f_equal. lia.
Qed.

Lemma read_code c rest : read_quoted (hex_code c ++ rest) = (t ← read_quoted rest; Some (c :: t)).
Proof.
  destruct (hex_nibbles c) as (Hd & Hm & E). destruct (is_blank_not_upper _ Hd) as [_ Hb].
  cbn [hex_code app read_quoted]. change (Ascii.eqb equals equals) with true. cbv iota.
  replace (Ascii.eqb (upper_hex (byte_of c / 16)) cr) with false by (unfold is_break in Hb; by apply orb_false_iff in Hb as [-> _]).
  cbn [andb]. rewrite (hex_value_upper _ Hd), (hex_value_upper _ Hm). cbn [mbind option_bind]. by rewrite E, chr_byte_of.
Qed.

Lemma read_literal c rest : literal c → (is_blank c = true → line_over rest = false) →
  read_quoted (c :: rest) = (t ← read_quoted rest; Some (c :: t)).
Proof.
  intros [_ He] Hb. cbn [read_quoted]. rewrite He. destruct (is_blank c); [|done]. by rewrite Hb.
Qed.

(** A reader gets what was meant, if the text goes on after a blank. *)
Lemma quoted_read s t : quoted s t → ∀ rest, (ends_blank s → line_over rest = false) →
  read_quoted (s ++ rest) = (u ← read_quoted rest; Some (t ++ u)).
Proof.
  assert (Hend : ∀ s1 x, is_blank x = false → ¬ ends_blank (s1 ++ [x])).
  { intros s1 x Hx (s' & c & E & Hc). apply app_inj_tail in E as [_ ->]. congruence. }
  induction 1 as [|s t c Hl Hq IH|s t c Hq IH|s t Hq IH|s t Hb Hq IH]; intros rest Hrest.
  - cbn. by destruct (read_quoted rest).
  - rewrite <- app_assoc. cbn [app]. rewrite IH.
    + rewrite read_literal; [|done|intros Hc; apply Hrest; by exists s, c].
      destruct (read_quoted rest); [|done]. cbn. by rewrite <- app_assoc.
    + intros _. cbn [line_over]. destruct Hl as [Hl _]. unfold is_break in Hl. by apply orb_false_iff in Hl as [-> _].
  - rewrite <- app_assoc, IH, read_code by (intros _; reflexivity).
    destruct (read_quoted rest); [|done]. cbn. by rewrite <- app_assoc.
  - rewrite <- app_assoc. rewrite IH by (intros _; reflexivity). reflexivity.
  - rewrite <- app_assoc. rewrite IH by (by intros). cbn [app].
    change (read_quoted (cr :: lf :: rest)) with (text ← (text ← read_quoted rest; Some (lf :: text)); Some (cr :: text)).
    destruct (read_quoted rest); [|done]. cbn. by rewrite <- app_assoc.
Qed.

(** ** The writer *)

Record qp_inv (w : qp_writer) (t : list ascii) : Prop := {
  qi_out : ∃ lines, qp_out w = of_lines lines ∧ Forall short_line lines;
  qi_unbroken : unbroken (qp_line w);
  qi_short : (length (qp_line w) <= lineMaxLen - 1)%nat;
  qi_text : quoted (qp_out w ++ qp_line w) t }.

Definition settled (w : qp_writer) : Prop := ¬ ends_blank (qp_out w ++ qp_line w).

Lemma not_blank_snoc s x : is_blank x = false → ¬ ends_blank (s ++ [x]).
Proof. intros Hx (s' & c & E & Hc). apply app_inj_tail in E as [_ ->]. congruence. Qed.

Lemma hex_unbroken c : unbroken (hex_code c).
Proof. destruct (hex_nibbles c) as (Hd & Hm & _). repeat constructor; by apply is_blank_not_upper. Qed.
Lemma hex_not_blank s c : ¬ ends_blank (s ++ hex_code c).
Proof.
  destruct (hex_nibbles c) as (_ & Hm & _). change (hex_code c) with ([equals; upper_hex (byte_of c / 16)] ++ [upper_hex (byte_of c mod 16)]).
  rewrite app_assoc. by apply not_blank_snoc, is_blank_not_upper.
Qed.

(** Ending a line, by what ends it *)
Lemma flush_inv w t t' (extra : list ascii) : qp_inv w t → unbroken extra → (length (qp_line w ++ extra) <= lineMaxLen)%nat →
  quoted ((qp_out w ++ qp_line w) ++ extra ++ [cr; lf]) t' → qp_inv (insertCRLF (qp_put extra w)) t'.
Proof.
  intros [(lines & E & Hl) Hu Hs Hq] He Hn Hq'. split; cbn [insertCRLF qp_flush qp_put qp_out qp_line qp_cr].
  - exists (lines ++ [qp_line w ++ extra]). rewrite of_lines_snoc, E, <- !app_assoc. split; [done|].
    apply Forall_app. split; [done|]. constructor; [|constructor]. split; [by apply Forall_app|done].
  - constructor.
  - cbn. lia.
  - rewrite app_nil_r. by rewrite <- !app_assoc in *.
Qed.
Lemma soft_inv w t : qp_inv w t → qp_inv (insertSoftLineBreak w) t.
Proof.
  intros Hw. eapply flush_inv; [done|by repeat constructor| |].
  - rewrite length_app. pose proof (qi_short _ _ Hw). unfold lineMaxLen in *. cbn [length]. lia.
  - change ([equals] ++ [cr; lf]) with [equals; cr; lf]. apply quoted_soft, Hw.
Qed.
Lemma crlf_inv w t : qp_inv w t → settled w → qp_inv (insertCRLF w) (t ++ [cr; lf]).
Proof.
  intros Hw Hb. assert (E : insertCRLF w = insertCRLF (qp_put [] w)) by (unfold qp_put; rewrite app_nil_r; by destruct w).
  rewrite E. eapply flush_inv; [done|constructor| |].
  - rewrite app_nil_r. pose proof (qi_short _ _ Hw). lia.
  - cbn [app]. apply quoted_line; [done|apply Hw].
Qed.

Lemma put_inv w t l t' : qp_inv w t → unbroken l → (length (qp_line w) + length l <= lineMaxLen - 1)%nat →
  quoted ((qp_out w ++ qp_line w) ++ l) t' → qp_inv (qp_put l w) t'.
Proof.
  intros [Ho Hu Hs Hq] Hl Hn Hq'. split; cbn [qp_put qp_out qp_line]; [done|by apply Forall_app|by rewrite length_app|].
  by rewrite app_assoc.
Qed.

Lemma encode_inv w t b : qp_inv w t → qp_inv (qp_encode b w) (t ++ [b]) ∧ settled (qp_encode b w).
Proof.
  intros Hw. unfold qp_encode. set (w1 := if (_ <? 3)%nat then _ else _).
  assert (H1 : qp_inv w1 t ∧ (length (qp_line w1) + 3 <= lineMaxLen - 1)%nat).
  { subst w1. pose proof (qi_short _ _ Hw). destruct (Nat.ltb_spec (lineMaxLen - 1 - length (qp_line w)) 3).
    - split; [by apply soft_inv|unfold lineMaxLen; cbn; lia].
    - split; [done|unfold lineMaxLen in *; lia]. }
  destruct H1 as [H1 Hn]. split.
  - eapply put_inv; [done|apply hex_unbroken|done|]. apply quoted_code, H1.
  - unfold settled. cbn [qp_put qp_out qp_line]. rewrite app_assoc. apply hex_not_blank.
Qed.

Lemma check_last_inv w t : qp_inv w t → qp_inv (checkLastByte w) t ∧ settled (checkLastByte w).
Proof.
  intros Hw. unfold checkLastByte. destruct (last (qp_line w)) as [b|] eqn:El.
  - apply last_Some in El as [l El]. destruct (is_blank b) eqn:Eb; cycle 1.
    { split; [done|]. unfold settled. rewrite El, app_assoc. by apply not_blank_snoc. }
    assert (Et : take (length (qp_line w) - 1) (qp_line w) = l) by (rewrite El, length_app, Nat.add_sub, take_app_length; done).
    rewrite Et. destruct Hw as [Ho Hu Hs Hq]. rewrite El, app_assoc in Hq. apply quoted_last_blank in Hq as (t' & -> & Hq); [|done].
    apply encode_inv. split; cbn; [done| | |done].
    + rewrite El in Hu. by apply Forall_app in Hu as [Hu _].
    + rewrite El, length_app in Hs. cbn [length] in Hs. unfold lineMaxLen in Hs. cbn in *. lia.
  - apply last_None in El. split; [done|]. unfold settled. rewrite El, app_nil_r. destruct (qi_out _ _ Hw) as (lines & -> & _).
    destruct lines as [|x lines _] using rev_ind.
    + intros (s' & c & E & _). by destruct s'.
    + rewrite of_lines_snoc. change [cr; lf] with ([cr] ++ [lf]). rewrite !app_assoc. by apply not_blank_snoc.
Qed.

Lemma set_cr_inv b w t : qp_inv w t → qp_inv (qp_set_cr b w) t.
Proof. by intros [? ? ? ?]; split. Qed.

(** ** Whole texts *)

(** A character that is no line break adds itself. *)
Lemma byte_inv w t b : is_break b = false → qp_inv w t → qp_inv (qp_byte w b) (t ++ [b]).
Proof.
  intros Hb Hw. unfold qp_byte. destruct (qp_simple b) eqn:Es; [|by apply encode_inv].
  assert (Hlit : literal b).
  { unfold qp_simple in Es. rewrite Hb, orb_false_r in Es. apply orb_true_iff in Es as [Es|Es]; [|by apply blank_literal].
    split; [done|]. by apply andb_true_iff in Es as [_ Es%negb_true_iff]. }
  unfold qp_write_byte. rewrite Hb. apply set_cr_inv. set (w1 := if (_ =? _)%nat then _ else _).
  assert (H1 : qp_inv w1 t ∧ (length (qp_line w1) + 1 <= lineMaxLen - 1)%nat).
  { subst w1. pose proof (qi_short _ _ Hw). destruct (Nat.eqb_spec (length (qp_line w)) (lineMaxLen - 1)).
    - split; [by apply soft_inv|unfold lineMaxLen; cbn; lia].
    - split; [done|unfold lineMaxLen in *; lia]. }
  destruct H1 as [H1 Hn]. eapply put_inv; [done|by repeat constructor|done|]. apply quoted_literal; [done|apply H1].
Qed.

(** A line's end as the email hands it over: CR, or CR LF *)
Definition break_bytes (c : ascii) : list ascii := if Ascii.eqb c lf then [cr; lf] else [c].
Lemma break_inv w t b : is_break b = true → qp_inv w t → qp_inv (qp_write (break_bytes b) w) (t ++ [cr; lf])
  ∧ qp_line (qp_write (break_bytes b) w) = [].
Proof.
  intros Hb Hw. destruct (check_last_inv w t Hw) as [Hc Hset].
  assert (Hcr : qp_inv (qp_byte w cr) (t ++ [cr; lf]) ∧ qp_line (qp_byte w cr) = [] ∧ qp_cr (qp_byte w cr) = true).
  { change (qp_byte w cr) with (qp_write_byte cr w). unfold qp_write_byte. change (is_break cr) with true.
    change (Ascii.eqb cr lf) with false. rewrite andb_false_r. split; [by apply set_cr_inv, crlf_inv|done]. }
  destruct Hcr as (Hcr & El & Ecr). unfold break_bytes. destruct (Ascii.eqb b lf) eqn:Elf.
  - cbn [qp_write fold_left]. change (qp_byte (qp_byte w cr) lf) with (qp_write_byte lf (qp_byte w cr)).
    unfold qp_write_byte. change (is_break lf) with true. rewrite Ecr. change (Ascii.eqb lf lf) with true. cbn [andb].
    split; [by apply set_cr_inv|done].
  - unfold is_break in Hb. rewrite Elf, orb_false_r in Hb. apply Ascii.eqb_eq in Hb as ->. by split.
Qed.

(** What an email's text becomes: every line break is CR LF. *)
Definition line_ends (t : list ascii) : list ascii := concat (map (λ c, if is_break c then [cr; lf] else [c]) t).

Lemma write_inv t : ∀ w u, qp_inv w u → qp_inv (qp_write (concat (map break_bytes t)) w) (u ++ line_ends t).
Proof.
  induction t as [|c t IH]; intros w u Hw; [cbn; by rewrite app_nil_r|].
  unfold line_ends. cbn [map concat]. unfold qp_write. rewrite fold_left_app, app_assoc.
  apply (IH (qp_write (break_bytes c) w)). destruct (is_break c) eqn:Eb; [by apply break_inv|].
  unfold break_bytes. destruct (Ascii.eqb c lf) eqn:Elf; [unfold is_break in Eb; by rewrite Elf, orb_true_r in Eb|].
  by apply byte_inv.
Qed.

(** A text that ends in a line feed is written as whole short lines, and a
    reader of them gets the text. *)
Lemma written_lines t : ∃ lines,
  qp_out (qp_close (qp_write (concat (map break_bytes (t ++ [lf]))) qp_start)) = of_lines lines
  ∧ Forall short_line lines ∧ read_quoted (of_lines lines) = Some (line_ends (t ++ [lf])).
Proof.
  assert (H0 : qp_inv qp_start []) by (split; [by exists []|constructor|cbn; lia|constructor]).
  rewrite map_app, concat_app. unfold qp_write. rewrite fold_left_app. cbn [map concat]. rewrite app_nil_r.
  pose proof (write_inv t qp_start [] H0) as Ht. cbn [app] in Ht.
  destruct (break_inv (qp_write (concat (map break_bytes t)) qp_start) _ lf eq_refl Ht) as [Hw El].
  unfold qp_write in *. set (w := fold_left qp_byte (break_bytes lf) _) in *.
  assert (Ec : checkLastByte w = w) by (unfold checkLastByte; by rewrite El).
  unfold qp_close. rewrite Ec. unfold qp_flush. cbn [qp_out]. rewrite El, app_nil_r.
  destruct (qi_out _ _ Hw) as (lines & E & Hl). exists lines. split_and!; [done|done|].
  pose proof (qi_text _ _ Hw) as Hq. rewrite El, app_nil_r in Hq. rewrite E in Hq.
  pose proof (quoted_read _ _ Hq []) as Hr. rewrite !app_nil_r in Hr.
  destruct (check_last_inv w _ Hw) as [_ Hs]. rewrite Ec in Hs. unfold settled in Hs. rewrite El, app_nil_r, E in Hs.
  rewrite Hr by done. cbn. rewrite app_nil_r.
  f_equal. unfold line_ends. by rewrite map_app, concat_app.
Qed.
