(* ===== verification/Notify.v ===== *)
(** * Sending alerts out: src/internal/notify.

    A channel's settings are an object of JSON values, a sender is what
    [Parse] makes of them.  What a sender does is the list of requests it
    makes: the network's answers, the mail server and the mail encodings of
    the standard library are parameters. *)
From S2P Require Import Prelude GoStrings GoFloat GoTime Errors Monitor Alerts Json Smtp Mime.
Local Open Scope Z_scope.

Definition Email : string := "email".
Definition Slack : string := "slack".
Definition PagerDuty : string := "pagerduty".
Definition Webhook : string := "webhook".
Definition Kinds : list string := [Email; Slack; PagerDuty; Webhook].

Definition Opened : string := "opened".
Definition Changed : string := "changed".
Definition Resolved : string := "resolved".
Definition Test : string := "test".

Definition SeverityResolved : Z := 0.
Definition SeverityWarning : Z := 1.
Definition SeverityCritical : Z := 2.

Record Message := {
  msg_Event : string; msg_Severity : Z; msg_Subject : string; msg_Body : string; msg_Host : string;
  msg_Rule : string; msg_Metric : string; msg_Target : string; msg_Value : float64; msg_AlertID : Z;
  msg_StartedAt : time; msg_At : time; msg_Link : string }.

(** ** Texts *)

Definition severityName (severity : Z) (event : string) : string :=
  if str_eq event Test then "test"
  else if SeverityCritical <=? severity then "critical"
  else if severity =? SeverityWarning then "warning"
  else "resolved".

(** [cut] keeps line breaks; [n] is at least 1 wherever it is called. *)
Definition cut_text (text : string) (n : Z) : string :=
  if rune_count text <=? n then text
  else of_runes (take (Z.to_nat (n - 1)) (map fst (runes text))) +:+ ellipsis.

Definition shorten (text : string) (n : Z) : string := cut_text (join " " (fields text)) n.

Definition hostOf (url : string) : string :=
  let rest := match cut "://" url with Some (_, after) => after | None => url end in
  before_any "/?#" rest.

Definition timeText (t : time) : string := if is_zero t then "" else rfc3339 t.

(** ** Settings *)

Record emailSettings := {
  email_Host : string; email_Port : Z; email_User : string; email_Password : string; email_From : string;
  email_To : list string }.
Record slackSettings := { slack_Token : string; slack_Channel : string }.
Record webhookSettings := { webhook_URL : string; webhook_HeaderName : string; webhook_HeaderValue : string }.

Inductive Sender :=
  | emailSender (s : emailSettings)
  | slackSender (s : slackSettings)
  | pagerDutySender (routingKey : string)
  | webhookSender (s : webhookSettings).

(** net/mail's ParseAddress: the address written out and its bare form *)
Record Address := { addr_String : string; addr_Address : string }.
Class ParseAddress := mail_ParseAddress : string → option Address.

Definition set_email_To (v : list string) (s : emailSettings) : emailSettings :=
  {| email_Host := email_Host s; email_Port := email_Port s; email_User := email_User s;
     email_Password := email_Password s; email_From := email_From s; email_To := v |}.
Definition set_email (f : string) (v : string) (s : emailSettings) : emailSettings :=
  {| email_Host := if str_eq f "host" then v else email_Host s; email_Port := email_Port s;
     email_User := if str_eq f "user" then v else email_User s;
     email_Password := if str_eq f "password" then v else email_Password s;
     email_From := if str_eq f "from" then v else email_From s; email_To := email_To s |}.
Definition set_email_Port (v : Z) (s : emailSettings) : emailSettings :=
  {| email_Host := email_Host s; email_Port := v; email_User := email_User s;
     email_Password := email_Password s; email_From := email_From s; email_To := email_To s |}.

Definition email_fields : Fields emailSettings :=
  [("host", string_field (set_email "host")); ("port", int_field set_email_Port);
   ("user", string_field (set_email "user")); ("password", string_field (set_email "password"));
   ("from", string_field (set_email "from")); ("to", strings_field set_email_To)].
Definition slack_fields : Fields slackSettings :=
  [("token", string_field (λ v s, {| slack_Token := v; slack_Channel := slack_Channel s |}));
   ("channel", string_field (λ v s, {| slack_Token := slack_Token s; slack_Channel := v |}))].
Definition pagerduty_fields : Fields string := [("routingKey", string_field (λ v _, v))].
Definition webhook_fields : Fields webhookSettings :=
  [("url", string_field (λ v s, {| webhook_URL := v; webhook_HeaderName := webhook_HeaderName s;
                                   webhook_HeaderValue := webhook_HeaderValue s |}));
   ("headerName", string_field (λ v s, {| webhook_URL := webhook_URL s; webhook_HeaderName := v;
                                          webhook_HeaderValue := webhook_HeaderValue s |}));
   ("headerValue", string_field (λ v s, {| webhook_URL := webhook_URL s; webhook_HeaderName := webhook_HeaderName s;
                                           webhook_HeaderValue := v |}))].

(** ** validate *)

Section Validate.
Context `{ParseAddress, UrlParse}.

Fixpoint check_addresses (to : list string) : result error unit :=
  match to with
  | [] => Ok ()
  | a :: to' => match mail_ParseAddress a with
                | None => Err (ErrText ("the address " +:+ quote a))
                | Some _ => check_addresses to'
                end
  end.

Definition email_validate (e : emailSettings) : result error emailSettings :=
  let e := set_email "host" (trim_space (email_Host e)) e in
  let e := if email_Port e =? 0 then set_email_Port 587 e else e in
  if str_eq (email_Host e) "" then Err (ErrText "an email channel needs the SMTP server's host")
  else if (email_Port e <? 1) || (65535 <? email_Port e) then Err (ErrText "the SMTP port goes from 1 to 65535")
  else if negb (str_eq (email_User e) "") && str_eq (email_Password e) "" then Err (ErrText "a user needs a password")
  else match email_To e with
       | [] => Err (ErrText "an email channel needs at least one address to send to")
       | to => match mail_ParseAddress (email_From e) with
               | None => Err (ErrText ("the from address " +:+ quote (email_From e)))
               | Some _ => rbind (check_addresses to) (λ _, Ok e)
               end
       end.

Definition slack_validate (s : slackSettings) : result error slackSettings :=
  let s := {| slack_Token := slack_Token s; slack_Channel := trim_space (slack_Channel s) |} in
  if str_eq (slack_Token s) "" then Err (ErrText "a Slack channel needs a bot token, which starts with xoxb-")
  else if str_eq (slack_Channel s) "" then Err (ErrText "a Slack channel needs the channel to post to, like #ops")
  else Ok s.

Definition pagerduty_validate (routingKey : string) : result error string :=
  let key := trim_space routingKey in
  if str_eq key ""
  then Err (ErrText "a PagerDuty channel needs the integration key of an Events API v2 integration") else Ok key.

Definition header_rune (r : Z) : bool :=
  (r =? 45) || ((48 <=? r) && (r <=? 57)) || ((97 <=? r) && (r <=? 122)) || ((65 <=? r) && (r <=? 90)).
Definition validHeaderName (name : string) : bool := forallb (λ r, header_rune r.1) (runes name).


Definition webhook_validate (w : webhookSettings) : result error webhookSettings :=
  let w := {| webhook_URL := trim_space (webhook_URL w); webhook_HeaderName := trim_space (webhook_HeaderName w);
              webhook_HeaderValue := webhook_HeaderValue w |} in
  let no_name := str_eq (webhook_HeaderName w) "" in
  if str_eq (webhook_URL w) "" then Err (ErrText "a webhook needs a URL")
  else if match url_Parse (webhook_URL w) with
          | None => true
          | Some u => negb (contains ["http"; "https"] (url_Scheme u)) || str_eq (url_Host u) ""
          end then Err (ErrText "a webhook URL starts with http:// or https://")
  else if no_name && negb (str_eq (webhook_HeaderValue w) "") then Err (ErrText "a header value needs a header name")
  else if negb no_name && negb (validHeaderName (webhook_HeaderName w))
  then Err (ErrText "the header name can only use letters, digits and dashes")
  else if contains_any (webhook_HeaderValue w) crlf then Err (ErrText "the header value is one line")
  else Ok w.

(** [Parse] *)
Definition Parse (kind : string) (settings : object) : result error Sender :=
  let l := members settings in
  if str_eq kind Email then
    s ← decode_members email_fields l
          {| email_Host := ""; email_Port := 0; email_User := ""; email_Password := ""; email_From := ""; email_To := [] |};
    rbind (email_validate s) (λ s, Ok (emailSender s))
  else if str_eq kind Slack then
    s ← decode_members slack_fields l {| slack_Token := ""; slack_Channel := "" |};
    rbind (slack_validate s) (λ s, Ok (slackSender s))
  else if str_eq kind PagerDuty then
    s ← decode_members pagerduty_fields l "";
    rbind (pagerduty_validate s) (λ s, Ok (pagerDutySender s))
  else if str_eq kind Webhook then
    s ← decode_members webhook_fields l {| webhook_URL := ""; webhook_HeaderName := ""; webhook_HeaderValue := "" |};
    rbind (webhook_validate s) (λ s, Ok (webhookSender s))
  else Err (ErrText ("unknown kind of channel " +:+ quote kind +:+ ", it is one of " +:+ join ", " Kinds)).
End Validate.

(** ** Secrets *)

Definition secrets (kind : string) : list string :=
  if str_eq kind Email then ["password"]
  else if str_eq kind Slack then ["token"]
  else if str_eq kind PagerDuty then ["routingKey"]
  else if str_eq kind Webhook then ["url"; "headerValue"]
  else [].

Definition text_of (v : option json) : string := match v with Some (JString s) => s | _ => "" end.

(** One name of the loop of [Redact] *)
Definition redact_one (st : object * list string) (name : string) : object * list string :=
  if str_eq (text_of (st.1 !! name)) "" then st else (<[name := JString ""]> st.1, st.2 ++ [name]).
Definition Redact (kind : string) (settings : object) : object * list string :=
  fold_left redact_one (secrets kind) (settings, []).

(** [old[name] != nil]: a member that is not null *)
Definition keep_one (old fields : object) (name : string) : object :=
  match old !! name with
  | Some JNull | None => fields
  | Some v => if str_eq (text_of (fields !! name)) "" then <[name := v]> fields else fields
  end.
Definition KeepSecrets (kind : string) (current next : object) : object :=
  fold_left (keep_one current) (secrets kind) next.

(** ** Requests *)

Record Request := { rq_URL : string; rq_Header : list (string * string); rq_Body : json }.
Record Response := { rs_StatusCode : Z; rs_Status : string; rs_Body : string }.

(** The world the senders see: the answer to a request, given the ones
    before it; the JSON of an answer's text; a number as JSON, which a NaN
    has not; the clock; the mail servers; and a time in the zone of this
    machine. *)
Class Outside := {
  net_answer : list Request → Request → result error Response;
  json_parse : string → option json;
  json_float : float64 → option string;
  now_Time : time;
  now_UnixNano : Z;
  mail_server : MailServer;
  rfc1123z : time → string }.

(** A computation that makes requests *)
Definition NetM := SM (list Request) error.

Section Send.
Context `{Outside, ParseAddress}.

(** [postJSON]: any 2xx answer counts *)
Definition postJSON (target : string) (body : json) (header : list (string * string)) : NetM string := λ sent,
  let rq := {| rq_URL := target; 
    rq_Header := List.filter (λ h, negb (str_eq h.1 "Content-Type")) header ++ [("Content-Type", "application/json")]; rq_Body := body |} in
  (match net_answer sent rq with
   | Err e => Err (ErrWrap ("Post to " +:+ hostOf target) e)
   | Ok response =>
       if (rs_StatusCode response <? 200) || (299 <? rs_StatusCode response)
       then Err (ErrText (hostOf target +:+ " answered " +:+ rs_Status response +:+ ": "
                          +:+ shorten (rs_Body response) 200))
       else Ok (rs_Body response)
   end, sent ++ [rq]).

(** json.Marshal of a number fails for a NaN or an infinity. *)
Definition json_number (v : float64) : NetM json :=
  match json_float v with
  | Some literal => mret (JNumber literal)
  | None => sfail (ErrOther "json: unsupported value")
  end.

(** *** Slack *)

Definition slackAPI : string := "https://slack.com/api/".
Definition slackColors (severity : string) : string :=
  if str_eq severity "critical" then "#d1242f" else if str_eq severity "warning" then "#d4a72c"
  else if str_eq severity "resolved" then "#1a7f37" else if str_eq severity "test" then "#8c959f" else "".

Definition plain_text (s : string) : json := JObject [("type", JString "plain_text"); ("text", JString s)].

Definition slackPayload (msg : Message) : list (string * json) :=
  let text := if str_eq (msg_Link msg) "" then msg_Body msg else msg_Body msg +:+ str1 10 +:+ msg_Link msg in
  [("text", JString (shorten (msg_Subject msg) 150));
   ("attachments", JArray [JObject [
      ("color", JString (slackColors (severityName (msg_Severity msg) (msg_Event msg))));
      ("blocks", JArray [
         JObject [("type", JString "header"); ("text", plain_text (shorten (msg_Subject msg) 150))];
         JObject [("type", JString "section"); ("text", plain_text (cut_text text 3000))]])]])].

Record slackReply := { reply_Ok : bool; reply_Error : string; reply_Channel : string; reply_Ts : string }.
Definition set_reply (f v : string) (r : slackReply) : slackReply :=
  {| reply_Ok := reply_Ok r; reply_Error := if str_eq f "error" then v else reply_Error r;
     reply_Channel := if str_eq f "channel" then v else reply_Channel r;
     reply_Ts := if str_eq f "ts" then v else reply_Ts r |}.
Definition reply_fields : Fields slackReply :=
  [("ok", λ v r, match v with
                 | JBool b => Some {| reply_Ok := b; reply_Error := reply_Error r; reply_Channel := reply_Channel r; reply_Ts := reply_Ts r |}
                 | JNull => Some r
                 | _ => None
                 end);
   ("error", string_field (set_reply "error")); ("channel", string_field (set_reply "channel"));
   ("ts", string_field (set_reply "ts"))].

(** json.Unmarshal skips the fields a struct does not have. *)
Definition decode_reply (v : json) : option slackReply :=
  let zero := {| reply_Ok := false; reply_Error := ""; reply_Channel := ""; reply_Ts := "" |} in
  match v with
  | JNull => Some zero
  | JObject l =>
      match decode_members reply_fields
              (List.filter (λ m, match find_field reply_fields m.1 with Some _ => true | None => false end) l) zero with
      | Ok r => Some r
      | Err _ => None
      end
  | _ => None
  end.

Definition slack_Send (s : slackSettings) (msg : Message) (ref : string) : NetM string :=
  let '(method, place) :=
    match cut " " ref with
    | Some (channel, ts) =>
        if str_eq (msg_Event msg) Test then ("chat.postMessage", [("channel", JString (slack_Channel s))])
        else ("chat.update", [("channel", JString channel); ("ts", JString ts)])
    | None => ("chat.postMessage", [("channel", JString (slack_Channel s))])
    end in
  answer ← postJSON (slackAPI +:+ method) (JObject (slackPayload msg ++ place))
             [("Authorization", "Bearer " +:+ slack_Token s)];
  match option_bind _ _ decode_reply (json_parse answer) with
  | None => sfail (ErrText "the Slack API answered something that is not JSON")
  | Some reply =>
      if reply_Ok reply then mret (reply_Channel reply +:+ " " +:+ reply_Ts reply)
      else sfail (ErrText ("the Slack API said " +:+ reply_Error reply))
  end.

(** *** PagerDuty *)

Definition pagerDutyEvents : string := "https://events.pagerduty.com/v2/enqueue".

Definition pagerduty_dedup (msg : Message) : string :=
  if str_eq (msg_Event msg) Test then "symon-test-" +:+ itoa now_UnixNano
  else "symon-alert-" +:+ itoa (msg_AlertID msg).

Definition pagerduty_resolve (routingKey dedupKey : string) : json :=
  JObject [("routing_key", JString routingKey); ("event_action", JString "resolve"); ("dedup_key", JString dedupKey)].

Definition pagerduty_event (routingKey dedupKey : string) (msg : Message) (value : json) : json :=
  let source := if str_eq (msg_Host msg) "" then
                  if str_eq (msg_Target msg) "" then "SyMon" else msg_Target msg
                else msg_Host msg in
  let severity := severityName (msg_Severity msg) (msg_Event msg) in
  JObject ([("routing_key", JString routingKey); ("event_action", JString "trigger"); ("dedup_key", JString dedupKey);
     ("payload", JObject [("summary", JString (shorten (msg_Subject msg) 1024)); ("source", JString source);
        ("severity", JString (if str_eq severity "test" then "info" else severity));
        ("component", JString (msg_Metric msg)); ("class", JString (msg_Rule msg));
        ("custom_details", JObject [("message", JString (msg_Body msg)); ("value", value)])]);
     ("client", JString "SyMon")]
   ++ (if str_eq (msg_Link msg) "" then []
       else [("client_url", JString (msg_Link msg));
             ("links", JArray [JObject [("href", JString (msg_Link msg)); ("text", JString "Open in SyMon")]])])).

Definition pagerduty_Send (routingKey : string) (msg : Message) : NetM string :=
  let dedupKey := pagerduty_dedup msg in
  let resolve := (_ ← postJSON pagerDutyEvents (pagerduty_resolve routingKey dedupKey) []; mret "") : NetM string in
  if str_eq (msg_Event msg) Resolved then resolve
  else
    value ← json_number (msg_Value msg);
    _ ← postJSON pagerDutyEvents (pagerduty_event routingKey dedupKey msg value) [];
    if str_eq (msg_Event msg) Test then resolve else mret "".

(** *** Webhooks *)

Definition WebhookBody (msg : Message) (value : json) : json :=
  JObject [("event", JString (msg_Event msg)); ("severity", JString (severityName (msg_Severity msg) (msg_Event msg)));
     ("subject", JString (msg_Subject msg)); ("message", JString (msg_Body msg)); ("host", JString (msg_Host msg));
     ("rule", JString (msg_Rule msg)); ("metric", JString (msg_Metric msg)); ("target", JString (msg_Target msg));
     ("value", value); ("alertId", JNumber (itoa (msg_AlertID msg))); ("startedAt", JString (timeText (msg_StartedAt msg)));
     ("at", JString (timeText (msg_At msg))); ("link", JString (msg_Link msg))].

Definition webhook_Send (w : webhookSettings) (msg : Message) : NetM string :=
  let header := if str_eq (webhook_HeaderName w) "" then []
                else [(canonical_header (webhook_HeaderName w), webhook_HeaderValue w)] in
  value ← json_number (msg_Value msg);
  _ ← postJSON (webhook_URL w) (WebhookBody msg value) header;
  mret "".

(** *** Email *)

Definition one_line (s : string) : string := replacer [(str1 13, " "); (str1 10, " ")] s.
Definition header_line (name value : string) : string := name +:+ ": " +:+ one_line value +:+ crlf.

Definition parsed_string (a : string) : string := match mail_ParseAddress a with Some p => addr_String p | None => "" end.

Definition email_headers (e : emailSettings) (msg : Message) (now : time) : list (string * string) :=
  [("From", parsed_string (email_From e)); ("To", join ", " (map parsed_string (email_To e)));
   ("Subject", q_encode (one_line (msg_Subject msg))); ("Date", rfc1123z now); ("MIME-Version", "1.0");
   ("Content-Type", "text/plain; charset=utf-8"); ("Content-Transfer-Encoding", "quoted-printable")].

Definition email_text (msg : Message) : string :=
  let lf := str1 10 in
  let body := if str_eq (msg_Link msg) "" then msg_Body msg else msg_Body msg +:+ lf +:+ lf +:+ msg_Link msg in
  body +:+ lf +:+ lf +:+ "-- SyMon" +:+ lf.
Definition compose (e : emailSettings) (msg : Message) (now : time) : string :=
  foldr (λ h acc, header_line h.1 h.2 +:+ acc) "" (email_headers e msg now) +:+ crlf
  +:+ quoted_printable (replace_all (str1 10) crlf (email_text msg)).

Definition parsed_address (a : string) : string := match mail_ParseAddress a with Some p => addr_Address p | None => "" end.

(** What [deliver] says to the server once it is greeted *)
Definition smtp_session (e : emailSettings) (data : string) : ClientM mail_server unit :=
  offered ← Extension mail_server "STARTTLS";
  (if offered && negb (email_Port e =? 465) then StartTLS mail_server else mret ());;
  (if str_eq (email_User e) "" then mret () else Auth mail_server (email_User e) (email_Password e) (email_Host e));;
  Mail mail_server (parsed_address (email_From e));;
  sfor (email_To e) (λ to, Rcpt mail_server (parsed_address to));;
  Data mail_server data;;
  Quit mail_server.

(** The connection, with TLS from the start on port 465; its handshake is
    the first read or write's. *)
Definition mail_connection (e : emailSettings) (conn : ms_conn mail_server) : result error (ms_conn mail_server * bool * list wire) :=
  if email_Port e =? 465
  then rbind (ms_handshake mail_server (email_Host e) conn) (λ conn, Ok (conn, true, [Handshake (email_Host e)]))
  else Ok (conn, false, []).
(** The outcome and what went over the wire.  The time limit is one of the
    errors a call may answer. *)
Definition deliver (e : emailSettings) (data : string) : result error unit * list wire :=
  match ms_dial mail_server (join_host_port (email_Host e) (itoa (email_Port e))) with
  | Err err => (Err err, [])
  | Ok conn =>
      match rbind (mail_connection e conn) (λ '(conn, tls, log), NewClient mail_server conn tls (email_Host e) log) with
      | Err err => (Err err, [])
      | Ok client => let '(r, client) := smtp_session e data client in (r, sc_log client)
      end
  end.

Definition email_Send (e : emailSettings) (msg : Message) : NetM string := λ sent,
  (rbind (deliver e (compose e msg now_Time)).1 (λ _, Ok ""), sent).

(** *** Sender *)

Definition Send (sender : Sender) (msg : Message) (ref : string) : NetM string :=
  match sender with
  | emailSender e => email_Send e msg
  | slackSender s => slack_Send s msg ref
  | pagerDutySender key => pagerduty_Send key msg
  | webhookSender w => webhook_Send w msg
  end.
End Send.
