(* ===== verification/NotifyProps.v ===== *)
(** * Secrets stay in the collector, messages reach one thread, and no text
    becomes an email header. *)
From S2P Require Import Prelude GoStrings GoFloat GoTime Errors Monitor Alerts Json Smtp Mime Notify.
Local Open Scope Z_scope.

(** ** Redact and KeepSecrets, name by name *)

Definition is_set (o : object) (name : string) : bool := negb (str_eq (text_of (o !! name)) "").

Lemma is_set_string o name : is_set o name = true ↔ ∃ s, s ≠ "" ∧ o !! name = Some (JString s).
Proof.
  unfold is_set. rewrite negb_true_iff, <- not_true_iff_false, str_eq_spec. split.
  - intros Hs. destruct (o !! name) as [[]|]; try (by destruct Hs). by exists s.
  - intros (s & Hs & ->). done.
Qed.

Lemma redact_fold names : ∀ o acc, NoDup names →
  let '(o', acc') := fold_left redact_one names (o, acc) in
  acc' = acc ++ List.filter (is_set o) names ∧
  ∀ k, o' !! k = if bool_decide (k ∈ names) && is_set o k then Some (JString "") else o !! k.
Proof.
  induction names as [|n names IH]; intros o acc Hnd; cbn.
  { rewrite app_nil_r. done. }
  apply NoDup_cons in Hnd as [Hn Hnd]. unfold redact_one at 2. cbn [fst snd].
  destruct (str_eq (text_of (o !! n)) "") eqn:E.
  - specialize (IH o acc Hnd). destruct (fold_left redact_one names _) as [o' acc']. destruct IH as [-> IH].
    assert (Es : is_set o n = false) by (unfold is_set; by rewrite E). rewrite Es. split; [done|].
    intros k. rewrite IH. destruct (decide (k = n)) as [->|Hk].
    + by rewrite Es, !andb_false_r.
    + by rewrite (bool_decide_ext (k ∈ n :: names) (k ∈ names)) by (rewrite elem_of_cons; naive_solver).
  - specialize (IH (<[n:=JString ""]> o) (acc ++ [n]) Hnd).
    destruct (fold_left redact_one names _) as [o' acc']. destruct IH as [-> IH].
    assert (Es : is_set o n = true) by (unfold is_set; by rewrite E). rewrite Es. split.
    + rewrite <- app_assoc. cbn. do 2 f_equal. apply filter_ext_in. intros k Hk%list_elem_of_In.
      unfold is_set. rewrite lookup_insert_ne; [done|]. by intros ->.
    + intros k. rewrite IH. destruct (decide (k = n)) as [->|Hk].
      * rewrite lookup_insert_eq, Es. rewrite (bool_decide_true (n ∈ n :: names)) by left. cbn.
        by rewrite (bool_decide_false (n ∈ names)).
      * unfold is_set. rewrite lookup_insert_ne by done.
        by rewrite (bool_decide_ext (k ∈ n :: names) (k ∈ names)) by (rewrite elem_of_cons; naive_solver).
Qed.

(** What [keep_one] puts under its name *)
Definition kept (cur next : option json) : option json :=
  match cur with
  | Some JNull | None => next
  | Some v => if str_eq (text_of next) "" then Some v else next
  end.

Lemma keep_one_lookup cur o n k : keep_one cur o n !! k = if decide (k = n) then kept (cur !! n) (o !! n) else o !! k.
Proof.
  unfold keep_one, kept. destruct (decide (k = n)) as [->|Hk].
  - destruct (cur !! n) as [[]|]; try done; destruct (str_eq _ _); by rewrite ?lookup_insert_eq.
  - destruct (cur !! n) as [[]|]; try done; destruct (str_eq _ _); by rewrite ?lookup_insert_ne by done.
Qed.

Lemma keep_fold cur names : ∀ o, NoDup names → ∀ k,
  fold_left (keep_one cur) names o !! k = if bool_decide (k ∈ names) then kept (cur !! k) (o !! k) else o !! k.
Proof.
  induction names as [|n names IH]; intros o Hnd k; [done|]. apply NoDup_cons in Hnd as [Hn Hnd]. cbn.
  rewrite IH by done. rewrite !keep_one_lookup. destruct (decide (k = n)) as [->|Hk].
  - rewrite (bool_decide_false (n ∈ names)) by done. by rewrite (bool_decide_true (n ∈ n :: names)) by left.
  - by rewrite (bool_decide_ext (k ∈ n :: names) (k ∈ names)) by (rewrite elem_of_cons; naive_solver).
Qed.

Lemma secrets_nodup kind : NoDup (secrets kind).
Proof.
  unfold secrets. repeat case_match; try apply NoDup_nil_2; try apply NoDup_singleton.
  apply NoDup_cons. split; [|apply NoDup_singleton]. by rewrite list_elem_of_singleton.
Qed.

Lemma Redact_lookup kind o : (Redact kind o).2 = List.filter (is_set o) (secrets kind) ∧
  ∀ k, (Redact kind o).1 !! k = if bool_decide (k ∈ secrets kind) && is_set o k then Some (JString "") else o !! k.
Proof.
  unfold Redact. pose proof (redact_fold (secrets kind) o [] (secrets_nodup kind)) as Hr.
  by destruct (fold_left redact_one (secrets kind) (o, [])).
Qed.

(** ** Replacing line breaks *)

Lemma replacer_cons_hit c rep pairs s : first_match pairs (String c s) = Some (1%nat, rep) →
  replacer pairs (String c s) = rep +:+ replacer pairs s.
Proof. intros E. unfold replacer. cbn [replace_from]. by rewrite E. Qed.

Lemma replacer_cons_miss c pairs s : first_match pairs (String c s) = None →
  replacer pairs (String c s) = String c (replacer pairs s).
Proof. intros E. unfold replacer. cbn [replace_from]. by rewrite E. Qed.

Definition no_break (s : string) : Prop := char_in (chr 13) s = false ∧ char_in (chr 10) s = false.

Lemma char_in_cons c d s : char_in c (String d s) = Ascii.eqb c d || char_in c s.
Proof. done. Qed.

Lemma one_line_no_break s : no_break (one_line s).
Proof.
  unfold one_line. set (pairs := [(str1 13, " "); (str1 10, " ")]).
  induction s as [|c s [IH1 IH2]]; [done|].
  assert (Hm : first_match pairs (String c s) = if decide (c = chr 13) then Some (1%nat, " ")
    else if decide (c = chr 10) then Some (1%nat, " ") else None).
  { unfold first_match, pairs, str1, has_prefix. cbn [List.find fst snd cut_prefix].
    destruct (decide (c = chr 13)) as [->|H1]; [by rewrite decide_True|].
    rewrite decide_False by congruence.
    destruct (decide (c = chr 10)) as [->|H2]; [by rewrite decide_True|].
    by rewrite decide_False by congruence. }
  destruct (decide (c = chr 13)) as [->|H1]; [|destruct (decide (c = chr 10)) as [->|H2]].
  - rewrite (replacer_cons_hit _ " ") by done. by split.
  - rewrite (replacer_cons_hit _ " ") by done. by split.
  - rewrite replacer_cons_miss by done. split; rewrite char_in_cons, orb_false_iff; split; try done;
      apply not_true_iff_false; rewrite Ascii.eqb_eq; congruence.
Qed.

(** The lines of a text, where a line ends in CR LF *)
Fixpoint crlf_lines (l : list (string * string)) : string :=
  match l with [] => "" | (n, v) :: l' => n +:+ ": " +:+ v +:+ crlf +:+ crlf_lines l' end.

(** ** Properties *)

(** The keys of an object under which the senders' decoder finds the field
    [name]: encoding/json takes any letter case for it. *)
Definition read_as (name key : string) : Prop := fold_name key = fold_name name.

(** C34: [Redact] blanks what is set under the exact names of the kind's
    secrets, names those, and keeps every other member as it is, also one
    that spells a secret in other letters.  So of settings whose keys are
    spelled as documented no text is left under any key the sender reads as
    a secret.  Saving what was shown back over the settings it came from
    restores them all. *)
Theorem Redact_KeepSecrets (kind : string) (settings : object) :
  (∀ name, name ∈ secrets kind → text_of ((Redact kind settings).1 !! name) = "")
  ∧ (∀ key, key ∉ secrets kind → (Redact kind settings).1 !! key = settings !! key)
  ∧ (∀ name, name ∈ (Redact kind settings).2 ↔
       name ∈ secrets kind ∧ ∃ s, s ≠ "" ∧ settings !! name = Some (JString s))
  ∧ ((∀ name key, name ∈ secrets kind → read_as name key → settings !! key ≠ None → key = name) →
     ∀ name key, name ∈ secrets kind → read_as name key → text_of ((Redact kind settings).1 !! key) = "")
  ∧ KeepSecrets kind settings (Redact kind settings).1 = settings.
Proof.
  destruct (Redact_lookup kind settings) as [Es El].
  assert (Hblank : ∀ name, name ∈ secrets kind → text_of ((Redact kind settings).1 !! name) = "").
  { intros name Hn. rewrite El, (bool_decide_true _ Hn). cbn. destruct (is_set settings name) eqn:E; [done|].
    unfold is_set in E. apply negb_false_iff, str_eq_spec in E. done. }
  split_and!.
  - done.
  - intros name Hn. by rewrite El, (bool_decide_false _ Hn).
  - intros name. rewrite Es, list_elem_of_filter_b, is_set_string. done.
  - intros Hspelled name key Hn Hr. destruct (decide (key ∈ secrets kind)) as [Hk|Hk]; [by apply Hblank|].
    rewrite El, (bool_decide_false _ Hk). cbn. destruct (settings !! key) eqn:E; [|done].
    destruct Hk. rewrite (Hspelled name key Hn Hr); [done|by rewrite E].
  - apply map_eq. intros k. unfold KeepSecrets. rewrite (keep_fold settings _ _ (secrets_nodup kind)), El.
    destruct (bool_decide (k ∈ secrets kind)); [|done]. cbn. destruct (is_set settings k) eqn:E.
    + apply is_set_string in E as (s & _ & ->). done.
    + unfold is_set in E. apply negb_false_iff in E. unfold kept. destruct (settings !! k) as [[]|]; try done; by rewrite E.
Qed.

(** Encoding/json reads a field under any letter case, [Redact] knows one
    spelling only: settings that spell a Slack token "Token" work, and their
    token is shown. *)
Lemma Redact_misses_spelling `{ParseAddress, UrlParse} :
  let settings := of_members [("Token", JString "xoxb-1"); ("channel", JString "#ops")] in
  Parse Slack settings = Ok (slackSender {| slack_Token := "xoxb-1"; slack_Channel := "#ops" |})
  ∧ (Redact Slack settings).1 = settings ∧ (Redact Slack settings).2 = [].
Proof. by vm_compute. Qed.

(** The head of an email is its seven headers, one line each. *)
Lemma compose_headers `{Outside, ParseAddress} (e : emailSettings) (msg : Message) (now : time) :
  ∃ values, compose e msg now =
    crlf_lines (zip ["From"; "To"; "Subject"; "Date"; "MIME-Version"; "Content-Type"; "Content-Transfer-Encoding"] values)
    +:+ crlf +:+ quoted_printable (replace_all (str1 10) crlf (email_text msg))
  ∧ length values = 7%nat ∧ Forall no_break values.
Proof.
  exists (map (λ h, one_line h.2) (email_headers e msg now)). split_and!.
  - unfold compose. cbv zeta. f_equal. unfold email_headers. cbn [map zip zip_with foldr crlf_lines fst snd].
    unfold header_line. rewrite !append_assoc. reflexivity.
  - done.
  - apply Forall_fmap, Forall_true. intros h. apply one_line_no_break.
Qed.
