(* ===== verification/SmtpProps.v ===== *)
(** * Sending mail: what goes over the wire, and when.

    For any mail server, whatever it answers: the password is sent over TLS
    only or to the machine itself, the text of a mail follows an accepted
    sender and accepted recipients, and the server reads back the text that
    was given. *)
From S2P Require Import Prelude GoStrings GoFloat GoTime Errors Monitor Alerts Json Base64 Smtp Mime Notify NotifyProps.
From Stdlib Require Import Ascii.
Local Open Scope Z_scope.

#[local] Arguments Extension : simpl never.
#[local] Arguments dot_text : simpl never.

(** ** The dots *)

Definition at_line_start (st : dot_state) : bool := match st with DotBegin | DotBeginLine => true | _ => false end.

Lemma read_dots_plain b c s : Ascii.eqb c dot = false ∨ b = false →
  read_dots b (String c s) = ('(text, rest) ← read_dots (Ascii.eqb c lf) s; Some (String c text, rest)).
Proof. intros [E| ->]; cbn [read_dots andb]; [rewrite E, andb_false_r|]; done. Qed.

(** A doubled dot: the first one goes. *)
Lemma read_dots_stuffed s : read_dots true (String dot (String dot s)) = read_dots false (String dot s).
Proof. destruct s as [|c s]; [done|]. cbn. by destruct s. Qed.

Lemma read_dots_end st rest : read_dots (at_line_start st) (dot_end st +:+ rest) = Some (crlf_end st, rest).
Proof. by destruct st. Qed.

Lemma dot_write_read text : ∀ st rest,
  read_dots (at_line_start st) (dot_write st text +:+ rest) = Some (crlf_text st text, rest).
Proof.
  induction text as [|c text IH]; intros st rest; [apply read_dots_end|].
  assert (Hnext : ∀ b, Ascii.eqb c dot = false ∨ b = false →
    read_dots b ((if Ascii.eqb c cr then String c (dot_write DotCR text)
      else if Ascii.eqb c lf then String cr (String c (dot_write DotBeginLine text))
      else String c (dot_write DotData text)) +:+ rest)
    = Some (if Ascii.eqb c cr then String c (crlf_text DotCR text)
      else if Ascii.eqb c lf then String cr (String c (crlf_text DotBeginLine text))
      else String c (crlf_text DotData text), rest)).
  { intros b Hb. destruct (Ascii.eqb c cr) eqn:Ecr; [|destruct (Ascii.eqb c lf) eqn:Elf]; rewrite ?append_cons.
    - apply Ascii.eqb_eq in Ecr as ->. rewrite read_dots_plain by done.
      change (Ascii.eqb cr lf) with false. by rewrite (IH DotCR).
    - rewrite read_dots_plain by (by left). change (Ascii.eqb cr lf) with false.
      rewrite read_dots_plain by (by right). rewrite Elf. by rewrite (IH DotBeginLine).
    - rewrite read_dots_plain by done. rewrite Elf. by rewrite (IH DotData). }
  destruct st; cbn [dot_write crlf_text at_line_start].
  - destruct (Ascii.eqb c dot) eqn:Ed; [|by apply Hnext; left]. apply Ascii.eqb_eq in Ed as ->.
    specialize (Hnext false (or_intror eq_refl)). change (Ascii.eqb dot cr) with false in *. change (Ascii.eqb dot lf) with false in *.
    cbv iota in *. rewrite !append_cons in *. by rewrite read_dots_stuffed.
  - destruct (Ascii.eqb c dot) eqn:Ed; [|by apply Hnext; left]. apply Ascii.eqb_eq in Ed as ->.
    specialize (Hnext false (or_intror eq_refl)). change (Ascii.eqb dot cr) with false in *. change (Ascii.eqb dot lf) with false in *.
    cbv iota in *. rewrite !append_cons in *. by rewrite read_dots_stuffed.
  - rewrite ?append_cons. rewrite read_dots_plain by (by right). destruct (Ascii.eqb c lf); [by rewrite (IH DotBeginLine)|by rewrite (IH DotData)].
  - by apply Hnext; right.
Qed.

(** Text whose lines all end in CR LF goes out as it is. *)
Inductive whole_lines : string → Prop :=
  | whole_none : whole_lines ""
  | whole_line l s : no_break l → whole_lines s → whole_lines (l +:+ crlf +:+ s).

Lemma crlf_text_line l : ∀ st s, st ≠ DotCR → no_break l → 
  crlf_text st (l +:+ crlf +:+ s) = l +:+ crlf +:+ crlf_text DotBeginLine s.
Proof.
  induction l as [|c l IH]; intros st s Hst [Hcr Hlf]; [by destruct st|].
  rewrite char_in_cons in Hcr, Hlf. apply orb_false_iff in Hcr as [Ecr Hcr], Hlf as [Elf Hlf].
  rewrite Ascii.eqb_sym in Ecr, Elf. rewrite !append_cons. cbn [crlf_text].
  destruct st; [| |done|]; unfold cr, lf; rewrite Ecr, Elf; by rewrite IH.
Qed.
Lemma crlf_text_whole s : whole_lines s → crlf_text DotBeginLine s = s.
Proof. induction 1 as [|l s Hl Hs IH]; [done|]. rewrite crlf_text_line by done. by rewrite IH. Qed.

(** ** Invariants of a client's run *)

Section Runs.
Context (server : MailServer).
Implicit Types c : smtp_client server.

(** A property of clients that a computation keeps, whatever happens. *)
Definition keeps (P : smtp_client server → Prop) {A} (m : ClientM server A) : Prop := ∀ c, P c → P (m c).2.

Lemma keeps_ret P {A} (a : A) : keeps P (mret a : ClientM server A).
Proof. by intros c. Qed.
Lemma keeps_fail P {A} e : keeps P (sfail e : ClientM server A).
Proof. by intros c. Qed.
Lemma keeps_get P : keeps P (sget : ClientM server _).
Proof. by intros c. Qed.
Lemma keeps_bind P {A B} (m : ClientM server A) (k : A → ClientM server B) :
  keeps P m → (∀ a, keeps P (k a)) → keeps P (m ≫= k).
Proof.
  intros Hm Hk c Hc. specialize (Hm c Hc). unfold mbind, SM_bind, sbind.
  destruct (m c) as [[a|e] c1]; [by apply Hk|done].
Qed.
Lemma keeps_try P {A} (m : ClientM server A) : keeps P m → keeps P (stry m).
Proof. intros Hm c Hc. specialize (Hm c Hc). unfold stry. by destruct (m c). Qed.
Lemma keeps_if P {A} (b : bool) (m1 m2 : ClientM server A) : keeps P m1 → keeps P m2 → keeps P (if b then m1 else m2).
Proof. by destruct b. Qed.
Lemma keeps_for P {A} (l : list A) (body : A → ClientM server unit) : (∀ a, keeps P (body a)) → keeps P (sfor l body).
Proof. intros Hb. induction l as [|a l IH]; cbn [sfor]; [apply keeps_ret|]. by apply keeps_bind. Qed.
Lemma keeps_validate P line : keeps P (validateLine server line).
Proof. unfold validateLine. apply keeps_if; [apply keeps_fail|apply keeps_ret]. Qed.

(** What a property needs for the whole session: the lines and the three
    ways the rest of the client's state changes. *)
Record line_kept (P : smtp_client server → Prop) (sendable : string → Prop) : Prop := {
  lk_cmd expect line : sendable line → keeps P (cmd server expect line);
  lk_ext ext c : P c → P (with_ext server ext c);
  lk_greeted e c : P c → P (greeted server e c);
  lk_handshake : keeps P (handshake server) }.

Create HintDb smtp.
#[local] Hint Resolve keeps_ret keeps_fail keeps_get keeps_bind keeps_try keeps_if keeps_for keeps_validate : smtp.

Section Session.
Context (P : smtp_client server → Prop) (sendable : string → Prop) (HP : line_kept P sendable).

Lemma keeps_ehlo : sendable "EHLO localhost" → keeps P (ehlo server).
Proof. intros Hs. apply keeps_bind; [by apply (lk_cmd _ _ HP)|]. intros r c. apply (lk_ext _ _ HP). Qed.
Lemma keeps_helo : sendable "HELO localhost" → keeps P (helo server).
Proof.
  intros Hs. apply keeps_bind; [intros c; apply (lk_ext _ _ HP)|]. intros _.
  apply keeps_bind; [by apply (lk_cmd _ _ HP)|]. auto with smtp.
Qed.

Definition greets : Prop := sendable "EHLO localhost" ∧ sendable "HELO localhost".

Lemma keeps_hello : greets → keeps P (hello server).
Proof.
  intros [He Hh]. apply keeps_bind; [auto with smtp|]. intros c0. apply keeps_bind.
  - apply keeps_if; [auto with smtp|]. apply keeps_bind; [intros c; apply (lk_greeted _ _ HP)|]. intros _.
    apply keeps_bind; [apply keeps_try, keeps_ehlo, He|]. intros [|e]; [auto with smtp|].
    apply keeps_bind; [apply keeps_try, keeps_helo, Hh|]. intros h c. apply (lk_greeted _ _ HP).
  - intros _. apply keeps_bind; [auto with smtp|]. intros c1. destruct (sc_helloError _ c1); auto with smtp.
Qed.

Lemma keeps_extension ext : greets → keeps P (Extension server ext).
Proof.
  intros Hg. apply keeps_bind; [by apply keeps_try, keeps_hello|]. intros [[]|e]; auto with smtp.
Qed.

Lemma keeps_starttls : greets → sendable "STARTTLS" → keeps P (StartTLS server).
Proof.
  intros Hg Hs. apply keeps_bind; [by apply keeps_hello|]. intros _. apply keeps_bind; [by apply (lk_cmd _ _ HP)|].
  intros _. apply keeps_bind; [apply (lk_handshake _ _ HP)|]. intros _. apply keeps_ehlo, Hg.
Qed.

Lemma keeps_quit : greets → sendable "QUIT" → keeps P (Quit server).
Proof.
  intros Hg Hs. apply keeps_bind; [by apply keeps_try, keeps_hello|]. intros _.
  apply keeps_bind; [by apply (lk_cmd _ _ HP)|]. auto with smtp.
Qed.

(** [Auth], when the line with the password keeps the property wherever
    [plain_start] lets it be sent. *)
Lemma keeps_auth user password host : greets → sendable "QUIT" → sendable "*" →
  (∀ c resp, P c → plain_start server user password host c = Ok resp → P (cmd server 0 ("AUTH PLAIN " +:+ b64_encode resp) c).2) →
  keeps P (Auth server user password host).
Proof.
  intros Hg Hq Hs Hpw. apply keeps_bind; [by apply keeps_hello|]. intros _ c Hc.
  unfold mbind, SM_bind, sbind at 1, sget. cbv beta iota.
  destruct (plain_start server user password host c) as [resp|e] eqn:Ep.
  2:{ revert c Hc Ep. intros c Hc _. apply (keeps_bind P (stry (Quit server)) (λ _, sfail e)); [by apply keeps_try, keeps_quit|auto with smtp|done]. }
  specialize (Hpw c resp Hc Ep). unfold sbind at 1.
  destruct (cmd server 0 ("AUTH PLAIN " +:+ b64_encode resp) c) as [[[code lines]|e] c1]; [|done]. cbn [snd] in Hpw.
  assert (Habort : ∀ e : error, P ((stry (cmd server 501 "*");; stry (Quit server);; (sfail e : ClientM server unit)) c1).2).
  { intros e. apply (keeps_bind P (stry (cmd server 501 "*")) (λ _, stry (Quit server);; sfail e)); [by apply keeps_try, (lk_cmd _ _ HP)| |done].
    intros _. apply keeps_bind; [by apply keeps_try, keeps_quit|auto with smtp]. }
  destruct (code =? 334); [destruct (b64_decode _); apply Habort|]. destruct (code =? 235); [done|apply Habort].
Qed.
End Session.
End Runs.

(** ** The password *)

Definition sends_auth (line : string) : bool := has_prefix line "AUTH".

(** A line with the password comes after a handshake with the host, or the
    host is this machine. *)
Definition private_log (host : string) (log : list wire) : Prop :=
  ∀ l1 line r l2, log = l1 ++ Command line r :: l2 → sends_auth line = true → Handshake host ∈ l1 ∨ isLocalhost host = true.

Lemma private_snoc host log w : private_log host log →
  (∀ line r, w = Command line r → sends_auth line = true → Handshake host ∈ log ∨ isLocalhost host = true) →
  private_log host (log ++ [w]).
Proof.
  intros Hlog Hw l1 line r l2 E Ha. destruct l2 as [|y l2 _] using rev_ind.
  - apply app_inj_tail in E as [-> ->]. by eapply Hw.
  - rewrite app_comm_cons, app_assoc in E. apply app_inj_tail in E as [-> _]. by eapply Hlog.
Qed.

Definition private {server} (host : string) (c : smtp_client server) : Prop :=
  sc_serverName c = host ∧ (sc_tls c = true → Handshake host ∈ sc_log c) ∧ private_log host (sc_log c).

Lemma cmd_kept {server} (P : smtp_client server → Prop) expect line : (∀ c conn r, P c → P (with_conn server conn (Command line r) c)) →
  keeps server P (cmd server expect line).
Proof. intros H c Hc. unfold cmd. destruct (ms_send server _ _) as [r conn]. by apply H. Qed.

Lemma private_kept server host : line_kept server (private host) (λ line, sends_auth line = false).
Proof.
  split; try done.
  - intros expect line Hl. apply cmd_kept. intros c conn r (Hn & Ht & Hp). split_and!; [done| |].
    + intros Htls. apply elem_of_app. left. by apply Ht.
    + apply private_snoc; [done|]. intros line' r' [= <- <-] Ha. congruence.
  - intros c (Hn & Ht & Hp). unfold handshake. destruct (ms_handshake _ _ _) as [conn|e]; [|done]. split_and!; [done| |].
    + intros _. cbn. rewrite Hn. apply elem_of_app. right. by apply list_elem_of_singleton.
    + by apply private_snoc.
Qed.

Section Mail.
Context `{Outside, ParseAddress}.

Lemma session_private e data c : private (email_Host e) c → private (email_Host e) (smtp_session e data c).2.
Proof.
  pose proof (private_kept mail_server (email_Host e)) as HP.
  assert (Hg : greets (λ line, sends_auth line = false)) by done.
  revert c. change (keeps mail_server (private (email_Host e)) (smtp_session e data)). unfold smtp_session.
  apply keeps_bind; [by eapply keeps_extension|]. intros offered. apply keeps_bind; [|intros _; apply keeps_bind; [|intros _; apply keeps_bind; [|intros _; apply keeps_bind; [|intros _; apply keeps_bind; [|intros _]]]]].
  - apply keeps_if; [by eapply keeps_starttls|apply keeps_ret].
  - apply keeps_if; [apply keeps_ret|]. eapply keeps_auth; [exact HP|done..|].
    intros c resp (Hn & Ht & Hp) Hstart. unfold cmd. destruct (ms_send _ _ _) as [r conn]. split_and!; [done| |].
    + intros Htls. apply elem_of_app. left. by apply Ht.
    + apply private_snoc; [done|]. intros line r' _ _. unfold plain_start in Hstart. rewrite Hn in Hstart.
      destruct (sc_tls c) eqn:Etls; [left; by apply Ht|]. destruct (isLocalhost (email_Host e)) eqn:El; [by right|done].
  - apply keeps_bind; [apply keeps_validate|]. intros _. apply keeps_bind; [by eapply keeps_hello|]. intros _.
    apply keeps_bind; [apply keeps_get|]. intros c0. apply keeps_bind; [by apply (lk_cmd _ _ _ HP)|]. intros _. apply keeps_ret.
  - apply keeps_for. intros to. apply keeps_bind; [apply keeps_validate|]. intros _.
    apply keeps_bind; [by apply (lk_cmd _ _ _ HP)|]. intros _. apply keeps_ret.
  - apply keeps_bind; [by apply (lk_cmd _ _ _ HP)|]. intros _ c (Hn & Ht & Hp). unfold send_text.
    destruct (ms_send _ _ _) as [r conn]. split_and!; [done| |by apply private_snoc].
    intros Htls. apply elem_of_app. left. by apply Ht.
  - by eapply keeps_quit.
Qed.

(** ** The envelope and the text *)

Definition loud (w : wire) : bool :=
  match w with
  | Handshake _ => false
  | Command line _ => has_prefix line "MAIL FROM:" || has_prefix line "RCPT TO:" || str_eq line "DATA"
  | Content _ _ => true
  end.
Definition no_content (log : list wire) : Prop := ∀ text reply, Content text reply ∉ log.

(** The client has added only quiet lines since. *)
Definition quiet_since (log : list wire) (c : smtp_client mail_server) : Prop :=
  ∃ l, sc_log c = log ++ l ∧ Forall (λ w, loud w = false) l.

Lemma quiet_more log c w c' : quiet_since log c → sc_log c' = sc_log c ++ [w] → loud w = false → quiet_since log c'.
Proof.
  intros (l & E & Hl) E' Hw. exists (l ++ [w]). rewrite E', E, app_assoc. split; [done|]. apply Forall_app. split; [done|].
  by constructor.
Qed.

Lemma quiet_kept log : line_kept mail_server (quiet_since log) (λ line, loud (Command line (Ok 0)) = false).
Proof.
  split; try done.
  - intros expect line Hl. apply cmd_kept. intros c conn r Hc. eapply quiet_more; [exact Hc|reflexivity|exact Hl].
  - intros c Hc. unfold handshake. destruct (ms_handshake _ _ _); [|done]. eapply quiet_more; [exact Hc|reflexivity|done].
Qed.

Lemma quiet_content log : Forall (λ w, loud w = false) log → no_content log.
Proof. intros Hl text reply Hin. rewrite Forall_forall in Hl. by specialize (Hl _ Hin). Qed.

(** The session before the envelope: greeting, TLS and login *)
Definition login (e : emailSettings) (offered : bool) : ClientM mail_server unit :=
  (if offered && negb (email_Port e =? 465) then StartTLS mail_server else mret ());;
  (if str_eq (email_User e) "" then mret () else Auth mail_server (email_User e) (email_Password e) (email_Host e)).
Definition prologue (e : emailSettings) : ClientM mail_server unit :=
  offered ← Extension mail_server "STARTTLS"; login e offered.

Lemma login_keeps e offered P : line_kept mail_server P (λ line, loud (Command line (Ok 0)) = false) →
  keeps mail_server P (login e offered).
Proof.
  intros HP. assert (Hg : greets (λ line, loud (Command line (Ok 0)) = false)) by done.
  apply keeps_bind; [|intros _].
  - apply keeps_if; [by eapply keeps_starttls|apply keeps_ret].
  - apply keeps_if; [apply keeps_ret|]. eapply keeps_auth; [exact HP|done..|].
    intros c resp Hc _. by apply (lk_cmd _ _ _ HP).
Qed.

Lemma prologue_keeps e P : line_kept mail_server P (λ line, loud (Command line (Ok 0)) = false) → keeps mail_server P (prologue e).
Proof.
  intros HP. apply keeps_bind; [by eapply keeps_extension|]. intros offered. by apply login_keeps.
Qed.

Lemma greeted_kept : line_kept mail_server (λ c, sc_didHello mail_server c = true) (λ line, loud (Command line (Ok 0)) = false).
Proof.
  split; try done.
  - intros expect line _. by apply cmd_kept.
  - intros c Hc. unfold handshake. by destruct (ms_handshake _ _ _).
Qed.

(** A client that greeted does not greet again. *)
Lemma hello_again (c : smtp_client mail_server) : sc_didHello mail_server c = true → (hello mail_server c).2 = c.
Proof.
  intros Hc. unfold hello, mbind, SM_bind, sbind, sget, mret, SM_ret, sret. cbv beta iota. rewrite Hc. cbv beta iota.
  by destruct (sc_helloError mail_server c).
Qed.

Lemma hello_greets (c : smtp_client mail_server) : sc_didHello mail_server (hello mail_server c).2 = true.
Proof.
  unfold hello, mbind, SM_bind, sbind, sget, smodify, stry, sfail, mret, SM_ret, sret. cbv beta iota.
  assert (Htail : ∀ c1, sc_didHello mail_server c1 = true →
    sc_didHello mail_server ((match sc_helloError mail_server c1 with None => λ s, (Ok (), s) | Some e => λ s, (Err e, s) end)
      c1 : result error unit * smtp_client mail_server).2 = true) by (intros c1 Hc1; by destruct (sc_helloError _ c1)).
  destruct (sc_didHello mail_server c) eqn:Ed; [by apply Htail|].
  pose proof (keeps_ehlo mail_server _ _ greeted_kept eq_refl (greeted mail_server None c) eq_refl) as He.
  destruct (ehlo mail_server (greeted mail_server None c)) as [[[]|e] c1]; [by apply Htail|]. cbn [snd] in He.
  pose proof (keeps_helo mail_server _ _ greeted_kept eq_refl c1 He) as Hh.
  destruct (helo mail_server c1) as [[[]|e'] c2]; by apply Htail.
Qed.

Lemma prologue_greets e c : sc_didHello mail_server (prologue e c).2 = true.
Proof.
  unfold prologue, mbind, SM_bind, sbind at 1, Extension. unfold mbind at 1, SM_bind, sbind, stry.
  pose proof (hello_greets c) as Hg. destruct (hello mail_server c) as [[[]|err] c1]; cbn [snd] in Hg;
    by apply (login_keeps e _ _ greeted_kept).
Qed.

(** ** The envelope *)

(** From a greeted client, [m] adds lines without content; when it succeeds
    they are the ones [Q] allows. *)
Definition adds {A} (m : ClientM mail_server A) (Q : A → list wire → Prop) : Prop :=
  ∀ c, sc_didHello mail_server c = true → ∃ l, sc_log (m c).2 = sc_log c ++ l ∧ no_content l ∧
    sc_didHello mail_server (m c).2 = true ∧ (∀ a, (m c).1 = Ok a → Q a l).

Lemma no_content_app l1 l2 : no_content l1 → no_content l2 → no_content (l1 ++ l2).
Proof. intros H1 H2 text reply [Hin|Hin]%elem_of_app; [by eapply H1|by eapply H2]. Qed.

Lemma adds_bind {A B} (m : ClientM mail_server A) (k : A → ClientM mail_server B) Q R :
  adds m Q → (∀ a, adds (k a) (R a)) → adds (m ≫= k) (λ b l, ∃ a l1 l2, l = l1 ++ l2 ∧ Q a l1 ∧ R a b l2).
Proof.
  intros Hm Hk c Hc. destruct (Hm c Hc) as (l1 & E1 & N1 & G1 & Q1). unfold mbind, SM_bind, sbind.
  destruct (m c) as [[a|e] c1]; cbn [fst snd] in *.
  - destruct (Hk a c1 G1) as (l2 & E2 & N2 & G2 & Q2). exists (l1 ++ l2). rewrite E2, E1, app_assoc.
    split_and!; [done|by apply no_content_app|done|]. intros b Hb. exists a, l1, l2. auto.
  - exists l1. split_and!; done.
Qed.
Lemma adds_weaken {A} (m : ClientM mail_server A) (Q R : A → list wire → Prop) : adds m Q → (∀ a l, Q a l → R a l) → adds m R.
Proof. intros Hm HQ c Hc. destruct (Hm c Hc) as (l & E & N & G & H'). exists l. split_and!; auto. Qed.
Lemma adds_nothing {A} (m : ClientM mail_server A) (Q : A → list wire → Prop) :
  (∀ c, sc_didHello mail_server c = true → (m c).2 = c ∧ ∀ a, (m c).1 = Ok a → Q a []) → adds m Q.
Proof.
  intros Hm c Hc. destruct (Hm c Hc) as [E HQ]. exists []. rewrite E, app_nil_r. split_and!; [done| |done|done].
  intros text reply Hin. by apply not_elem_of_nil in Hin.
Qed.

(** A command whose reply is right is in the log with its code. *)
Lemma adds_cmd expect line :
  adds (cmd mail_server expect line) (λ r l, l = [Command line (Ok r.1)] ∧ code_expected expect r.1 = true).
Proof.
  intros c Hc. unfold cmd. destruct (ms_send _ _ _) as [r conn].
  exists [Command line (code_of (read_reply expect r))]. split_and!; [done| |done|].
  - intros text reply Hin%list_elem_of_singleton. done.
  - intros p Hp. cbn [fst] in Hp. rewrite Hp. split; [done|]. unfold read_reply in Hp. destruct r as [[code lines]|e]; [|done].
    destruct (code_expected expect code) eqn:E; [|done]. by injection Hp as <-.
Qed.

Lemma adds_valid line : adds (validateLine mail_server line) (λ _ l, l = []).
Proof. apply adds_nothing. intros c _. unfold validateLine. by destruct (contains_any line crlf). Qed.
Lemma adds_hello : adds (hello mail_server) (λ _ l, l = []).
Proof. apply adds_nothing. intros c Hc. by rewrite hello_again. Qed.
Lemma adds_get : adds sget (λ _ l, l = []).
Proof. by apply adds_nothing. Qed.
Lemma adds_ret {A} (a : A) : adds (mret a) (λ _ l, l = []).
Proof. by apply adds_nothing. Qed.

Definition mail_prefix (from : string) : string := "MAIL FROM:<" +:+ from +:+ ">".
Lemma adds_mail from :
  adds (Mail mail_server from) (λ _ l, ∃ options, l = [Command (mail_prefix from +:+ options) (Ok 250)]).
Proof.
  eapply adds_weaken.
  - apply adds_bind; [apply adds_valid|intros ?]. apply adds_bind; [apply adds_hello|intros ?].
    apply adds_bind; [apply adds_get|intros c]. apply adds_bind; [apply adds_cmd|intros ?; apply adds_ret].
  - cbv beta. intros ? l (? & ? & ? & -> & -> & ? & ? & ? & -> & -> & c & ? & ? & -> & -> & [code lines] & ? & ? & -> & [-> Hcode] & ->).
    unfold code_expected in Hcode. cbn in Hcode. apply Z.eqb_eq in Hcode as ->. cbn [app fst].
    eexists. unfold mail_prefix. rewrite !append_assoc. cbn. reflexivity.
Qed.

Definition accepted (to : string) (code : Z) : wire := Command (rcpt_line to) (Ok code).
Lemma adds_rcpt to : adds (Rcpt mail_server to) (λ _ l, ∃ code, l = [accepted to code] ∧ code / 10 = 25).
Proof.
  eapply adds_weaken.
  - apply adds_bind; [apply adds_valid|intros ?]. apply adds_bind; [apply adds_cmd|intros ?; apply adds_ret].
  - cbv beta. intros ? l (? & ? & ? & -> & -> & [code lines] & ? & ? & -> & [-> Hcode] & ->).
    exists code. split; [done|]. unfold code_expected in Hcode. cbn in Hcode. by apply Z.eqb_eq in Hcode.
Qed.

Lemma adds_rcpts {A} (to : list A) (address : A → string) :
  adds (sfor to (λ t, Rcpt mail_server (address t)))
    (λ _ l, ∃ codes, l = zip_with accepted (map address to) codes ∧ length codes = length to ∧ Forall (λ code, code / 10 = 25) codes).
Proof.
  induction to as [|t to IH]; cbn [sfor].
  - eapply adds_weaken; [apply (adds_ret ())|]. intros _ l ->. by exists [].
  - eapply adds_weaken; [apply adds_bind; [apply adds_rcpt|intros ?; apply IH]|]. cbv beta.
    intros ? l (? & ? & ? & -> & (code & -> & Hcode) & codes & -> & Hlen & Hcodes). exists (code :: codes). cbn.
    split_and!; [done|by rewrite Hlen|by constructor].
Qed.

(** The sender, each recipient in order and the announcement of the text,
    all of them accepted *)
Definition envelope (e : emailSettings) (options : string) (codes : list Z) : list wire :=
  Command (mail_prefix (parsed_address (email_From e)) +:+ options) (Ok 250)
  :: zip_with accepted (map parsed_address (email_To e)) codes ++ [Command "DATA" (Ok 354)].

Definition send_envelope (e : emailSettings) : ClientM mail_server unit :=
  Mail mail_server (parsed_address (email_From e));;
  sfor (email_To e) (λ to, Rcpt mail_server (parsed_address to));;
  cmd mail_server 354 "DATA";; mret ().

Lemma adds_envelope e : adds (send_envelope e) (λ _ l, ∃ options codes, l = envelope e options codes ∧
  length codes = length (email_To e) ∧ Forall (λ code, code / 10 = 25) codes).
Proof.
  eapply adds_weaken.
  - apply adds_bind; [apply adds_mail|intros ?]. apply adds_bind; [apply adds_rcpts|intros ?].
    apply adds_bind; [apply adds_cmd|intros ?; apply adds_ret].
  - cbv beta. intros ? l (? & ? & ? & -> & (options & ->) & _ & ? & ? & -> & (codes & -> & Hlen & Hcodes) & [code lines] & ? & ? & -> & [-> Hcode] & ->).
    unfold code_expected in Hcode. cbn in Hcode. apply Z.eqb_eq in Hcode as ->. exists options, codes.
    split_and!; done.
Qed.

(** A session is the prologue, the envelope, the text and the goodbye. *)
Lemma session_split e data c :
  smtp_session e data c = (prologue e;; send_envelope e;; send_text mail_server data;; Quit mail_server) c.
Proof.
  unfold smtp_session, prologue, login, send_envelope, Data, mbind, SM_bind, sbind, mret, SM_ret, sret.
  repeat match goal with |- context [match ?m ?c with (_, _) => _ end] => destruct (m c) as [[?|?] ?]; cbv beta iota; try done end.
Qed.

Lemma prologue_quiet e c : ∃ l, sc_log (prologue e c).2 = sc_log c ++ l ∧ no_content l.
Proof.
  destruct (prologue_keeps e _ (quiet_kept (sc_log c)) c) as (l & E & Hl); [by exists []; rewrite app_nil_r|].
  exists l. split; [done|by apply quiet_content].
Qed.

(** What follows the announcement of the text *)
Definition text_sent (data : string) (r : result error unit) (l : list wire) : Prop :=
  (∃ err, l = [Content data (Err err)] ∧ r = Err err) ∨
  (∃ q, l = [Content data (Ok 250); Command "QUIT" q] ∧ (r = Ok () ↔ q = Ok 221)).

Lemma quit_run c : sc_didHello mail_server c = true →
  ∃ q, sc_log (Quit mail_server c).2 = sc_log c ++ [Command "QUIT" q] ∧ ((Quit mail_server c).1 = Ok () ↔ q = Ok 221).
Proof.
  intros Hc. pose proof (hello_again c Hc) as Hh. unfold Quit, mbind, SM_bind, sbind, stry, mret, SM_ret, sret.
  destruct (hello mail_server c) as [h c1]. cbn [snd] in Hh. subst c1. unfold cmd.
  destruct (ms_send _ _ _) as [r conn]. destruct r as [[code lines]|err]; cbn [read_reply].
  2:{ exists (Err err). by split. }
  destruct (code_expected 221 code) eqn:E; [|eexists; split; [reflexivity|]; by split].
  exists (Ok code). unfold code_expected in E. cbn in E. apply Z.eqb_eq in E as ->. by split.
Qed.

Lemma text_run data c : sc_didHello mail_server c = true →
  ∃ l, sc_log ((send_text mail_server data;; Quit mail_server) c).2 = sc_log c ++ l
    ∧ text_sent data ((send_text mail_server data;; Quit mail_server) c).1 l.
Proof.
  intros Hc. unfold mbind, SM_bind, sbind, send_text. destruct (ms_send _ _ _) as [r conn].
  destruct (read_reply 250 r) as [[code lines]|err] eqn:Er; cbn [rbind code_of fst snd].
  - assert (code = 250) as ->.
    { unfold read_reply in Er. destruct r as [[code' ?]|]; [|done]. destruct (code_expected 250 code') eqn:E; [|done].
      injection Er as -> ->. unfold code_expected in E. cbn in E. by apply Z.eqb_eq in E. }
    destruct (quit_run (with_conn mail_server conn (Content data (Ok 250)) c) Hc) as (q & E & Hq). exists [Content data (Ok 250); Command "QUIT" q].
    rewrite E. cbn [sc_log with_conn]. split; [by rewrite <- app_assoc|]. right. by exists q.
  - exists [Content data (Err err)]. split; [done|]. left. by exists err.
Qed.

Lemma bind_ok {A B} (m : ClientM mail_server A) (k : A → ClientM mail_server B) c a c1 :
  m c = (Ok a, c1) → (m ≫= k) c = k a c1.
Proof. intros E. unfold mbind, SM_bind, sbind. by rewrite E. Qed.
Lemma bind_err {A B} (m : ClientM mail_server A) (k : A → ClientM mail_server B) c e c1 :
  m c = (Err e, c1) → (m ≫= k) c = (Err e, c1).
Proof. intros E. unfold mbind, SM_bind, sbind. by rewrite E. Qed.

(** Everything a delivery may put on the wire *)
Definition transaction (e : emailSettings) (data : string) (r : result error unit) (log : list wire) : Prop :=
  (no_content log ∧ r ≠ Ok ()) ∨
  ∃ pre options codes tail, log = pre ++ envelope e options codes ++ tail ∧ no_content pre
    ∧ length codes = length (email_To e) ∧ Forall (λ code, code / 10 = 25) codes ∧ text_sent data r tail.

Lemma session_transaction e data c : no_content (sc_log c) →
  transaction e data (smtp_session e data c).1 (sc_log (smtp_session e data c).2).
Proof.
  intros Hc. rewrite session_split. pose proof (prologue_greets e c) as Hg. destruct (prologue_quiet e c) as (l0 & E0 & N0).
  assert (Hpre : no_content (sc_log c ++ l0)) by by apply no_content_app.
  destruct (prologue e c) as [[[]|err] c1] eqn:Ep; cbn [fst snd] in *; [rewrite (bind_ok _ _ _ _ _ Ep)|rewrite (bind_err _ _ _ _ _ Ep)].
  2:{ left. split; [by cbn [snd]; rewrite E0|done]. }
  destruct (adds_envelope e c1 Hg) as (l1 & E1 & N1 & G1 & Q1).
  destruct (send_envelope e c1) as [[[]|err] c2] eqn:Ev; cbn [fst snd] in *; [rewrite (bind_ok _ _ _ _ _ Ev)|rewrite (bind_err _ _ _ _ _ Ev)].
  2:{ left. split; [cbn [snd]; rewrite E1, E0; by apply no_content_app|done]. }
  destruct (Q1 () eq_refl) as (options & codes & -> & Hlen & Hcodes). destruct (text_run data c2 G1) as (l2 & E2 & T2).
  right. exists (sc_log c ++ l0), options, codes, l2. split_and!; [|done..]. by rewrite E2, E1, E0, <- !app_assoc.
Qed.

Lemma new_client_log server conn tls host log c : NewClient server conn tls host log = Ok c →
  sc_log c = log ∧ sc_serverName c = host ∧ sc_tls c = tls.
Proof.
  unfold NewClient. destruct (ms_greet _ _) as [r conn']. unfold rbind. destruct (read_reply _ _); [|done].
  by intros [= <-].
Qed.
Lemma mail_connection_log e conn conn' tls log : mail_connection e conn = Ok (conn', tls, log) →
  log = (if tls then [Handshake (email_Host e)] else []).
Proof.
  unfold mail_connection, rbind. destruct (email_Port e =? 465); [|by intros [= <- <- <-]].
  destruct (ms_handshake _ _ _); [|done]. by intros [= <- <- <-].
Qed.

(** [deliver] is a session of a client that was not greeted yet, or nothing
    was said. *)
Lemma deliver_session e data : (∃ err, deliver e data = (Err err, [])) ∨
  ∃ c, sc_log c = (if sc_tls c then [Handshake (email_Host e)] else []) ∧ sc_serverName c = email_Host e
    ∧ deliver e data = ((smtp_session e data c).1, sc_log (smtp_session e data c).2).
Proof.
  unfold deliver. destruct (ms_dial _ _) as [conn|err]; [|left; by exists err].
  destruct (mail_connection e conn) as [[[conn' tls] log]|err] eqn:Ec; [|left; by exists err]. cbn [rbind].
  apply mail_connection_log in Ec as ->. destruct (NewClient _ _ _ _ _) as [c|err] eqn:En; [|left; by exists err].
  right. exists c. apply new_client_log in En as (Hl & Hn & Ht). rewrite Hl, Ht. split_and!; [done..|].
  by destruct (smtp_session e data c).
Qed.

(** C25: a password is never sent in the clear: whatever the server answers,
    a line that authenticates is sent after a TLS handshake with the host of
    the settings, or that host is this machine. *)
Theorem password_private e data : private_log (email_Host e) (deliver e data).2.
Proof.
  destruct (deliver_session e data) as [[err ->]|(c & Hl & Hn & ->)].
  - intros l1 line r l2 E. by destruct l1.
  - cbn [snd]. apply session_private. split_and!; [done| |]; rewrite Hl; destruct (sc_tls c).
    + intros _. by left.
    + done.
    + by intros [|w [|]] line r l2 E.
    + by intros [|] line r l2 E.
Qed.

(** C24: the mail goes out once and whole, or not at all. *)
Theorem deliver_transaction e data : transaction e data (deliver e data).1 (deliver e data).2.
Proof.
  assert (Hnil : no_content []) by (intros ? ? Hin; by apply not_elem_of_nil in Hin).
  destruct (deliver_session e data) as [[err ->]|(c & Hl & Hn & ->)]; [by left|].
  apply session_transaction. rewrite Hl. destruct (sc_tls c); [|done].
  intros ? ? Hin. by apply list_elem_of_singleton in Hin.
Qed.
End Mail.

(** ** What the server reads *)

Definition header_names : list string :=
  ["From"; "To"; "Subject"; "Date"; "MIME-Version"; "Content-Type"; "Content-Transfer-Encoding"].

Lemma whole_app s1 s2 : whole_lines s1 → whole_lines s2 → whole_lines (s1 +:+ s2).
Proof. intros H1 H2. induction H1; [done|]. rewrite !append_assoc. by constructor. Qed.

Lemma no_break_append s t : no_break s → no_break t → no_break (s +:+ t).
Proof.
  intros [Hs1 Hs2] [Ht1 Ht2]. induction s as [|c s IH]; [done|]. rewrite append_cons. unfold no_break in *.
  rewrite char_in_cons in Hs1, Hs2. apply orb_false_iff in Hs1 as [E1 Hs1], Hs2 as [E2 Hs2].
  rewrite !char_in_cons, E1, E2. by apply IH.
Qed.

Lemma whole_headers names values : Forall no_break names → Forall no_break values → whole_lines (crlf_lines (zip names values)).
Proof.
  intros Hn. revert values. induction Hn as [|n names Hn _ IH]; intros values Hv; [constructor|].
  destruct Hv as [|v values Hv Hvs]; [constructor|]. cbn [zip zip_with crlf_lines].
  rewrite <- (append_assoc ": "), <- (append_assoc n). constructor; [|by apply IH].
  apply no_break_append; [done|]. by apply no_break_append.
Qed.

Lemma of_chars_app l1 l2 : of_chars (l1 ++ l2) = of_chars l1 +:+ of_chars l2.
Proof. induction l1 as [|c l1 IH]; [done|]. cbn [app of_chars]. by rewrite IH. Qed.
Lemma unbroken_no_break l : unbroken l → no_break (of_chars l).
Proof.
  induction 1 as [|c l Hc _ [IH1 IH2]]; [done|]. unfold is_break in Hc. apply orb_false_iff in Hc as [Hcr Hlf].
  unfold no_break. cbn [of_chars]. rewrite !char_in_cons. rewrite Ascii.eqb_sym in Hcr, Hlf.
  unfold cr, lf in *. by rewrite Hcr, Hlf.
Qed.
Lemma whole_of_lines lines : Forall short_line lines → whole_lines (of_chars (of_lines lines)).
Proof.
  induction 1 as [|l lines [Hl _] _ IH]; [constructor|]. unfold of_lines. cbn [map concat].
  rewrite !of_chars_app, append_assoc. constructor; [by apply unbroken_no_break|done].
Qed.

(** The text handed to the encoder has CR LF for its line feeds. *)
Lemma chars_line_feeds t : chars (replace_all (str1 10) crlf t) = concat (map break_bytes (chars t)).
Proof.
  induction t as [|c t IH]; [done|]. unfold replace_all in *. cbn [chars map concat]. rewrite <- IH. unfold break_bytes.
  assert (Hm : first_match [(str1 10, crlf)] (String c t) = if Ascii.eqb c lf then Some (1%nat, crlf) else None).
  { unfold first_match, has_prefix. cbn [List.find fst snd str1 cut_prefix]. destruct (decide (chr 10 = c)) as [<-|Hn]; [done|].
    destruct (Ascii.eqb_spec c lf) as [E|_]; [by destruct Hn|done]. }
  destruct (Ascii.eqb c lf).
  - rewrite (replacer_cons_hit _ crlf) by done. by rewrite chars_append.
  - by rewrite replacer_cons_miss.
Qed.

(** C26: the mail arrives as it was written: a server that takes the doubled
    dots away reads the composed text and stops where the client stopped; the
    text is the seven headers, one line each whatever the alert's texts and
    the addresses hold, and lines of at most 76 characters; and reading those
    as quoted-printable gives the message with CR LF for its line breaks. *)
Theorem mail_read_back `{Outside, ParseAddress} (e : emailSettings) (msg : Message) (now : time) (rest : string) :
  ∃ values lines,
    read_dots true (dot_text (compose e msg now) +:+ rest) = Some (compose e msg now, rest)
    ∧ compose e msg now = crlf_lines (zip header_names values) +:+ crlf +:+ of_chars (of_lines lines)
    ∧ length values = 7%nat ∧ Forall no_break values ∧ Forall short_line lines
    ∧ read_quoted (of_lines lines) = Some (line_ends (chars (email_text msg))).
Proof.
  destruct (compose_headers e msg now) as (values & Ec & Hlen & Hv).
  assert (Et : ∃ t, chars (email_text msg) = t ++ [lf]).
  { unfold email_text. set (body := if str_eq _ _ then _ else _). exists (chars (body +:+ str1 10 +:+ str1 10 +:+ "-- SyMon")).
    rewrite <- (chars_append _ (str1 10)), !append_assoc. done. }
  destruct Et as [t Et]. destruct (written_lines t) as (lines & Eq & Hl & Hr). rewrite <- Et in Eq, Hr.
  assert (E : compose e msg now = crlf_lines (zip header_names values) +:+ crlf +:+ of_chars (of_lines lines)).
  { rewrite Ec. unfold quoted_printable. by rewrite chars_line_feeds, Eq. }
  exists values, lines. split_and!; try done.
  rewrite (dot_write_read _ DotBegin). f_equal. f_equal.
  assert (Hw : whole_lines (compose e msg now)).
  { rewrite E. apply whole_app; [apply whole_headers; [|done]; unfold header_names; repeat (apply Forall_cons_2; [done|]); constructor|].
    apply (whole_line ""); [done|]. by apply whole_of_lines. }
  pose proof (crlf_text_whole _ Hw) as Hc. destruct (compose e msg now); [by destruct (crlf_lines _)|exact Hc].
Qed.

(** ** A delivery, step by step *)

#[local] Definition ex_reply (line : string) : result error (Z * list string) :=
  if has_prefix line "EHLO" then Ok (250, ["mail.example.com"; "STARTTLS"; "AUTH PLAIN"])
  else if has_prefix line "STARTTLS" then Ok (220, ["go ahead"])
  else if has_prefix line "AUTH" then Ok (235, ["accepted"])
  else if has_prefix line "DATA" then Ok (354, ["go ahead"])
  else if has_prefix line "QUIT" then Err (ErrOther "EOF")
  else Ok (250, ["ok"]).
#[local] Instance ex_outside : Outside := {|
  net_answer := λ _ _, Err (ErrText ""); json_parse := λ _, None; json_float := λ _, None; now_Time := 0;
  now_UnixNano := 0; mail_server := {| ms_conn := unit; ms_dial _ := Ok (); ms_handshake _ c := Ok c;
    ms_greet c := (Ok (220, []), c); ms_send line c := (ex_reply line, c) |}; rfc1123z := λ _, "" |}.
#[local] Instance ex_addresses : ParseAddress := λ a, Some {| addr_Address := a; addr_String := a |}.
Definition ex_email : emailSettings := {|
  email_Host := "mail.example.com"; email_Port := 587; email_User := "symon"; email_Password := "secret";
  email_From := "symon@example.com"; email_To := ["ops@example.com"; "dba@example.com"] |}.

(** TLS, then the password, then the envelope and the text.  This server
    takes the mail and drops the line before it says goodbye: the mail is
    delivered, and the delivery is an error. *)
Example delivered_with_an_error : deliver ex_email "text" = (Err (ErrOther "EOF"),
  [Command "EHLO localhost" (Ok 250); Command "STARTTLS" (Ok 220); Handshake "mail.example.com";
   Command "EHLO localhost" (Ok 250); Command "AUTH PLAIN AHN5bW9uAHNlY3JldA==" (Ok 235)]
  ++ envelope ex_email "" [250; 250] ++ [Content "text" (Ok 250); Command "QUIT" (Err (ErrOther "EOF"))]).
Proof. by vm_compute. Qed.
