(* ===== verification/Database.v ===== *)
(** * The collector's database: the tables of src/internal/store/migrations.

    A [DB] is a value per table: a list of rows in the order they were
    inserted, with the columns an operation reads (no created_at).  What the code relies on of Postgres is written out where a
    statement uses it: a unique index refuses an insert, a foreign key
    cascades, [now()] is an argument of the operation.  The identity columns
    of all tables draw from one counter; a Postgres sequence may skip numbers
    too, and the code relies only on ids of one table differing and growing.
    A failing connection is not modelled here: the components that call the
    store are proved against interfaces whose calls may fail. *)
From S2P Require Import Prelude GoStrings GoFloat GoTime Errors Monitor Alerts Json Kube Tasks.
Local Open Scope Z_scope.

(** hosts (001, 011, 012) *)
Record HostRow := {
  h_id : Z; h_name : string; h_timezone : string; h_last_seen : option time;
  h_agent_version : string; h_agent_arch : string; h_update_version : option string;
  h_update_url : option string; h_update_requested_at : option time; h_update_error : string;
  h_tasks : list Task }.

(** alerts (001, 006) *)
Record AlertRow := {
  al_id : Z; al_host_id : option Z; al_rule : string; al_metric : string; al_target : string;
  al_severity : Z; al_value : float64; al_started_at : time; al_updated_at : time;
  al_resolved_at : option time }.

(** alert_rules (009) *)
Record RuleRow := {
  ru_id : Z; ru_name : string; ru_rule : AlertConfig; ru_enabled : bool; ru_updated_at : time;
  ru_updated_by : string }.

(** endpoint_checks (006, 010): the struct of endpoints.go; [ec_CertExpires]
    is [zero_time] without a certificate. *)
Record EndpointCheck := {
  ec_Time : time; ec_Name : string; ec_URL : string; ec_Method : string; ec_StatusCode : Z;
  ec_OK : bool; ec_Latency : duration; ec_Error : string; ec_CertExpires : time }.

(** notification_channels and notifications (013) *)
Record ChannelRow := {
  ch_id : Z; ch_name : string; ch_kind : string; ch_settings : object; ch_is_default : bool;
  ch_skip_warnings : bool; ch_enabled : bool; ch_updated_at : time; ch_updated_by : string }.
Record NoteRow := {
  no_id : Z; no_alert_id : Z; no_channel_id : Z; no_event : string; no_severity : Z; no_value : float64;
  no_subject : string; no_body : string; no_status : string; no_attempts : Z; no_next_attempt_at : time;
  no_last_error : string; no_ref : string; no_created_at : time; no_sent_at : option time }.

(** task_runs (012) *)
Record RunRow := {
  tr_id : Z; tr_host_id : Z; tr_task : string; tr_command : string; tr_timeout_seconds : Z;
  tr_status : string; tr_requested_by : string; tr_requested_at : time; tr_started_at : option time;
  tr_finished_at : option time; tr_exit_code : option Z; tr_error : string; tr_output : string;
  tr_truncated : bool }.

(** users and user_sessions (007, 008) *)
Record UserRow := {
  us_id : Z; us_name : string; us_hash : string; us_salt : string; us_iterations : Z; us_role : string;
  us_created_at : time; us_last_login_at : option time }.
Record SessionRow := { se_token_hash : string; se_user_id : Z; se_expires_at : time }.

(** enrollment_tokens and agent_credentials (004) *)
Record TokenRow := {
  tk_id : Z; tk_hash : string; tk_host_name : option string; tk_uses_left : Z; tk_expires_at : time }.
Record CredentialRow := { cr_host_id : Z; cr_secret_hash : string }.

(** kube_clusters, kube_metrics and kube_restarts (014) *)
Record ClusterRow := {
  cl_id : Z; cl_name : string; cl_host_id : option Z; cl_state : ClusterState; cl_error : string;
  cl_reported_at : time }.
Record ClusterMetrics := { km_time : time; km_cluster_id : Z; km_counts : Counts; km_restarts : Z }.
Record RestartRow := { kr_time : time; kr_cluster_id : Z; kr_restart : Restart }.

(** The metric tables (001, 005).  [hm_other] and [lr_values] hold the
    columns nothing here reads by name, as pairs of column and value; a
    missing value is SQL's NULL. *)
Record LatestRow := { lt_host_id : Z; lt_time : time; lt_json : string }.
Record HostMetric := {
  hm_time : time; hm_host_id : Z; hm_cpu_pct : option float64; hm_mem_used_pct : option float64;
  hm_swap_used_pct : option float64; hm_other : list (string * option float64) }.
Record DiskMetric := {
  dm_time : time; dm_host_id : Z; dm_device : string; dm_mount : string; dm_fstype : string;
  dm_size_bytes : option float64; dm_used_bytes : option float64; dm_used_pct : option float64;
  dm_inodes_used_pct : option float64 }.
Record CustomRow := { cm_time : time; cm_host_id : Z; cm_name : string; cm_unit : string; cm_value : option float64 }.
Record ServiceRow := { ss_time : time; ss_host_id : Z; ss_name : string; ss_running : bool }.
Record LabelRow := {
  lr_time : time; lr_host_id : Z; lr_label : list string; lr_values : list (string * option float64) }.

Record DB := {
  hosts : list HostRow;
  alerts : list AlertRow;
  alert_rules : list RuleRow;
  rule_setup : list (string * Z);
  endpoint_checks : list EndpointCheck;
  channels : list ChannelRow;
  notifications : list NoteRow;
  task_runs : list RunRow;
  users : list UserRow;
  user_sessions : list SessionRow;
  enrollment_tokens : list TokenRow;
  agent_credentials : list CredentialRow;
  kube_clusters : list ClusterRow;
  kube_metrics : list ClusterMetrics;
  kube_restarts : list RestartRow;
  host_latest : list LatestRow;
  host_metrics : list HostMetric;
  disk_metrics : list DiskMetric;
  custom_metrics : list CustomRow;
  service_status : list ServiceRow;
  cpu_core_metrics : list LabelRow;
  disk_io_metrics : list LabelRow;
  net_metrics : list LabelRow;
  temp_metrics : list LabelRow;
  container_metrics : list LabelRow;
  process_snapshots : list LatestRow;
  seq : Z }.

(** A database right after the migrations. *)
Definition empty_db : DB := {|
  hosts := []; alerts := []; alert_rules := []; rule_setup := []; endpoint_checks := []; channels := [];
  notifications := []; task_runs := []; users := []; user_sessions := []; enrollment_tokens := [];
  agent_credentials := []; kube_clusters := []; kube_metrics := []; kube_restarts := []; host_latest := [];
  host_metrics := []; disk_metrics := []; custom_metrics := []; service_status := []; cpu_core_metrics := [];
  disk_io_metrics := []; net_metrics := []; temp_metrics := []; container_metrics := []; process_snapshots :=
  []; seq := 1 |}.

(** ** Writing one table *)

(** The record [d] with [v] for one of its fields, the others copied *)
Ltac copy_or_set f v d g := first [constr_eq g f; exact v | exact (g d)].
Ltac set_field f v d :=
  let field := copy_or_set f v d in
  unshelve refine {|
    hosts := _; alerts := _; alert_rules := _; rule_setup := _; endpoint_checks := _; channels := _; notifications := _;
    task_runs := _; users := _; user_sessions := _; enrollment_tokens := _; agent_credentials := _; kube_clusters := _;
    kube_metrics := _; kube_restarts := _; host_latest := _; host_metrics := _; disk_metrics := _; custom_metrics := _;
    service_status := _; cpu_core_metrics := _; disk_io_metrics := _; net_metrics := _; temp_metrics := _;
    container_metrics := _; process_snapshots := _; seq := _ |};
  [ field hosts | field alerts | field alert_rules | field rule_setup | field endpoint_checks | field channels | field
    notifications | field task_runs | field users | field user_sessions | field enrollment_tokens | field
    agent_credentials | field kube_clusters | field kube_metrics | field kube_restarts | field host_latest | field
    host_metrics | field disk_metrics | field custom_metrics | field service_status | field cpu_core_metrics | field
    disk_io_metrics | field net_metrics | field temp_metrics | field container_metrics | field process_snapshots | field
    seq ].

Definition set_hosts (v : list HostRow) (d : DB) : DB := ltac:(set_field hosts v d).
Definition set_alerts (v : list AlertRow) (d : DB) : DB := ltac:(set_field alerts v d).
Definition set_alert_rules (v : list RuleRow) (d : DB) : DB := ltac:(set_field alert_rules v d).
Definition set_rule_setup (v : list (string * Z)) (d : DB) : DB := ltac:(set_field rule_setup v d).
Definition set_endpoint_checks (v : list EndpointCheck) (d : DB) : DB := ltac:(set_field endpoint_checks v d).
Definition set_channels (v : list ChannelRow) (d : DB) : DB := ltac:(set_field channels v d).
Definition set_notifications (v : list NoteRow) (d : DB) : DB := ltac:(set_field notifications v d).
Definition set_task_runs (v : list RunRow) (d : DB) : DB := ltac:(set_field task_runs v d).
Definition set_users (v : list UserRow) (d : DB) : DB := ltac:(set_field users v d).
Definition set_user_sessions (v : list SessionRow) (d : DB) : DB := ltac:(set_field user_sessions v d).
Definition set_enrollment_tokens (v : list TokenRow) (d : DB) : DB := ltac:(set_field enrollment_tokens v d).
Definition set_agent_credentials (v : list CredentialRow) (d : DB) : DB := ltac:(set_field agent_credentials v d).
Definition set_kube_clusters (v : list ClusterRow) (d : DB) : DB := ltac:(set_field kube_clusters v d).
Definition set_kube_metrics (v : list ClusterMetrics) (d : DB) : DB := ltac:(set_field kube_metrics v d).
Definition set_kube_restarts (v : list RestartRow) (d : DB) : DB := ltac:(set_field kube_restarts v d).
Definition set_host_latest (v : list LatestRow) (d : DB) : DB := ltac:(set_field host_latest v d).
Definition set_host_metrics (v : list HostMetric) (d : DB) : DB := ltac:(set_field host_metrics v d).
Definition set_disk_metrics (v : list DiskMetric) (d : DB) : DB := ltac:(set_field disk_metrics v d).
Definition set_custom_metrics (v : list CustomRow) (d : DB) : DB := ltac:(set_field custom_metrics v d).
Definition set_service_status (v : list ServiceRow) (d : DB) : DB := ltac:(set_field service_status v d).
Definition set_cpu_core_metrics (v : list LabelRow) (d : DB) : DB := ltac:(set_field cpu_core_metrics v d).
Definition set_disk_io_metrics (v : list LabelRow) (d : DB) : DB := ltac:(set_field disk_io_metrics v d).
Definition set_net_metrics (v : list LabelRow) (d : DB) : DB := ltac:(set_field net_metrics v d).
Definition set_temp_metrics (v : list LabelRow) (d : DB) : DB := ltac:(set_field temp_metrics v d).
Definition set_container_metrics (v : list LabelRow) (d : DB) : DB := ltac:(set_field container_metrics v d).
Definition set_process_snapshots (v : list LatestRow) (d : DB) : DB := ltac:(set_field process_snapshots v d).
Definition set_seq (v : Z) (d : DB) : DB := ltac:(set_field seq v d).

(** [nextval] of an identity column: the id of the row being inserted. *)
Definition next_id (d : DB) : Z * DB := (seq d, set_seq (seq d + 1) d).

(** The store's operations: a state computation on the database. *)
Definition DBM := SM DB error.

(** A read that does not change the database. *)
Definition dread {A} (f : DB → result error A) : DBM A := λ d, (f d, d).

(** [Begin ... Commit] with the deferred [Rollback]: an error undoes it all.
    (A Postgres sequence keeps the numbers it gave out; here they are given
    again, and no row has them.) *)
Definition transaction {A} (m : DBM A) : DBM A := λ d,
  match m d with
  | (Ok a, d') => (Ok a, d')
  | (Err e, _) => (Err e, d)
  end.

Lemma transaction_err {A} (m : DBM A) d e d' : transaction m d = (Err e, d') → d' = d.
Proof. unfold transaction. destruct (m d) as [[a|e'] d1]; [done|]. by intros [= _ ->]. Qed.

Lemma transaction_ok {A} (m : DBM A) d a d' : transaction m d = (Ok a, d') ↔ m d = (Ok a, d').
Proof. unfold transaction. by destruct (m d) as [[b|e] d1]. Qed.

(** ** Rows by key *)

Definition host_named (name : string) (h : HostRow) : bool := str_eq (h_name h) name.
Definition host_by_name (d : DB) (name : string) : option HostRow := List.find (host_named name) (hosts d).
Definition host_by_id (d : DB) (id : Z) : option HostRow := List.find (λ h, h_id h =? id) (hosts d).

(** [coalesce(h.name, '')] after [LEFT JOIN hosts h ON h.id = host_id] *)
Definition host_name_of (d : DB) (host_id : option Z) : string :=
  match host_id with
  | Some id => match host_by_id d id with Some h => h_name h | None => "" end
  | None => ""
  end.

(** [text] columns hold no NUL: [cleanText] of tasks.go drops them. *)
Definition cleanText (text : string) : string := replace_all (str1 0) "" text.

Definition opt_time (t : option time) : time := default zero_time t.
