(* ===== verification/StoreHosts.v ===== *)
(** * Hosts and their agents' updates: src/internal/store/hosts.go, agents.go. *)
From S2P Require Import Prelude GoStrings GoFloat GoTime Errors Monitor Alerts Kube Tasks Database.
Local Open Scope Z_scope.

Record Host := { host_ID : Z; host_Name : string; host_Timezone : string; host_LastSeen : time }.

(** [hostID]: the id of a host by name *)
Definition hostID (d : DB) (name : string) : result error Z :=
  match host_by_name d name with Some h => Ok (h_id h) | None => Err ErrNotFound end.

Definition new_host (id : Z) (name timezone : string) : HostRow := {|
  h_id := id; h_name := name; h_timezone := timezone; h_last_seen := None; h_agent_version := "";
  h_agent_arch := ""; h_update_version := None; h_update_url := None; h_update_requested_at := None;
  h_update_error := ""; h_tasks := [] |}.

(** INSERT ... ON CONFLICT (name) DO NOTHING, and its RowsAffected *)
Definition AddHost (name timezone : string) : DBM unit := λ d,
  let '(id, d) := next_id d in
  match host_by_name d name with
  | Some _ => (Err ErrHostExists, d)
  | None => (Ok (), set_hosts (hosts d ++ [new_host id name timezone]) d)
  end.

Definition of_host (id : Z) (host_id : option Z) : bool := bool_decide (host_id = Some id).

(** The rows that go with alerts: ON DELETE CASCADE of notifications.alert_id. *)
Definition delete_alerts (p : AlertRow → bool) (d : DB) : DB :=
  let gone := map al_id (select_where p (alerts d)) in
  set_notifications (delete_where (λ n, bool_decide (no_alert_id n ∈ gone)) (notifications d))
    (set_alerts (delete_where p (alerts d)) d).

(** The foreign keys to hosts: alerts, task_runs, agent_credentials and
    host_latest go with the host, a cluster keeps its row without a host. *)
Definition cascade_host (id : Z) (d : DB) : DB :=
  let d := delete_alerts (λ a, of_host id (al_host_id a)) d in
  let d := set_task_runs (delete_where (λ r, tr_host_id r =? id) (task_runs d)) d in
  let d := set_agent_credentials (delete_where (λ c, cr_host_id c =? id) (agent_credentials d)) d in
  let d := set_host_latest (delete_where (λ r, lt_host_id r =? id) (host_latest d)) d in
  set_kube_clusters (update_where (λ c, of_host id (cl_host_id c))
    (λ c, {| cl_id := cl_id c; cl_name := cl_name c; cl_host_id := None; cl_state := cl_state c;
             cl_error := cl_error c; cl_reported_at := cl_reported_at c |}) (kube_clusters d)) d.

Definition RemoveHost (name : string) : DBM unit := λ d,
  match host_by_name d name with
  | None => (Err ErrNotFound, d)
  | Some h => (Ok (), set_hosts (delete_where (host_named name) (hosts d)) (cascade_host (h_id h) d))
  end.

Definition Hosts (d : DB) : list Host :=
  map (λ h, {| host_ID := h_id h; host_Name := h_name h; host_Timezone := h_timezone h;
               host_LastSeen := opt_time (h_last_seen h) |})
    (stable_sort (λ a b, string_leb (h_name a) (h_name b)) (hosts d)).

(** SQL's [greatest] ignores NULL. *)
Definition greatest (old : option time) (at_ : time) : option time :=
  Some (match old with Some t => Z.max t at_ | None => at_ end).

Definition host_with_last_seen (t : option time) (h : HostRow) : HostRow := {|
  h_id := h_id h; h_name := h_name h; h_timezone := h_timezone h; h_last_seen := t;
  h_agent_version := h_agent_version h; h_agent_arch := h_agent_arch h; h_update_version := h_update_version h;
  h_update_url := h_update_url h; h_update_requested_at := h_update_requested_at h;
  h_update_error := h_update_error h; h_tasks := h_tasks h |}.

(** UPDATE hosts ... WHERE p, an error when it changes no row. *)
Definition update_hosts (p : HostRow → bool) (f : HostRow → HostRow) (d : DB) : DB :=
  set_hosts (update_where p f (hosts d)) d.

Definition Heartbeat (name : string) (at_ : time) : DBM unit := λ d,
  if rows_affected (host_named name) (hosts d) =? 0 then (Err ErrNotFound, d)
  else (Ok (), update_hosts (host_named name) (λ h, host_with_last_seen (greatest (h_last_seen h) at_) h) d).

Definition LastSeen (d : DB) (name : string) : result error time :=
  match host_by_name d name with
  | None => Err ErrNotFound
  | Some h => Ok (opt_time (h_last_seen h))
  end.

(** ** agents.go *)

Record AgentUpdate := { au_Version : string; au_URL : string; au_RequestedAt : time }.

(** The SET of [AgentCheckIn]: every expression sees the row as it was. *)
Definition check_in (at_ : time) (agentVersion arch updateError : string) (h : HostRow) : HostRow :=
  let done := bool_decide (h_update_version h = Some agentVersion) in
  {| h_id := h_id h; h_name := h_name h; h_timezone := h_timezone h;
     h_last_seen := greatest (h_last_seen h) at_;
     h_agent_version := if str_eq agentVersion "" then h_agent_version h else agentVersion;
     h_agent_arch := if str_eq arch "" then h_agent_arch h else arch;
     h_update_error := if done then "" else updateError;
     h_update_url := if done then None else h_update_url h;
     h_update_requested_at := if done then None else h_update_requested_at h;
     h_update_version := if done then None else h_update_version h;
     h_tasks := h_tasks h |}.

Definition waiting_update (h : HostRow) : option AgentUpdate :=
  match h_update_version h with
  | None => None
  | Some version => Some {| au_Version := version; au_URL := default "" (h_update_url h);
                            au_RequestedAt := opt_time (h_update_requested_at h) |}
  end.

Definition AgentCheckIn (host : string) (at_ : time) (agentVersion arch updateError : string)
    : DBM (option AgentUpdate) := λ d,
  match host_by_name d host with
  | None => (Err ErrNotFound, d)
  | Some h =>
      let d' := update_hosts (host_named host) (check_in at_ agentVersion arch updateError) d in
      (Ok (waiting_update (check_in at_ agentVersion arch updateError h)), d')
  end.

Definition can_update (hosts : list string) (version : string) (h : HostRow) : bool :=
  contains hosts (h_name h) && negb (str_eq (h_agent_arch h) "") && negb (str_eq (h_agent_version h) version).

Definition ask_update (now : time) (version url : string) (h : HostRow) : HostRow := {|
  h_id := h_id h; h_name := h_name h; h_timezone := h_timezone h; h_last_seen := h_last_seen h;
  h_agent_version := h_agent_version h; h_agent_arch := h_agent_arch h; h_update_version := Some version;
  h_update_url := Some url; h_update_requested_at := Some now; h_update_error := ""; h_tasks := h_tasks h |}.

Definition RequestAgentUpdate (now : time) (names : list string) (version url : string) : DBM Z := λ d,
  (Ok (rows_affected (can_update names version) (hosts d)),
   update_hosts (can_update names version) (ask_update now version url) d).

(** ** Lemmas *)

Lemma host_by_name_some d name h : host_by_name d name = Some h → h ∈ hosts d ∧ h_name h = name.
Proof.
  unfold host_by_name. intros H. apply find_some in H as [Hin He].
  unfold host_named in He. by rewrite <- list_elem_of_In, str_eq_spec in *.
Qed.

Lemma host_by_name_none d name : host_by_name d name = None ↔ name ∉ map h_name (hosts d).
Proof.
  unfold host_by_name. split.
  - intros H Hin. apply list_elem_of_fmap in Hin as (h & -> & Hh). rewrite list_elem_of_In in Hh.
    eapply find_none in H; [|exact Hh]. unfold host_named in H. by rewrite str_eq_refl in H.
  - intros Hn. destruct (List.find _ _) as [h|] eqn:E; [|done].
    apply find_some in E as [Hh He]. rewrite <- list_elem_of_In in Hh. apply str_eq_spec in He.
    destruct Hn. rewrite <- He. by apply list_elem_of_fmap_2.
Qed.

Lemma find_update_where {A} (p q : A → bool) (f : A → A) l x :
  (∀ y, q (f y) = q y) → (∀ y, p y = true → q y = true) → List.find q l = Some x → p x = true →
  List.find q (update_where p f l) = Some (f x).
Proof.
  intros Hq Hp. induction l as [|y l IH]; simpl; [done|]. intros Hf Hx.
  destruct (q y) eqn:E.
  - injection Hf as ->. rewrite Hx, Hq, E. done.
  - destruct (p y) eqn:Ep; [rewrite (Hp y Ep) in E; done|]. rewrite E. by apply IH.
Qed.

Lemma host_by_name_update d name f h : (∀ h, h_name (f h) = h_name h) → host_by_name d name = Some h →
  host_by_name (update_hosts (host_named name) f d) name = Some (f h).
Proof.
  intros Hf Hh. unfold host_by_name, update_hosts. cbn.
  apply find_update_where; [|done|exact Hh|].
  - intros y. unfold host_named. by rewrite Hf.
  - unfold host_named. apply host_by_name_some in Hh as [_ ->]. apply str_eq_refl.
Qed.

(** A host that reports its architecture and runs another version is asked. *)
Lemma requested_update d now name version url h :
  host_by_name d name = Some h → h_agent_arch h ≠ "" → h_agent_version h ≠ version →
  host_by_name (RequestAgentUpdate now [name] version url d).2 name = Some (ask_update now version url h).
Proof.
  intros Hh Harch Hver.
  assert (Hcan : can_update [name] version h = true).
  { unfold can_update. pose proof (host_by_name_some _ _ _ Hh) as [_ ->].
    rewrite (proj2 (contains_spec _ _)) by (by left). cbn.
    destruct (str_eq (h_agent_arch h) "") eqn:E1; [by apply str_eq_spec in E1|].
    destruct (str_eq (h_agent_version h) version) eqn:E2; [by apply str_eq_spec in E2|]. done. }
  unfold RequestAgentUpdate, host_by_name, update_hosts. cbn. apply find_update_where; [done| |exact Hh|done].
  intros y Hy. unfold can_update in Hy. apply andb_true_iff in Hy as [Hy _].
  apply andb_true_iff in Hy as [Hy _]. apply contains_spec, list_elem_of_singleton in Hy.
  unfold host_named. rewrite Hy. apply str_eq_refl.
Qed.

(** ** Properties *)

(** The update protocol.  A host asked to update hears of the update at
    every check-in that does not report the version asked for, with the
    failure it reports kept for the dashboard; the first check-in that
    reports the version clears the request and the error, and the check-in
    after it is told of no update. *)
Lemma AgentCheckIn_protocol (d : DB) (now t1 t2 : time) (name version url v1 arch err1 : string) (h : HostRow)
  (Hh : host_by_name d name = Some h) (Harch : h_agent_arch h ≠ "") (Hver : h_agent_version h ≠ version) :
  let d0 := (RequestAgentUpdate now [name] version url d).2 in
  match AgentCheckIn name t1 v1 arch err1 d0 with
  | (Ok update, d1) =>
      (v1 ≠ version → update = Some {| au_Version := version; au_URL := url; au_RequestedAt := now |}
         ∧ option_map h_update_error (host_by_name d1 name) = Some err1)
      ∧ (v1 = version → update = None ∧ option_map h_update_error (host_by_name d1 name) = Some ""
         ∧ ∀ v2 arch2 err2, (AgentCheckIn name t2 v2 arch2 err2 d1).1 = Ok None)
  | (Err _, _) => False
  end.
Proof.
  intros d0.
  assert (H0 : host_by_name d0 name = Some (ask_update now version url h)) by by apply requested_update.
  unfold AgentCheckIn at 1. rewrite H0.
  pose proof (host_by_name_update d0 name (check_in t1 v1 arch err1) _ (λ _, eq_refl) H0) as H1.
  split.
  - intros Hne. rewrite H1. unfold waiting_update, check_in, ask_update. cbn.
    rewrite bool_decide_false by congruence. done.
  - intros ->. split_and!.
    { unfold waiting_update, check_in, ask_update. cbn. by rewrite bool_decide_true. }
    { rewrite H1. unfold check_in, ask_update. cbn. by rewrite bool_decide_true. }
    intros v2 arch2 err2. unfold AgentCheckIn. rewrite H1.
    unfold check_in, ask_update, waiting_update. cbn. rewrite (bool_decide_true (Some version = Some version)) by done. by case_bool_decide.
Qed.

Lemma AgentCheckIn_protocol_witness :
  let h := {| h_id := 1; h_name := "web1"; h_timezone := ""; h_last_seen := None; h_agent_version := "v1";
              h_agent_arch := "amd64"; h_update_version := None; h_update_url := None;
              h_update_requested_at := None; h_update_error := ""; h_tasks := [] |} in
  let d := set_hosts [h] empty_db in
  match AgentCheckIn "web1" 5 "v2" "amd64" "" (RequestAgentUpdate 3 ["web1"] "v2" "https://s" d).2 with
  | (Ok update, _) => update = None
  | (Err _, _) => False
  end.
Proof.
  pose proof (AgentCheckIn_protocol
    (set_hosts [{| h_id := 1; h_name := "web1"; h_timezone := ""; h_last_seen := None; h_agent_version := "v1";
              h_agent_arch := "amd64"; h_update_version := None; h_update_url := None;
              h_update_requested_at := None; h_update_error := ""; h_tasks := [] |}] empty_db)
    3 5 7 "web1" "v2" "https://s" "v2" "amd64" "" _ eq_refl ltac:(done) ltac:(done)) as H.
  cbv zeta. cbv zeta in H. destruct (AgentCheckIn _ _ _ _ _ _) as [[u|e] d1]; [|done].
  destruct H as [_ H]. by destruct (H eq_refl).
Defined.
