(* ===== verification/Login.v ===== *)
(** * Counting wrong passwords: the [loginFailures] of src/internal/api/login.go.

    [blocked], [fail] and [clear] each hold the mutex; [checkLogin] calls
    them around the check of the password, with nothing held in between.  The
    clock is an argument. *)
From S2P Require Import Prelude GoStrings GoTime Errors.
Local Open Scope Z_scope.

Definition loginLimit : Z := 10.
Definition loginWindow : duration := 15 * minute.

Record failureWindow := { fw_count : Z; fw_since : time }.
Notation loginFailures := (gmap string failureWindow).

Definition blocked (now : time) (name : string) (l : loginFailures) : bool :=
  match l !! name with
  | Some w => (loginLimit <=? fw_count w) && (time_sub now (fw_since w) <? loginWindow)
  | None => false
  end.

Definition expired (now : time) (w : failureWindow) : bool := loginWindow <=? time_sub now (fw_since w).

(** The map only grows past 1000 names while their windows last. *)
Definition drop_expired (now : time) (l : loginFailures) : loginFailures :=
  if 1000 <? Z.of_nat (size l) then filter (λ kv, expired now kv.2 = false) l else l.

Definition failed (now : time) (w : option failureWindow) : failureWindow :=
  match w with
  | Some w => if expired now w then {| fw_count := 1; fw_since := now |}
              else {| fw_count := fw_count w + 1; fw_since := fw_since w |}
  | None => {| fw_count := 1; fw_since := now |}
  end.

Definition fail (now : time) (name : string) (l : loginFailures) : loginFailures :=
  let l := drop_expired now l in
  <[name := failed now (l !! name)]> l.

Definition clear (name : string) (l : loginFailures) : loginFailures := delete name l.

(** ** One call of [checkLogin] *)

(** How the check of the password ended *)
Inductive Outcome := Wrong | Right | Broken.

(** What [checkLogin] does with the outcome *)
Definition finish (now : time) (name : string) (o : Outcome) (l : loginFailures) : loginFailures :=
  match o with Wrong => fail now name l | Right => clear name l | Broken => l end.

Record Attempt := { at_time : time; at_name : string; at_outcome : Outcome }.

(** Is the password of the attempt checked at all? *)
Definition checked (a : Attempt) (l : loginFailures) : bool := negb (blocked (at_time a) (at_name a) l).

Definition attempt (a : Attempt) (l : loginFailures) : loginFailures :=
  if checked a l then finish (at_time a) (at_name a) (at_outcome a) l else l.

Definition attempts (l : list Attempt) (f : loginFailures) : loginFailures := fold_left (λ f a, attempt a f) l f.

(** The wrong passwords that were checked, one call after the other *)
Fixpoint guesses (l : list Attempt) (f : loginFailures) : list Attempt :=
  match l with
  | [] => []
  | a :: l' =>
      (if checked a f && match at_outcome a with Wrong => true | _ => false end then [a] else [])
      ++ guesses l' (attempt a f)
  end.

(** ** Calls that overlap *)

(** A call starts with [blocked] and, when it may, ends with its outcome. *)
Inductive LoginEvent :=
  | Starts (now : time) (call : nat) (name : string)
  | Ends (now : time) (call : nat) (o : Outcome).

Record Overlap := { ov_failures : loginFailures; ov_checking : gmap nat string; ov_guesses : Z }.

Definition on_login (s : Overlap) (ev : LoginEvent) : Overlap :=
  match ev with
  | Starts now call name =>
      if blocked now name (ov_failures s) then s
      else {| ov_failures := ov_failures s; ov_checking := <[call := name]> (ov_checking s); ov_guesses := ov_guesses s |}
  | Ends now call o =>
      match ov_checking s !! call with
      | None => s
      | Some name =>
          {| ov_failures := finish now name o (ov_failures s); ov_checking := delete call (ov_checking s);
             ov_guesses := ov_guesses s + match o with Wrong => 1 | _ => 0 end |}
      end
  end.
