(* ===== verification/LoginProps.v ===== *)
(** * How many guesses at a password the collector checks. *)
From S2P Require Import Prelude GoStrings GoTime Errors Monitor Alerts Login.
Local Open Scope Z_scope.








(** ** The number of guesses in an interval *)


















(** ** What a window has counted *)









(** ** The counter of one name

    What the source's comment promises of a name, told by the passwords that
    were checked for it alone: when its window began and how many were wrong
    in it.  A window begins with a wrong password when none lasts; the right
    password ends it. *)










(** ** Properties *)


Definition no_logins : Overlap := {| ov_failures := ∅; ov_checking := ∅; ov_guesses := 0 |}.

Lemma starts_all now name n : ∀ s, ov_failures s = ∅ →
  let s' := foldl on_login s (map (λ i, Starts now i name) (seq 0 n)) in
  ov_failures s' = ∅ ∧ ov_guesses s' = ov_guesses s ∧ (∀ i, (i < n)%nat → ov_checking s' !! i = Some name).
Proof.
  intros s Hs. induction n as [|n IH]; [split; [done|split; [done|lia]]|].
  rewrite seq_S, map_app, foldl_app. cbn [map foldl Nat.add]. destruct IH as (Hf & Hg & Hc).
  set (s1 := foldl on_login s _) in *. cbn [on_login]. unfold blocked. rewrite Hf, lookup_empty. cbn [ov_failures ov_guesses ov_checking].
  split; [done|]. split; [done|].
  intros i Hi. destruct (decide (n = i)) as [<-|Hne]; [by rewrite lookup_insert_eq|].
  rewrite lookup_insert_ne by done. apply Hc. lia.
Qed.

Lemma ends_all now name n : ∀ k s, (∀ i, (k ≤ i < k + n)%nat → ov_checking s !! i = Some name) →
  ov_guesses (foldl on_login s (map (λ i, Ends now i Wrong) (seq k n))) = ov_guesses s + Z.of_nat n.
Proof.
  induction n as [|n IH]; intros k s Hs; [cbn; lia|]. cbn [seq map foldl]. rewrite IH.
  - cbn [on_login]. rewrite (Hs k) by lia. cbn. lia.
  - intros i Hi. cbn [on_login]. rewrite (Hs k) by lia. cbn. rewrite lookup_delete_ne by lia. apply Hs. lia.
Qed.

(** The limit does not hold for logins that overlap: [checkLogin] looks
    whether a name is locked out before the password is checked and counts
    it after, so all guesses that start before the first one ends are checked,
    however many there are (only the hash slots slow them down). *)
Lemma login_race (n : nat) (now : time) (name : string) :
  ov_guesses (foldl on_login no_logins
    (map (λ i, Starts now i name) (seq 0 n) ++ map (λ i, Ends now i Wrong) (seq 0 n))) = Z.of_nat n.
Proof.
  rewrite foldl_app. destruct (starts_all now name n no_logins eq_refl) as (_ & Hg & Hc). rewrite (ends_all now name).
  - rewrite Hg. cbn. lia.
  - intros i Hi. apply Hc. lia.
Qed.

(** ** Witness *)


