(* ===== verification/StoreUsers.v ===== *)
(** * Dashboard users and their sessions: src/internal/store/users.go.

    The hashes are parameters ([pbkdf2_Key] and [sha256_Sum256] of the
    standard library); random bytes are arguments of the operations that draw
    them.  [slot] is how waiting for a hash slot went: [Some err] when the
    call's context ended first. *)
From S2P Require Import Prelude GoStrings GoTime Errors Monitor Alerts Json Kube Tasks Database.
From Stdlib Require Import Ascii.
Local Open Scope Z_scope.

Class Crypto := {
  pbkdf2_Key : string → string → Z → string;
  sha256_Sum256 : string → string }.

Definition passwordIterations : Z := 600000.
Definition minPasswordLength : Z := 12.
Definition SessionTTL : duration := 30 * 24 * hour.

Definition RoleAdmin : string := "admin".
Definition RoleViewer : string := "viewer".

(** [A-Za-z0-9] *)
Definition alnum (c : ascii) : bool :=
  let b := byte_of c in
  ((65 <=? b) && (b <=? 90)) || ((97 <=? b) && (b <=? 122)) || ((48 <=? b) && (b <=? 57)).

(** A pattern [^[A-Za-z0-9][A-Za-z0-9<more>]{0,max}$] *)
Definition simple_name (more : string) (max : Z) (s : string) : bool :=
  match s with
  | "" => false
  | String c s' => alnum c && forallb (λ c, alnum c || char_in c more) (chars s') && (slen s' <=? max)
  end.

Definition validUserName (name : string) : bool := simple_name "._@-" 63 name.

Definition checkRole (role : string) : result error unit :=
  if negb (str_eq role RoleAdmin) && negb (str_eq role RoleViewer) then Err (ErrInvalid "a role is admin or viewer")
  else Ok ().

Section Users.
Context `{Crypto}.

Definition hashPassword (slot : option error) (password salt : string) (iterations : Z) : result error string :=
  match slot with Some err => Err err | None => Ok (pbkdf2_Key password salt iterations) end.

(** [hashSecret] of enrollment.go *)
Definition hashSecret (secret : string) : string := sha256_Sum256 secret.

Definition checkNewPassword (password : string) : result error unit :=
  if rune_count password <? minPasswordLength
  then Err (ErrInvalid ("a password needs at least " +:+ itoa minPasswordLength +:+ " characters"))
  else Ok ().

(** The hash and the salt it was made with *)
Definition newPasswordHash (slot : option error) (salt password : string) : result error (string * string) :=
  rbind (checkNewPassword password) (λ _,
  rbind (hashPassword slot password salt passwordIterations) (λ hash, Ok (hash, salt))).

Definition user_named (name : string) (u : UserRow) : bool := str_eq (us_name u) name.
Definition user_by_name (d : DB) (name : string) : option UserRow := List.find (user_named name) (users d).

Definition new_user (now : time) (id : Z) (name hash salt role : string) : UserRow := {|
  us_id := id; us_name := name; us_hash := hash; us_salt := salt; us_iterations := passwordIterations;
  us_role := role; us_created_at := now; us_last_login_at := None |}.

(** INSERT ... ON CONFLICT (name) DO NOTHING *)
Definition AddUser (now : time) (slot : option error) (salt name password role : string) : DBM unit := λ d,
  if negb (validUserName name) then
    (Err (ErrInvalid "user names may use letters, digits, dots, dashes, underscores and @, up to 64 characters"), d)
  else match checkRole role with
  | Err e => (Err e, d)
  | Ok _ =>
      match newPasswordHash slot salt password with
      | Err e => (Err e, d)
      | Ok (hash, salt) =>
          let '(id, d) := next_id d in
          match user_by_name d name with
          | Some _ => (Err ErrUserExists, d)
          | None => (Ok (), set_users (users d ++ [new_user now id name hash salt role]) d)
          end
      end
  end.

Definition with_password (hash salt : string) (u : UserRow) : UserRow := {|
  us_id := us_id u; us_name := us_name u; us_hash := hash; us_salt := salt; us_iterations := passwordIterations;
  us_role := us_role u; us_created_at := us_created_at u; us_last_login_at := us_last_login_at u |}.

Definition delete_sessions (p : SessionRow → bool) (d : DB) : DB :=
  set_user_sessions (delete_where p (user_sessions d)) d.
Definition update_users (p : UserRow → bool) (f : UserRow → UserRow) (d : DB) : DB :=
  set_users (update_where p f (users d)) d.

Definition SetPassword (slot : option error) (salt name password : string) : DBM unit := λ d,
  match newPasswordHash slot salt password with
  | Err e => (Err e, d)
  | Ok (hash, salt) =>
      match user_by_name d name with
      | None => (Err ErrNotFound, d)
      | Some u => (Ok (), delete_sessions (λ s, se_user_id s =? us_id u)
                            (update_users (user_named name) (with_password hash salt) d))
      end
  end.

Definition with_role (role : string) (u : UserRow) : UserRow := {|
  us_id := us_id u; us_name := us_name u; us_hash := us_hash u; us_salt := us_salt u;
  us_iterations := us_iterations u; us_role := role; us_created_at := us_created_at u;
  us_last_login_at := us_last_login_at u |}.

Definition SetRole (name role : string) : DBM unit := λ d,
  match checkRole role with
  | Err e => (Err e, d)
  | Ok _ =>
      if rows_affected (user_named name) (users d) =? 0 then (Err ErrNotFound, d)
      else (Ok (), update_users (user_named name) (with_role role) d)
  end.

(** DELETE FROM users, and the sessions that reference the user *)
Definition RemoveUser (name : string) : DBM unit := λ d,
  match user_by_name d name with
  | None => (Err ErrNotFound, d)
  | Some u => (Ok (), delete_sessions (λ s, se_user_id s =? us_id u)
                        (set_users (delete_where (user_named name) (users d)) d))
  end.

Record User := { user_Name : string; user_Role : string; user_CreatedAt : time; user_LastLogin : time }.

Definition Users (d : DB) : list User :=
  map (λ u, {| user_Name := us_name u; user_Role := us_role u; user_CreatedAt := us_created_at u;
               user_LastLogin := opt_time (us_last_login_at u) |})
    (stable_sort (λ a b, string_leb (us_name a) (us_name b)) (users d)).

Definition HasUsers (d : DB) : bool := match users d with [] => false | _ => true end.

(** An unknown user's password is hashed too, against [dummySalt]; only the
    time it takes shows. *)
Definition checkPassword (slot : option error) (d : DB) (name password : string) : result error (Z * string) :=
  match user_by_name d name with
  | None => match slot with Some err => Err err | None => Err ErrBadLogin end
  | Some u =>
      rbind (hashPassword slot password (us_salt u) (us_iterations u)) (λ got,
      if str_eq got (us_hash u) then Ok (us_id u, us_role u) else Err ErrBadLogin)
  end.

Definition CheckPassword (slot : option error) (d : DB) (name password : string) : result error Z :=
  rbind (checkPassword slot d name password) (λ r, Ok r.1).

Record Session := { session_Token : string; session_User : string; session_Role : string; session_Expires : time }.

Definition session_hash (hash : string) (s : SessionRow) : bool := str_eq (se_token_hash s) hash.

Definition logged_in (now : time) (u : UserRow) : UserRow := {|
  us_id := us_id u; us_name := us_name u; us_hash := us_hash u; us_salt := us_salt u;
  us_iterations := us_iterations u; us_role := us_role u; us_created_at := us_created_at u;
  us_last_login_at := Some now |}.

Definition session_taken : error := ErrOther "duplicate key value violates unique constraint".

(** [token] is the new secret.  The batch is one transaction: a token whose
    hash is taken fails it. *)
Definition Login (now : time) (slot : option error) (token name password : string) : DBM Session := λ d,
  match checkPassword slot d name password with
  | Err e => (Err e, d)
  | Ok (id, role) =>
      let session := {| session_Token := token; session_User := name; session_Role := role;
                        session_Expires := time_add now SessionTTL |} in
      if exists_where (session_hash (hashSecret token)) (user_sessions d) then (Err session_taken, d)
      else (Ok session,
            update_users (λ u, us_id u =? id) (logged_in now)
              (set_user_sessions (user_sessions d ++
                 [{| se_token_hash := hashSecret token; se_user_id := id; se_expires_at := session_Expires session |}]) d))
  end.

Definition valid_session (now : time) (token : string) (s : SessionRow) : bool :=
  session_hash (hashSecret token) s && (now <? se_expires_at s).

(** user_sessions JOIN users *)
Definition session_user (d : DB) (s : SessionRow) : option UserRow :=
  List.find (λ u, us_id u =? se_user_id s) (users d).

Definition Store_Session (now : time) (d : DB) (token : string) : result error Session :=
  match omap (λ s, u ← session_user d s; Some (u, s)) (select_where (valid_session now token) (user_sessions d)) with
  | [] => Err ErrBadSession
  | (u, s) :: _ => Ok {| session_Token := ""; session_User := us_name u; session_Role := us_role u;
                         session_Expires := se_expires_at s |}
  end.

Definition Store_Logout (token : string) : DBM unit := λ d,
  (Ok (), delete_sessions (session_hash (hashSecret token)) d).

(** DELETE ... WHERE user_id = $1 AND token_hash <> $2 *)
Definition other_session (id : Z) (token : string) (s : SessionRow) : bool :=
  (se_user_id s =? id) && negb (session_hash (hashSecret token) s).

Definition Store_ChangePassword (now : time) (slot slot' : option error) (salt token current next : string) : DBM unit := λ d,
  match Store_Session now d token with
  | Err e => (Err e, d)
  | Ok session =>
      match CheckPassword slot d (session_User session) current with
      | Err e => (Err e, d)
      | Ok id =>
          match newPasswordHash slot' salt next with
          | Err e => (Err e, d)
          | Ok (hash, salt) =>
              (Ok (), delete_sessions (other_session id token)
                        (update_users (λ u, us_id u =? id) (with_password hash salt) d))
          end
      end
  end.

Definition PurgeSessions (now : time) : DBM Z := λ d,
  let old := λ s, se_expires_at s <? now in
  (Ok (rows_affected old (user_sessions d)), delete_sessions old d).
End Users.
