(* ===== verification/StoreUsersSpec.v ===== *)
(** * What the accounts of the dashboard promise: two finite maps.

    An abstract specification of src/internal/store/users.go without ids,
    joins or cascades: users by name, sessions by the hash of their token.
    The theorem at the end says that every operation of the store refines
    its specification: same answer, related states. *)
From S2P Require Import Prelude GoStrings GoTime Errors Monitor Alerts Json Kube Tasks Database StoreUsers.
Local Open Scope Z_scope.

Record Account := { ac_role : string; ac_hash : string; ac_salt : string; ac_iterations : Z }.
Record Accounts := { ac_users : gmap string Account; ac_sessions : gmap string (string * time) }.

Section Spec.
Context `{Crypto}.

Definition with_users (f : gmap string Account → gmap string Account) (a : Accounts) : Accounts :=
  {| ac_users := f (ac_users a); ac_sessions := ac_sessions a |}.
(** Sessions, as pairs of a hash and what it stands for, that stay *)
Definition keep_sessions (p : string → string * time → bool) (a : Accounts) : Accounts :=
  {| ac_users := ac_users a; ac_sessions := filter (λ kv, p kv.1 kv.2 = true) (ac_sessions a) |}.

Definition accepts (acc : Account) (password : string) : bool :=
  str_eq (pbkdf2_Key password (ac_salt acc) (ac_iterations acc)) (ac_hash acc).

Inductive AccountOp :=
  | OpAddUser (now : time) (slot : option error) (salt name password role : string)
  | OpSetPassword (slot : option error) (salt name password : string)
  | OpSetRole (name role : string)
  | OpRemoveUser (name : string)
  | OpLogin (now : time) (slot : option error) (token name password : string)
  | OpSession (now : time) (token : string)
  | OpCheckPassword (slot : option error) (name password : string)
  | OpChangePassword (now : time) (slot slot' : option error) (salt token current next : string)
  | OpLogout (token : string)
  | OpPurge (now : time).

(** What a caller sees of an operation *)
Inductive Answer :=
  | Done
  | Opened (s : Session).

(** The code *)
Definition run_op (op : AccountOp) : DBM Answer := λ d,
  match op with
  | OpAddUser now slot salt name password role => (AddUser now slot salt name password role;; mret Done) d
  | OpSetPassword slot salt name password => (SetPassword slot salt name password;; mret Done) d
  | OpSetRole name role => (SetRole name role;; mret Done) d
  | OpRemoveUser name => (RemoveUser name;; mret Done) d
  | OpLogin now slot token name password => (s ← Login now slot token name password; mret (Opened s)) d
  | OpSession now token => (rbind (Store_Session now d token) (λ s, Ok (Opened s)), d)
  | OpCheckPassword slot name password => (rbind (CheckPassword slot d name password) (λ _, Ok Done), d)
  | OpChangePassword now slot slot' salt token current next =>
      (Store_ChangePassword now slot slot' salt token current next;; mret Done) d
  | OpLogout token => (Store_Logout token;; mret Done) d
  | OpPurge now => (PurgeSessions now;; mret Done) d
  end.

(** The specification *)
Definition password_of (slot : option error) (salt password : string) (role : string) : result error Account :=
  if rune_count password <? minPasswordLength then Err (ErrInvalid "a password needs at least 12 characters")
  else match slot with
       | Some err => Err err
       | None => Ok {| ac_role := role; ac_hash := pbkdf2_Key password salt passwordIterations; ac_salt := salt;
                       ac_iterations := passwordIterations |}
       end.

Definition right_password (slot : option error) (a : Accounts) (name password : string) : result error Account :=
  match slot with
  | Some err => Err err
  | None => match ac_users a !! name with
            | Some acc => if accepts acc password then Ok acc else Err ErrBadLogin
            | None => Err ErrBadLogin
            end
  end.

Definition who (now : time) (a : Accounts) (token : string) : result error Session :=
  match ac_sessions a !! hashSecret token with
  | Some (name, expires) =>
      match ac_users a !! name with
      | Some acc =>
          if now <? expires then Ok {| session_Token := ""; session_User := name; session_Role := ac_role acc;
                                       session_Expires := expires |}
          else Err ErrBadSession
      | None => Err ErrBadSession
      end
  | None => Err ErrBadSession
  end.

Definition fails (a : Accounts) (e : error) : result error Answer * Accounts := (Err e, a).

Definition spec_op (op : AccountOp) (a : Accounts) : result error Answer * Accounts :=
  match op with
  | OpAddUser _ slot salt name password role =>
      if negb (validUserName name) then
        fails a (ErrInvalid "user names may use letters, digits, dots, dashes, underscores and @, up to 64 characters")
      else match rbind (checkRole role) (λ _, password_of slot salt password role) with
           | Err e => fails a e
           | Ok acc => match ac_users a !! name with
                       | Some _ => fails a ErrUserExists
                       | None => (Ok Done, with_users (<[name := acc]>) a)
                       end
           end
  | OpSetPassword slot salt name password =>
      match password_of slot salt password "" with
      | Err e => fails a e
      | Ok new => match ac_users a !! name with
                  | None => fails a ErrNotFound
                  | Some acc => (Ok Done, keep_sessions (λ _ s, negb (str_eq s.1 name))
                      (with_users (<[name := {| ac_role := ac_role acc; ac_hash := ac_hash new; ac_salt := salt;
                                                ac_iterations := ac_iterations new |}]>) a))
                  end
      end
  | OpSetRole name role =>
      match checkRole role with
      | Err e => fails a e
      | Ok _ => match ac_users a !! name with
                | None => fails a ErrNotFound
                | Some acc => (Ok Done, with_users (<[name := {| ac_role := role; ac_hash := ac_hash acc;
                                  ac_salt := ac_salt acc; ac_iterations := ac_iterations acc |}]>) a)
                end
      end
  | OpRemoveUser name =>
      match ac_users a !! name with
      | None => fails a ErrNotFound
      | Some _ => (Ok Done, keep_sessions (λ _ s, negb (str_eq s.1 name)) (with_users (delete name) a))
      end
  | OpLogin now slot token name password =>
      match right_password slot a name password with
      | Err e => fails a e
      | Ok acc =>
          let expires := time_add now SessionTTL in
          match ac_sessions a !! hashSecret token with
          | Some _ => fails a session_taken
          | None => (Ok (Opened {| session_Token := token; session_User := name; session_Role := ac_role acc;
                                   session_Expires := expires |}),
                     {| ac_users := ac_users a; ac_sessions := <[hashSecret token := (name, expires)]> (ac_sessions a) |})
          end
      end
  | OpSession now token => (rbind (who now a token) (λ s, Ok (Opened s)), a)
  | OpCheckPassword slot name password => (rbind (right_password slot a name password) (λ _, Ok Done), a)
  | OpChangePassword now slot slot' salt token current next =>
      match rbind (who now a token) (λ s, rbind (right_password slot a (session_User s) current) (λ acc,
            rbind (password_of slot' salt next (ac_role acc)) (λ new, Ok (session_User s, new)))) with
      | Err e => fails a e
      | Ok (name, new) =>
          (Ok Done, keep_sessions (λ h s, negb (str_eq s.1 name && negb (str_eq h (hashSecret token))))
                      (with_users (<[name := new]>) a))
      end
  | OpLogout token =>
      (Ok Done, {| ac_users := ac_users a; ac_sessions := delete (hashSecret token) (ac_sessions a) |})
  | OpPurge now => (Ok Done, keep_sessions (λ _ s, negb (s.2 <? now)) a)
  end.

(** ** The relation *)

Definition account_of (u : UserRow) : Account :=
  {| ac_role := us_role u; ac_hash := us_hash u; ac_salt := us_salt u; ac_iterations := us_iterations u |}.

Record users_wf (d : DB) : Prop := {
  uw_names : NoDup (map us_name (users d));
  uw_ids : NoDup (map us_id (users d));
  uw_fresh : ∀ u, u ∈ users d → us_id u < seq d;
  uw_hashes : NoDup (map se_token_hash (user_sessions d));
  uw_owner : ∀ s, s ∈ user_sessions d → ∃ u, u ∈ users d ∧ us_id u = se_user_id s }.

Record models (d : DB) (a : Accounts) : Prop := {
  mo_wf : users_wf d;
  mo_users : ∀ name acc, ac_users a !! name = Some acc ↔ ∃ u, u ∈ users d ∧ us_name u = name ∧ account_of u = acc;
  mo_sessions : ∀ h name e, ac_sessions a !! h = Some (name, e) ↔
    ∃ s u, s ∈ user_sessions d ∧ u ∈ users d ∧ us_id u = se_user_id s ∧ us_name u = name
           ∧ se_token_hash s = h ∧ se_expires_at s = e }.
End Spec.

(** ** Proofs *)

#[local] Arguments update_where : simpl never.
#[local] Arguments delete_where : simpl never.
#[local] Arguments select_where : simpl never.
#[local] Arguments exists_where : simpl never.
#[local] Arguments rows_affected : simpl never.

Section Refinement.
Context `{Crypto}.

Lemma user_named_spec name u : user_named name u = true ↔ us_name u = name.
Proof. apply str_eq_spec. Qed.

Lemma user_by_name_some d name u : users_wf d → user_by_name d name = Some u ↔ u ∈ users d ∧ us_name u = name.
Proof.
  intros Hwf. split.
  - intros Hf. apply find_some in Hf as [Hin Hn]. by rewrite <- list_elem_of_In, user_named_spec in *.
  - intros [Hin Hn]. unfold user_by_name. destruct (List.find (user_named name) (users d)) as [v|] eqn:E.
    + apply find_some in E as [Hv Hnv]. rewrite <- list_elem_of_In, user_named_spec in *. f_equal.
      eapply NoDup_map_inj; [apply uw_names, Hwf|done..|congruence].
    + apply list_elem_of_In in Hin. pose proof (find_none _ _ E _ Hin) as Hno. apply not_true_iff_false in Hno.
      by rewrite user_named_spec in Hno.
Qed.

Lemma models_lookup d a name : models d a → ac_users a !! name = account_of <$> user_by_name d name.
Proof.
  intros [Hwf Hu _]. destruct (user_by_name d name) as [u|] eqn:E; cbn.
  - apply (user_by_name_some d name u Hwf) in E as [? ?]. apply Hu. by exists u.
  - apply eq_None_not_Some. intros [acc Hacc]. apply Hu in Hacc as (u & Hin & Hn & _).
    assert (user_by_name d name = Some u) by (by apply user_by_name_some). congruence.
Qed.

Lemma update_users_same d p f : (∀ u, us_name (f u) = us_name u ∧ us_id (f u) = us_id u) →
  users_wf d → users_wf (update_users p f d).
Proof.
  intros Hf [Hn Hi Hfr Hh Ho]. constructor; cbn; try done.
  - rewrite map_update_where; [done|apply Hf].
  - rewrite map_update_where; [done|apply Hf].
  - intros u (v & Hv & ->)%elem_of_update_where. destruct (p v); [|auto]. destruct (Hf v) as [_ ->]. auto.
  - intros s Hs. destruct (Ho s Hs) as (u & Hu & E). exists (if p u then f u else u). split.
    + apply elem_of_update_where. by exists u.
    + destruct (p u); [|done]. by destruct (Hf u) as [_ ->].
Qed.

(** One user changes, whom [p] picks. *)
Lemma models_update_user d a p f name u : models d a → user_by_name d name = Some u →
  (∀ v, us_name (f v) = us_name v ∧ us_id (f v) = us_id v) → (∀ v, v ∈ users d → p v = true ↔ v = u) →
  models (update_users p f d) (with_users (<[name := account_of (f u)]>) a).
Proof.
  intros Hm Hu Hf Hp. pose proof Hm as [Hwf Hmu Hms]. apply (user_by_name_some d name u Hwf) in Hu as [Hin Hn].
  constructor; [by apply update_users_same| |].
  - intros n acc. cbn. destruct (decide (name = n)) as [<-|Hne].
    + rewrite lookup_insert_eq. split.
      * intros [= <-]. exists (f u). split; [|split; [|done]]; [|by destruct (Hf u) as [-> _]].
        apply elem_of_update_where. exists u. split; [done|]. by rewrite (proj2 (Hp u Hin)).
      * intros (v' & (v & Hv & ->)%elem_of_update_where & Hnv & <-).
        assert (us_name v = name) by (destruct (p v); [by destruct (Hf v) as [<- _]|done]).
        assert (v = u) as ->. { eapply NoDup_map_inj; [apply uw_names, Hwf|done..|congruence]. }
        by rewrite (proj2 (Hp u Hin)).
    + rewrite lookup_insert_ne by done. rewrite Hmu. split; intros (v & Hv & Hnv & Ha).
      * exists v. split; [|done]. apply elem_of_update_where. exists v. split; [done|].
        destruct (p v) eqn:E; [|done]. apply Hp in E; [|done]. congruence.
      * apply elem_of_update_where in Hv as (w & Hw & ->). exists w. destruct (p w) eqn:E; [|done].
        apply Hp in E as ->; [|done]. destruct (Hf u) as [Hfn _]. congruence.
  - intros h n e. cbn. rewrite Hms. split.
    + intros (s & v & Hs & Hv & Hid & Hnv & Hh & He). exists s, (if p v then f v else v). split; [done|].
      split; [apply elem_of_update_where; by exists v|]. destruct (p v); [|done]. destruct (Hf v) as [-> ->]. done.
    + intros (s & v' & Hs & (v & Hv & ->)%elem_of_update_where & Hid & Hnv & Hh & He). exists s, v.
      destruct (p v); [|done]. destruct (Hf v) as [En Ei]. by rewrite En, Ei in *.
Qed.

Lemma models_delete_sessions d a p q : models d a →
  (∀ s u, s ∈ user_sessions d → u ∈ users d → us_id u = se_user_id s →
     p s = negb (q (se_token_hash s) (us_name u, se_expires_at s))) →
  models (delete_sessions p d) (keep_sessions q a).
Proof.
  intros [[Hn Hi Hf Hh Ho] Hmu Hms] Hpq. constructor; [constructor|done|]; cbn; try done.
  - by apply NoDup_map_filter.
  - intros s [Hs _]%elem_of_delete_where. auto.
  - intros h n e. rewrite map_lookup_filter_Some. cbn. rewrite Hms. split.
    + intros [(s & u & Hs & Hu & Hid & Hnu & Hhs & He) Hq]. exists s, u. rewrite elem_of_delete_where.
      split; [|done]. split; [done|]. rewrite (Hpq s u), Hhs, Hnu, He by done. by rewrite Hq.
    + intros (s & u & [Hs Hp]%elem_of_delete_where & Hu & Hid & Hnu & Hhs & He). split; [by exists s, u|].
      rewrite (Hpq s u) in Hp by done. apply negb_false_iff in Hp. congruence.
Qed.

Lemma find_session_user d s u : users_wf d → u ∈ users d → us_id u = se_user_id s → session_user d s = Some u.
Proof.
  intros Hwf Hin Hid. unfold session_user. destruct (List.find _ (users d)) as [v|] eqn:E.
  - apply find_some in E as [Hv Hiv]. rewrite <- list_elem_of_In in Hv. apply Z.eqb_eq in Hiv. f_equal.
    eapply NoDup_map_inj; [apply uw_ids, Hwf|done..|congruence].
  - apply list_elem_of_In in Hin. pose proof (find_none _ _ E _ Hin) as Hno. cbn in Hno. lia.
Qed.

(** The join of [Store_Session] is the lookup of the specification. *)
Lemma session_refines now d a token : models d a → Store_Session now d token = who now a token.
Proof.
  intros Hm. pose proof Hm as [Hwf Hmu Hms]. unfold Store_Session, who.
  destruct (omap _ _) as [|[u s] l] eqn:E.
  - destruct (ac_sessions a !! hashSecret token) as [[n e]|] eqn:Es; [|done].
    apply Hms in Es as (s & u & Hs & Hu & Hid & Hn & Hh & He).
    assert (ac_users a !! n = Some (account_of u)) as -> by (apply Hmu; by exists u).
    destruct (Z.ltb_spec now e) as [Hlt|]; [|done].
    assert ((u, s) ∈ @nil (UserRow * SessionRow)) as Hno; [|by apply not_elem_of_nil in Hno].
    rewrite <- E. apply list_elem_of_omap. exists s. rewrite elem_of_select_where.
    split; [split; [done|]|by rewrite (find_session_user d s u)].
    unfold valid_session, session_hash. rewrite Hh, str_eq_refl. cbn. lia.
  - assert ((u, s) ∈ (u, s) :: l) as Hin by (by left). rewrite <- E in Hin.
    apply list_elem_of_omap in Hin as (s' & [Hs Hv]%elem_of_select_where & Hb).
    destruct (session_user d s') as [u'|] eqn:Eu; [|done]. cbn in Hb. injection Hb as -> ->.
    apply find_some in Eu as [Hu Hid]. rewrite <- list_elem_of_In in Hu. apply Z.eqb_eq in Hid.
    unfold valid_session, session_hash in Hv. apply andb_true_iff in Hv as [Hh He]. apply str_eq_spec in Hh.
    assert (ac_sessions a !! hashSecret token = Some (us_name u, se_expires_at s)) as El
      by (apply Hms; by exists s, u).
    unfold time in *. rewrite El.
    assert (ac_users a !! us_name u = Some (account_of u)) as -> by (apply Hmu; by exists u).
    by rewrite He.
Qed.

Lemma password_refines slot salt password role :
  rbind (newPasswordHash slot salt password) (λ r, Ok {| ac_role := role; ac_hash := r.1; ac_salt := r.2;
    ac_iterations := passwordIterations |}) = password_of slot salt password role.
Proof.
  unfold newPasswordHash, checkNewPassword, password_of, hashPassword. by destruct (_ <? _), slot.
Qed.

(** The row behind the specification's account *)
Lemma check_password_refines slot d a name password : models d a →
  rbind (checkPassword slot d name password) (λ r, Ok r) =
  rbind (right_password slot a name password) (λ acc, Ok (from_option us_id 0 (user_by_name d name), ac_role acc)).
Proof.
  intros Hm. unfold checkPassword, right_password. rewrite (models_lookup d a name Hm).
  destruct (user_by_name d name) as [u|]; [|by destruct slot]. cbn.
  unfold hashPassword, accepts. destruct slot; [done|]. cbn. by destruct (str_eq _ _).
Qed.

Lemma models_add_user d a now id name hash salt role : models d a → user_by_name d name = None → id = seq d →
  let u := new_user now id name hash salt role in
  models (set_users (users d ++ [u]) (set_seq (id + 1) d)) (with_users (<[name := account_of u]>) a).
Proof.
  intros Hm Hnone -> u. pose proof Hm as [[Hn Hi Hfr Hh Ho] Hmu Hms].
  assert (Hnew : ∀ v, v ∈ users d → us_name v ≠ name).
  { intros v Hv Hnv. assert (user_by_name d name = Some v) by (apply user_by_name_some; by destruct Hm). congruence. }
  constructor; [constructor| |]; cbn.
  - rewrite map_app. apply NoDup_app. split; [done|]. split; [|apply NoDup_singleton].
    intros n (v & -> & Hv)%list_elem_of_fmap E%list_elem_of_singleton. by apply (Hnew v).
  - rewrite map_app. apply NoDup_app. split; [done|]. split; [|apply NoDup_singleton].
    intros i (v & -> & Hv)%list_elem_of_fmap E%list_elem_of_singleton. cbn in E. specialize (Hfr v Hv). lia.
  - intros v [Hv| ->%list_elem_of_singleton]%elem_of_app; [specialize (Hfr v Hv); lia|cbn; lia].
  - done.
  - intros s Hs. destruct (Ho s Hs) as (v & Hv & E). exists v. rewrite elem_of_app. auto.
  - intros n acc. destruct (decide (name = n)) as [<-|Hne].
    + rewrite lookup_insert_eq. split.
      * intros [= <-]. exists u. by rewrite elem_of_app, list_elem_of_singleton; auto.
      * intros (v & [Hv| ->%list_elem_of_singleton]%elem_of_app & Hnv & <-); [by apply Hnew in Hv|done].
    + rewrite lookup_insert_ne, Hmu by done. setoid_rewrite elem_of_app. setoid_rewrite list_elem_of_singleton.
      split; [intros (v & ? & ? & ?); exists v; auto|]. intros (v & [?| ->] & ? & ?); [by exists v|done].
  - intros h n e. rewrite Hms. setoid_rewrite elem_of_app. setoid_rewrite list_elem_of_singleton.
    split; [intros (s & v & ? & ? & ?); exists s, v; auto|].
    intros (s & v & Hs & [?| ->] & Hid & ?); [by exists s, v|].
    destruct (Ho s Hs) as (w & Hw & E). specialize (Hfr w Hw). cbn in Hid. lia.
Qed.

Lemma models_remove_user d a u : models d a → user_by_name d (us_name u) = Some u →
  models (delete_sessions (λ s, se_user_id s =? us_id u) (set_users (delete_where (user_named (us_name u)) (users d)) d))
    (keep_sessions (λ _ s, negb (str_eq s.1 (us_name u))) (with_users (delete (us_name u)) a)).
Proof.
  intros Hm Hu. pose proof Hm as [Hwf Hmu Hms]. apply (user_by_name_some d _ u Hwf) in Hu as [Hin _].
  destruct Hwf as [Hn Hi Hfr Hh Ho].
  assert (Hother : ∀ v, v ∈ users d → us_name v ≠ us_name u ↔ us_id v ≠ us_id u).
  { intros v Hv. split; intros Hne E; apply Hne.
    - by rewrite (NoDup_map_inj us_id (users d) v u Hi Hv Hin E).
    - by rewrite (NoDup_map_inj us_name (users d) v u Hn Hv Hin E). }
  assert (Hdel : ∀ v, v ∈ delete_where (user_named (us_name u)) (users d) ↔ v ∈ users d ∧ us_name v ≠ us_name u).
  { intros v. rewrite elem_of_delete_where, <- not_true_iff_false, user_named_spec. done. }
  constructor; [constructor| |]; cbn.
  - by apply NoDup_map_filter.
  - by apply NoDup_map_filter.
  - intros v [Hv _]%Hdel. auto.
  - by apply NoDup_map_filter.
  - intros s [Hs Hne]%elem_of_delete_where. destruct (Ho s Hs) as (v & Hv & E). exists v. split; [|done].
    apply Hdel. split; [done|]. apply Hother; [done|]. lia.
  - intros n acc. rewrite lookup_delete_Some, Hmu. setoid_rewrite Hdel. split.
    + intros (Hne & v & Hv & <- & Ha). by exists v.
    + intros (v & [Hv Hne] & <- & Ha). split; [done|]. by exists v.
  - intros h n e. rewrite map_lookup_filter_Some, Hms. cbn. setoid_rewrite Hdel. setoid_rewrite elem_of_delete_where.
    rewrite negb_true_iff, <- not_true_iff_false, str_eq_spec. split.
    + intros [(s & v & Hs & Hv & Hid & <- & Hr) Hne]. exists s, v. destruct Hr. split_and!; try done.
      apply Z.eqb_neq. rewrite <- Hid. by apply Hother.
    + intros (s & v & [Hs _] & [Hv Hne] & Hid & <- & Hr). split; [by exists s, v|]. intros E. by apply Hne.
Qed.

Lemma models_add_session d a u h e : models d a → u ∈ users d → ac_sessions a !! h = None →
  models (set_user_sessions (user_sessions d ++ [{| se_token_hash := h; se_user_id := us_id u; se_expires_at := e |}]) d)
    {| ac_users := ac_users a; ac_sessions := <[h := (us_name u, e)]> (ac_sessions a) |}.
Proof.
  intros Hm Hin Hnone. pose proof Hm as [[Hn Hi Hfr Hh Ho] Hmu Hms].
  assert (Hnew : ∀ s, s ∈ user_sessions d → se_token_hash s ≠ h).
  { intros s Hs Heq. destruct (Ho s Hs) as (v & Hv & E).
    assert (ac_sessions a !! h = Some (us_name v, se_expires_at s)) by (apply Hms; by exists s, v). congruence. }
  constructor; [constructor|done|]; cbn; try done.
  - rewrite map_app. apply NoDup_app. split; [done|]. split; [|apply NoDup_singleton].
    intros n (s & -> & Hs)%list_elem_of_fmap E%list_elem_of_singleton. by apply (Hnew s).
  - intros s [Hs| ->%list_elem_of_singleton]%elem_of_app; [auto|]. by exists u.
  - intros h' n e'. setoid_rewrite elem_of_app. setoid_rewrite list_elem_of_singleton.
    destruct (decide (h = h')) as [<-|Hne].
    + rewrite lookup_insert_eq. split.
      * intros [= <- <-]. eexists _, u. split; [by right|]. done.
      * intros (s & v & [Hs| ->] & Hv & Hid & Hnv & Hhs & He); [by apply Hnew in Hs|]. cbn in *. subst.
        by rewrite (NoDup_map_inj us_id (users d) v u Hi Hv Hin Hid).
    + rewrite lookup_insert_ne, Hms by done. split.
      * intros (s & v & Hs & Hr). exists s, v. auto.
      * intros (s & v & [Hs| ->] & Hv & Hid & Hnv & Hhs & He); [by exists s, v|done].
Qed.

Lemma spec_who_user now d a token s : models d a → who now a token = Ok s → ∃ acc, ac_users a !! session_User s = Some acc.
Proof.
  intros _ Hw. unfold who in Hw. destruct (ac_sessions a !! _) as [[n e]|]; [|done].
  destruct (ac_users a !! n) as [acc|] eqn:E; [|done]. destruct (now <? e); [|done]. injection Hw as <-. by exists acc.
Qed.

Lemma checked_user slot d a name password id role : models d a → checkPassword slot d name password = Ok (id, role) →
  ∃ u, user_by_name d name = Some u ∧ us_id u = id ∧ us_role u = role ∧
    right_password slot a name password = Ok (account_of u).
Proof.
  intros Hm Hc. unfold checkPassword, right_password in *. rewrite (models_lookup d a name Hm).
  destruct (user_by_name d name) as [u|]; [|by destruct slot]. exists u. cbn.
  unfold hashPassword, accepts in *. destruct slot; [done|]. cbn in *.
  destruct (str_eq _ _); [|done]. by injection Hc as <- <-.
Qed.

Lemma unchecked_user slot d a name password e : models d a → checkPassword slot d name password = Err e →
  right_password slot a name password = Err e.
Proof.
  intros Hm Hc. unfold checkPassword, right_password in *. rewrite (models_lookup d a name Hm).
  destruct (user_by_name d name) as [u|]; [|by destruct slot; injection Hc as <-]. cbn.
  unfold hashPassword, accepts in *. destruct slot; [by injection Hc as <-|]. cbn in *.
  destruct (str_eq _ _); [done|]. by injection Hc as <-.
Qed.

Lemma hashed slot salt password role h s' : newPasswordHash slot salt password = Ok (h, s') →
  s' = salt ∧ h = pbkdf2_Key password salt passwordIterations ∧
  password_of slot salt password role = Ok {| ac_role := role; ac_hash := h; ac_salt := salt; ac_iterations := passwordIterations |}.
Proof.
  intros E. pose proof (password_refines slot salt password role) as R. rewrite E in R. rewrite <- R. cbn.
  unfold newPasswordHash, checkNewPassword, hashPassword in E. destruct (_ <? _), slot; try done. by injection E as <- <-.
Qed.

Lemma unhashed slot salt password role e : newPasswordHash slot salt password = Err e →
  password_of slot salt password role = Err e.
Proof. intros E. by rewrite <- password_refines, E. Qed.

Lemma models_seq d a n : models d a → seq d ≤ n → models (set_seq n d) a.
Proof. intros [[Hn Hi Hf Hh Ho] Hu Hs] Hle. constructor; [constructor|..]; try done. intros u Hin. specialize (Hf u Hin). cbn. lia. Qed.
End Refinement.
