(* ===== verification/StoreUsersProps.v ===== *)
(** * The accounts of the dashboard implement their specification. *)
From S2P Require Import Prelude GoStrings GoTime Errors Monitor Alerts Json Kube Tasks Database StoreUsers StoreUsersSpec.
Local Open Scope Z_scope.

#[local] Arguments update_where : simpl never.
#[local] Arguments delete_where : simpl never.
#[local] Arguments rows_affected : simpl never.
#[local] Arguments exists_where : simpl never.

Section Refinement.
Context `{Crypto}.

(** One operation and its specification agree. *)
Definition refines (op : AccountOp) : Prop := ∀ d a, models d a →
  (run_op op d).1 = (spec_op op a).1 ∧ models (run_op op d).2 (spec_op op a).2.

Ltac unfold_op := unfold run_op, spec_op, fails, mbind, SM_bind, sbind, mret, SM_ret, sret; cbv beta.

Lemma add_user_refines now slot salt name password role : refines (OpAddUser now slot salt name password role).
Proof.
  intros d a Hm. unfold_op. unfold AddUser. destruct (validUserName name); cbn [negb]; [|done].
  destruct (checkRole role) as [[]|e]; cbn [rbind]; [|done].
  destruct (newPasswordHash slot salt password) as [[hash s']|e] eqn:Eh.
  2:{ by rewrite (unhashed _ _ _ role _ Eh). }
  destruct (hashed _ _ _ role _ _ Eh) as (-> & _ & ->).
  rewrite (models_lookup d a name Hm). unfold next_id.
  assert (Hs : user_by_name (set_seq (seq d + 1) d) name = user_by_name d name) by done. rewrite Hs.
  destruct (user_by_name d name) as [u|] eqn:Eu; cbn.
  - split; [done|]. apply models_seq; [done|lia].
  - split; [done|]. exact (models_add_user d a now (seq d) name hash salt role Hm Eu eq_refl).
Qed.

Lemma set_password_refines slot salt name password : refines (OpSetPassword slot salt name password).
Proof.
  intros d a Hm. unfold_op. unfold SetPassword.
  destruct (newPasswordHash slot salt password) as [[hash s']|e] eqn:Eh.
  2:{ by rewrite (unhashed _ _ _ "" _ Eh). }
  destruct (hashed _ _ _ "" _ _ Eh) as (-> & _ & ->). rewrite (models_lookup d a name Hm).
  destruct (user_by_name d name) as [u|] eqn:Eu; cbn [fmap option_fmap option_map]; [|done]. split; [done|].
  pose proof Hm as [Hwf _ _]. pose proof Eu as Hu. apply (user_by_name_some d name u Hwf) in Hu as [Hin Hn].
  apply models_delete_sessions.
  - refine (models_update_user d a (user_named name) (with_password hash salt) name u Hm Eu _ _); [done|].
    intros v Hv. rewrite user_named_spec. split; [|by intros ->].
    intros E. apply (NoDup_map_inj us_name (users d)); [apply Hwf|done..|congruence].
  - intros s v Hs (w & Hw & ->)%elem_of_update_where Hid. cbn [fst].
    rewrite negb_involutive. assert (Hcase : se_user_id s = us_id w ∧
      us_name (if user_named name w then with_password hash salt w else w) = us_name w).
    { destruct (user_named name w); cbn in *; done. }
    destruct Hcase as [-> ->]. apply eq_true_iff_eq. rewrite Z.eqb_eq, str_eq_spec. split.
    + intros E. by rewrite (NoDup_map_inj us_id (users d) w u (uw_ids d Hwf) Hw Hin E).
    + intros E. assert (us_name w = us_name u) as Ew by congruence.
      by rewrite (NoDup_map_inj us_name (users d) w u (uw_names d Hwf) Hw Hin Ew).
Qed.

Lemma named_user d name u : users_wf d → user_by_name d name = Some u →
  ∀ v, v ∈ users d → user_named name v = true ↔ v = u.
Proof.
  intros Hwf Hu v Hv. apply (user_by_name_some d name u Hwf) in Hu as [Hin Hn]. rewrite user_named_spec.
  split; [|by intros ->]. intros E. apply (NoDup_map_inj us_name (users d)); [apply Hwf|done..|congruence].
Qed.

Lemma user_with_id d u : users_wf d → u ∈ users d → ∀ v, v ∈ users d → (us_id v =? us_id u) = true ↔ v = u.
Proof.
  intros Hwf Hin v Hv. rewrite Z.eqb_eq. split; [|by intros ->].
  intros E. by apply (NoDup_map_inj us_id (users d)); [apply Hwf|..].
Qed.

Lemma set_role_refines name role : refines (OpSetRole name role).
Proof.
  intros d a Hm. unfold_op. unfold SetRole. destruct (checkRole role) as [[]|e]; [|done].
  rewrite (models_lookup d a name Hm). pose proof Hm as [Hwf _ _].
  destruct (user_by_name d name) as [u|] eqn:Eu; cbn [fmap option_fmap option_map].
  - destruct (Z.eqb_spec (rows_affected (user_named name) (users d)) 0) as [E|_].
    + apply (user_by_name_some d name u Hwf) in Eu as [Hin Hn].
      rewrite rows_affected_zero in E. specialize (E u Hin). apply user_named_spec in Hn. congruence.
    + split; [done|]. exact (models_update_user d a _ (with_role role) name u Hm Eu (λ _, conj eq_refl eq_refl)
        (named_user d name u Hwf Eu)).
  - destruct (Z.eqb_spec (rows_affected (user_named name) (users d)) 0) as [_|E]; [done|]. destruct E.
    apply rows_affected_zero. intros v Hv. apply not_true_iff_false. rewrite user_named_spec. intros Hn.
    assert (user_by_name d name = Some v) by (by apply user_by_name_some). congruence.
Qed.

Lemma remove_user_refines name : refines (OpRemoveUser name).
Proof.
  intros d a Hm. unfold_op. unfold RemoveUser. rewrite (models_lookup d a name Hm). pose proof Hm as [Hwf _ _].
  destruct (user_by_name d name) as [u|] eqn:Eu; cbn [fmap option_fmap option_map]; [|done]. split; [done|].
  pose proof Eu as Hu. apply (user_by_name_some d name u Hwf) in Hu as [_ <-]. by apply models_remove_user.
Qed.

Lemma login_refines now slot token name password : refines (OpLogin now slot token name password).
Proof.
  intros d a Hm. unfold_op. unfold Login. pose proof Hm as [Hwf _ Hms].
  destruct (checkPassword slot d name password) as [[id role]|e] eqn:Ec.
  2:{ by rewrite (unchecked_user _ d a _ _ _ Hm Ec). }
  destruct (checked_user _ d a _ _ _ _ Hm Ec) as (u & Eu & <- & <- & ->).
  pose proof Eu as Hu. apply (user_by_name_some d name u Hwf) in Hu as [Hin Hn].
  destruct (ac_sessions a !! hashSecret token) as [[n e]|] eqn:Es.
  - apply Hms in Es as (s & v & Hs & _ & _ & _ & Hh & _).
    assert (exists_where (session_hash (hashSecret token)) (user_sessions d) = true) as ->; [|done].
    apply exists_where_true. exists s. split; [done|]. by apply str_eq_spec.
  - assert (exists_where (session_hash (hashSecret token)) (user_sessions d) = false) as ->.
    { apply exists_where_false. intros s Hs. apply not_true_iff_false. unfold session_hash. rewrite str_eq_spec.
      intros Hh. destruct (uw_owner d Hwf s Hs) as (v & Hv & E).
      assert (ac_sessions a !! hashSecret token = Some (us_name v, se_expires_at s)) by (apply Hms; by exists s, v).
      congruence. }
    split; [done|]. cbn [session_Expires snd].
    pose proof (models_add_session d a u (hashSecret token) (time_add now SessionTTL) Hm Hin Es) as H1.
    match type of H1 with models ?d1 ?a1 =>
      pose proof (models_update_user d1 a1 (λ v, us_id v =? us_id u) (logged_in now) name u H1 Eu
        (λ _, conj eq_refl eq_refl) (user_with_id d u Hwf Hin)) as H2 end.
    unfold with_users in H2. cbn [ac_users ac_sessions] in H2.
    rewrite insert_id in H2 by (by rewrite (models_lookup d a name Hm), Eu). by rewrite Hn in H2.
Qed.

Lemma session_op_refines now token : refines (OpSession now token).
Proof. intros d a Hm. unfold_op. by rewrite (session_refines now d a token Hm). Qed.

Lemma check_op_refines slot name password : refines (OpCheckPassword slot name password).
Proof.
  intros d a Hm. unfold_op. cbn [fst snd]. split; [|done]. unfold CheckPassword.
  destruct (checkPassword slot d name password) as [[id role]|e] eqn:Ec.
  - by destruct (checked_user _ d a _ _ _ _ Hm Ec) as (u & _ & _ & _ & ->).
  - by rewrite (unchecked_user _ d a _ _ _ Hm Ec).
Qed.

Lemma change_password_refines now slot slot' salt token current next :
  refines (OpChangePassword now slot slot' salt token current next).
Proof.
  intros d a Hm. unfold_op. unfold Store_ChangePassword, CheckPassword. pose proof Hm as [Hwf _ _].
  rewrite (session_refines now d a token Hm).
  destruct (who now a token) as [s|e]; cbn [rbind]; [|done].
  destruct (checkPassword slot d (session_User s) current) as [[id role]|e] eqn:Ec; cbn [rbind fst].
  2:{ by rewrite (unchecked_user _ d a _ _ _ Hm Ec). }
  destruct (checked_user _ d a _ _ _ _ Hm Ec) as (u & Eu & <- & <- & ->). cbn [rbind].
  destruct (newPasswordHash slot' salt next) as [[hash s']|e] eqn:Eh; cbn [rbind].
  2:{ by rewrite (unhashed _ _ _ (ac_role (account_of u)) _ Eh). }
  destruct (hashed _ _ _ (ac_role (account_of u)) _ _ Eh) as (-> & _ & ->). cbn [rbind]. split; [done|].
  pose proof Eu as Hu. apply (user_by_name_some d _ u Hwf) in Hu as [Hin Hn].
  apply models_delete_sessions.
  - exact (models_update_user d a _ (with_password hash salt) _ u Hm Eu (λ _, conj eq_refl eq_refl)
      (user_with_id d u Hwf Hin)).
  - intros r v Hr (w & Hw & ->)%elem_of_update_where Hid. cbn [fst]. unfold other_session, session_hash.
    rewrite negb_involutive. f_equal.
    assert (Hcase : se_user_id r = us_id w ∧
      us_name (if us_id w =? us_id u then with_password hash salt w else w) = us_name w).
    { destruct (us_id w =? us_id u); cbn in *; done. }
    destruct Hcase as [-> ->]. apply eq_true_iff_eq. rewrite (user_with_id d u Hwf Hin w Hw), str_eq_spec.
    rewrite <- Hn. split; [by intros ->|]. by apply (NoDup_map_inj us_name (users d)); [apply Hwf|..].
Qed.

Lemma logout_refines token : refines (OpLogout token).
Proof.
  intros d a Hm. unfold_op. unfold Store_Logout. split; [done|]. cbn [snd].
  assert (keep_sessions (λ h _, negb (str_eq h (hashSecret token))) a =
    {| ac_users := ac_users a; ac_sessions := delete (hashSecret token) (ac_sessions a) |}) as <-.
  { unfold keep_sessions. f_equal. apply map_eq. intros h. apply option_eq. intros [n e].
    rewrite map_lookup_filter_Some, lookup_delete_Some. cbn.
    rewrite negb_true_iff, <- not_true_iff_false, str_eq_spec. split; intros [? ?]; split; auto. }
  apply models_delete_sessions; [done|]. intros s u _ _ _. by rewrite negb_involutive.
Qed.

Lemma purge_refines now : refines (OpPurge now).
Proof.
  intros d a Hm. unfold_op. unfold PurgeSessions. split; [done|]. cbn [snd].
  apply models_delete_sessions; [done|]. intros s u _ _ _. by rewrite negb_involutive.
Qed.

Lemma op_refines op : refines op.
Proof.
  destruct op; [apply add_user_refines|apply set_password_refines|apply set_role_refines|apply remove_user_refines|
    apply login_refines|apply session_op_refines|apply check_op_refines|apply change_password_refines|
    apply logout_refines|apply purge_refines].
Qed.

(** Operations one after the other, and everything they answered *)
Fixpoint run_ops (ops : list AccountOp) (d : DB) : list (result error Answer) * DB :=
  match ops with
  | [] => ([], d)
  | op :: ops' => let '(r, d) := run_op op d in let '(rs, d) := run_ops ops' d in (r :: rs, d)
  end.
Fixpoint spec_ops (ops : list AccountOp) (a : Accounts) : list (result error Answer) * Accounts :=
  match ops with
  | [] => ([], a)
  | op :: ops' => let '(r, a) := spec_op op a in let '(rs, a) := spec_ops ops' a in (r :: rs, a)
  end.

(** C19: the accounts of the dashboard are two maps.  Whatever operations
    follow each other (adding and removing users, passwords, roles, logins,
    sessions, logouts, purges), the store answers each exactly as the
    specification over a map of users and a map of sessions does, and its
    tables keep standing for those maps. *)
Theorem accounts_refined (ops : list AccountOp) (d : DB) (a : Accounts) : models d a →
  (run_ops ops d).1 = (spec_ops ops a).1 ∧ models (run_ops ops d).2 (spec_ops ops a).2.
Proof.
  revert d a. induction ops as [|op ops IH]; intros d a Hm; [done|]. cbn [run_ops spec_ops].
  pose proof (op_refines op d a Hm) as [E Hm']. destruct (run_op op d) as [r d'], (spec_op op a) as [r' a'].
  cbn in E, Hm'. subst r'. pose proof (IH d' a' Hm') as [E' Hm'']. destruct (run_ops ops d'), (spec_ops ops a').
  cbn in *. by subst.
Qed.
End Refinement.

(** ** Witness *)

#[local] Instance toy_crypto : Crypto := {|
  pbkdf2_Key := λ password salt _, password +:+ "/" +:+ salt; sha256_Sum256 := λ s, "#" +:+ s |}.

Definition no_accounts : Accounts := {| ac_users := ∅; ac_sessions := ∅ |}.

Lemma models_empty : models empty_db no_accounts.
Proof.
  constructor; [constructor; cbn; try constructor; by intros ? ?%not_elem_of_nil| |].
  - intros name acc. cbn. rewrite lookup_empty. split; [done|]. by intros (u & ?%not_elem_of_nil & _).
  - intros h name e. cbn. rewrite lookup_empty. split; [done|]. by intros (s & u & ?%not_elem_of_nil & _).
Qed.

(** Ann logs in twice and changes her password in the second session, which
    stays while the first one ends. *)
Lemma accounts_refined_witness : (run_ops
    [OpAddUser 5 None "s1" "ann" "correct horse" "admin"; OpLogin 10 None "t1" "ann" "wrong";
     OpLogin 10 None "t1" "ann" "correct horse"; OpLogin 20 None "t2" "ann" "correct horse"; OpSession 30 "t1";
     OpChangePassword 30 None None "s2" "t2" "correct horse" "battery staple"; OpSession 31 "t1"; OpSession 31 "t2"]
    empty_db).1
  = [Ok Done; Err ErrBadLogin;
     Ok (Opened {| session_Token := "t1"; session_User := "ann"; session_Role := "admin"; session_Expires := 10 + SessionTTL |});
     Ok (Opened {| session_Token := "t2"; session_User := "ann"; session_Role := "admin"; session_Expires := 20 + SessionTTL |});
     Ok (Opened {| session_Token := ""; session_User := "ann"; session_Role := "admin"; session_Expires := 10 + SessionTTL |});
     Ok Done; Err ErrBadSession;
     Ok (Opened {| session_Token := ""; session_User := "ann"; session_Role := "admin"; session_Expires := 20 + SessionTTL |})].
Proof.
  rewrite (proj1 (accounts_refined _ empty_db no_accounts models_empty)). vm_compute. reflexivity.
Defined.
