(* ===== verification/StoreEnrollment.v ===== *)
(** * Enrolling agents: src/internal/store/enrollment.go.

    [secret] and [token] are the 256 random bits [newSecret] draws. *)
From S2P Require Import Prelude GoStrings GoTime Errors Monitor Alerts Json Kube Tasks Database StoreHosts StoreUsers.
Local Open Scope Z_scope.

Section Enrollment.
Context `{Crypto}.

Definition secret_taken : error := ErrOther "duplicate key value violates unique constraint".

Definition token_hash (hash : string) (t : TokenRow) : bool := str_eq (tk_hash t) hash.

Definition CreateEnrollmentToken (now : time) (token hostName : string) (uses : Z) (ttl : duration) : DBM (string * time) := λ d,
  if (uses <? 1) || (ttl <=? 0) then (Err (ErrInvalid "uses must be at least 1 and ttl positive"), d)
  else
    let expires := time_add now ttl in
    let '(id, d) := next_id d in
    if exists_where (token_hash (hashSecret token)) (enrollment_tokens d) then (Err secret_taken, d)
    else (Ok (token, expires),
          set_enrollment_tokens (enrollment_tokens d ++
            [{| tk_id := id; tk_hash := hashSecret token;
                tk_host_name := if str_eq hostName "" then None else Some hostName;
                tk_uses_left := uses; tk_expires_at := expires |}]) d).

(** WHERE token_hash = $1 AND uses_left > 0 AND expires_at > now() *)
Definition usable (now : time) (token : string) (t : TokenRow) : bool :=
  token_hash (hashSecret token) t && (0 <? tk_uses_left t) && (now <? tk_expires_at t).

Definition with_timezone (timezone : string) (h : HostRow) : HostRow := {|
  h_id := h_id h; h_name := h_name h; h_timezone := timezone; h_last_seen := h_last_seen h;
  h_agent_version := h_agent_version h; h_agent_arch := h_agent_arch h; h_update_version := h_update_version h;
  h_update_url := h_update_url h; h_update_requested_at := h_update_requested_at h;
  h_update_error := h_update_error h; h_tasks := h_tasks h |}.

(** INSERT INTO hosts ... ON CONFLICT (name) DO UPDATE SET timezone *)
Definition upsert_host (name timezone : string) (d : DB) : Z * DB :=
  let '(id, d) := next_id d in
  match host_by_name d name with
  | Some h => (h_id h, update_hosts (host_named name) (with_timezone timezone) d)
  | None => (id, set_hosts (hosts d ++ [new_host id name timezone]) d)
  end.

Definition credential_of (host_id : Z) (c : CredentialRow) : bool := cr_host_id c =? host_id.
Definition with_secret (hash : string) (c : CredentialRow) : CredentialRow :=
  {| cr_host_id := cr_host_id c; cr_secret_hash := hash |}.

(** INSERT INTO agent_credentials ... ON CONFLICT (host_id) DO UPDATE, where
    secret_hash is unique *)
Definition upsert_credential (host_id : Z) (hash : string) : DBM unit := λ d,
  if exists_where (λ c, str_eq (cr_secret_hash c) hash && negb (credential_of host_id c)) (agent_credentials d)
  then (Err secret_taken, d)
  else if exists_where (credential_of host_id) (agent_credentials d)
  then (Ok (), set_agent_credentials (update_where (credential_of host_id) (with_secret hash) (agent_credentials d)) d)
  else (Ok (), set_agent_credentials (agent_credentials d ++ [{| cr_host_id := host_id; cr_secret_hash := hash |}]) d).

Definition use_token (t : TokenRow) : TokenRow := {|
  tk_id := tk_id t; tk_hash := tk_hash t; tk_host_name := tk_host_name t; tk_uses_left := tk_uses_left t - 1;
  tk_expires_at := tk_expires_at t |}.

Definition spend (id : Z) : DBM unit := λ d,
  (Ok (), set_enrollment_tokens (update_where (λ t, tk_id t =? id) use_token (enrollment_tokens d)) d).

(** What happens once the token is locked, up to the commit *)
Definition enroll_with (t : TokenRow) (secret hostName timezone : string) : DBM string := λ d,
  let '(hostID, d) := upsert_host hostName timezone d in
  (upsert_credential hostID (hashSecret secret);; spend (tk_id t);; mret secret) d.

Definition Store_Enroll (now : time) (token secret hostName timezone : string) : DBM string := λ d,
  if str_eq hostName "" then (Err (ErrInvalid "host name is required"), d)
  else match List.find (usable now token) (enrollment_tokens d) with
  | None => (Err ErrBadToken, d)
  | Some t =>
      if match tk_host_name t with Some bound => negb (str_eq bound hostName) | None => false end
      then (Err ErrBadToken, d)
      else transaction (enroll_with t secret hostName timezone) d
  end.

Definition secret_matches (hash : string) (c : CredentialRow) : bool := str_eq (cr_secret_hash c) hash.

(** agent_credentials JOIN hosts *)
Definition HostForCredential (d : DB) (secret : string) : result error string :=
  match omap (λ c, host_by_id d (cr_host_id c)) (select_where (secret_matches (hashSecret secret)) (agent_credentials d)) with
  | [] => Err ErrNotFound
  | h :: _ => Ok (h_name h)
  end.

Definition PurgeEnrollmentTokens (now : time) : DBM Z := λ d,
  let gone := λ t, (tk_uses_left t <=? 0) || (tk_expires_at t <? now) in
  (Ok (rows_affected gone (enrollment_tokens d)),
   set_enrollment_tokens (delete_where gone (enrollment_tokens d)) d).
End Enrollment.
