(* ===== verification/StoreEnrollmentProps.v ===== *)
(** * Enrollment tokens and agent credentials. *)
From S2P Require Import Prelude GoStrings GoTime Errors Monitor Alerts Json Kube Tasks Database StoreHosts StoreUsers StoreEnrollment.
Local Open Scope Z_scope.

#[local] Arguments update_where : simpl never.
#[local] Arguments delete_where : simpl never.
#[local] Arguments exists_where : simpl never.

Record enroll_wf (d : DB) : Prop := {
  ew_names : NoDup (map h_name (hosts d));
  ew_ids : NoDup (map h_id (hosts d));
  ew_fresh : ∀ h, h ∈ hosts d → h_id h < seq d;
  ew_tokens : NoDup (map tk_hash (enrollment_tokens d));
  ew_token_ids : NoDup (map tk_id (enrollment_tokens d));
  ew_owners : NoDup (map cr_host_id (agent_credentials d));
  ew_secrets : NoDup (map cr_secret_hash (agent_credentials d));
  ew_hosts : ∀ c, c ∈ agent_credentials d → ∃ h, h ∈ hosts d ∧ h_id h = cr_host_id c }.

Section Enrollment.
Context `{Crypto}.

(** Whose secret it is, as a relation *)
Definition belongs (d : DB) (secret name : string) : Prop := ∃ c h,
  c ∈ agent_credentials d ∧ h ∈ hosts d ∧ cr_secret_hash c = hashSecret secret ∧ h_id h = cr_host_id c ∧ h_name h = name.

Lemma host_by_id_in d h : enroll_wf d → h ∈ hosts d → host_by_id d (h_id h) = Some h.
Proof.
  intros Hwf Hh. apply find_unique; [done|lia|]. intros v Hv E.
  apply (NoDup_map_inj h_id (hosts d)); [apply Hwf|done..|lia].
Qed.

Lemma HostForCredential_spec d secret : enroll_wf d →
  match HostForCredential d secret with
  | Ok name => belongs d secret name
  | Err e => e = ErrNotFound ∧ ∀ name, ¬ belongs d secret name
  end.
Proof.
  intros Hwf. unfold HostForCredential. destruct (omap _ _) as [|h l] eqn:E.
  - split; [done|]. intros name (c & h & Hc & Hh & Hs & Hid & _).
    assert (h ∈ @nil HostRow) as Hno; [|by apply not_elem_of_nil in Hno]. rewrite <- E. apply list_elem_of_omap.
    exists c. rewrite elem_of_select_where, <- Hid. split; [|by apply host_by_id_in]. split; [done|]. by apply str_eq_spec.
  - assert (h ∈ h :: l) as Hin by (by left). rewrite <- E in Hin.
    apply list_elem_of_omap in Hin as (c & [Hc Hs]%elem_of_select_where & Hh). apply find_in in Hh as [Hh Hid].
    exists c, h. apply str_eq_spec in Hs. split_and!; try done. lia.
Qed.

Lemma belongs_one d secret n m : enroll_wf d → belongs d secret n → belongs d secret m → n = m.
Proof.
  intros Hwf (c & h & Hc & Hh & Hs & Hid & <-) (c' & h' & Hc' & Hh' & Hs' & Hid' & <-).
  assert (c = c') as <- by (apply (NoDup_map_inj cr_secret_hash (agent_credentials d)); [apply Hwf|done..|congruence]).
  assert (h = h') as <- by (apply (NoDup_map_inj h_id (hosts d)); [apply Hwf|done..|congruence]). done.
Qed.

Lemma HostForCredential_ok d secret name : enroll_wf d → HostForCredential d secret = Ok name ↔ belongs d secret name.
Proof.
  intros Hwf. pose proof (HostForCredential_spec d secret Hwf) as Hs. destruct (HostForCredential d secret) as [n|e].
  - split; [by intros [= <-]|]. intros Hb. f_equal. by eapply belongs_one.
  - split; [done|]. intros Hb. by destruct (proj2 Hs name).
Qed.

Definition host_key (h : HostRow) : Z * string := (h_id h, h_name h).

Lemma belongs_keys d d' secret name : agent_credentials d' = agent_credentials d →
  (∀ c k, c ∈ agent_credentials d → (cr_host_id c, k) ∈ map host_key (hosts d') ↔ (cr_host_id c, k) ∈ map host_key (hosts d)) →
  belongs d' secret name ↔ belongs d secret name.
Proof.
  intros Ec Hk. unfold belongs. rewrite Ec. setoid_rewrite list_elem_of_fmap in Hk. split.
  - intros (c & h & Hc & Hh & Hs & Hid & Hn). destruct (Hk c name Hc) as [(h' & E & Hh') _].
    + exists h. unfold host_key. by rewrite Hid, Hn.
    + injection E as E1 E2. by exists c, h'.
  - intros (c & h & Hc & Hh & Hs & Hid & Hn). destruct (Hk c name Hc) as [_ (h' & E & Hh')].
    + exists h. unfold host_key. by rewrite Hid, Hn.
    + injection E as E1 E2. by exists c, h'.
Qed.

Lemma upsert_host_spec name timezone d id d' : enroll_wf d → upsert_host name timezone d = (id, d') →
  enroll_wf d' ∧ (∃ h, h ∈ hosts d' ∧ h_id h = id ∧ h_name h = name)
  ∧ enrollment_tokens d' = enrollment_tokens d ∧ agent_credentials d' = agent_credentials d
  ∧ ∀ s n, belongs d' s n ↔ belongs d s n.
Proof.
  intros [Hn Hi Hf Ht Hti Ho Hs Hh]. unfold upsert_host, next_id. intros Hu.
  assert (En : host_by_name (set_seq (seq d + 1) d) name = host_by_name d name) by done. rewrite En in Hu.
  destruct (host_by_name d name) as [h|] eqn:E; injection Hu as <- <-.
  - apply host_by_name_some in E as [Hin <-].
    assert (Ek : map host_key (update_where (host_named (h_name h)) (with_timezone timezone) (hosts d)) = map host_key (hosts d))
      by (by apply map_update_where).
    assert (Hin' : with_timezone timezone h ∈ update_where (host_named (h_name h)) (with_timezone timezone) (hosts d)).
    { apply elem_of_update_where. exists h. split; [done|]. unfold host_named. by rewrite str_eq_refl. }
    split; [constructor; cbn; try done|split; [|split; [done|split; [done|]]]].
    + by rewrite map_update_where.
    + by rewrite map_update_where.
    + intros v (w & Hw & ->)%elem_of_update_where. specialize (Hf w Hw). destruct (host_named _ w); cbn; lia.
    + intros c Hc. destruct (Hh c Hc) as (w & Hw & Ew). exists (if host_named (h_name h) w then with_timezone timezone w else w).
      split; [apply elem_of_update_where; by exists w|]. by destruct (host_named _ w).
    + by eexists.
    + intros s n. apply belongs_keys; [done|]. intros c k _. cbn. by rewrite Ek.
  - apply host_by_name_none in E.
    split; [constructor; cbn; try done|split; [|split; [done|split; [done|]]]].
    + rewrite map_app. apply NoDup_app. split; [done|]. split; [|apply NoDup_singleton].
      intros x Hx Ex%list_elem_of_singleton. cbn in Ex. congruence.
    + rewrite map_app. apply NoDup_app. split; [done|]. split; [|apply NoDup_singleton].
      intros x (v & -> & Hv)%list_elem_of_fmap Ex%list_elem_of_singleton. specialize (Hf v Hv). cbn in Ex. lia.
    + intros v [Hv| ->%list_elem_of_singleton]%elem_of_app; [specialize (Hf v Hv); lia|cbn; lia].
    + intros c Hc. destruct (Hh c Hc) as (w & Hw & Ew). exists w. rewrite elem_of_app. auto.
    + exists (new_host (seq d) name timezone). split; [apply elem_of_app; right; by apply list_elem_of_singleton|done].
    + intros s n. apply belongs_keys; [done|]. intros c k Hc. cbn. rewrite map_app, elem_of_app. split; [|by left].
      intros [?|E']; [done|]. apply list_elem_of_singleton in E'. destruct (Hh c Hc) as (w & Hw & Ew).
      specialize (Hf w Hw). injection E' as E1 _. lia.
Qed.

(** The credential of a host is replaced, the others stay. *)
Definition one_secret (d d' : DB) (hash name : string) : Prop := ∀ s n,
  belongs d' s n ↔ (hashSecret s = hash ∧ n = name) ∨ (n ≠ name ∧ belongs d s n).

(** The credential of a host names the host. *)
Lemma credential_key d h c v : enroll_wf d → h ∈ hosts d → c ∈ agent_credentials d → v ∈ hosts d → h_id v = cr_host_id c →
  cr_host_id c = h_id h ↔ h_name v = h_name h.
Proof.
  intros [Hn Hi _ _ _ _ _ _] Hh Hc Hv <-. split; intros E.
  - by rewrite (NoDup_map_inj h_id (hosts d) v h Hi Hv Hh E).
  - by rewrite (NoDup_map_inj h_name (hosts d) v h Hn Hv Hh E).
Qed.

(** No other host has this secret. *)
Definition secret_free (d : DB) (hash : string) (h : HostRow) : Prop :=
  ∀ c, c ∈ agent_credentials d → cr_secret_hash c = hash → cr_host_id c = h_id h.

Lemma credential_replaced d hash h c0 : enroll_wf d → h ∈ hosts d → secret_free d hash h →
  c0 ∈ agent_credentials d → cr_host_id c0 = h_id h →
  let d' := set_agent_credentials (update_where (credential_of (h_id h)) (with_secret hash) (agent_credentials d)) d in
  enroll_wf d' ∧ one_secret d d' hash (h_name h).
Proof.
  intros Hwf Hh Hfree Hc0 E0. pose proof Hwf as [Hn Hi Hf Ht Hti Ho Hs Hhs].
  assert (Hof : ∀ c, c ∈ agent_credentials d → credential_of (h_id h) c = true ↔ c = c0).
  { intros c Hc. unfold credential_of. rewrite Z.eqb_eq. split; [|by intros ->]. intros E1.
    apply (NoDup_map_inj cr_host_id (agent_credentials d)); [done..|congruence]. }
  split.
  - constructor; cbn; try done.
    + by rewrite map_update_where.
    + apply NoDup_map_update; [done| |].
      * intros x y Hx Hy E1%(Hof x Hx) E2%(Hof y Hy). congruence.
      * intros x y Hx Hy E1 E2 Es. cbn in Es. symmetry in Es. apply (Hfree y Hy) in Es. unfold credential_of in E2. lia.
    + intros c (c' & Hc' & ->)%elem_of_update_where. destruct (Hhs c' Hc') as (v & Hv & Ev). exists v.
      split; [done|]. by destruct (credential_of _ c').
  - intros s n. split.
    + intros (c & v & (c' & Hc' & ->)%elem_of_update_where & Hv & Es & Ev & <-).
      destruct (credential_of (h_id h) c') eqn:E1; cbn in *; unfold credential_of in E1.
      * left. split; [done|]. apply (credential_key d h c' v); [done..|lia].
      * right. split; [|by exists c', v]. intros En. apply (credential_key d h c' v) in En; [lia|done..].
    + intros [[Es ->]|[Hne (c & v & Hc & Hv & Es & Ev & <-)]].
      * exists (with_secret hash c0), h. split; [|by cbn]. apply elem_of_update_where. exists c0.
        by rewrite (proj2 (Hof c0 Hc0) eq_refl).
      * exists c, v. split; [|done]. apply elem_of_update_where. exists c. split; [done|].
        destruct (credential_of (h_id h) c) eqn:E1; [|done]. destruct Hne. apply (credential_key d h c v); [done..|].
        unfold credential_of in E1. lia.
Qed.

Lemma credential_added d hash h c0 : enroll_wf d → h ∈ hosts d → secret_free d hash h →
  (∀ c, c ∈ agent_credentials d → cr_host_id c ≠ h_id h) → cr_host_id c0 = h_id h → cr_secret_hash c0 = hash →
  let d' := set_agent_credentials (agent_credentials d ++ [c0]) d in
  enroll_wf d' ∧ one_secret d d' hash (h_name h).
Proof.
  intros Hwf Hh Hfree Ec Eh Es0. pose proof Hwf as [Hn Hi Hf Ht Hti Ho Hs Hhs]. split.
  - constructor; cbn; try done.
    + rewrite map_app. apply NoDup_app. split; [done|]. split; [|apply NoDup_singleton].
      intros x (c & -> & Hc)%list_elem_of_fmap Ex%list_elem_of_singleton. specialize (Ec c Hc). cbn in Ex. congruence.
    + rewrite map_app. apply NoDup_app. split; [done|]. split; [|apply NoDup_singleton].
      intros x (c & -> & Hc)%list_elem_of_fmap Ex%list_elem_of_singleton. apply (Ec c Hc), (Hfree c Hc). cbn in Ex. congruence.
    + intros c [Hc| ->%list_elem_of_singleton]%elem_of_app; [auto|]. by exists h.
  - intros s n. unfold belongs. cbn. setoid_rewrite elem_of_app. setoid_rewrite list_elem_of_singleton. split.
    + intros (c & v & [Hc| ->] & Hv & Es & Ev & <-); cbn in *.
      * right. split; [|by exists c, v]. intros En. apply (credential_key d h c v) in En; [|done..]. by apply (Ec c Hc).
      * left. split; [congruence|]. rewrite (NoDup_map_inj h_id (hosts d) v h Hi Hv Hh); [done|congruence].
    + intros [[Es ->]|[Hne (c & v & Hc & Hv & Hr)]].
      * exists c0, h. split; [by right|]. split; [done|]. split; [congruence|]. by split; [congruence|].
      * exists c, v. auto.
Qed.

Lemma credential_spec d id hash name h r d' : enroll_wf d → h ∈ hosts d → h_id h = id → h_name h = name →
  upsert_credential id hash d = (r, d') →
  match r with
  | Err e => e = secret_taken ∧ ∃ c v, c ∈ agent_credentials d ∧ cr_secret_hash c = hash ∧ v ∈ hosts d ∧
      h_id v = cr_host_id c ∧ h_name v ≠ name
  | Ok _ => enroll_wf d' ∧ enrollment_tokens d' = enrollment_tokens d ∧ one_secret d d' hash name
  end.
Proof.
  intros Hwf Hh <- <-. unfold upsert_credential. destruct (exists_where (λ c, str_eq _ _ && _) _) eqn:E.
  { intros [= <- <-]. apply exists_where_true in E as (c & Hc & [E1 E2]%andb_true_iff). apply str_eq_spec in E1.
    split; [done|]. destruct (ew_hosts d Hwf c Hc) as (v & Hv & Ev). exists c, v. split_and!; try done.
    intros En. apply (credential_key d h c v) in En; [|done..]. unfold credential_of in E2. lia. }
  rewrite exists_where_false in E. assert (Hfree : secret_free d hash h).
  { intros c Hc Es. specialize (E c Hc). unfold credential_of in E. rewrite Es, str_eq_refl in E. cbn in E. lia. }
  destruct (exists_where (credential_of (h_id h)) _) eqn:Ec; intros [= <- <-].
  - apply exists_where_true in Ec as (c0 & Hc0 & E0%Z.eqb_eq).
    destruct (credential_replaced d hash h c0 Hwf Hh Hfree Hc0 E0) as [Hwf' Hone]. by split_and!.
  - rewrite exists_where_false in Ec. unfold credential_of in Ec.
    match goal with |- context [agent_credentials d ++ [?c0]] =>
      destruct (credential_added d hash h c0 Hwf Hh Hfree) as [Hwf' Hone]; [|done..|] end;
      [intros c Hc; specialize (Ec c Hc); lia|by split_and!].
Qed.

Lemma spend_wf id d : enroll_wf d → enroll_wf (spend id d).2.
Proof. intros []. constructor; cbn; try done; by rewrite map_update_where. Qed.

(** A token that lets a host in *)
Definition admits (now : time) (token hostName : string) (t : TokenRow) : Prop :=
  tk_hash t = hashSecret token ∧ 0 < tk_uses_left t ∧ now < tk_expires_at t ∧
  (tk_host_name t = None ∨ tk_host_name t = Some hostName).

Lemma usable_spec now token t : usable now token t = true ↔
  tk_hash t = hashSecret token ∧ 0 < tk_uses_left t ∧ now < tk_expires_at t.
Proof. unfold usable, token_hash. rewrite !andb_true_iff, str_eq_spec, !Z.ltb_lt. tauto. Qed.

Lemma bound_spec (t : TokenRow) hostName :
  match tk_host_name t with Some bound => negb (str_eq bound hostName) | None => false end = false ↔
  tk_host_name t = None ∨ tk_host_name t = Some hostName.
Proof.
  destruct (tk_host_name t) as [b|]; [|tauto]. rewrite negb_false_iff, str_eq_spec.
  split; [intros ->; by right|]. by intros [?|[= ->]].
Qed.

(** The token is found by its hash, which is unique. *)
Lemma find_usable now token d t : enroll_wf d → t ∈ enrollment_tokens d → usable now token t = true →
  List.find (usable now token) (enrollment_tokens d) = Some t.
Proof.
  intros Hwf Ht Hu. apply find_unique; [done..|]. intros t' Ht' Hu'. apply usable_spec in Hu as (E & _), Hu' as (E' & _).
  apply (NoDup_map_inj tk_hash (enrollment_tokens d)); [apply Hwf|done..|congruence].
Qed.

Lemma enroll_with_spec t secret hostName timezone d : enroll_wf d →
  match enroll_with t secret hostName timezone d with
  | (Err e, _) => e = secret_taken ∧ ∃ other, other ≠ hostName ∧ belongs d secret other
  | (Ok s, d') => s = secret ∧ enroll_wf d' ∧ one_secret d d' (hashSecret secret) hostName ∧
      enrollment_tokens d' = update_where (λ r, tk_id r =? tk_id t) use_token (enrollment_tokens d)
  end.
Proof.
  intros Hwf. unfold enroll_with. destruct (upsert_host hostName timezone d) as [id d1] eqn:Eu.
  destruct (upsert_host_spec _ _ _ _ _ Hwf Eu) as (Hwf1 & (h & Hh & Hid & Hn) & Et & Ec & Hb).
  unfold mbind, SM_bind, sbind, mret, SM_ret, sret.
  destruct (upsert_credential id (hashSecret secret) d1) as [[u|e] d2] eqn:Er;
    pose proof (credential_spec d1 id _ hostName h _ d2 Hwf1 Hh Hid Hn Er) as Hc; cbn in Hc.
  - destruct Hc as (Hwf2 & Et2 & Ho). destruct (spend (tk_id t) d2) as [r d3] eqn:Es.
    pose proof (spend_wf (tk_id t) d2 Hwf2) as Hwf3. rewrite Es in Hwf3. cbn in Hwf3.
    unfold spend in Es. injection Es as <- <-. split; [done|]. split; [done|]. split.
    + intros s n. rewrite <- Hb. apply Ho.
    + cbn. by rewrite Et2, Et.
  - destruct Hc as (-> & c & v & Hc & Hs & Hv & Ev & Hne). split; [done|]. exists (h_name v). split; [done|].
    apply Hb. by exists c, v.
Qed.

(** What enrolling gave is a key of the host. *)
Lemma Store_Enroll_key now token secret hostName timezone d s d' : enroll_wf d →
  Store_Enroll now token secret hostName timezone d = (Ok s, d') → s = secret ∧ HostForCredential d' secret = Ok hostName.
Proof.
  intros Hwf. unfold Store_Enroll. destruct (str_eq hostName ""); [done|].
  destruct (List.find (usable now token) (enrollment_tokens d)) as [t|]; [|done].
  destruct (match tk_host_name t with Some bound => _ | None => false end); [done|].
  rewrite transaction_ok. intros E. pose proof (enroll_with_spec t secret hostName timezone d Hwf) as Hs. rewrite E in Hs.
  destruct Hs as (-> & Hwf' & Ho & _). split; [done|]. apply HostForCredential_ok; [done|]. apply Ho. by left.
Qed.

(** C21: enrolling trades one use of a token for a host's credential.  It
    succeeds exactly when the host has a name, a token in the table has that
    secret, uses left, time left, and no other host's name on it (and the new
    secret is not another host's already); then the token has one use less,
    the new secret, and no other, stands for the host, and every other host's
    credential stands for it as before.  An error changes nothing. *)
Theorem Enroll_correct (now : time) (token secret hostName timezone : string) (d : DB) : enroll_wf d →
  match Store_Enroll now token secret hostName timezone d with
  | (Err e, d') => d' = d ∧
      ((hostName = "" ∧ ∃ m, e = ErrInvalid m)
       ∨ (e = ErrBadToken ∧ ¬ ∃ t, t ∈ enrollment_tokens d ∧ admits now token hostName t)
       ∨ (e = secret_taken ∧ ∃ other, other ≠ hostName ∧ HostForCredential d secret = Ok other))
  | (Ok s, d') => s = secret ∧ hostName ≠ "" ∧ enroll_wf d' ∧
      (∃ t, t ∈ enrollment_tokens d ∧ admits now token hostName t ∧
         ∀ r, r ∈ enrollment_tokens d' ↔ r = use_token t ∨ (r ∈ enrollment_tokens d ∧ r ≠ t)) ∧
      ∀ s' n, HostForCredential d' s' = Ok n ↔
        (hashSecret s' = hashSecret secret ∧ n = hostName) ∨ (n ≠ hostName ∧ HostForCredential d s' = Ok n)
  end.
Proof.
  intros Hwf. unfold Store_Enroll. destruct (str_eq hostName "") eqn:E0.
  { apply str_eq_spec in E0. split; [done|]. left. split; [done|]. by eexists. }
  assert (Hne : hostName ≠ "") by (intros E; apply str_eq_spec in E; congruence).
  destruct (List.find (usable now token) (enrollment_tokens d)) as [t|] eqn:Ef.
  2:{ split; [done|]. right; left. split; [done|]. intros (t & Ht & Eh & Hu & He & _).
      rewrite find_nothing in Ef. specialize (Ef t Ht). rewrite (proj2 (usable_spec now token t)) in Ef; done. }
  apply find_in in Ef as [Ht Hu]. destruct (match tk_host_name t with Some bound => _ | None => false end) eqn:Eb.
  { split; [done|]. right; left. split; [done|]. intros (t' & Ht' & Eh & Hu' & He & Hb).
    assert (Et : List.find (usable now token) (enrollment_tokens d) = Some t') by (apply find_usable; [done..|by apply usable_spec]).
    rewrite (find_usable now token d t Hwf Ht Hu) in Et. injection Et as <-. apply bound_spec in Hb. congruence. }
  apply bound_spec in Eb. pose proof (enroll_with_spec t secret hostName timezone d Hwf) as Hs. unfold transaction.
  destruct (enroll_with t secret hostName timezone d) as [[s|e] d'].
  - destruct Hs as (-> & Hwf' & Ho & Et). split; [done|]. split; [done|]. split; [done|]. split.
    + exists t. split; [done|]. split; [apply usable_spec in Hu as (? & ? & ?); by split_and!|].
      assert (Hid : ∀ r, r ∈ enrollment_tokens d → (tk_id r =? tk_id t) = true ↔ r = t).
      { intros r Hr. rewrite Z.eqb_eq. split; [|by intros ->]. intros E.
        apply (NoDup_map_inj tk_id (enrollment_tokens d)); [apply Hwf|done..]. }
      intros r. rewrite Et, elem_of_update_where. split.
      * intros (x & Hx & ->). destruct (tk_id x =? tk_id t) eqn:E; [left; f_equal; by apply Hid|right].
        split; [done|]. intros ->. by rewrite Z.eqb_refl in E.
      * intros [->|[Hr Hrt]]; [exists t; by rewrite Z.eqb_refl|]. exists r. split; [done|].
        destruct (tk_id r =? tk_id t) eqn:E; [|done]. by apply Hid in E.
    + intros s' n. rewrite !HostForCredential_ok by done. apply Ho.
  - destruct Hs as (-> & other & Hno & Hb). split; [done|]. right; right. split; [done|]. exists other.
    by rewrite HostForCredential_ok.
Qed.
End Enrollment.

(** ** Witness *)

#[local] Instance toy_hashes : Crypto := {|
  pbkdf2_Key := λ password salt _, password +:+ "/" +:+ salt; sha256_Sum256 := λ s, "#" +:+ s |}.

(** A token for one use at web1, which has an older credential *)
Definition one_use : TokenRow := {|
  tk_id := 7; tk_hash := "#tok"; tk_host_name := Some "web1"; tk_uses_left := 1; tk_expires_at := 100 |}.
Definition enroll_db : DB :=
  set_enrollment_tokens [one_use] (set_agent_credentials [{| cr_host_id := 1; cr_secret_hash := "#old" |}]
    (set_hosts [new_host 1 "web1" "UTC"] (set_seq 10 empty_db))).

Lemma enroll_db_wf : enroll_wf enroll_db.
Proof.
  constructor; cbn; try (repeat constructor; try (by apply not_elem_of_nil)).
  - by intros h ->%list_elem_of_singleton.
  - intros c ->%list_elem_of_singleton. eexists. split; [by left|done].
Qed.

Lemma Enroll_correct_witness : ∃ d', Store_Enroll 50 "tok" "new" "web1" "UTC" enroll_db = (Ok "new", d')
  ∧ HostForCredential d' "new" = Ok "web1" ∧ HostForCredential d' "old" ≠ Ok "web1".
Proof.
  pose proof (Enroll_correct 50 "tok" "new" "web1" "UTC" enroll_db enroll_db_wf) as Hc.
  destruct (Store_Enroll 50 "tok" "new" "web1" "UTC" enroll_db) as [[s|e] d'] eqn:E.
  - destruct Hc as (-> & _ & _ & _ & Hb). exists d'. split; [done|]. split; [apply Hb; by left|].
    rewrite Hb. by intros [[? _]|[? _]].
  - exfalso. vm_compute in E. discriminate E.
Defined.
