(* ===== verification/Snapshot.v ===== *)
(** * The snapshot an agent sends: src/internal/monitor/types.go, monitor.go.

    The wire types, and what the agent computes itself; the readings come
    from the systats library, which is outside.  [float32] values are
    [float64] here. *)
From S2P Require Import Prelude GoStrings GoFloat GoTime Errors Monitor.
Local Open Scope Z_scope.

Record LoggedInUser := {
  su_Username : string; su_RemoteHost : string; su_LoggedInTime : time }.

Record System := {
  sys_HostName : string; sys_OS : string; sys_Kernel : string; sys_UpTime : string; sys_LastBootDate : time;
  sys_LoggedInUsers : list LoggedInUser; sys_Time : Z; sys_TimeZone : string; sys_UpTimeSeconds : float64 }.

Record CPU := {
  cpu_LoadAvg : Z; cpu_CoreAvg : list Z; cpu_Model : string; cpu_NoOfCores : Z; cpu_Freq : string;
  cpu_Cache : string; cpu_Time : Z; cpu_Load1 : float64; cpu_Load5 : float64; cpu_Load15 : float64;
  cpu_PhysicalCores : Z; cpu_Sockets : Z; cpu_Limited : bool; cpu_AllocatedCores : float64 }.

Record Memory := {
  mem_PercentageUsed : float64; mem_Available : Z; mem_Free : Z; mem_Used : Z; mem_Time : Z; mem_Total : Z;
  mem_Unit : string; mem_Limited : bool }.

Record Swap := {
  swp_PercentageUsed : float64; swp_Free : Z; swp_Used : Z; swp_Time : Z; swp_Total : Z; swp_Unit : string }.

Record DiskUsage := {
  du_Size : Z; du_Used : Z; du_Available : Z; du_Usage : string; du_Unit : string }.

Record InodeUsage := {
  iu_Inodes : Z; iu_Available : Z; iu_Used : Z; iu_Usage : string }.

Record Disk := {
  dk_FileSystem : string; dk_Type : string; dk_MountedOn : string; dk_Usage : DiskUsage; dk_Inodes : InodeUsage;
  dk_Time : Z }.

Record NetworkUsage := {
  nu_RxBytes : Z; nu_TxBytes : Z; nu_RxPackets : Z; nu_TxPackets : Z; nu_State : string }.

Record NetworkRates := {
  nr_RxBytesPerSec : float64; nr_TxBytesPerSec : float64; nr_RxPacketsPerSec : float64;
  nr_TxPacketsPerSec : float64 }.

Record Network := {
  nw_Interface : string; nw_Ip : string; nw_Usage : NetworkUsage; nw_Time : Z; nw_Ipv6 : string;
  nw_MacAddress : string; nw_Rates : option NetworkRates }.

Record ProcessIO := {
  pio_ReadBytes : Z; pio_WriteBytes : Z; pio_ReadChars : Z; pio_WriteChars : Z; pio_Accessible : bool }.

Record Process := {
  pr_Pid : Z; pr_ExecPath : string; pr_User : string; pr_CPUUsage : float64; pr_MemUsage : float64;
  pr_Name : string; pr_State : string; pr_StateName : string; pr_Threads : Z; pr_OpenFDs : Z;
  pr_FDsAccessible : bool; pr_IO : ProcessIO }.

Record DiskIO := {
  dio_Device : string; dio_ReadsPerSec : float64; dio_WritesPerSec : float64; dio_ReadBytesPerSec : float64;
  dio_WriteBytesPerSec : float64; dio_UtilPercent : float64 }.

Record TCPStates := {
  tcp_Established : Z; tcp_SynSent : Z; tcp_SynRecv : Z; tcp_FinWait1 : Z; tcp_FinWait2 : Z; tcp_TimeWait : Z;
  tcp_Close : Z; tcp_CloseWait : Z; tcp_LastAck : Z; tcp_Listen : Z; tcp_Closing : Z; tcp_NewSynRecv : Z;
  tcp_Unknown : Z; tcp_Total : Z; tcp_Time : Z }.

Record PressureMetric := {
  pm_Avg10 : float64; pm_Avg60 : float64; pm_Avg300 : float64; pm_Total : Z }.

Record ResourcePressure := {
  rp_Some : PressureMetric; rp_Full : PressureMetric; rp_FullAvailable : bool }.

Record Pressure := {
  psi_CPU : ResourcePressure; psi_Memory : ResourcePressure; psi_IO : ResourcePressure; psi_Limited : bool;
  psi_Time : Z }.

Record Temperature := {
  tmp_Name : string; tmp_Label : string; tmp_Celsius : float64; tmp_High : float64; tmp_HighAvailable : bool;
  tmp_Critical : float64; tmp_CriticalAvailable : bool }.

Record ContainerCPU := {
  hcc_CoresUsed : float64; hcc_PercentOfHost : float64; hcc_PercentOfLimit : float64; hcc_Limited : bool;
  hcc_AllocatedCores : float64; hcc_ThrottledSeconds : float64 }.

Record ContainerMemory := {
  hcm_Used : float64; hcm_Limit : float64; hcm_Limited : bool; hcm_PercentageUsed : float64; hcm_OOMKills : Z }.

Record ContainerNetwork := {
  hcn_RxBytes : Z; hcn_TxBytes : Z; hcn_SharesHostNetwork : bool; hcn_Accessible : bool }.

Record ContainerBlockIO := {
  hcb_ReadBytes : Z; hcb_WriteBytes : Z }.

Record ContainerPids := {
  hcp_Current : Z; hcp_Max : Z; hcp_Limited : bool }.

Record ContainerRates := {
  hcr_RxBytesPerSec : option float64; hcr_TxBytesPerSec : option float64; hcr_ReadBytesPerSec : float64;
  hcr_WriteBytesPerSec : float64; hcr_CPUThrottledSecPerSec : float64 }.

Record HostContainer := {
  hc_ID : string; hc_ShortID : string; hc_Name : string; hc_Image : string; hc_State : string; hc_Runtime : string;
  hc_ComposeProject : string; hc_MetadataAvailable : bool; hc_PodUID : string; hc_Namespace : string;
  hc_Pod : string; hc_CPU : ContainerCPU; hc_Memory : ContainerMemory; hc_Network : ContainerNetwork;
  hc_BlockIO : ContainerBlockIO; hc_Pids : ContainerPids; hc_Pressure : option Pressure;
  hc_LayerSize : option float64; hc_Rates : option ContainerRates; hc_Time : Z }.

Record Processes := {
  prs_CPU : list Process; prs_Memory : list Process }.

Record Service := {
  svc_Name : string; svc_Running : bool; svc_Time : string }.

Record MonitorData := {
  md_UnixTime : string; md_System : System; md_Memory : Memory; md_Swap : Swap; md_Disk : list Disk;
  md_ProcUsage : CPU; md_Networks : list Network; md_Processes : Processes; md_Services : list Service;
  md_ServerId : string; md_DiskIO : list DiskIO; md_TCPStates : option TCPStates; md_Pressure : option Pressure;
  md_Temperatures : list Temperature; md_Containers : list HostContainer; md_AgentVersion : string }.

Record CustomMetric := {
  cmv_Name : string; cmv_Unit : string; cmv_Value : string; cmv_ServerId : string; cmv_Time : string }.

(** ** What the agent makes of the readings *)

(** [math.Round]: half away from zero *)
Definition round_half_away (m : positive) (e : Z) : Z :=
  if 0 <=? e then Zpos m * 2 ^ e else (2 * Zpos m + 2 ^ (- e)) / (2 * 2 ^ (- e)).
(** Values past 2^64 are implementation defined in Go; here they wrap. *)
Definition toUint (v : float64) : Z :=
  if fle v f0 then 0
  else match v with
       | S754_finite _ m e => round_half_away m e mod 2 ^ 64
       | _ => 2 ^ 63
       end.

Definition skippedFsTypes : list string := ["squashfs"; "overlay"].

(** [disksToIgnore] is SYMON_DISKS_TO_IGNORE. *)
Definition ignoredDisk (disksToIgnore fileSystem : string) : bool :=
  existsb (λ d, str_eq fileSystem (trim_space d)) (split_byte (chr 44) disksToIgnore).

(** Counters are unsigned; none that went backwards is subtracted. *)
Definition networkRates (prev cur : NetworkUsage) (elapsedSeconds : float64) : option NetworkRates :=
  if fle elapsedSeconds f0 || (nu_RxBytes cur <? nu_RxBytes prev) || (nu_TxBytes cur <? nu_TxBytes prev)
     || (nu_RxPackets cur <? nu_RxPackets prev) || (nu_TxPackets cur <? nu_TxPackets prev)
  then None
  else
    let rate c p := fdiv (of_int (c - p)) elapsedSeconds in
    Some {| nr_RxBytesPerSec := rate (nu_RxBytes cur) (nu_RxBytes prev);
            nr_TxBytesPerSec := rate (nu_TxBytes cur) (nu_TxBytes prev);
            nr_RxPacketsPerSec := rate (nu_RxPackets cur) (nu_RxPackets prev);
            nr_TxPacketsPerSec := rate (nu_TxPackets cur) (nu_TxPackets prev) |}.

Definition with_rates (r : option NetworkRates) (n : Network) : Network := {|
  nw_Interface := nw_Interface n; nw_Ip := nw_Ip n; nw_Usage := nw_Usage n; nw_Time := nw_Time n;
  nw_Ipv6 := nw_Ipv6 n; nw_MacAddress := nw_MacAddress n; nw_Rates := r |}.

(** The loop of [networks]: the interfaces with their rates, and the
    counters kept for the next tick *)
Fixpoint networks_loop (prev : gmap string NetworkUsage) (elapsed : float64) (current : gmap string NetworkUsage)
    (stats : list Network) : list Network * gmap string NetworkUsage :=
  match stats with
  | [] => ([], current)
  | n :: stats' =>
      let rates := match prev !! nw_Interface n with
                   | Some p => networkRates p (nw_Usage n) elapsed
                   | None => nw_Rates n
                   end in
      let '(l, current) := networks_loop prev elapsed (<[nw_Interface n := nw_Usage n]> current) stats' in
      (with_rates rates n :: l, current)
  end.
Definition networks (prev : gmap string NetworkUsage) (prevNetTime sampled : time) (stats : list Network)
    : list Network * gmap string NetworkUsage :=
  networks_loop prev (dur_seconds (time_sub sampled prevNetTime)) ∅ stats.
