(* ===== verification/StoreIngest.v ===== *)
(** * Storing what agents send: src/internal/store/ingest.go.

    [encoding/json] and [strconv.ParseFloat] are parameters: a snapshot is
    kept as the text they make of it.  The batch of a call is one
    transaction; its statements cannot fail on their own, the metric tables
    having no keys. *)
From S2P Require Import Prelude GoStrings GoFloat GoTime Errors Monitor Alerts Json Kube Tasks Database StoreHosts Snapshot.
Local Open Scope Z_scope.

Class SnapshotJSON := {
  marshal_data : MonitorData → result error string;
  marshal_processes : Processes → result error string;
  unmarshal_data : string → result error MonitorData;
  unmarshal_metric : string → result error CustomMetric }.

Definition parseUnixTime (value : string) : result error time :=
  match parse_int value with
  | Some seconds => Ok (unix_time seconds)
  | None => Err (ErrInvalid ("bad unix time " +:+ quote value))
  end.

(** containerName is the runtime's name, or the short ID without the socket *)
Definition containerName (c : HostContainer) : string := if str_eq (hc_Name c) "" then hc_ShortID c else hc_Name c.
Definition sensorName (t : Temperature) : string :=
  if str_eq (tmp_Label t) "" then tmp_Name t else tmp_Name t +:+ "/" +:+ tmp_Label t.

Definition floatPtr (v : Z) : option float64 := Some (of_int v).

Definition host_row (at_ : time) (hostID : Z) (data : MonitorData) : HostMetric :=
  let psi (f : Pressure → float64) := option_map f (md_Pressure data) in
  let full (available : Pressure → bool) (metric : Pressure → float64) := match md_Pressure data with
    | Some p => if available p then Some (metric p) else None | None => None end in
  let tcp (f : TCPStates → Z) := match md_TCPStates data with Some t => floatPtr (f t) | None => None end in
  let cpu := md_ProcUsage data in let mem := md_Memory data in let swap := md_Swap data in
  {| hm_time := at_; hm_host_id := hostID; hm_cpu_pct := Some (of_int (cpu_LoadAvg cpu));
     hm_mem_used_pct := Some (mem_PercentageUsed mem); hm_swap_used_pct := Some (swp_PercentageUsed swap);
     hm_other := [
       ("load1", Some (cpu_Load1 cpu)); ("load5", Some (cpu_Load5 cpu)); ("load15", Some (cpu_Load15 cpu));
       ("mem_used_mib", Some (of_int (mem_Used mem))); ("mem_available_mib", Some (of_int (mem_Available mem)));
       ("mem_total_mib", Some (of_int (mem_Total mem))); ("swap_used_mib", Some (of_int (swp_Used swap)));
       ("swap_total_mib", Some (of_int (swp_Total swap))); ("uptime_seconds", Some (sys_UpTimeSeconds (md_System data)));
       ("psi_cpu_some", psi (λ p, pm_Avg10 (rp_Some (psi_CPU p))));
       ("psi_memory_some", psi (λ p, pm_Avg10 (rp_Some (psi_Memory p))));
       ("psi_memory_full", full (λ p, rp_FullAvailable (psi_Memory p)) (λ p, pm_Avg10 (rp_Full (psi_Memory p))));
       ("psi_io_some", psi (λ p, pm_Avg10 (rp_Some (psi_IO p))));
       ("psi_io_full", full (λ p, rp_FullAvailable (psi_IO p)) (λ p, pm_Avg10 (rp_Full (psi_IO p))));
       ("tcp_established", tcp tcp_Established); ("tcp_time_wait", tcp tcp_TimeWait);
       ("tcp_close_wait", tcp tcp_CloseWait); ("tcp_listen", tcp tcp_Listen); ("tcp_total", tcp tcp_Total)] |}.

Definition queueHostMetrics (at_ : time) (hostID : Z) (data : MonitorData) (d : DB) : DB :=
  set_host_metrics (host_metrics d ++ [host_row at_ hostID data]) d.

Section Ingest.
Context {Hparse : ParseFloat} `{SnapshotJSON}.

(** "40%" is 40, anything unparseable is NULL *)
Definition parsePercent (value : string) : option float64 := parse_float (trim_suffix (trim_space value) "%").

Definition core_rows (at_ : time) (hostID : Z) (data : MonitorData) : list LabelRow :=
  imap (λ core pct, {| lr_time := at_; lr_host_id := hostID; lr_label := [itoa (Z.of_nat core)];
                       lr_values := [("pct", Some (of_int pct))] |}) (cpu_CoreAvg (md_ProcUsage data)).

Definition disk_row (at_ : time) (hostID : Z) (disk : Disk) : DiskMetric := {|
  dm_time := at_; dm_host_id := hostID; dm_device := dk_FileSystem disk; dm_mount := dk_MountedOn disk;
  dm_fstype := dk_Type disk; dm_size_bytes := Some (of_int (du_Size (dk_Usage disk)));
  dm_used_bytes := Some (of_int (du_Used (dk_Usage disk))); dm_used_pct := parsePercent (du_Usage (dk_Usage disk));
  dm_inodes_used_pct := parsePercent (iu_Usage (dk_Inodes disk)) |}.

Definition io_row (at_ : time) (hostID : Z) (io : DiskIO) : LabelRow := {|
  lr_time := at_; lr_host_id := hostID; lr_label := ["/dev/" +:+ dio_Device io];
  lr_values := [("read_bps", Some (dio_ReadBytesPerSec io)); ("write_bps", Some (dio_WriteBytesPerSec io));
                ("reads_ps", Some (dio_ReadsPerSec io)); ("writes_ps", Some (dio_WritesPerSec io));
                ("util_pct", Some (dio_UtilPercent io))] |}.

Definition net_row (at_ : time) (hostID : Z) (n : Network) : LabelRow :=
  let rate f := option_map f (nw_Rates n) in
  {| lr_time := at_; lr_host_id := hostID; lr_label := [nw_Interface n; nu_State (nw_Usage n)];
     lr_values := [("rx_bps", rate nr_RxBytesPerSec); ("tx_bps", rate nr_TxBytesPerSec);
                   ("rx_pps", rate nr_RxPacketsPerSec); ("tx_pps", rate nr_TxPacketsPerSec);
                   ("rx_bytes", Some (of_int (nu_RxBytes (nw_Usage n))));
                   ("tx_bytes", Some (of_int (nu_TxBytes (nw_Usage n))))] |}.

Definition temp_row (at_ : time) (hostID : Z) (t : Temperature) : LabelRow := {|
  lr_time := at_; lr_host_id := hostID; lr_label := [sensorName t]; lr_values := [("celsius", Some (tmp_Celsius t))] |}.

Definition service_row (at_ : time) (hostID : Z) (s : Service) : ServiceRow := {|
  ss_time := at_; ss_host_id := hostID; ss_name := svc_Name s; ss_running := svc_Running s |}.

Definition container_row (at_ : time) (hostID : Z) (c : HostContainer) : LabelRow :=
  let rates (f : ContainerRates → float64) := option_map f (hc_Rates c) in
  let traffic (f : ContainerRates → option float64) := mjoin (option_map f (hc_Rates c)) in
  {| lr_time := at_; lr_host_id := hostID; lr_label := [hc_ID c; containerName c];
     lr_values := [("cpu_cores", Some (hcc_CoresUsed (hc_CPU c))); ("cpu_pct", Some (hcc_PercentOfHost (hc_CPU c)));
                   ("mem_used", Some (hcm_Used (hc_Memory c))); ("mem_pct", Some (hcm_PercentageUsed (hc_Memory c)));
                   ("rx_bps", traffic hcr_RxBytesPerSec); ("tx_bps", traffic hcr_TxBytesPerSec);
                   ("read_bps", rates hcr_ReadBytesPerSec); ("write_bps", rates hcr_WriteBytesPerSec);
                   ("pids", Some (of_int (hcp_Current (hc_Pids c))))] |}.

(** INSERT INTO host_latest ... ON CONFLICT (host_id) DO UPDATE ... WHERE
    host_latest.time <= excluded.time *)
Definition save_latest (row : LatestRow) (d : DB) : DB :=
  let same r := lt_host_id r =? lt_host_id row in
  if exists_where same (host_latest d)
  then set_host_latest (update_where (λ r, same r && (lt_time r <=? lt_time row)) (λ _, row) (host_latest d)) d
  else set_host_latest (host_latest d ++ [row]) d.

(** UPDATE hosts SET last_seen = greatest(last_seen, now()) WHERE id = $1 *)
Definition seen_now (now : time) (hostID : Z) (d : DB) : DB :=
  update_hosts (λ h, h_id h =? hostID) (λ h, host_with_last_seen (greatest (h_last_seen h) now) h) d.

(** The batch of [SaveSnapshot], statement by statement *)
Definition snapshot_rows (now at_ : time) (hostID : Z) (data : MonitorData) (snapshot processes : string) (d : DB) : DB :=
  let d := queueHostMetrics at_ hostID data d in
  let d := set_cpu_core_metrics (cpu_core_metrics d ++ core_rows at_ hostID data) d in
  let d := set_disk_metrics (disk_metrics d ++ map (disk_row at_ hostID) (md_Disk data)) d in
  let d := set_disk_io_metrics (disk_io_metrics d ++ map (io_row at_ hostID) (md_DiskIO data)) d in
  let d := set_net_metrics (net_metrics d ++ map (net_row at_ hostID) (md_Networks data)) d in
  let d := set_temp_metrics (temp_metrics d ++ map (temp_row at_ hostID) (md_Temperatures data)) d in
  let d := set_service_status (service_status d ++ map (service_row at_ hostID) (md_Services data)) d in
  let d := set_container_metrics (container_metrics d ++ map (container_row at_ hostID) (md_Containers data)) d in
  let d := set_process_snapshots (process_snapshots d ++
             [{| lt_host_id := hostID; lt_time := at_; lt_json := processes |}]) d in
  let d := save_latest {| lt_host_id := hostID; lt_time := at_; lt_json := snapshot |} d in
  seen_now now hostID d.

Definition SaveSnapshot (now : time) (data : MonitorData) : DBM unit := λ d,
  match parseUnixTime (md_UnixTime data) with
  | Err e => (Err e, d)
  | Ok at_ =>
      match rbind (hostID d (md_ServerId data)) (λ id,
            rbind (marshal_data data) (λ snapshot,
            rbind (marshal_processes (md_Processes data)) (λ processes, Ok (id, snapshot, processes)))) with
      | Err e => (Err e, d)
      | Ok (id, snapshot, processes) => (Ok (), snapshot_rows now at_ id data snapshot processes d)
      end
  end.

Definition SaveCustomMetric (now : time) (m : CustomMetric) : DBM unit := λ d,
  match parse_float (trim_space (cmv_Value m)) with
  | None => (Err (ErrInvalid ("custom metric " +:+ cmv_Name m +:+ " value " +:+ quote (cmv_Value m) +:+ " is not a number")), d)
  | Some value =>
      match rbind (parseUnixTime (cmv_Time m)) (λ at_, rbind (hostID d (cmv_ServerId m)) (λ id, Ok (at_, id))) with
      | Err e => (Err e, d)
      | Ok (at_, id) =>
          (Ok (), seen_now now id (set_custom_metrics (custom_metrics d ++
             [{| cm_time := at_; cm_host_id := id; cm_name := cmv_Name m; cm_unit := cmv_Unit m; cm_value := Some value |}]) d))
      end
  end.
End Ingest.
