(* ===== verification/StoreSeries.v ===== *)
(** * Charts: src/internal/store/series.go, and the charts of endpoints.go
    and kube.go.

    The text of every query is built here as the code builds it; what
    TimescaleDB answers to a text and its arguments is a parameter
    ([SeriesRows]), in the order the query asks for. *)
From S2P Require Import Prelude GoStrings GoFloat GoTime Errors Monitor Alerts Kube Tasks Database StoreHosts.
Local Open Scope Z_scope.

Record Retention := { keep_Raw : duration; keep_Minute : duration; keep_Hour : duration }.
Definition DefaultRetention : Retention :=
  {| keep_Raw := 7 * 24 * hour; keep_Minute := 30 * 24 * hour; keep_Hour := 365 * 24 * hour |}.

Record seriesDef := { sd_table : string; sd_column : string; sd_label : string; sd_hasMax : bool; sd_rawOnly : bool }.
Definition def (table column label : string) (hasMax rawOnly : bool) : seriesDef :=
  {| sd_table := table; sd_column := column; sd_label := label; sd_hasMax := hasMax; sd_rawOnly := rawOnly |}.

Definition seriesDefs : list (string * seriesDef) :=
  [("cpu", def "host_metrics" "cpu_pct" "" true false);
   ("cpu_core", def "cpu_core_metrics" "pct" "core" false true);
   ("load1", def "host_metrics" "load1" "" false false);
   ("load5", def "host_metrics" "load5" "" false false);
   ("load15", def "host_metrics" "load15" "" false false);
   ("memory", def "host_metrics" "mem_used_pct" "" true false);
   ("memory_used", def "host_metrics" "mem_used_mib" "" false false);
   ("swap", def "host_metrics" "swap_used_pct" "" true false);
   ("swap_used", def "host_metrics" "swap_used_mib" "" false false);
   ("psi_cpu", def "host_metrics" "psi_cpu_some" "" false false);
   ("psi_memory", def "host_metrics" "psi_memory_some" "" false false);
   ("psi_memory_full", def "host_metrics" "psi_memory_full" "" false false);
   ("psi_io", def "host_metrics" "psi_io_some" "" false false);
   ("psi_io_full", def "host_metrics" "psi_io_full" "" false false);
   ("tcp_established", def "host_metrics" "tcp_established" "" false false);
   ("tcp_time_wait", def "host_metrics" "tcp_time_wait" "" false false);
   ("tcp_close_wait", def "host_metrics" "tcp_close_wait" "" false false);
   ("tcp_listen", def "host_metrics" "tcp_listen" "" false false);
   ("tcp_total", def "host_metrics" "tcp_total" "" false false);
   ("disk_used", def "disk_metrics" "used_pct" "mount" true false);
   ("disk_inodes", def "disk_metrics" "inodes_used_pct" "mount" false false);
   ("disk_read", def "disk_io_metrics" "read_bps" "device" true false);
   ("disk_write", def "disk_io_metrics" "write_bps" "device" true false);
   ("disk_util", def "disk_io_metrics" "util_pct" "device" true false);
   ("net_rx", def "net_metrics" "rx_bps" "iface" true false);
   ("net_tx", def "net_metrics" "tx_bps" "iface" true false);
   ("temperature", def "temp_metrics" "celsius" "sensor" true false);
   ("custom", def "custom_metrics" "value" "name" true false);
   ("container_cpu", def "container_metrics" "cpu_pct" "name" true false);
   ("container_memory", def "container_metrics" "mem_used" "name" true false);
   ("container_rx", def "container_metrics" "rx_bps" "name" true false);
   ("container_tx", def "container_metrics" "tx_bps" "name" true false);
   ("container_io_read", def "container_metrics" "read_bps" "name" false false);
   ("container_io_write", def "container_metrics" "write_bps" "name" false false)].

Definition find_named {A} (name : string) (l : list (string * A)) : option A :=
  option_map snd (List.find (λ p, str_eq p.1 name) l).

(** SeriesMetrics lists the metric names QuerySeries accepts *)
Definition SeriesMetrics : list string := stable_sort string_leb (map fst seriesDefs).

Record SeriesQuery := {
  sq_Host : string; sq_Metric : string; sq_Label : string; sq_From : time; sq_To : time; sq_MaxPoints : Z; sq_Max : bool }.
Record Point := { pt_Time : time; pt_Value : float64 }.
Record Series := { ser_Label : string; ser_Points : list Point }.
Record SeriesResult := { res_Source : string; res_Step : duration; res_Series : list Series }.

Definition defaultMaxPoints : Z := 1000.

(** [d.Truncate(m)] for a positive [m] *)
Definition truncate (d m : duration) : duration := d - Z.rem d m.

(** (to.Sub(from) / time.Duration(maxPoints)).Truncate(time.Second) + time.Second *)
Definition step_of (from to : time) (maxPoints : Z) : duration :=
  wrap64 (truncate (Z.quot (time_sub to from) maxPoints) second + second).

Definition roundUp (d unit : duration) : duration :=
  if d <=? unit then unit else wrap64 (Z.quot (wrap64 (wrap64 (d + unit) - 1)) unit * unit).

Definition pickSource (sd : seriesDef) (from to now : time) (maxPoints : Z) (retention : Retention) : string * duration :=
  let step := step_of from to maxPoints in
  if sd_rawOnly sd || ((step <? minute) && negb (before from (time_add now (- keep_Raw retention)))) then ("raw", step)
  else if (step <? hour) && negb (before from (time_add now (- keep_Minute retention))) then ("1m", roundUp step minute)
  else ("1h", roundUp step hour).

(** ** The text of a query and its arguments *)

Inductive Arg := ArgText (s : string) | ArgInt (z : Z) | ArgTime (t : time).

(** fmt.Sprintf("%d seconds", int64(step.Seconds())) *)
Definition interval_text (step : duration) : string := itoa (to_int (dur_seconds step)) +:+ " seconds".

Definition nl : string := str1 10.
Definition tab : string := str1 9.

Definition seriesSQL (sd : seriesDef) (source : string) (step : duration) (hostID : Z) (q : SeriesQuery) : string * list Arg :=
  let raw := str_eq source "raw" in
  let table := if raw then sd_table sd else sd_table sd +:+ "_" +:+ source in
  let timeColumn := if raw then "time" else "bucket" in
  let value := if sq_Max q then
                 (if raw then "max(" +:+ sd_column sd +:+ ")" else "max(" +:+ sd_column sd +:+ "_max)")
               else "avg(" +:+ sd_column sd +:+ ")" in
  let label := if str_eq (sd_label sd) "" then "''" else sd_label sd +:+ "::text" in
  let filtered := negb (str_eq (sq_Label q) "") && negb (str_eq (sd_label sd) "") in
  let filter := if filtered then "AND " +:+ sd_label sd +:+ "::text = $5" else "" in
  let line t := nl +:+ tab +:+ tab +:+ t in
  (line ("SELECT time_bucket($1::interval, " +:+ timeColumn +:+ ") AS t, " +:+ label +:+ " AS label, " +:+ value +:+ " AS v")
   +:+ line ("FROM " +:+ table)
   +:+ line ("WHERE host_id = $2 AND " +:+ timeColumn +:+ " >= $3 AND " +:+ timeColumn +:+ " < $4 " +:+ filter)
   +:+ line "GROUP BY t, label" +:+ line "ORDER BY label, t",
   [ArgText (interval_text step); ArgInt hostID; ArgTime (sq_From q); ArgTime (sq_To q)]
   ++ (if filtered then [ArgText (sq_Label q)] else [])).

(** ** Reading the rows *)

(** The rows of a chart: a time, a label and a value that may be NULL *)
Class SeriesRows := {
  series_rows : DB → string → list Arg → list (time * string * option float64);
  chart_rows : DB → string → list Arg → list (time * list float64) }.

(** Rows are ordered by label, so a new label starts a new series. *)
Definition add_point (l : list Series) (row : time * string * option float64) : list Series :=
  let '(at_, label, value) := row in
  match value with
  | None => l
  | Some v =>
      let p := {| pt_Time := at_; pt_Value := v |} in
      match last l with
      | Some s =>
          if str_eq (ser_Label s) label
          then take (pred (length l)) l ++ [{| ser_Label := label; ser_Points := ser_Points s ++ [p] |}]
          else l ++ [{| ser_Label := label; ser_Points := [p] |}]
      | None => [{| ser_Label := label; ser_Points := [p] |}]
      end
  end.

Definition in_range (from to : time) : result error unit :=
  if after to from then Ok () else Err (ErrInvalid "from must be before to").
Definition points_or_default (maxPoints : Z) : Z := if maxPoints <=? 0 then defaultMaxPoints else maxPoints.

Section Query.
Context `{SeriesRows}.

Definition QuerySeries (retention : Retention) (now : time) (d : DB) (q : SeriesQuery) : result error SeriesResult :=
  match find_named (sq_Metric q) seriesDefs with
  | None => Err (ErrInvalid ("unknown metric " +:+ quote (sq_Metric q)))
  | Some sd =>
      rbind (in_range (sq_From q) (sq_To q)) (λ _,
      if sq_Max q && negb (sd_hasMax sd) then Err (ErrInvalid ("metric " +:+ quote (sq_Metric q) +:+ " has no max"))
      else rbind (hostID d (sq_Host q)) (λ id,
        let '(source, step) := pickSource sd (sq_From q) (sq_To q) now (points_or_default (sq_MaxPoints q)) retention in
        let '(sql, args) := seriesSQL sd source step id q in
        Ok {| res_Source := source; res_Step := step; res_Series := fold_left add_point (series_rows d sql args) [] |}))
  end.

Definition endpointSeriesColumns : list (string * string) :=
  [("latency", "avg(latency_ms)"); ("availability", "avg(ok::int) * 100")].

Definition endpoint_sql (column : string) : string :=
  let line t := nl +:+ tab +:+ tab +:+ t in
  line ("SELECT time_bucket($1::interval, time) AS t, " +:+ column) +:+ line "FROM endpoint_checks"
  +:+ line "WHERE name = $2 AND time >= $3 AND time < $4" +:+ line "GROUP BY t ORDER BY t".

Definition point_of (row : time * string * option float64) : option Point :=
  option_map (λ v, {| pt_Time := row.1.1; pt_Value := v |}) row.2.

Definition EndpointSeries (d : DB) (name metric : string) (from to : time) (maxPoints : Z) : result error SeriesResult :=
  match find_named metric endpointSeriesColumns with
  | None => Err (ErrInvalid ("unknown endpoint metric " +:+ quote metric))
  | Some column =>
      rbind (in_range from to) (λ _,
      let step := step_of from to (points_or_default maxPoints) in
      let points := omap point_of (series_rows d (endpoint_sql column)
        [ArgText (interval_text step); ArgText name; ArgTime from; ArgTime to]) in
      Ok {| res_Source := "raw"; res_Step := step;
            res_Series := match points with [] => [] | _ => [{| ser_Label := name; ser_Points := points |}] end |})
  end.

Definition clusterSeries : list (string * list (string * string)) :=
  [("nodes", [("ready", "avg(nodes_ready)::float8"); ("not ready", "avg(nodes - nodes_ready)::float8")]);
   ("pods", [("running", "avg(pods_running)::float8"); ("pending", "avg(pods_pending)::float8");
             ("not ready", "avg(pods_not_ready)::float8"); ("failed", "avg(pods_failed)::float8")]);
   ("workloads", [("ready", "avg(workloads_ready)::float8"); ("not ready", "avg(workloads - workloads_ready)::float8")]);
   ("restarts", [("restarts", "sum(restarts)::float8")])].

Definition cluster_sql (columns : list string) : string :=
  let line t := nl +:+ tab +:+ tab +:+ t in
  line ("SELECT time_bucket($1::interval, m.time) AS t, " +:+ join ", " columns)
  +:+ line "FROM kube_metrics m JOIN kube_clusters c ON c.id = m.cluster_id"
  +:+ line "WHERE c.name = $2 AND m.time >= $3 AND m.time < $4" +:+ line "GROUP BY t ORDER BY t".

(** The value of a line in a row *)
Definition line_points (rows : list (time * list float64)) (i : nat) : list Point :=
  omap (λ row, option_map (λ v, {| pt_Time := row.1; pt_Value := v |}) (row.2 !! i)) rows.

Definition ClusterSeries (d : DB) (cluster metric : string) (from to : time) (maxPoints : Z) : result error SeriesResult :=
  match find_named metric clusterSeries with
  | None => Err (ErrInvalid ("unknown cluster metric " +:+ quote metric))
  | Some lines =>
      rbind (in_range from to) (λ _,
      let step := step_of from to (points_or_default maxPoints) in
      let rows := chart_rows d (cluster_sql (map snd lines))
        [ArgText (interval_text step); ArgText cluster; ArgTime from; ArgTime to] in
      Ok {| res_Source := "raw"; res_Step := step;
            res_Series := imap (λ i line, {| ser_Label := line.1; ser_Points := line_points rows i |}) lines |})
  end.
End Query.
