(* ===== verification/StoreSeriesProps.v ===== *)
(** * How many points a chart has. *)
From S2P Require Import Prelude GoStrings GoFloat GoTime Errors Monitor Alerts Kube Tasks Database StoreHosts StoreSeries.
Local Open Scope Z_scope.

(** [time_bucket(step, t)] groups times by the multiple of [step] since an
    origin that they follow. *)
Definition bucket (origin : time) (step : duration) (t : time) : Z := (t - origin) / step.
Definition buckets (origin : time) (step : duration) (l : list time) : gset Z := list_to_set (map (bucket origin step) l).

(** The ranges for which [int64] nanoseconds suffice: about 146 years *)
Definition fair_range (from to : time) : Prop := from < to ∧ to - from ≤ 2 ^ 62.

Lemma step_of_spec from to n : fair_range from to → 1 ≤ n →
  let step := step_of from to n in
  second ≤ step ≤ 2 ^ 62 + second ∧ step mod second = 0 ∧ to - from < n * step.
Proof.
  unfold time, duration in *. intros [Hlt Hle] Hn. unfold step_of, truncate, time_sub. cbv zeta.
  unfold int64_max, int64_min, second, time, duration in *.
  rewrite Z.min_r, Z.max_r by lia. rewrite Z.quot_div_nonneg, Z.rem_mod_nonneg by (try apply Z.div_pos; lia).
  set (q := (to - from) / n). assert (Hq : 0 ≤ q ≤ to - from) by (split; [apply Z.div_pos; lia|apply Z.div_le_upper_bound; nia]).
  assert (Hn' : to - from < n * (q + 1)) by (subst q; pose proof (Z.mul_succ_div_gt (to - from) n); lia).
  clearbody q. assert (Hr : 0 ≤ q mod 1000000000 < 1000000000) by (apply Z.mod_pos_bound; lia).
  assert (Hmq : q mod 1000000000 ≤ q) by (apply Z.mod_le; lia).
  rewrite wrap64_id by (unfold in_int64, int64_min, int64_max; lia). split; [lia|]. split; [|nia].
  rewrite (Z.div_mod q 1000000000) at 1 by lia.
  replace (_ + _ - _ + _) with ((q / 1000000000 + 1) * 1000000000) by lia. by apply Z.mod_mul.
Qed.

Lemma roundUp_spec d unit : 0 < d → 0 < unit → d + unit ≤ int64_max →
  d ≤ roundUp d unit ∧ roundUp d unit mod unit = 0 ∧ 0 < roundUp d unit.
Proof.
  intros Hd Hu Hb. unfold roundUp. destruct (Z.leb_spec d unit); [rewrite Z.mod_same; lia|].
  unfold int64_max in Hb.
  rewrite (wrap64_id (d + unit)), (wrap64_id (d + unit - 1)) by (unfold in_int64, int64_min, int64_max; lia).
  rewrite Z.quot_div_nonneg by lia. set (k := (d + unit - 1) / unit).
  assert (Hk : d ≤ k * unit ≤ d + unit - 1).
  { pose proof (Z.div_mod (d + unit - 1) unit ltac:(lia)). pose proof (Z.mod_pos_bound (d + unit - 1) unit Hu). fold k in H0. nia. }
  rewrite wrap64_id by (unfold in_int64, int64_min, int64_max; lia). rewrite Z.mod_mul by lia. lia.
Qed.

Lemma buckets_bound origin step from to n (l : list time) : 0 < step → 1 ≤ n → to - from < n * step →
  Forall (λ t, from ≤ t < to) l → Z.of_nat (size (buckets origin step l)) ≤ n + 1.
Proof.
  intros Hs Hn Hr Hl. set (a := bucket origin step from).
  assert (Hin : buckets origin step l ⊆ list_to_set (seqZ a (n + 1))).
  { intros x Hx. unfold buckets in Hx. rewrite elem_of_list_to_set, list_elem_of_fmap in *.
    destruct Hx as (t & -> & Ht). rewrite Forall_forall in Hl. specialize (Hl t Ht). apply elem_of_seqZ. unfold a, bucket. split.
    - apply Z.div_le_mono; lia.
    - assert ((t - origin) / step ≤ (from - origin + n * step) / step) by (apply Z.div_le_mono; lia).
      rewrite Z.div_add in H by lia. lia. }
  apply subseteq_size in Hin. rewrite size_list_to_set in Hin by apply NoDup_seqZ. rewrite length_seqZ in Hin. lia.
Qed.

(** C35: whatever a chart asks for (a range of up to 146 years and any number
    of points), [pickSource] gives a step of whole seconds, whole minutes or
    whole hours with at most one bucket more than points asked for, and never
    reads a source past what it keeps, except the hourly one and metrics that
    have no rollups. *)
Theorem pickSource_bounds (sd : seriesDef) (from to now origin : time) (maxPoints : Z) (retention : Retention) (l : list time) :
  fair_range from to → Forall (λ t, from ≤ t < to) l →
  let '(source, step) := pickSource sd from to now (points_or_default maxPoints) retention in
  0 < step ∧ Z.of_nat (size (buckets origin step l)) ≤ points_or_default maxPoints + 1 ∧
  ((source = "raw" ∧ step mod second = 0 ∧ (sd_rawOnly sd = true ∨ now - keep_Raw retention ≤ from))
   ∨ (source = "1m" ∧ step mod minute = 0 ∧ sd_rawOnly sd = false ∧ now - keep_Minute retention ≤ from)
   ∨ (source = "1h" ∧ step mod hour = 0 ∧ sd_rawOnly sd = false)).
Proof.
  intros Hr Hl. assert (Hn : 1 ≤ points_or_default maxPoints).
  { unfold points_or_default, defaultMaxPoints. destruct (Z.leb_spec maxPoints 0); lia. }
  set (n := points_or_default maxPoints) in *. destruct (step_of_spec from to n Hr Hn) as ([Hs Hmax] & Hsec & Hcover).
  unfold pickSource, before, time_add. set (step := step_of from to n) in *.
  assert (Hsmall : hour + step ≤ int64_max ∧ 0 < step) by (unfold hour, minute, second, int64_max in *; lia).
  assert (Hb : ∀ s, step ≤ s → Z.of_nat (size (buckets origin s l)) ≤ n + 1).
  { intros s Hle. apply (buckets_bound origin s from to); [lia|lia| |done]. nia. }
  destruct (sd_rawOnly sd || _) eqn:E1.
  - split; [lia|]. split; [by apply Hb|]. left. split; [done|]. split; [done|].
    apply orb_true_iff in E1 as [E1|E1]; [by left|right]. apply andb_true_iff in E1 as [_ E1].
    rewrite negb_true_iff, Z.ltb_ge in E1. lia.
  - apply orb_false_iff in E1 as [Eraw _].
    destruct ((step <? hour) && _) eqn:E2.
    + destruct (roundUp_spec step minute) as (Hle & Hmod & Hpos); [lia|unfold minute, second; lia|unfold hour in *; unfold minute, second in *; lia|].
      split; [done|]. split; [by apply Hb|]. right; left. split_and!; try done.
      apply andb_true_iff in E2 as [_ E2]. rewrite negb_true_iff, Z.ltb_ge in E2. lia.
    + destruct (roundUp_spec step hour) as (Hle & Hmod & Hpos); [lia|unfold hour, minute, second; lia|lia|].
      split; [done|]. split; [by apply Hb|]. right; right. done.
Qed.

(** A range that starts inside a bucket has one bucket more than points
    asked for: "at most MaxPoints" is off by one. *)
Example one_more_point :
  let '(source, step) := pickSource (def "host_metrics" "cpu_pct" "" true false) (2 * second) (7 * second) (10 * second) 2 DefaultRetention in
  source = "raw" ∧ step = 3 * second ∧ size (buckets 0 step [2 * second; 3 * second; 6 * second]) = 3%nat.
Proof. vm_compute. done. Qed.

Lemma pickSource_bounds_witness : fair_range (2 * second) (7 * second) ∧
  Z.of_nat (size (buckets 0 (3 * second) [2 * second; 3 * second; 6 * second])) ≤ 3.
Proof.
  assert (Hr : fair_range (2 * second) (7 * second)) by (unfold fair_range, second; lia). split; [exact Hr|].
  pose proof (pickSource_bounds (def "host_metrics" "cpu_pct" "" true false) (2 * second) (7 * second) (10 * second) 0 2
    DefaultRetention [2 * second; 3 * second; 6 * second] Hr) as Hb.
  change (pickSource (def "host_metrics" "cpu_pct" "" true false) (2 * second) (7 * second) (10 * second) (points_or_default 2)
    DefaultRetention) with ("raw", 3 * second) in Hb.
  apply Hb. repeat constructor; unfold second; lia.
Defined.
