(* ===== verification/StoreTasks.v ===== *)
(** * Task runs: src/internal/store/tasks.go.

    A run is asked for, picked up by the host's agent, reported on and ended.
    Postgres counts the characters of a text; here they are its runes. *)
From S2P Require Import Prelude GoStrings GoFloat GoTime Errors Monitor Alerts Json Kube Tasks Database StoreHosts.
Local Open Scope Z_scope.

Definition TaskQueued : string := "queued".
Definition TaskRunning : string := "running".
Definition TaskSucceeded : string := "succeeded".
Definition TaskFailed : string := "failed".
Definition TaskTimedOut : string := "timed_out".
Definition TaskExpired : string := "expired".
Definition TaskLost : string := "lost".

Definition taskPickupWindow : duration := 2 * minute.
Definition taskLostAfter : duration := minute.
Definition TaskOutputLimit : Z := 262144.
Definition maxTaskError : Z := 500.
Definition defaultTaskRuns : Z := 50.
Definition maxTaskRuns : Z := 200.

Record TaskRun := {
  run_ID : Z; run_Host : string; run_Task : string; run_Command : string; run_Status : string;
  run_RequestedBy : string; run_RequestedAt : time; run_StartedAt : time; run_FinishedAt : time;
  run_ExitCode : Z; run_Error : string; run_Output : string; run_Truncated : bool }.

(** ** The task list of a host *)

(** The update does nothing when the host is unknown or the list is the same. *)
Definition SaveHostTasks (host : string) (list : list Task) : DBM unit := λ d,
  (Ok (), update_hosts (host_named host) (λ h, {|
     h_id := h_id h; h_name := h_name h; h_timezone := h_timezone h; h_last_seen := h_last_seen h;
     h_agent_version := h_agent_version h; h_agent_arch := h_agent_arch h; h_update_version := h_update_version h;
     h_update_url := h_update_url h; h_update_requested_at := h_update_requested_at h;
     h_update_error := h_update_error h; h_tasks := list |}) d).

Definition HostTasks (d : DB) (host : string) : result error (list Task) :=
  match host_by_name d host with None => Err ErrNotFound | Some h => Ok (h_tasks h) end.

(** ** Asking for a run *)

Definition is_active (r : RunRow) : bool := str_eq (tr_status r) TaskQueued || str_eq (tr_status r) TaskRunning.

Definition new_run (now : time) (id host_id : Z) (t : Task) (by_ : string) : RunRow := {|
  tr_id := id; tr_host_id := host_id; tr_task := task_Name t; tr_command := task_Command t;
  tr_timeout_seconds := task_TimeoutSeconds t; tr_status := TaskQueued; tr_requested_by := by_;
  tr_requested_at := now; tr_started_at := None; tr_finished_at := None; tr_exit_code := None; tr_error := "";
  tr_output := ""; tr_truncated := false |}.

Definition requested (host : string) (r : RunRow) : TaskRun := {|
  run_ID := tr_id r; run_Host := host; run_Task := tr_task r; run_Command := tr_command r; run_Status := TaskQueued;
  run_RequestedBy := tr_requested_by r; run_RequestedAt := tr_requested_at r; run_StartedAt := zero_time;
  run_FinishedAt := zero_time; run_ExitCode := 0; run_Error := ""; run_Output := ""; run_Truncated := false |}.

(** INSERT ... SELECT: a row per task of the host with the name, where the
    index task_runs_one_active allows one active run per host. *)
Definition RequestTaskRun (now : time) (host task by_ : string) : DBM TaskRun := λ d,
  match host_by_name d host with
  | None => (Err ErrNotFound, d)
  | Some h =>
      match List.filter (λ t, str_eq (task_Name t) task) (h_tasks h) with
      | [] => (Err ErrNotFound, d)
      | t :: more =>
          let '(id, d) := next_id d in
          if exists_where (λ r, (tr_host_id r =? h_id h) && is_active r) (task_runs d)
             || negb (bool_decide (more = []))
          then (Err ErrTaskBusy, d)
          else let row := new_run now id (h_id h) t by_ in
               (Ok (requested host row), set_task_runs (task_runs d ++ [row]) d)
      end
  end.

(** ** Changing a run *)

Definition run_set (status : string) (started finished : option time) (exit_code : option Z) (err output : string)
    (truncated : bool) (r : RunRow) : RunRow := {|
  tr_id := tr_id r; tr_host_id := tr_host_id r; tr_task := tr_task r; tr_command := tr_command r;
  tr_timeout_seconds := tr_timeout_seconds r; tr_status := status; tr_requested_by := tr_requested_by r;
  tr_requested_at := tr_requested_at r; tr_started_at := started; tr_finished_at := finished;
  tr_exit_code := exit_code; tr_error := err; tr_output := output; tr_truncated := truncated |}.

(** status, finished_at and error, the rest as it is *)
Definition end_run (status : string) (now : time) (err : string) (r : RunRow) : RunRow :=
  run_set status (tr_started_at r) (Some now) (tr_exit_code r) err (tr_output r) (tr_truncated r) r.
Definition start_run (now : time) (r : RunRow) : RunRow :=
  run_set TaskRunning (Some now) (tr_finished_at r) (tr_exit_code r) (tr_error r) (tr_output r) (tr_truncated r) r.

(** WHERE host_id = (SELECT id FROM hosts WHERE name = $1) *)
Definition of_host_named (d : DB) (host : string) (r : RunRow) : bool :=
  match host_by_name d host with Some h => tr_host_id r =? h_id h | None => false end.

Definition update_runs (p : RunRow → bool) (f : RunRow → RunRow) (d : DB) : DB :=
  set_task_runs (update_where p f (task_runs d)) d.

Definition is_lost_claim (d : DB) (host : string) (r : RunRow) : bool :=
  str_eq (tr_status r) TaskRunning && of_host_named d host r.
Definition is_claimable (now : time) (d : DB) (host : string) (r : RunRow) : bool :=
  str_eq (tr_status r) TaskQueued && of_host_named d host r
  && (time_add now (- taskPickupWindow) <? tr_requested_at r).

Definition claimed (host : string) (r : RunRow) : TaskRun := {|
  run_ID := tr_id r; run_Host := host; run_Task := tr_task r; run_Command := tr_command r; run_Status := TaskRunning;
  run_RequestedBy := ""; run_RequestedAt := zero_time; run_StartedAt := zero_time; run_FinishedAt := zero_time;
  run_ExitCode := 0; run_Error := ""; run_Output := ""; run_Truncated := false |}.

(** One transaction; Scan reads the first row the second UPDATE returns. *)
Definition ClaimTaskRun (now : time) (host : string) : DBM (option TaskRun) := λ d,
  let d1 := update_runs (is_lost_claim d host) (end_run TaskLost now "the agent stopped before the task finished") d in
  let run := List.find (is_claimable now d1 host) (task_runs d1) in
  (Ok (option_map (claimed host) run), update_runs (is_claimable now d1 host) (start_run now) d1).

(** SQL's [left(s, n)] and [length(s)] *)
Definition left (s : string) (n : Z) : string := concat_runes (take (Z.to_nat n) (runes s)).
Definition add_output (old text : string) : string := old +:+ left text (Z.max (TaskOutputLimit - rune_count old) 0).
Definition add_truncated (r : RunRow) (text : string) (truncated : bool) : bool :=
  tr_truncated r || truncated || (TaskOutputLimit <? rune_count (tr_output r) + rune_count text).

(** A text column holds valid UTF-8 only. *)
Definition bad_encoding : error := ErrOther "invalid byte sequence for encoding UTF8".

Definition is_going (d : DB) (host : string) (id : Z) (r : RunRow) : bool :=
  (tr_id r =? id) && str_eq (tr_status r) TaskRunning && of_host_named d host r.

Definition AppendTaskOutput (host : string) (id : Z) (output : string) (truncated : bool) : DBM unit := λ d,
  let text := cleanText output in
  if negb (utf8_valid text) then (Err bad_encoding, d)
  else if rows_affected (is_going d host id) (task_runs d) =? 0 then (Err ErrNotFound, d)
  else (Ok (), update_runs (is_going d host id) (λ r,
      run_set (tr_status r) (tr_started_at r) (tr_finished_at r) (tr_exit_code r) (tr_error r)
        (add_output (tr_output r) text) (add_truncated r text truncated) r) d).

(** [[]rune(cleanText(text))] cut at [maxTaskError] *)
Definition task_error (text : string) : string :=
  of_runes (take (Z.to_nat maxTaskError) (map fst (runes (cleanText text)))).

Record TaskResult := {
  res_Output : string; res_Truncated : bool; res_ExitCode : Z; res_TimedOut : bool; res_Error : string }.

Definition TaskResult_status (r : TaskResult) : string :=
  if res_TimedOut r then TaskTimedOut
  else if negb (str_eq (res_Error r) "") || negb (res_ExitCode r =? 0) then TaskFailed
  else TaskSucceeded.

Definition FinishTaskRun (now : time) (host : string) (id : Z) (result : TaskResult) : DBM unit := λ d,
  let message := task_error (res_Error result) in
  let text := cleanText (res_Output result) in
  if negb (utf8_valid text) then (Err bad_encoding, d)
  else if rows_affected (is_going d host id) (task_runs d) =? 0 then (Err ErrNotFound, d)
  else (Ok (), update_runs (is_going d host id) (λ r,
      run_set (TaskResult_status result) (tr_started_at r) (Some now) (Some (res_ExitCode result)) message
        (add_output (tr_output r) text) (add_truncated r text (res_Truncated result)) r) d).

(** ** Reading, sweeping and purging *)

(** The row joined with its host; a run without its host is not found. *)
Definition scanTaskRun (d : DB) (r : RunRow) (output : string) : option TaskRun :=
  h ← host_by_id d (tr_host_id r);
  Some {| run_ID := tr_id r; run_Host := h_name h; run_Task := tr_task r; run_Command := tr_command r;
    run_Status := tr_status r; run_RequestedBy := tr_requested_by r; run_RequestedAt := tr_requested_at r;
    run_StartedAt := opt_time (tr_started_at r); run_FinishedAt := opt_time (tr_finished_at r);
    run_ExitCode := default 0 (tr_exit_code r); run_Error := tr_error r; run_Output := output;
    run_Truncated := tr_truncated r |}.

Definition TaskRuns (d : DB) (host : string) (limit : Z) : result error (list TaskRun) :=
  id ← hostID d host;
  let limit := if limit <=? 0 then defaultTaskRuns else limit in
  Ok (take_at_most (Z.min limit maxTaskRuns) (omap (λ r, scanTaskRun d r "")
    (stable_sort (λ a b, tr_id b <=? tr_id a) (select_where (λ r, tr_host_id r =? id) (task_runs d))))).

Definition Store_TaskRun (d : DB) (id : Z) : result error TaskRun :=
  match r ← List.find (λ r, tr_id r =? id) (task_runs d); scanTaskRun d r (tr_output r) with
  | Some run => Ok run
  | None => Err ErrNotFound
  end.

Definition is_expired (now : time) (r : RunRow) : bool :=
  str_eq (tr_status r) TaskQueued && (tr_requested_at r <=? time_add now (- taskPickupWindow)).
Definition is_silent (now : time) (r : RunRow) : bool :=
  str_eq (tr_status r) TaskRunning &&
  match tr_started_at r with
  | Some t => time_add t ((tr_timeout_seconds r + taskLostAfter / second) * second) <? now
  | None => false
  end.

Definition SweepTaskRuns (now : time) : DBM Z := λ d,
  let d1 := update_runs (is_expired now) (end_run TaskExpired now "the agent did not pick the task up") d in
  let d2 := update_runs (is_silent now) (end_run TaskLost now "the agent stopped reporting") d1 in
  (Ok (rows_affected (is_expired now) (task_runs d) + rows_affected (is_silent now) (task_runs d1)), d2).

Definition PurgeTaskRuns (now : time) (keep : duration) : DBM Z := λ d,
  let old := λ r, (tr_requested_at r <? time_add now (- keep)) && negb (is_active r) in
  (Ok (rows_affected old (task_runs d)), set_task_runs (delete_where old (task_runs d)) d).
