(* ===== verification/StoreTasksProps.v ===== *)
(** * The life of a task run.

    Every operation on runs, in any order, moves each run along one machine:
    queued, running, and an end that is final. *)
From S2P Require Import Prelude GoStrings GoFloat GoTime Errors Monitor Alerts Json Kube Tasks Database StoreHosts StoreTasks.
Local Open Scope Z_scope.

(** ** The machine of one run *)

Definition ends : list string := [TaskSucceeded; TaskFailed; TaskTimedOut; TaskExpired; TaskLost].

(** What never changes of a run *)
Definition run_identity (r : RunRow) : Z * Z * string * string * Z * string * time :=
  (tr_id r, tr_host_id r, tr_task r, tr_command r, tr_timeout_seconds r, tr_requested_by r, tr_requested_at r).

Inductive run_move (r r' : RunRow) : Prop :=
  | move_start now : run_identity r' = run_identity r → tr_status r = TaskQueued → tr_status r' = TaskRunning →
      now - taskPickupWindow < tr_requested_at r → tr_started_at r' = Some now → run_move r r'
  | move_expire now : run_identity r' = run_identity r → tr_status r = TaskQueued → tr_status r' = TaskExpired →
      tr_requested_at r ≤ now - taskPickupWindow → run_move r r'
  | move_output : run_identity r' = run_identity r → tr_status r = TaskRunning → tr_status r' = TaskRunning →
      tr_started_at r' = tr_started_at r → (∃ more, tr_output r' = tr_output r +:+ more) →
      (tr_truncated r = true → tr_truncated r' = true) → run_move r r'
  | move_end : run_identity r' = run_identity r → tr_status r = TaskRunning →
      tr_status r' ∈ [TaskSucceeded; TaskFailed; TaskTimedOut; TaskLost] →
      (∃ more, tr_output r' = tr_output r +:+ more) → run_move r r'.

(** A well-formed row: its times and its texts fit its status. *)
Record run_ok (r : RunRow) : Prop := {
  ok_queued : tr_status r = TaskQueued → tr_started_at r = None ∧ tr_finished_at r = None ∧ tr_output r = "";
  ok_running : tr_status r = TaskRunning → tr_started_at r ≠ None ∧ tr_finished_at r = None;
  ok_status : is_active r = true ∨ (tr_status r ∈ ends ∧ tr_finished_at r ≠ None);
  ok_output : utf8_valid (tr_output r) = true ∧ rune_count (tr_output r) ≤ TaskOutputLimit;
  ok_error : rune_count (tr_error r) ≤ maxTaskError }.

Record runs_wf (d : DB) : Prop := {
  rn_ids : NoDup (map tr_id (task_runs d));
  rn_fresh : ∀ r, r ∈ task_runs d → tr_id r < seq d;
  rn_rows : ∀ r, r ∈ task_runs d → run_ok r;
  rn_one : ∀ r s, r ∈ task_runs d → s ∈ task_runs d → is_active r = true → is_active s = true →
    tr_host_id r = tr_host_id s → r = s }.

(** One operation of the store that touches runs, and the ones on hosts *)
Inductive task_step (d d' : DB) : Prop :=
  | ts_request now host task by_ : d' = snd (RequestTaskRun now host task by_ d) → task_step d d'
  | ts_claim now host : d' = snd (ClaimTaskRun now host d) → task_step d d'
  | ts_append host id output truncated : d' = snd (AppendTaskOutput host id output truncated d) → task_step d d'
  | ts_finish now host id result : d' = snd (FinishTaskRun now host id result d) → task_step d d'
  | ts_sweep now : d' = snd (SweepTaskRuns now d) → task_step d d'
  | ts_purge now keep : d' = snd (PurgeTaskRuns now keep d) → task_step d d'
  | ts_tasks host list : d' = snd (SaveHostTasks host list d) → task_step d d'
  | ts_add name timezone : d' = snd (AddHost name timezone d) → task_step d d'
  | ts_remove name : d' = snd (RemoveHost name d) → task_step d d'.

(** Rows of [d'] come from rows of [d] by moves, or are new and queued. *)
Definition evolves (d d' : DB) : Prop :=
  seq d ≤ seq d' ∧ ∀ r', r' ∈ task_runs d' → ∃ r, rtc run_move r r' ∧
    (r ∈ task_runs d ∨ (seq d ≤ tr_id r ∧ tr_status r = TaskQueued)).

Lemma run_move_id r r' : run_move r r' → run_identity r' = run_identity r.
Proof. by destruct 1. Qed.

Lemma run_moves_id r r' : rtc run_move r r' → tr_id r' = tr_id r.
Proof.
  induction 1 as [|r s r' Hm _ IH]; [done|]. rewrite IH. apply run_move_id in Hm. unfold run_identity in Hm. congruence.
Qed.

#[global] Instance evolves_preorder : PreOrder evolves.
Proof.
  split.
  - intros d. split; [lia|]. intros r Hr. exists r. split; [done|by left].
  - intros d1 d2 d3 [Hs1 H1] [Hs2 H2]. split; [lia|]. intros r3 Hr3.
    destruct (H2 r3 Hr3) as (r2 & Hm2 & [Hr2|[Hf2 Hq2]]).
    + destruct (H1 r2 Hr2) as (r1 & Hm1 & Hr1). exists r1. split; [by etrans|done].
    + exists r2. split; [done|]. right. split; [lia|done].
Qed.

(** ** Changing rows *)

Lemma identity_parts r r' : run_identity r' = run_identity r →
  tr_id r' = tr_id r ∧ tr_host_id r' = tr_host_id r ∧ tr_requested_at r' = tr_requested_at r.
Proof. unfold run_identity. intros E. by simplify_eq. Qed.

Lemma is_active_spec r : is_active r = true ↔ tr_status r = TaskQueued ∨ tr_status r = TaskRunning.
Proof. unfold is_active. by rewrite orb_true_iff, !str_eq_spec. Qed.

Lemma run_move_active r r' : run_move r r' → is_active r' = true → is_active r = true.
Proof. rewrite !is_active_spec. destruct 1; tauto. Qed.

(** An UPDATE whose changes are moves keeps the tables well formed. *)
Lemma update_runs_wf p f d : runs_wf d → (∀ r, r ∈ task_runs d → p r = true → run_move r (f r) ∧ run_ok (f r)) →
  runs_wf (update_runs p f d) ∧ evolves d (update_runs p f d).
Proof.
  intros [Hi Hf Hr Ho] Hm.
  assert (Hin : ∀ x, x ∈ task_runs (update_runs p f d) → ∃ r, r ∈ task_runs d ∧ rtc run_move r x ∧ run_ok x
    ∧ (x = f r ∧ p r = true ∨ x = r)).
  { intros x (r & Hrin & ->)%elem_of_update_where. exists r. destruct (p r) eqn:E.
    - destruct (Hm r Hrin E). split_and!; [done|by apply rtc_once|done|by left].
    - split_and!; [done|done|by apply Hr|by right]. }
  assert (Hmove : ∀ x r, rtc run_move r x → tr_id x = tr_id r ∧ tr_host_id x = tr_host_id r ∧ (is_active x = true → is_active r = true)).
  { intros x r. induction 1 as [|a b c Hab _ IH]; [done|]. destruct IH as (-> & -> & Hac).
    pose proof (identity_parts a b (run_move_id _ _ Hab)) as (-> & -> & _). split_and!; [done..|].
    intros Hc. apply (run_move_active a b); auto. }
  split; [constructor|split].
  - unfold update_runs. cbn. replace (map tr_id (update_where p f (task_runs d))) with (map tr_id (task_runs d)); [done|].
    unfold update_where. rewrite map_map. apply map_ext_in. intros r Hrin%list_elem_of_In. destruct (p r) eqn:E; [|done].
    destruct (Hm r Hrin E) as [Hmv _]. by destruct (identity_parts _ _ (run_move_id _ _ Hmv)).
  - intros x Hx. destruct (Hin x Hx) as (r & Hrin & Hmv & _). destruct (Hmove x r Hmv) as (-> & _). by apply Hf.
  - intros x Hx. by destruct (Hin x Hx) as (r & _ & _ & ? & _).
  - intros x y Hx Hy Hax Hay Eh. destruct (Hin x Hx) as (r & Hrin & Hmx & _ & Cx), (Hin y Hy) as (s & Hsin & Hmy & _ & Cy).
    destruct (Hmove x r Hmx) as (Ex & Fx & Ax), (Hmove y s Hmy) as (Ey & Fy & Ay).
    assert (r = s) as -> by (apply Ho; [done..|by apply Ax|by apply Ay|congruence]).
    apply elem_of_update_where in Hx as (r1 & Hr1 & ->), Hy as (s1 & Hs1 & ->).
    assert (Hid : ∀ z, z ∈ task_runs d → tr_id (if p z then f z else z) = tr_id z).
    { intros z Hz. destruct (p z) eqn:E; [|done]. destruct (Hm z Hz E) as [Hmv _].
      by destruct (identity_parts _ _ (run_move_id _ _ Hmv)). }
    assert (r1 = s1) as ->; [|done]. apply (NoDup_map_inj tr_id (task_runs d)); [done..|].
    rewrite <- (Hid r1 Hr1), <- (Hid s1 Hs1). congruence.
  - done.
  - intros x Hx. destruct (Hin x Hx) as (r & Hrin & Hmv & _). exists r. split; [done|by left].
Qed.

(** Rows deleted, or left alone *)
Lemma runs_subset d d' q : task_runs d' = List.filter q (task_runs d) → seq d ≤ seq d' → runs_wf d →
  runs_wf d' ∧ evolves d d'.
Proof.
  intros Hq Hs [Hi Hf Hr Ho]. assert (Hsub : ∀ r, r ∈ task_runs d' → r ∈ task_runs d).
  { intros r. rewrite Hq, list_elem_of_filter_b. tauto. }
  split; [constructor|split; [done|]]; eauto.
  - rewrite Hq. by apply NoDup_map_filter.
  - intros r Hin. specialize (Hf r (Hsub r Hin)). lia.
  - intros r Hin. exists r. split; [done|]. left. by apply Hsub.
Qed.

Lemma runs_same d d' : task_runs d' = task_runs d → seq d ≤ seq d' → runs_wf d → runs_wf d' ∧ evolves d d'.
Proof.
  intros E. apply (runs_subset d d' (λ _, true)). rewrite E. clear. induction (task_runs d) as [|r l IH]; cbn; congruence.
Qed.

(** ** The output *)

Lemma left_of_runes l n : Forall valid_rune l → left (of_runes l) n = of_runes (take (Z.to_nat n) l).
Proof.
  intros Hl. unfold left. pose proof (runes_of_runes l "" Hl) as E. rewrite append_nil_r in E. rewrite E. cbn.
  rewrite app_nil_r, firstn_map. apply concat_encoded.
Qed.

(** Adding to an output keeps it valid text within the limit; the whole text
    fits exactly when nothing is cut. *)
Lemma add_output_spec old text : utf8_valid old = true → rune_count old ≤ TaskOutputLimit → utf8_valid text = true →
  utf8_valid (add_output old text) = true ∧ rune_count (add_output old text) ≤ TaskOutputLimit ∧
  (rune_count old + rune_count text ≤ TaskOutputLimit → add_output old text = old +:+ text).
Proof.
  intros Ho Hc Ht. destruct (runes_valid old Ho) as (l & Hl & -> & _), (runes_valid text Ht) as (m & Hm & -> & _).
  rewrite !rune_count_of_runes in * by done. unfold add_output. rewrite rune_count_of_runes, left_of_runes by done.
  set (k := Z.to_nat _). rewrite <- of_runes_app.
  assert (Hk : Forall valid_rune (l ++ take k m)) by (apply Forall_app; split; [done|by apply Forall_take]).
  rewrite rune_count_of_runes by done. rewrite length_app, length_take. split_and!.
  - by apply utf8_valid_of_runes.
  - unfold k. lia.
  - intros Hfit. rewrite take_ge by (unfold k; lia). by rewrite of_runes_app.
Qed.

Lemma add_output_more old text : ∃ more, add_output old text = old +:+ more.
Proof. by eexists. Qed.

Lemma task_error_short text : rune_count (task_error text) ≤ maxTaskError.
Proof.
  unfold task_error. rewrite rune_count_of_runes.
  - rewrite length_take. unfold maxTaskError. lia.
  - apply Forall_take, Forall_fmap, valid_runes.
Qed.

(** ** The operations move runs *)

Lemma end_run_move status now err r : run_ok r → rune_count err ≤ maxTaskError →
  tr_status r = TaskRunning ∧ status ∈ [TaskSucceeded; TaskFailed; TaskTimedOut; TaskLost]
  ∨ tr_status r = TaskQueued ∧ status = TaskExpired ∧ tr_requested_at r ≤ now - taskPickupWindow →
  run_move r (end_run status now err r) ∧ run_ok (end_run status now err r).
Proof.
  intros [Hq Hr Hs Ho He] Herr Hcase.
  assert (Hend : status ∈ ends ∧ status ≠ TaskQueued ∧ status ≠ TaskRunning).
  { destruct Hcase as [[_ Hin]|(_ & -> & _)]; [|split_and!; [by repeat constructor|done|done]].
    rewrite !elem_of_cons in Hin. unfold ends. rewrite !elem_of_cons. split_and!; [tauto|..];
      destruct Hin as [->|[->|[->|[->|Hin]]]]; try done; by apply not_elem_of_nil in Hin. }
  destruct Hend as (Hend & Hnq & Hnr). split.
  - destruct Hcase as [[E Hin]|(E & -> & Ht)].
    + apply move_end; [done|done|exact Hin|]. exists "". cbn. by rewrite append_nil_r.
    + by eapply move_expire.
  - constructor; cbn; try done. by right.
Qed.

Lemma start_run_move now r : run_ok r → tr_status r = TaskQueued → now - taskPickupWindow < tr_requested_at r →
  run_move r (start_run now r) ∧ run_ok (start_run now r).
Proof.
  intros [Hq Hr Hs Ho He] E Ht. destruct (Hq E) as (Es & Ef & Eo). split.
  - by eapply move_start.
  - constructor; cbn; try done. by left.
Qed.

Lemma is_going_status d host id r : is_going d host id r = true → tr_status r = TaskRunning.
Proof. unfold is_going. rewrite !andb_true_iff, str_eq_spec. tauto. Qed.

Lemma append_move text truncated r : run_ok r → tr_status r = TaskRunning → utf8_valid text = true →
  let r' := run_set (tr_status r) (tr_started_at r) (tr_finished_at r) (tr_exit_code r) (tr_error r)
              (add_output (tr_output r) text) (add_truncated r text truncated) r in
  run_move r r' ∧ run_ok r'.
Proof.
  intros [Hq Hr Hs [Hv Ho] He] E Ht r'. destruct (add_output_spec (tr_output r) text Hv Ho Ht) as (Hv' & Ho' & _). split.
  - apply move_output; try done; [apply add_output_more|]. cbn. unfold add_truncated. by intros ->.
  - constructor; cbn; try done. rewrite E. done.
Qed.

Lemma finish_move now result text r : run_ok r → tr_status r = TaskRunning → utf8_valid text = true →
  let r' := run_set (TaskResult_status result) (tr_started_at r) (Some now) (Some (res_ExitCode result))
              (task_error (res_Error result)) (add_output (tr_output r) text) (add_truncated r text (res_Truncated result)) r in
  run_move r r' ∧ run_ok r'.
Proof.
  intros [Hq Hr Hs [Hv Ho] He] E Ht r'. destruct (add_output_spec (tr_output r) text Hv Ho Ht) as (Hv' & Ho' & _).
  assert (Hst : TaskResult_status result ∈ [TaskSucceeded; TaskFailed; TaskTimedOut; TaskLost] ∧ TaskResult_status result ∈ ends
    ∧ TaskResult_status result ≠ TaskQueued ∧ TaskResult_status result ≠ TaskRunning).
  { unfold TaskResult_status. destruct (res_TimedOut result); [|destruct (_ || _)]; split_and!; try done; repeat constructor. }
  destruct Hst as (Hin & Hend & Hnq & Hnr). split.
  - apply move_end; [done|done|exact Hin|]. apply add_output_more.
  - constructor; cbn; try done; [by right|apply task_error_short].
Qed.

Lemma run_step_two d d1 d2 : (runs_wf d1 ∧ evolves d d1) → (runs_wf d1 → runs_wf d2 ∧ evolves d1 d2) →
  runs_wf d2 ∧ evolves d d2.
Proof. intros [Hw He] Hn. destruct (Hn Hw). split; [done|]. by etrans. Qed.

Lemma ClaimTaskRun_wf now host d : runs_wf d → runs_wf (snd (ClaimTaskRun now host d)) ∧ evolves d (snd (ClaimTaskRun now host d)).
Proof.
  intros Hwf. unfold ClaimTaskRun. cbn [snd]. set (d1 := update_runs (is_lost_claim d host) _ d).
  apply (run_step_two d d1).
  - apply update_runs_wf; [done|]. intros r Hr [Hp _]%andb_true_iff. apply str_eq_spec in Hp.
    apply end_run_move; [by apply Hwf|by vm_compute|]. left. split; [done|]. repeat constructor.
  - intros Hwf1. apply update_runs_wf; [done|]. intros r Hr [[Hp _]%andb_true_iff Ht]%andb_true_iff. apply str_eq_spec in Hp.
    apply start_run_move; [by apply Hwf1|done|unfold time_add in Ht; lia].
Qed.

Lemma SweepTaskRuns_wf now d : runs_wf d → runs_wf (snd (SweepTaskRuns now d)) ∧ evolves d (snd (SweepTaskRuns now d)).
Proof.
  intros Hwf. unfold SweepTaskRuns. cbn [snd]. set (d1 := update_runs (is_expired now) _ d).
  apply (run_step_two d d1).
  - apply update_runs_wf; [done|]. intros r Hr [Hp Ht]%andb_true_iff. apply str_eq_spec in Hp.
    apply end_run_move; [by apply Hwf|by vm_compute|]. right. unfold time_add in Ht. split_and!; [done|done|lia].
  - intros Hwf1. apply update_runs_wf; [done|]. intros r Hr [Hp _]%andb_true_iff. apply str_eq_spec in Hp.
    apply end_run_move; [by apply Hwf1|by vm_compute|]. left. split; [done|]. repeat constructor.
Qed.

Lemma RequestTaskRun_wf now host task by_ d : runs_wf d →
  runs_wf (snd (RequestTaskRun now host task by_ d)) ∧ evolves d (snd (RequestTaskRun now host task by_ d)).
Proof.
  intros Hwf. unfold RequestTaskRun. destruct (host_by_name d host) as [h|]; [|done].
  destruct (List.filter _ (h_tasks h)) as [|t more]; [done|]. unfold next_id.
  change (task_runs (set_seq (seq d + 1) d)) with (task_runs d).
  destruct (_ || _) eqn:E; [apply runs_same; cbn; [done|lia|done]|].
  apply orb_false_iff in E as [E _]. rewrite exists_where_false in E.
  destruct Hwf as [Hi Hf Hr Ho]. set (row := new_run now (seq d) (h_id h) t by_). cbn [snd].
  assert (Hin : ∀ r, r ∈ task_runs d ++ [row] ↔ r ∈ task_runs d ∨ r = row) by (intros r; by rewrite elem_of_app, list_elem_of_singleton).
  assert (Hfree : ∀ r, r ∈ task_runs d → is_active r = true → tr_host_id r ≠ tr_host_id row).
  { intros r Hrin Ha Eh. specialize (E r Hrin). rewrite Ha, andb_true_r in E. cbn in Eh. lia. }
  split; [constructor|split]; cbn.
  - rewrite map_app. apply NoDup_app. split_and!; [done| |apply NoDup_singleton].
    intros x (r & -> & Hrin)%list_elem_of_fmap. cbn. rewrite list_elem_of_singleton. specialize (Hf r Hrin). lia.
  - intros r [Hrin| ->]%Hin; [specialize (Hf r Hrin)|cbn]; lia.
  - intros r [Hrin| ->]%Hin; [by apply Hr|]. constructor; cbn; try done; by left.
  - intros r s [Hrin| ->]%Hin [Hsin| ->]%Hin Hra Hsa Eh; [by apply Ho|by destruct (Hfree r)|by destruct (Hfree s)|done].
  - lia.
  - intros r [Hrin| ->]%Hin; [exists r; split; [done|by left]|]. exists row. split; [done|]. right. cbn. split; [lia|done].
Qed.

Lemma task_step_wf d d' : task_step d d' → runs_wf d → runs_wf d' ∧ evolves d d'.
Proof.
  intros Hstep Hwf. destruct Hstep as [now host task by_ ->|now host ->|host id output truncated ->|now host id result ->
    |now ->|now keep ->|host list ->|name timezone ->|name ->].
  - by apply RequestTaskRun_wf.
  - by apply ClaimTaskRun_wf.
  - unfold AppendTaskOutput. destruct (utf8_valid _) eqn:E; [|done]. cbn [negb]. destruct (_ =? 0); [done|].
    apply update_runs_wf; [done|]. intros r Hr Hg. apply append_move; [by apply Hwf|by eapply is_going_status|done].
  - unfold FinishTaskRun. destruct (utf8_valid _) eqn:E; [|done]. cbn [negb]. destruct (_ =? 0); [done|].
    apply update_runs_wf; [done|]. intros r Hr Hg. apply finish_move; [by apply Hwf|by eapply is_going_status|done].
  - by apply SweepTaskRuns_wf.
  - unfold PurgeTaskRuns. eapply runs_subset; [reflexivity|cbn; lia|done].
  - unfold SaveHostTasks. by apply runs_same.
  - unfold AddHost, next_id. destruct (host_by_name _ _); apply runs_same; cbn; (done || lia).
  - unfold RemoveHost. destruct (host_by_name d name) as [h|]; [|done]. eapply runs_subset; [reflexivity|cbn; lia|done].
Qed.

Lemma task_steps_wf d d' : rtc task_step d d' → runs_wf d → runs_wf d' ∧ evolves d d'.
Proof.
  induction 1 as [|x y z Hxy _ IH]; intros Hwf; [done|]. destruct (task_step_wf x y Hxy Hwf) as [Hw He].
  destruct (IH Hw). split; [done|]. by etrans.
Qed.

(** An end is final. *)
Lemma ended_stays r r' : run_move r r' → is_active r = true.
Proof. rewrite is_active_spec. destruct 1; tauto. Qed.

(** Adding two texts is adding them joined. *)
Lemma add_output_twice old a b :
  utf8_valid old = true → rune_count old ≤ TaskOutputLimit → utf8_valid a = true → utf8_valid b = true →
  add_output (add_output old a) b = add_output old (a +:+ b) ∧
  add_output old (a +:+ b) = left (old +:+ a +:+ b) TaskOutputLimit.
Proof.
  intros Ho Hc Ha Hb. destruct (runes_valid old Ho) as (l & Hl & -> & _), (runes_valid a Ha) as (m & Hm & -> & _),
    (runes_valid b Hb) as (n & Hn & -> & _).
  rewrite rune_count_of_runes in Hc by done. rewrite <- !of_runes_app.
  assert (Hadd : ∀ x y, Forall valid_rune x → Forall valid_rune y →
    add_output (of_runes x) (of_runes y) = of_runes (x ++ take (Z.to_nat (Z.max (TaskOutputLimit - Z.of_nat (length x)) 0)) y)).
  { intros x y Hx Hy. unfold add_output. by rewrite rune_count_of_runes, left_of_runes, of_runes_app by done. }
  assert (Hmn : Forall valid_rune (m ++ n)) by (by apply Forall_app).
  assert (Hlmn : Forall valid_rune (l ++ m ++ n)) by (by apply Forall_app).
  rewrite (Hadd l m Hl Hm), (Hadd l (m ++ n) Hl Hmn), (left_of_runes _ _ Hlmn).
  set (k := Z.to_nat (Z.max (TaskOutputLimit - Z.of_nat (length l)) 0)).
  rewrite Hadd; [|by apply Forall_app; split; [|apply Forall_take]|done].
  rewrite length_app, length_take. split.
  - f_equal. rewrite <- app_assoc. f_equal. rewrite take_app. f_equal. f_equal. unfold k. lia.
  - f_equal. rewrite (take_app l), (take_ge l) by lia. f_equal. f_equal. unfold k. lia.
Qed.

Lemma append_twice ta tb a b r : run_ok r → utf8_valid a = true → utf8_valid b = true →
  let f := λ t tr r, run_set (tr_status r) (tr_started_at r) (tr_finished_at r) (tr_exit_code r) (tr_error r)
              (add_output (tr_output r) t) (add_truncated r t tr) r in
  f b tb (f a ta r) = f (a +:+ b) (ta || tb) r.
Proof.
  intros [_ _ _ [Hv Hc] _] Ha Hb f. unfold f, run_set, add_truncated. cbn.
  destruct (add_output_twice (tr_output r) a b Hv Hc Ha Hb) as [-> _].
  destruct (add_output_spec (tr_output r) a Hv Hc Ha) as (_ & Hc' & Hfit).
  destruct (utf8_valid_append a b Ha Hb) as [_ ->]. f_equal.
  assert (Hcount : rune_count (tr_output r) + rune_count a ≤ TaskOutputLimit →
    rune_count (add_output (tr_output r) a) = rune_count (tr_output r) + rune_count a).
  { intros Hle. rewrite (Hfit Hle). by destruct (utf8_valid_append (tr_output r) a Hv Ha). }
  assert (Hpos : ∀ s, 0 ≤ rune_count s) by (intros s; unfold rune_count; lia).
  pose proof (Hpos b). destruct (tr_truncated r), ta, tb; cbn; try done; rewrite ?orb_true_r; try done.
  destruct (Z.ltb_spec TaskOutputLimit (rune_count (tr_output r) + rune_count a)); cbn; lia.
Qed.

(** ** Properties *)

(** C23: whatever operations follow each other, the task runs stay well
    formed: at most one active run per host, times and texts that fit the
    status, output within its limit.  Every run of the end is a run of the
    start, or a new queued one, moved along the machine: a queued run is
    picked up within two minutes or expires, output only grows, and what has
    ended stays exactly as it ended. *)
Theorem task_runs_machine (d d' : DB) : rtc task_step d d' → runs_wf d → runs_wf d' ∧
  ∀ r', r' ∈ task_runs d' → ∃ r, rtc run_move r r' ∧ (is_active r = false → r' = r) ∧
    (r ∈ task_runs d ∨ (seq d ≤ tr_id r ∧ tr_status r = TaskQueued)).
Proof.
  intros Hsteps Hwf. destruct (task_steps_wf d d' Hsteps Hwf) as [Hwf' [_ Hev]]. split; [done|].
  intros r' Hr'. destruct (Hev r' Hr') as (r & Hm & Hr). exists r. split_and!; [done| |done].
  intros Hend. destruct Hm as [|r s r' Hrs _]; [done|]. apply ended_stays in Hrs. congruence.
Qed.

(** [ClaimTaskRun] hands an agent the one run queued for its host less
    than two minutes ago, now running, and nothing else: on a well-formed
    table it returns a run exactly when there is such a run, marks every run
    of the host that was still running as lost, and leaves the other runs. *)
Lemma ClaimTaskRun_correct (now : time) (host : string) (d : DB) : runs_wf d →
  let '(res, d') := ClaimTaskRun now host d in
  match res with
  | Ok None => ∀ r, r ∈ task_runs d → of_host_named d host r = true → tr_status r = TaskQueued →
      tr_requested_at r ≤ now - taskPickupWindow
  | Ok (Some run) => ∃ r, r ∈ task_runs d ∧ of_host_named d host r = true ∧ tr_status r = TaskQueued ∧
      now - taskPickupWindow < tr_requested_at r ∧ run_ID run = tr_id r ∧ run_Task run = tr_task r ∧
      run_Command run = tr_command r ∧ start_run now r ∈ task_runs d'
  | Err _ => False
  end ∧
  (∀ r, r ∈ task_runs d → of_host_named d host r = true → tr_status r = TaskRunning →
     end_run TaskLost now "the agent stopped before the task finished" r ∈ task_runs d') ∧
  (∀ r, r ∈ task_runs d → of_host_named d host r = false ∨ is_active r = false → r ∈ task_runs d').
Proof.
  intros Hwf. unfold ClaimTaskRun. set (lost := end_run TaskLost now _). set (d1 := update_runs _ lost d).
  assert (Hh : ∀ r, of_host_named d1 host r = of_host_named d host r) by done.
  assert (Hlost : ∀ r, is_lost_claim d host r = true ↔ tr_status r = TaskRunning ∧ of_host_named d host r = true)
    by (intros r; unfold is_lost_claim; by rewrite andb_true_iff, str_eq_spec).
  assert (Hclaim : ∀ r, is_claimable now d1 host r = true ↔ tr_status r = TaskQueued ∧ of_host_named d host r = true
    ∧ now - taskPickupWindow < tr_requested_at r).
  { intros r. unfold is_claimable, time_add. rewrite !andb_true_iff, str_eq_spec, Hh. split; intros; split_and!; try tauto; lia. }
  assert (Hq : ∀ r, r ∈ task_runs d1 → is_claimable now d1 host r = true → r ∈ task_runs d).
  { intros r (x & Hx & ->)%elem_of_update_where. destruct (is_lost_claim d host x); [|done].
    rewrite Hclaim. by intros [? _]. }
  assert (Hkeep : ∀ r, r ∈ task_runs d → is_lost_claim d host r = false → r ∈ task_runs d1).
  { intros r Hr E. apply elem_of_update_where. exists r. by rewrite E. }
  assert (Hkeep2 : ∀ r, r ∈ task_runs d1 → is_claimable now d1 host r = false →
    r ∈ task_runs (update_runs (is_claimable now d1 host) (start_run now) d1)).
  { intros r Hr E. apply elem_of_update_where. exists r. by rewrite E. }
  split_and!.
  - destruct (List.find _ _) as [r|] eqn:E; cbn [option_map].
    + apply find_some in E as [Hr Hc]. rewrite <- list_elem_of_In in Hr. pose proof (Hq r Hr Hc) as Hr0.
      pose proof (proj1 (Hclaim r) Hc) as (Hs & Hho & Ht). exists r. split_and!; try done.
      apply elem_of_update_where. exists r. by rewrite Hc.
    + intros r Hr Hho Hs. destruct (Z.le_gt_cases (tr_requested_at r) (now - taskPickupWindow)) as [|Hgt]; [done|]. exfalso.
      assert (Hr1 : r ∈ task_runs d1).
      { apply Hkeep; [done|]. apply not_true_iff_false. rewrite Hlost, Hs. by intros [? _]. }
      rewrite list_elem_of_In in Hr1. eapply find_none in E; [|exact Hr1].
      assert (is_claimable now d1 host r = true) by (apply Hclaim; split_and!; (done || lia)). congruence.
  - intros r Hr Hho Hs. apply Hkeep2.
    + apply elem_of_update_where. exists r. assert (El : is_lost_claim d host r = true) by (by apply Hlost). by rewrite El.
    + apply not_true_iff_false. rewrite Hclaim. by intros [? _].
  - intros r Hr Hc. apply Hkeep2.
    + apply Hkeep; [done|]. apply not_true_iff_false. rewrite Hlost. intros [Hs Ho].
      destruct Hc as [Hc|Hc]; [congruence|]. assert (is_active r = true) by (apply is_active_spec; auto). congruence.
    + apply not_true_iff_false. rewrite Hclaim. intros (Hs & Ho & _).
      destruct Hc as [Hc|Hc]; [congruence|]. assert (is_active r = true) by (apply is_active_spec; auto). congruence.
Qed.

(** Reports add up.  Reporting two texts of a run one after the other
    leaves the database exactly as reporting them at once does, output,
    cut at the limit, and truncation mark included; so how an agent slices a
    run's output does not show. *)
Lemma AppendTaskOutput_adds_up (host : string) (id : Z) (a b : string) (ta tb : bool) (d : DB) : runs_wf d →
  utf8_valid (cleanText a) = true → utf8_valid (cleanText b) = true →
  (AppendTaskOutput host id a ta;; AppendTaskOutput host id b tb) d = AppendTaskOutput host id (a +:+ b) (ta || tb) d.
Proof.
  intros Hwf Ha Hb. unfold mbind, SM_bind, sbind, AppendTaskOutput.
  assert (Eab : cleanText (a +:+ b) = cleanText a +:+ cleanText b) by apply replace_byte_append.
  rewrite Eab, (proj1 (utf8_valid_append _ _ Ha Hb)), Ha, Hb. cbn [negb].
  destruct (_ =? 0) eqn:E0; [done|]. unfold update_runs.
  set (p := is_going d host id) in *. set (f := λ r, run_set _ _ _ _ _ (add_output _ (cleanText a)) _ r).
  change (is_going (set_task_runs (update_where p f (task_runs d)) d) host id) with p.
  change (task_runs (set_task_runs (update_where p f (task_runs d)) d)) with (update_where p f (task_runs d)).
  rewrite rows_affected_update, E0 by done. f_equal.
  rewrite update_where_twice by done. unfold set_task_runs at 1. cbn. unfold set_task_runs. f_equal.
  apply update_where_ext. intros r Hr _. apply (append_twice ta tb (cleanText a) (cleanText b) r); [by apply Hwf|done..].
Qed.

(** ** Witnesses *)

Definition backup_task : Task := {|
  task_Name := "backup"; task_Description := ""; task_Command := "/bin/backup"; task_TimeoutSeconds := 60 |}.
Definition tasks_db : DB := snd (SaveHostTasks "web1" [backup_task] (set_seq 10 (set_hosts [new_host 1 "web1" ""] empty_db))).
Definition asked_db : DB := snd (RequestTaskRun 100 "web1" "backup" "ann" tasks_db).
Definition running_db : DB := snd (ClaimTaskRun 200 "web1" asked_db).

Lemma tasks_db_wf : runs_wf tasks_db.
Proof. constructor; cbn; try (intros; by match goal with H : _ ∈ [] |- _ => apply not_elem_of_nil in H end). constructor. Qed.

Lemma running_steps : rtc task_step tasks_db running_db.
Proof.
  eapply rtc_l; [by apply (ts_request _ _ 100 "web1" "backup" "ann")|]. apply rtc_once. by apply (ts_claim _ _ 200 "web1").
Qed.

Lemma running_db_wf : runs_wf running_db.
Proof. by apply (task_steps_wf tasks_db running_db running_steps tasks_db_wf). Qed.

Lemma task_runs_machine_witness : runs_wf running_db ∧
  ∀ r', r' ∈ task_runs running_db → ∃ r, rtc run_move r r' ∧ (is_active r = false → r' = r) ∧
    (r ∈ task_runs tasks_db ∨ (seq tasks_db ≤ tr_id r ∧ tr_status r = TaskQueued)).
Proof. exact (task_runs_machine tasks_db running_db running_steps tasks_db_wf). Defined.

Lemma ClaimTaskRun_correct_witness : ∃ run, fst (ClaimTaskRun 200 "web1" asked_db) = Ok (Some run) ∧ run_Command run = "/bin/backup".
Proof.
  assert (Hwf : runs_wf asked_db).
  { apply (task_steps_wf tasks_db asked_db); [|exact tasks_db_wf]. apply rtc_once. by apply (ts_request _ _ 100 "web1" "backup" "ann"). }
  pose proof (ClaimTaskRun_correct 200 "web1" asked_db Hwf) as Hc.
  destruct (ClaimTaskRun 200 "web1" asked_db) as [res d'] eqn:E. destruct Hc as [Hc _].
  destruct res as [[run|]|e].
  - exists run. split; [reflexivity|]. vm_compute in E. injection E as <- _. reflexivity.
  - exfalso. vm_compute in E. discriminate E.
  - destruct Hc.
Defined.

Lemma AppendTaskOutput_adds_up_witness :
  (AppendTaskOutput "web1" 10 "one " false;; AppendTaskOutput "web1" 10 "two" false) running_db
  = AppendTaskOutput "web1" 10 "one two" false running_db
  ∧ map tr_output (task_runs (snd (AppendTaskOutput "web1" 10 "one two" false running_db))) = ["one two"].
Proof.
  split; [|by vm_compute].
  exact (AppendTaskOutput_adds_up "web1" 10 "one " "two" false false running_db running_db_wf
           ltac:(by vm_compute) ltac:(by vm_compute)).
Defined.
