(* ===== verification/StoreAlerts.v ===== *)
(** * Alerts, the values rules watch, and endpoint checks:
    src/internal/store/alerts.go, PurgeResolvedAlerts of store.go and the
    row operations of endpoints.go. *)
From S2P Require Import Prelude GoStrings GoFloat GoTime Errors Monitor Alerts Kube Tasks Database StoreHosts.
Local Open Scope Z_scope.

Record Alert := {
  alert_ID : Z; alert_Host : string; alert_Rule : string; alert_Metric : string; alert_Target : string;
  alert_Severity : Z; alert_Value : float64; alert_StartedAt : time; alert_UpdatedAt : time;
  alert_ResolvedAt : option time }.

(** [alertColumns] and [scanAlert]: the row joined with its host *)
Definition scanAlert (d : DB) (a : AlertRow) : Alert := {|
  alert_ID := al_id a; alert_Host := host_name_of d (al_host_id a); alert_Rule := al_rule a;
  alert_Metric := al_metric a; alert_Target := al_target a; alert_Severity := al_severity a;
  alert_Value := al_value a; alert_StartedAt := al_started_at a; alert_UpdatedAt := al_updated_at a;
  alert_ResolvedAt := al_resolved_at a |}.

Definition is_open (a : AlertRow) : bool := match al_resolved_at a with None => true | Some _ => false end.

(** ** LatestValue *)

(** ORDER BY time DESC LIMIT 1; of rows with one time, the last inserted
    (Postgres may pick any). *)
Fixpoint newest_row {A} (at_ : A → time) (l : list A) : option A :=
  match l with
  | [] => None
  | x :: l' => match newest_row at_ l' with
               | Some y => if at_ x <=? at_ y then Some y else Some x
               | None => Some x
               end
  end.

Definition newest_value {A} (at_ : A → time) (value : A → option float64) (p : A → bool) (l : list A)
    : result error (float64 * time) :=
  match newest_row at_ (select_where p l) with
  | None => Err ErrNotFound
  | Some row => match value row with None => Err ErrNotFound | Some v => Ok (v, at_ row) end
  end.

Definition f1 : float64 := of_int 1.

Definition LatestValue (d : DB) (host metric target : string) (isCustom : bool) : result error (float64 * time) :=
  id ← hostID d host;
  if isCustom then
    newest_value cm_time cm_value (λ r, (cm_host_id r =? id) && str_eq (cm_name r) metric) (custom_metrics d)
  else if str_eq metric PROC_USAGE then newest_value hm_time hm_cpu_pct (λ r, hm_host_id r =? id) (host_metrics d)
  else if str_eq metric MEMORY then newest_value hm_time hm_mem_used_pct (λ r, hm_host_id r =? id) (host_metrics d)
  else if str_eq metric SWAP then newest_value hm_time hm_swap_used_pct (λ r, hm_host_id r =? id) (host_metrics d)
  else if str_eq metric DISKS then
    newest_value dm_time dm_used_pct (λ r, (dm_host_id r =? id) && str_eq (dm_device r) target) (disk_metrics d)
  else if str_eq metric SERVICES then
    newest_value ss_time (λ r, Some (if ss_running r then f1 else f0))
      (λ r, (ss_host_id r =? id) && str_eq (ss_name r) target) (service_status d)
  else Err (ErrInvalid ("metric " +:+ quote metric +:+ " cannot be alerted on")).

(** ** Opening, changing and resolving *)

Definition alert_is (d : DB) (host rule metric target : string) (a : AlertRow) : bool :=
  str_eq (host_name_of d (al_host_id a)) host && str_eq (al_rule a) rule && str_eq (al_metric a) metric
  && str_eq (al_target a) target && is_open a.

Definition OpenAlert (d : DB) (host rule metric target : string) : result error (option Alert) :=
  Ok (option_map (scanAlert d) (List.find (alert_is d host rule metric target) (alerts d))).

(** The columns of the unique index alerts_one_open, NULLS NOT DISTINCT. *)
Definition open_key (a : AlertRow) : option Z * string * string * string :=
  (al_host_id a, al_rule a, al_metric a, al_target a).

Definition unique_violation : error := ErrOther "duplicate key value violates unique constraint".

(** The index refuses a second open alert with the key. *)
Definition open_taken (k : option Z * string * string * string) (d : DB) : bool :=
  exists_where (λ a, is_open a && bool_decide (open_key a = k)) (alerts d).

Definition new_alert (id : Z) (host_id : option Z) (a : Alert) : AlertRow := {|
  al_id := id; al_host_id := host_id; al_rule := alert_Rule a; al_metric := alert_Metric a;
  al_target := alert_Target a; al_severity := alert_Severity a; al_value := alert_Value a;
  al_started_at := alert_StartedAt a; al_updated_at := alert_StartedAt a; al_resolved_at := None |}.

Definition CreateAlert (alert : Alert) : DBM Z := λ d,
  match (if str_eq (alert_Host alert) "" then Ok None else rbind (hostID d (alert_Host alert)) (λ id, Ok (Some id))) with
  | Err e => (Err e, d)
  | Ok host_id =>
      let '(id, d) := next_id d in
      let row := new_alert id host_id alert in
      if open_taken (open_key row) d then (Err unique_violation, d)
      else (Ok id, set_alerts (alerts d ++ [row]) d)
  end.

Definition alert_set (severity : Z) (value : float64) (at_ : time) (resolved : option time) (a : AlertRow) : AlertRow := {|
  al_id := al_id a; al_host_id := al_host_id a; al_rule := al_rule a; al_metric := al_metric a;
  al_target := al_target a; al_severity := severity; al_value := value; al_started_at := al_started_at a;
  al_updated_at := at_; al_resolved_at := resolved |}.

Definition UpdateAlert (id severity : Z) (value : float64) (at_ : time) : DBM unit := λ d,
  (Ok (), set_alerts (update_where (λ a, al_id a =? id)
            (λ a, alert_set severity value at_ (al_resolved_at a) a) (alerts d)) d).

Definition ResolveAlert (id : Z) (value : float64) (at_ : time) : DBM unit := λ d,
  (Ok (), set_alerts (update_where (λ a, al_id a =? id)
            (λ a, alert_set (al_severity a) value at_ (Some at_) a) (alerts d)) d).

Record AlertFilter := {
  filter_Host : string; filter_Rule : string; filter_OpenOnly : bool; filter_From : time; filter_To : time }.

Definition filter_matches (d : DB) (f : AlertFilter) (a : AlertRow) : bool :=
  (str_eq (filter_Host f) "" ||
    match al_host_id a with
    | Some id => match host_by_id d id with Some h => str_eq (h_name h) (filter_Host f) | None => false end
    | None => false
    end)
  && (str_eq (filter_Rule f) "" || str_eq (al_rule a) (filter_Rule f))
  && (negb (filter_OpenOnly f) || is_open a)
  && (is_zero (filter_From f) || (filter_From f <=? al_started_at a))
  && (is_zero (filter_To f) || (al_started_at a <? filter_To f)).

Definition Alerts (d : DB) (f : AlertFilter) : list Alert :=
  map (scanAlert d) (stable_sort (λ a b, al_started_at b <=? al_started_at a)
    (select_where (filter_matches d f) (alerts d))).

(** store.go: alerts resolved longer ago than the longest retention go *)
Definition PurgeResolvedAlerts (now : time) (keep : duration) : DBM Z := λ d,
  let old := λ a, match al_resolved_at a with Some t => t <? time_add now (- keep) | None => false end in
  (Ok (rows_affected old (alerts d)), delete_alerts old d).

(** ** Endpoint checks *)

(** A check without a response keeps no latency. *)
Definition SaveEndpointCheck (check : EndpointCheck) : DBM unit := λ d,
  let row := {| ec_Time := ec_Time check; ec_Name := ec_Name check; ec_URL := ec_URL check;
                ec_Method := ec_Method check; ec_StatusCode := ec_StatusCode check; ec_OK := ec_OK check;
                ec_Latency := if ec_StatusCode check =? 0 then 0 else ec_Latency check;
                ec_Error := ec_Error check; ec_CertExpires := ec_CertExpires check |} in
  (Ok (), set_endpoint_checks (endpoint_checks d ++ [row]) d).

Definition LatestEndpointCheck (d : DB) (name : string) : result error EndpointCheck :=
  match newest_row ec_Time (select_where (λ c, str_eq (ec_Name c) name) (endpoint_checks d)) with
  | Some c => Ok c
  | None => Err ErrNotFound
  end.

Definition LatestCertificate (d : DB) (name : string) : result error (time * time) :=
  match newest_row ec_Time
    (select_where (λ c, str_eq (ec_Name c) name && negb (is_zero (ec_CertExpires c))) (endpoint_checks d)) with
  | Some c => Ok (ec_CertExpires c, ec_Time c)
  | None => Err ErrNotFound
  end.

(** ** Lemmas *)

Lemma newest_row_spec {A} (at_ : A → time) l :
  match newest_row at_ l with
  | None => l = []
  | Some x => x ∈ l ∧ ∀ y, y ∈ l → at_ y ≤ at_ x
  end.
Proof.
  induction l as [|x l IH]; simpl; [done|]. destruct (newest_row at_ l) as [y|].
  - destruct IH as [Hy Hmax]. destruct (Z.leb_spec (at_ x) (at_ y)).
    + split; [by right|]. intros z [->|Hz]%elem_of_cons; auto.
    + split; [by left|]. intros z [->|Hz]%elem_of_cons; [lia|]. specialize (Hmax z Hz). lia.
  - subst l. split; [by left|]. intros z [->|Hz]%elem_of_cons; [lia|]. by apply not_elem_of_nil in Hz.
Qed.
