(* ===== verification/StoreQuery.v ===== *)
(** * Reading back what agents sent: src/internal/store/query.go.

    Joins, filters and orders are written out; the hourly rollup of the
    custom metrics and the ranking of the process lists, which read JSON
    inside the database, are parameters ([QueryRows]). *)
From S2P Require Import Prelude GoStrings GoFloat GoTime Errors Monitor Alerts Json Kube Tasks Database StoreHosts StoreAlerts Snapshot StoreIngest.
Local Open Scope Z_scope.

Record HostSummary := {
  hs_Name : string; hs_LastSeen : time; hs_Time : time; hs_OS : string; hs_UptimeSeconds : float64;
  hs_CPUPct : float64; hs_MemUsedPct : float64; hs_SwapUsedPct : float64; hs_DiskUsedPct : float64;
  hs_RxBps : float64; hs_TxBps : float64; hs_ActiveAlerts : Z; hs_WorstSeverity : Z; hs_Containers : Z;
  hs_AgentVersion : string; hs_CanUpdate : bool; hs_UpdateVersion : string; hs_UpdateRequestedAt : time;
  hs_UpdateError : string }.

(** The fullest disk; a value that is not a number never wins. *)
Definition fullest `{ParseFloat} (pct : float64) (disk : Disk) : float64 :=
  match parsePercent (du_Usage (dk_Usage disk)) with
  | Some p => if fgt p pct then p else pct
  | None => pct
  end.

(** The traffic of the interfaces that have rates, added up in their order *)
Definition total_rate (f : NetworkRates → float64) (networks : list Network) : float64 :=
  fold_left (λ sum n, match nw_Rates n with Some r => fadd sum (f r) | None => sum end) networks f0.

(** LEFT JOIN alerts a ON a.host_id = h.id AND a.resolved_at IS NULL *)
Definition open_alerts_of (d : DB) (host_id : Z) : list AlertRow :=
  select_where (λ a, of_host host_id (al_host_id a) && is_open a) (alerts d).

Definition host_latest_of (d : DB) (host_id : Z) : option LatestRow :=
  List.find (λ l, lt_host_id l =? host_id) (host_latest d).

(** A row without a snapshot *)
Definition scan_summary (d : DB) (h : HostRow) : HostSummary := {|
  hs_Name := h_name h; hs_LastSeen := opt_time (h_last_seen h); hs_Time := zero_time; hs_OS := "";
  hs_UptimeSeconds := f0; hs_CPUPct := f0; hs_MemUsedPct := f0; hs_SwapUsedPct := f0; hs_DiskUsedPct := f0;
  hs_RxBps := f0; hs_TxBps := f0; hs_ActiveAlerts := Z.of_nat (length (open_alerts_of d (h_id h)));
  hs_WorstSeverity := match map al_severity (open_alerts_of d (h_id h)) with
                      | [] => 0 | s :: l => fold_left Z.max l s end;
  hs_Containers := 0; hs_AgentVersion := ""; hs_CanUpdate := negb (str_eq (h_agent_arch h) "");
  hs_UpdateVersion := default "" (h_update_version h); hs_UpdateRequestedAt := opt_time (h_update_requested_at h);
  hs_UpdateError := h_update_error h |}.

Definition fillSummary `{ParseFloat} (at_ : time) (data : MonitorData) (s : HostSummary) : HostSummary := {|
  hs_Name := hs_Name s; hs_LastSeen := hs_LastSeen s; hs_Time := at_; hs_OS := sys_OS (md_System data);
  hs_UptimeSeconds := sys_UpTimeSeconds (md_System data); hs_CPUPct := of_int (cpu_LoadAvg (md_ProcUsage data));
  hs_MemUsedPct := mem_PercentageUsed (md_Memory data); hs_SwapUsedPct := swp_PercentageUsed (md_Swap data);
  hs_DiskUsedPct := fold_left fullest (md_Disk data) (hs_DiskUsedPct s);
  hs_RxBps := total_rate nr_RxBytesPerSec (md_Networks data); hs_TxBps := total_rate nr_TxBytesPerSec (md_Networks data);
  hs_ActiveAlerts := hs_ActiveAlerts s; hs_WorstSeverity := hs_WorstSeverity s;
  hs_Containers := Z.of_nat (length (md_Containers data)); hs_AgentVersion := md_AgentVersion data;
  hs_CanUpdate := hs_CanUpdate s; hs_UpdateVersion := hs_UpdateVersion s;
  hs_UpdateRequestedAt := hs_UpdateRequestedAt s; hs_UpdateError := hs_UpdateError s |}.

(** A ping is newer than the snapshot right after an update. *)
Definition with_ping_version (version : string) (s : HostSummary) : HostSummary :=
  if str_eq version "" then s else {|
  hs_Name := hs_Name s; hs_LastSeen := hs_LastSeen s; hs_Time := hs_Time s; hs_OS := hs_OS s;
  hs_UptimeSeconds := hs_UptimeSeconds s; hs_CPUPct := hs_CPUPct s; hs_MemUsedPct := hs_MemUsedPct s;
  hs_SwapUsedPct := hs_SwapUsedPct s; hs_DiskUsedPct := hs_DiskUsedPct s; hs_RxBps := hs_RxBps s;
  hs_TxBps := hs_TxBps s; hs_ActiveAlerts := hs_ActiveAlerts s; hs_WorstSeverity := hs_WorstSeverity s;
  hs_Containers := hs_Containers s; hs_AgentVersion := version; hs_CanUpdate := hs_CanUpdate s;
  hs_UpdateVersion := hs_UpdateVersion s; hs_UpdateRequestedAt := hs_UpdateRequestedAt s;
  hs_UpdateError := hs_UpdateError s |}.

Definition hosts_by_name (d : DB) : list HostRow :=
  stable_sort (λ a b, string_leb (h_name a) (h_name b)) (hosts d).

Record LatestSnapshot := { ls_Host : string; ls_Time : time; ls_Snapshot : string; ls_LastSeen : time }.

(** The newest snapshot of one host, an error without one *)
Definition Store_LatestSnapshot (d : DB) (host : string) : result error LatestSnapshot :=
  match host_by_name d host with
  | None => Err ErrNotFound
  | Some h =>
      match host_latest_of d (h_id h) with
      | None => Err ErrNotFound
      | Some l => Ok {| ls_Host := host; ls_Time := lt_time l; ls_Snapshot := lt_json l;
                        ls_LastSeen := opt_time (h_last_seen h) |}
      end
  end.

(** Every host, with an empty snapshot when it never sent one *)
Definition LatestSnapshots (d : DB) : list LatestSnapshot :=
  map (λ h, match host_latest_of d (h_id h) with
            | Some l => {| ls_Host := h_name h; ls_Time := lt_time l; ls_Snapshot := lt_json l;
                           ls_LastSeen := opt_time (h_last_seen h) |}
            | None => {| ls_Host := h_name h; ls_Time := zero_time; ls_Snapshot := "";
                         ls_LastSeen := opt_time (h_last_seen h) |}
            end) (hosts_by_name d).

(** The process lists of the newest snapshot at or before [at_] *)
Definition Store_Processes (d : DB) (host : string) (at_ : time) : result error (time * string) :=
  rbind (hostID d host) (λ id,
  match newest_row lt_time (select_where (λ r, (lt_host_id r =? id) && (lt_time r <=? at_)) (process_snapshots d)) with
  | None => Err ErrNotFound
  | Some r => Ok (lt_time r, lt_json r)
  end).

Record ProcessShare := {
  pu_Name : string; pu_CPUAvg : float64; pu_CPUPeak : float64; pu_MemAvg : float64; pu_MemPeak : float64;
  pu_SeenPct : float64 }.
Record ProcessUsageResult := { pur_Snapshots : Z; pur_FirstTime : time; pur_Processes : list ProcessShare }.

Definition processUsageLimit : Z := 15.
Definition processUsageMaxRange : duration := 24 * hour.

Record UsageRow := {
  ur_name : string; ur_cpu_sum : float64; ur_cpu_peak : float64; ur_mem_sum : float64; ur_mem_peak : float64;
  ur_seen : Z }.

Record CustomValue := {
  cv_Host : string; cv_Name : string; cv_Unit : string; cv_Value : float64; cv_Time : time }.
Definition customValueWindow : duration := 48 * hour.

(** What the database makes of the process lists in a range (the query with
    [DISTINCT ON], per snapshot and ranked, at most [limit] per rank), and
    the rows (bucket, host and name) of the rollup [custom_metrics_1h]. *)
Class QueryRows := {
  usage_rows : DB → Z → time → time → Z → list UsageRow;
  custom_metrics_1h : DB → list (time * Z * string) }.

(** A share of the snapshots; a program counts as 0 where it is not listed. *)
Definition usage_of (snapshots : Z) (r : UsageRow) : ProcessShare := {|
  pu_Name := ur_name r; pu_CPUAvg := fdiv (ur_cpu_sum r) (of_int snapshots); pu_CPUPeak := ur_cpu_peak r;
  pu_MemAvg := fdiv (ur_mem_sum r) (of_int snapshots); pu_MemPeak := ur_mem_peak r;
  pu_SeenPct := fdiv (fmul (of_int 100) (of_int (ur_seen r))) (of_int snapshots) |}.

(** The newest value of one custom metric since [since] *)
Definition newest_custom (d : DB) (since : time) (host_id : Z) (name : string) : option (CustomRow * float64) :=
  r ← newest_row cm_time (select_where (λ r, (cm_host_id r =? host_id) && str_eq (cm_name r) name
        && (since <=? cm_time r) && match cm_value r with Some _ => true | None => false end) (custom_metrics d));
  v ← cm_value r;
  Some (r, v).

Section Query.
Context `{ParseFloat} `{SnapshotJSON} `{QueryRows}.

(** One row of the fleet; a snapshot that cannot be read fails them all. *)
Definition summary_of (d : DB) (h : HostRow) : result error HostSummary :=
  rbind (match host_latest_of d (h_id h) with
         | None => Ok (scan_summary d h)
         | Some l => rbind (unmarshal_data (lt_json l)) (λ data, Ok (fillSummary (lt_time l) data (scan_summary d h)))
         end)
    (λ s, Ok (with_ping_version (h_agent_version h) s)).

Fixpoint summaries (d : DB) (l : list HostRow) : result error (list HostSummary) :=
  match l with
  | [] => Ok []
  | h :: l' => rbind (summary_of d h) (λ s, rbind (summaries d l') (λ rest, Ok (s :: rest)))
  end.
Definition Store_FleetSummary (d : DB) : result error (list HostSummary) := summaries d (hosts_by_name d).

Definition ProcessUsage (d : DB) (host : string) (from to : time) : result error ProcessUsageResult :=
  if negb (after to from) then Err (ErrInvalid "from must be before to")
  else if processUsageMaxRange <? time_sub to from then Err (ErrInvalid "pick 24 hours or less")
  else rbind (hostID d host) (λ id,
    let snapshots := select_where (λ r, (lt_host_id r =? id) && (from <=? lt_time r) && (lt_time r <? to))
                       (process_snapshots d) in
    match map lt_time snapshots with
    | [] => Ok {| pur_Snapshots := 0; pur_FirstTime := zero_time; pur_Processes := [] |}
    | t :: rest =>
        let n := Z.of_nat (length snapshots) in
        Ok {| pur_Snapshots := n; pur_FirstTime := fold_left Z.min rest t;
              pur_Processes := map (usage_of n) (usage_rows d id from to processUsageLimit) |}
    end).

(** SELECT DISTINCT host_id, name FROM custom_metrics_1h WHERE bucket > ... *)
Definition custom_names (d : DB) (p : time * Z * string → bool) : list (Z * string) :=
  remove_dups (map (λ r, (r.1.2, r.2)) (List.filter p (custom_metrics_1h d))).

Definition LatestCustomValues (now : time) (d : DB) : list CustomValue :=
  let since := time_add now (- customValueWindow) in
  let rows := omap (λ k,
    h ← host_by_id d k.1;
    c ← newest_custom d since k.1 k.2;
    Some {| cv_Host := h_name h; cv_Name := k.2; cv_Unit := cm_unit c.1; cv_Value := c.2; cv_Time := cm_time c.1 |})
    (custom_names d (λ r, time_add since (- hour) <? r.1.1)) in
  stable_sort (λ a b, string_leb (cv_Host a) (cv_Host b))
    (stable_sort (λ a b, string_leb (cv_Name a) (cv_Name b)) rows).

Definition Store_CustomMetricNames (d : DB) (host : string) : result error (list string) :=
  rbind (hostID d host) (λ id,
    Ok (stable_sort string_leb (map snd (custom_names d (λ r, r.1.2 =? id))))).
End Query.

(** ** Endpoints: the summaries of endpoints.go *)

Record EndpointSummary := {
  es_Latest : EndpointCheck; es_Checks : Z; es_UptimePct : float64; es_AvgLatency : duration; es_CertExpires : time }.

(** [avg(ok::int) * 100] and [avg(latency_ms)] over a name's checks: the
    database's arithmetic *)
Class EndpointAverages := endpoint_averages : list EndpointCheck → float64 * option float64.

Definition milliseconds_duration (ms : float64) : duration := to_int (fmul ms (of_int 1000000)).
Definition checks_of (d : DB) (name : string) : list EndpointCheck :=
  select_where (λ c, str_eq (ec_Name c) name) (endpoint_checks d).

Definition endpoint_summary `{EndpointAverages} (d : DB) (from to : time) (name : string) : option EndpointSummary :=
  let ranged := select_where (λ c, (from <=? ec_Time c) && (ec_Time c <? to)) (checks_of d name) in
  let before_to := select_where (λ c, ec_Time c <? to) (checks_of d name) in
  latest ← newest_row ec_Time before_to;
  Some (let '(uptime, latency) := endpoint_averages ranged in
        {| es_Latest := latest; es_Checks := Z.of_nat (length ranged); es_UptimePct := uptime;
           es_AvgLatency := match latency with Some ms => milliseconds_duration ms | None => 0 end;
           es_CertExpires := match newest_row ec_Time (select_where (λ c, negb (is_zero (ec_CertExpires c))) before_to) with
                             | Some c => ec_CertExpires c
                             | None => zero_time
                             end |}).

(** Every endpoint checked within the range *)
Definition Store_Endpoints `{EndpointAverages} (d : DB) (from to : time) : result error (list EndpointSummary) :=
  if negb (after to from) then Err (ErrInvalid "from must be before to")
  else
    let ranged := select_where (λ c, (from <=? ec_Time c) && (ec_Time c <? to)) (endpoint_checks d) in
    Ok (omap (endpoint_summary d from to) (stable_sort string_leb (remove_dups (map ec_Name ranged)))).
