(* ===== verification/StoreNotifications.v ===== *)
(** * Notification channels and the queue: src/internal/store/notifications.go. *)
From S2P Require Import Prelude GoStrings GoFloat GoTime Errors Monitor Alerts Json Kube Tasks Database StoreHosts.
From S2P Require Import StoreAlerts StoreTasks.
Local Open Scope Z_scope.

Definition NotificationPending : string := "pending".
Definition NotificationSent : string := "sent".
Definition NotificationFailed : string := "failed".

Record Channel := {
  channel_ID : Z; channel_Name : string; channel_Kind : string; channel_Settings : object;
  channel_IsDefault : bool; channel_SkipWarnings : bool; channel_Enabled : bool; channel_UpdatedAt : time;
  channel_UpdatedBy : string; channel_LastStatus : string; channel_LastAt : time; channel_LastError : string }.

(** The newest notification of a channel: ORDER BY id DESC LIMIT 1 *)
Definition newest_note (d : DB) (channel_id : Z) : option NoteRow :=
  newest_row no_id (select_where (λ n, no_channel_id n =? channel_id) (notifications d)).

Definition scan_channel (d : DB) (c : ChannelRow) : Channel :=
  let last := newest_note d (ch_id c) in {|
  channel_ID := ch_id c; channel_Name := ch_name c; channel_Kind := ch_kind c; channel_Settings := ch_settings c;
  channel_IsDefault := ch_is_default c; channel_SkipWarnings := ch_skip_warnings c;
  channel_Enabled := ch_enabled c; channel_UpdatedAt := ch_updated_at c; channel_UpdatedBy := ch_updated_by c;
  channel_LastStatus := match last with Some n => no_status n | None => "" end;
  channel_LastAt := match last with Some n => default (no_created_at n) (no_sent_at n) | None => zero_time end;
  channel_LastError := match last with Some n => no_last_error n | None => "" end |}.

Definition Channels (d : DB) : list Channel :=
  map (scan_channel d) (stable_sort (λ a b, string_leb (ch_name a) (ch_name b)) (channels d)).

Definition channel_by_id (d : DB) (id : Z) : option ChannelRow := List.find (λ c, ch_id c =? id) (channels d).

(** The query of [Channel] reads no notification. *)
Definition Store_Channel (d : DB) (id : Z) : result error Channel :=
  match channel_by_id d id with
  | None => Err ErrNotFound
  | Some c => Ok {|
      channel_ID := ch_id c; channel_Name := ch_name c; channel_Kind := ch_kind c; channel_Settings := ch_settings c;
      channel_IsDefault := ch_is_default c; channel_SkipWarnings := ch_skip_warnings c;
      channel_Enabled := ch_enabled c; channel_UpdatedAt := ch_updated_at c; channel_UpdatedBy := ch_updated_by c;
      channel_LastStatus := ""; channel_LastAt := zero_time; channel_LastError := "" |}
  end.

Definition CreateChannel (now : time) (channel : Channel) (by_ : string) : DBM Z := λ d,
  let '(id, d) := next_id d in
  if exists_where (λ c, str_eq (ch_name c) (channel_Name channel)) (channels d) then (Err ErrChannelExists, d)
  else (Ok id, set_channels (channels d ++ [{|
      ch_id := id; ch_name := channel_Name channel; ch_kind := channel_Kind channel;
      ch_settings := channel_Settings channel; ch_is_default := channel_IsDefault channel;
      ch_skip_warnings := channel_SkipWarnings channel; ch_enabled := channel_Enabled channel;
      ch_updated_at := now; ch_updated_by := by_ |}]) d).

Definition UpdateChannel (now : time) (channel : Channel) (by_ : string) : DBM unit := λ d,
  let p := λ c, ch_id c =? channel_ID channel in
  if rows_affected p (channels d) =? 0 then (Err ErrNotFound, d)
  else (Ok (), set_channels (update_where p (λ c, {|
      ch_id := ch_id c; ch_name := ch_name c; ch_kind := ch_kind c; ch_settings := channel_Settings channel;
      ch_is_default := channel_IsDefault channel; ch_skip_warnings := channel_SkipWarnings channel;
      ch_enabled := channel_Enabled channel; ch_updated_at := now; ch_updated_by := by_ |}) (channels d)) d).

(** The channel's notifications go with it. *)
Definition Store_DeleteChannel (id : Z) : DBM unit := λ d,
  if rows_affected (λ c, ch_id c =? id) (channels d) =? 0 then (Err ErrNotFound, d)
  else (Ok (), set_notifications (delete_where (λ n, no_channel_id n =? id) (notifications d))
                 (set_channels (delete_where (λ c, ch_id c =? id) (channels d)) d)).

(** ** The queue *)

Record Notification := {
  note_ID : Z; note_AlertID : Z; note_ChannelID : Z; note_Event : string; note_Severity : Z;
  note_Value : float64; note_Subject : string; note_Body : string; note_Status : string; note_Attempts : Z;
  note_LastError : string; note_CreatedAt : time; note_SentAt : time; note_ChannelName : string;
  note_ChannelKind : string; note_ChannelOn : bool; note_Settings : object; note_Host : string;
  note_Rule : string; note_Metric : string; note_Target : string; note_StartedAt : time; note_PreviousRef : string }.

Definition new_note (now : time) (n : Notification) (id channelID : Z) : NoteRow := {|
  no_id := id; no_alert_id := note_AlertID n; no_channel_id := channelID; no_event := note_Event n;
  no_severity := note_Severity n; no_value := note_Value n; no_subject := cleanText (note_Subject n);
  no_body := cleanText (note_Body n); no_status := NotificationPending; no_attempts := 0;
  no_next_attempt_at := now; no_last_error := ""; no_ref := ""; no_created_at := now; no_sent_at := None |}.

(** One INSERT of the batch; the alert and the channel must exist. *)
Definition queue_one (now : time) (n : Notification) (channelID : Z) : DBM unit := λ d,
  let '(id, d) := next_id d in
  if exists_where (λ a, al_id a =? note_AlertID n) (alerts d) && exists_where (λ c, ch_id c =? channelID) (channels d)
  then (Ok (), set_notifications (notifications d ++ [new_note now n id channelID]) d)
  else (Err (ErrOther "violates foreign key constraint"), d).

Definition QueueNotifications (now : time) (n : Notification) (channelIDs : list Z) : DBM unit := λ d,
  match channelIDs with
  | [] => (Ok (), d)
  | _ => transaction (sfor channelIDs (queue_one now n)) d
  end.

(** SELECT DISTINCT channel_id ... ORDER BY channel_id *)
Definition NotifiedChannels (d : DB) (alertID : Z) : list Z :=
  stable_sort Z.leb (remove_dups (map no_channel_id (select_where (λ n, no_alert_id n =? alertID) (notifications d)))).

(** The row joined with its channel and its alert; [None] when one is missing *)
Definition scanNotification (d : DB) (n : NoteRow) (settings : ChannelRow → object) (previous : string)
    : option Notification :=
  c ← channel_by_id d (no_channel_id n);
  a ← List.find (λ a, al_id a =? no_alert_id n) (alerts d);
  Some {|
    note_ID := no_id n; note_AlertID := no_alert_id n; note_ChannelID := no_channel_id n; note_Event := no_event n;
    note_Severity := no_severity n; note_Value := no_value n; note_Subject := no_subject n; note_Body := no_body n;
    note_Status := no_status n; note_Attempts := no_attempts n; note_LastError := no_last_error n;
    note_CreatedAt := no_created_at n; note_SentAt := opt_time (no_sent_at n); note_ChannelName := ch_name c;
    note_ChannelKind := ch_kind c; note_ChannelOn := ch_enabled c; note_Settings := settings c;
    note_Host := host_name_of d (al_host_id a); note_Rule := al_rule a; note_Metric := al_metric a;
    note_Target := al_target a; note_StartedAt := al_started_at a; note_PreviousRef := previous |}.

Definition is_pending (n : NoteRow) : bool := str_eq (no_status n) NotificationPending.

(** [p] is an earlier notification about the same alert for the same channel. *)
Definition earlier (n p : NoteRow) : bool :=
  (no_alert_id p =? no_alert_id n) && (no_channel_id p =? no_channel_id n) && (no_id p <? no_id n).

Definition is_due (now : time) (d : DB) (n : NoteRow) : bool :=
  is_pending n && (no_next_attempt_at n <=? now)
  && negb (exists_where (λ p, earlier n p && is_pending p) (notifications d)).

(** What the channel kept of the newest earlier message that left something *)
Definition previous_ref (d : DB) (n : NoteRow) : string :=
  match newest_row no_id (select_where (λ p, earlier n p && negb (str_eq (no_ref p) "")) (notifications d)) with
  | Some p => no_ref p
  | None => ""
  end.

Definition DueNotifications (now : time) (d : DB) (limit : Z) : list Notification :=
  take_at_most limit (omap (λ n, scanNotification d n ch_settings (previous_ref d n))
    (stable_sort (λ a b, no_id a <=? no_id b) (select_where (is_due now d) (notifications d)))).

(** UPDATE notifications ... WHERE id = $1 *)
Definition update_note (id : Z) (f : NoteRow → NoteRow) : DBM unit := λ d,
  (Ok (), set_notifications (update_where (λ n, no_id n =? id) f (notifications d)) d).

Definition note_set (status : string) (next : time) (last_error ref : string) (sent : option time) (n : NoteRow) : NoteRow := {|
  no_id := no_id n; no_alert_id := no_alert_id n; no_channel_id := no_channel_id n; no_event := no_event n;
  no_severity := no_severity n; no_value := no_value n; no_subject := no_subject n; no_body := no_body n;
  no_status := status; no_attempts := no_attempts n + 1; no_next_attempt_at := next;
  no_last_error := last_error; no_ref := ref; no_created_at := no_created_at n; no_sent_at := sent |}.

Definition shortError (text : string) : string :=
  of_runes (take (Z.to_nat maxTaskError) (map fst (runes (cleanText text)))).

Definition MarkSent (now : time) (id : Z) (ref : string) : DBM unit :=
  update_note id (λ n, note_set NotificationSent (no_next_attempt_at n) "" ref (Some now) n).
Definition MarkRetry (id : Z) (reason : string) (next : time) : DBM unit :=
  update_note id (λ n, note_set (no_status n) next (shortError reason) (no_ref n) (no_sent_at n) n).
Definition MarkFailed (id : Z) (reason : string) : DBM unit :=
  update_note id (λ n, note_set NotificationFailed (no_next_attempt_at n) (shortError reason) (no_ref n) (no_sent_at n) n).

Definition RecentNotifications (d : DB) (limit : Z) : list Notification :=
  let limit := if (limit <=? 0) || (200 <? limit) then 50 else limit in
  take_at_most limit (omap (λ n, scanNotification d n (λ _, ∅) "")
    (stable_sort (λ a b, no_id b <=? no_id a) (notifications d))).
