(* ===== verification/StoreKube.v ===== *)
(** * Clusters in the database: src/internal/store/kube.go.

    [SaveClusterReport] is one transaction: an error leaves the database as
    it was.  The charts ([ClusterSeries]) are in StoreSeries.v. *)
From S2P Require Import Prelude GoStrings GoFloat GoTime Errors Monitor Alerts Kube Tasks Database StoreHosts.
Local Open Scope Z_scope.

Record KCluster := {
  kc_Name : string; kc_Host : string; kc_ReportedAt : time; kc_Error : string; kc_State : ClusterState }.

Definition Stale (c : KCluster) (now : time) : bool :=
  StaleAfter <? time_sub now (unix_time (cs_Time (kc_State c))).

Record KubeRestart := { kres_Time : time; kres_Restart : Restart }.

Definition cluster_named (name : string) (c : ClusterRow) : bool := str_eq (cl_name c) name.
Definition cluster_by_name (d : DB) (name : string) : option ClusterRow :=
  List.find (cluster_named name) (kube_clusters d).

(** The rows of one report: its restarts and its counts. *)
Definition saveClusterMetrics (clusterID : Z) (state : ClusterState) (restarts : list Restart) (d : DB) : DB :=
  let at_ := unix_time (cs_Time state) in
  let d := set_kube_restarts (kube_restarts d ++
    map (λ r, {| kr_time := at_; kr_cluster_id := clusterID; kr_restart := r |}) restarts) d in
  set_kube_metrics (kube_metrics d ++
    [{| km_time := at_; km_cluster_id := clusterID; km_counts := State_Counts state;
        km_restarts := zsum rs_Count restarts |}]) d.

Definition update_cluster (id : Z) (f : ClusterRow → ClusterRow) (d : DB) : DB :=
  set_kube_clusters (update_where (λ c, cl_id c =? id) f (kube_clusters d)) d.

Definition cluster_error (hostID : Z) (err : string) (at_ : time) (c : ClusterRow) : ClusterRow := {|
  cl_id := cl_id c; cl_name := cl_name c; cl_host_id := Some hostID; cl_state := cl_state c;
  cl_error := err; cl_reported_at := at_ |}.
Definition cluster_state (hostID : Z) (state : ClusterState) (at_ : time) (c : ClusterRow) : ClusterRow := {|
  cl_id := cl_id c; cl_name := cl_name c; cl_host_id := Some hostID; cl_state := state;
  cl_error := ""; cl_reported_at := at_ |}.

Definition SaveClusterReport (host : string) (state : ClusterState) : DBM unit := λ d,
  if str_eq (trim_space (cs_Cluster state)) "" || (100 <? slen (cs_Cluster state))
  then (Err (ErrInvalid "a cluster needs a name of up to 100 characters"), d)
  else match hostID d host with
  | Err e => (Err e, d)
  | Ok hostID =>
    let at_ := unix_time (cs_Time state) in
    match cluster_by_name d (cs_Cluster state) with
    | None =>
        let saved := if str_eq (cs_Error state) "" then state else empty_state (cs_Cluster state) 0 "" in
        let '(clusterID, d) := next_id d in
        let d := set_kube_clusters (kube_clusters d ++
          [{| cl_id := clusterID; cl_name := cs_Cluster state; cl_host_id := Some hostID; cl_state := saved;
              cl_error := cs_Error state; cl_reported_at := at_ |}]) d in
        (Ok (), if str_eq (cs_Error state) "" then saveClusterMetrics clusterID state [] d else d)
    | Some c =>
        if match cl_host_id c with Some owner => negb (owner =? hostID) | None => false end
        then (Err ErrClusterTaken, d)
        else if negb (str_eq (cs_Error state) "")
        then (Ok (), update_cluster (cl_id c) (cluster_error hostID (cs_Error state) at_) d)
        else if cs_Time state <=? cs_Time (cl_state c) then (Ok (), d)
        else (Ok (), saveClusterMetrics (cl_id c) state (Restarts (cl_state c) state)
                       (update_cluster (cl_id c) (cluster_state hostID state at_) d))
    end
  end.

Definition scanCluster (d : DB) (c : ClusterRow) : KCluster := {|
  kc_Name := cl_name c; kc_Host := host_name_of d (cl_host_id c); kc_ReportedAt := cl_reported_at c;
  kc_Error := cl_error c; kc_State := cl_state c |}.

Definition Clusters (d : DB) : list KCluster :=
  map (scanCluster d) (stable_sort (λ a b, string_leb (cl_name a) (cl_name b)) (kube_clusters d)).

Definition Store_Cluster (d : DB) (name : string) : result error KCluster :=
  match cluster_by_name d name with Some c => Ok (scanCluster d c) | None => Err ErrNotFound end.

Definition RemoveCluster (name : string) : DBM unit := λ d,
  if rows_affected (cluster_named name) (kube_clusters d) =? 0 then (Err ErrNotFound, d)
  else (Ok (), set_kube_clusters (delete_where (cluster_named name) (kube_clusters d)) d).

(** The restarts of a cluster since a time: kube_restarts JOIN kube_clusters *)
Definition restarts_since (d : DB) (cluster : string) (since : time) : list RestartRow :=
  match cluster_by_name d cluster with
  | Some c => select_where (λ r, (kr_cluster_id r =? cl_id c) && (since <=? kr_time r)) (kube_restarts d)
  | None => []
  end.

Definition RecentRestarts (d : DB) (cluster : string) (since : time) (limit : Z) : list KubeRestart :=
  take_at_most limit (map (λ r, {| kres_Time := kr_time r; kres_Restart := kr_restart r |})
    (stable_sort (λ a b, kr_time b <=? kr_time a) (restarts_since d cluster since))).

Definition restart_key (r : RestartRow) : string :=
  rs_Namespace (kr_restart r) +:+ "/" +:+ rs_Workload (kr_restart r).

(** SELECT key, sum(count) ... GROUP BY key *)
Definition add_restart (m : gmap string Z) (r : RestartRow) : gmap string Z :=
  <[restart_key r := default 0 (m !! restart_key r) + rs_Count (kr_restart r)]> m.
Definition RestartsSince (d : DB) (cluster : string) (since : time) : gmap string Z :=
  fold_left add_restart (restarts_since d cluster since) ∅.

(** ** Lemmas *)

Lemma find_update_other {A} (p q : A → bool) (f : A → A) l :
  (∀ y, q (f y) = q y) → (∀ y, y ∈ l → q y = true → p y = false) →
  List.find q (update_where p f l) = List.find q l.
Proof.
  intros Hq Hp. induction l as [|y l IH]; simpl; [done|].
  destruct (q y) eqn:E.
  - rewrite (Hp y) by (done || by left). by rewrite E.
  - rewrite IH by (intros z Hz; apply Hp; by right). destruct (p y); rewrite ?Hq, E; done.
Qed.

Lemma cluster_by_name_some d name c : cluster_by_name d name = Some c → c ∈ kube_clusters d ∧ cl_name c = name.
Proof.
  unfold cluster_by_name. intros H. apply find_some in H as [Hin He].
  unfold cluster_named in He. by rewrite <- list_elem_of_In, str_eq_spec in *.
Qed.

Lemma find_append {A} (q : A → bool) l x :
  List.find q (l ++ [x]) = match List.find q l with Some y => Some y | None => if q x then Some x else None end.
Proof. induction l as [|y l IH]; simpl; [done|]. by destruct (q y). Qed.

(** The table of clusters, with ids and names that differ. *)
Record clusters_wf (d : DB) : Prop := {
  clw_ids : NoDup (map cl_id (kube_clusters d));
  clw_names : NoDup (map cl_name (kube_clusters d)) }.

Lemma update_cluster_lookup d c f name :
  clusters_wf d → cluster_by_name d name = Some c → (∀ x, cl_name (f x) = cl_name x) →
  cluster_by_name (update_cluster (cl_id c) f d) name = Some (f c)
  ∧ ∀ other, other ≠ name → cluster_by_name (update_cluster (cl_id c) f d) other = cluster_by_name d other.
Proof.
  intros [Hids Hnames] Hc Hf. pose proof (cluster_by_name_some _ _ _ Hc) as [Hin Hn].
  assert (Hsame : ∀ y, y ∈ kube_clusters d → cl_id y = cl_id c → y = c) by (intros y ? ?; by eapply (NoDup_map_inj cl_id)).
  unfold cluster_by_name, update_cluster in *. cbn. split.
  - clear Hids Hnames. revert Hc Hsame. induction (kube_clusters d) as [|y l IH]; simpl; [done|].
    intros Hc Hsame. destruct (cluster_named name y) eqn:E.
    + injection Hc as ->. rewrite Z.eqb_refl. unfold cluster_named in *. by rewrite Hf, E.
    + destruct (Z.eqb_spec (cl_id y) (cl_id c)) as [Heq|Hne].
      { rewrite (Hsame y) in E by (done || by left). apply find_some in Hc as [_ Hc]. congruence. }
      rewrite E. apply IH; [apply find_some in Hc as [Hc _]; by rewrite list_elem_of_In|done|].
      intros z Hz. apply Hsame. by right.
  - intros other Hne. apply find_update_other.
    + intros y. unfold cluster_named. by rewrite Hf.
    + intros y Hy Hq. apply not_true_iff_false. rewrite Z.eqb_eq. intros Heq.
      rewrite (Hsame y Hy Heq) in Hq. unfold cluster_named in Hq. apply str_eq_spec in Hq. congruence.
Qed.

(** Restart rows of a workload add up. *)
Lemma RestartsSince_lookup l : ∀ m k,
  fold_left add_restart l m !! k =
    match List.filter (λ r, str_eq (restart_key r) k) l with
    | [] => m !! k
    | rows => Some (default 0 (m !! k) + zsum (λ r, rs_Count (kr_restart r)) rows)
    end.
Proof.
  induction l as [|r l IH]; intros m k; simpl; [done|]. rewrite IH. unfold add_restart at 1 2.
  destruct (str_eq (restart_key r) k) eqn:E.
  - apply str_eq_spec in E as <-. rewrite lookup_insert_eq. cbn.
    destruct (List.filter _ l) as [|r' rows]; cbn; f_equal; lia.
  - assert (restart_key r ≠ k) by (rewrite <- str_eq_spec; congruence). by rewrite !lookup_insert_ne.
Qed.

(** ** Properties *)

(** C30: [SaveClusterReport].  A report for a cluster another host reports is
    refused and changes nothing.  Otherwise the cluster belongs to the
    reporting host, or the report is late; the kept state's time never goes
    back; a report that could not read the API keeps the state and records
    no restarts; a new state records exactly the restarts since the state it
    replaces, and one row of counts.  Other clusters keep their rows. *)
Theorem SaveClusterReport_correct (d : DB) (host : string) (hid : Z) (state : ClusterState) (c : ClusterRow)
  (Hwf : clusters_wf d) (Hhost : hostID d host = Ok hid)
  (Hname : trim_space (cs_Cluster state) ≠ "" ∧ slen (cs_Cluster state) ≤ 100)
  (Hc : cluster_by_name d (cs_Cluster state) = Some c) :
  match SaveClusterReport host state d with
  | (Err e, d') => e = ErrClusterTaken ∧ d' = d ∧ ∃ owner, cl_host_id c = Some owner ∧ owner ≠ hid
  | (Ok _, d') =>
      (cl_host_id c = None ∨ cl_host_id c = Some hid)
      ∧ (∃ c', cluster_by_name d' (cs_Cluster state) = Some c' ∧ cs_Time (cl_state c) ≤ cs_Time (cl_state c')
          ∧ (cs_Error state ≠ "" → cl_state c' = cl_state c ∧ cl_error c' = cs_Error state
               ∧ cl_host_id c' = Some hid ∧ kube_restarts d' = kube_restarts d ∧ kube_metrics d' = kube_metrics d)
          ∧ (cs_Error state = "" → cs_Time state ≤ cs_Time (cl_state c) → d' = d)
          ∧ (cs_Error state = "" → cs_Time (cl_state c) < cs_Time state →
               cl_state c' = state ∧ cl_error c' = "" ∧ cl_host_id c' = Some hid
               ∧ map kr_restart (kube_restarts d') = map kr_restart (kube_restarts d) ++ Restarts (cl_state c) state
               ∧ map km_counts (kube_metrics d') = map km_counts (kube_metrics d) ++ [State_Counts state]))
      ∧ (∀ other, other ≠ cs_Cluster state → cluster_by_name d' other = cluster_by_name d other)
  end.
Proof.
  unfold SaveClusterReport. destruct Hname as [Hn1 Hn2].
  destruct (str_eq (trim_space _) "") eqn:E; [by apply str_eq_spec in E|].
  destruct (Z.ltb_spec 100 (slen (cs_Cluster state))); [lia|]. cbn [orb]. rewrite Hhost, Hc.
  destruct (match cl_host_id c with Some owner => _ | None => _ end) eqn:Eo.
  { split_and!; [done..|]. destruct (cl_host_id c) as [owner|]; [|done]. exists owner. split; [done|lia]. }
  assert (Hown : cl_host_id c = None ∨ cl_host_id c = Some hid).
  { destruct (cl_host_id c) as [owner|]; [right|by left]. f_equal. lia. }
  destruct (str_eq (cs_Error state) "") eqn:Ee; cbn [negb].
  - apply str_eq_spec in Ee. destruct (Z.leb_spec (cs_Time state) (cs_Time (cl_state c))).
    { split_and!; [done| |done]. exists c. split_and!; [done|lia|congruence|done|lia]. }
    destruct (update_cluster_lookup d c (cluster_state hid state (unix_time (cs_Time state))) _ Hwf Hc (λ _, eq_refl)) as [H1 H2].
    split_and!; [done| |exact H2]. eexists. split_and!; [exact H1|cbn; lia|congruence|lia|].
    intros _ _. unfold saveClusterMetrics, update_cluster. cbn. split_and!; try done.
    + rewrite map_app, map_map. cbn. by rewrite map_id.
    + by rewrite map_app.
  - assert (Hne : cs_Error state ≠ "") by (rewrite <- str_eq_spec; congruence).
    destruct (update_cluster_lookup d c (cluster_error hid (cs_Error state) (unix_time (cs_Time state))) _ Hwf Hc (λ _, eq_refl)) as [H1 H2].
    split_and!; [done| |exact H2]. eexists. split_and!; [exact H1|cbn; lia|done|congruence|congruence].
Qed.

Definition ex_cluster_db : DB :=
  set_kube_clusters [{| cl_id := 2; cl_name := "homelab"; cl_host_id := Some 1;
      cl_state := ex_state 100 [ex_pod "a" "u1" 50 3]; cl_error := ""; cl_reported_at := 0 |}]
    (set_hosts [new_host 1 "web1" ""] empty_db).

Lemma SaveClusterReport_correct_witness :
  match SaveClusterReport "web1" (ex_state 130 [ex_pod "a" "u1" 50 5]) ex_cluster_db with
  | (Err _, _) => False
  | (Ok _, d') => map kr_restart (kube_restarts d') = Restarts (ex_state 100 [ex_pod "a" "u1" 50 3]) (ex_state 130 [ex_pod "a" "u1" 50 5])
  end.
Proof.
  pose proof (SaveClusterReport_correct ex_cluster_db "web1" 1 (ex_state 130 [ex_pod "a" "u1" 50 5]) _
    ltac:(split; apply NoDup_singleton) eq_refl ltac:(by vm_compute) eq_refl) as H.
  destruct (SaveClusterReport _ _ _) as [[[]|e] d'].
  - destruct H as (_ & (c' & _ & _ & _ & _ & H) & _). apply H; [done|by vm_compute].
  - destruct H as (_ & _ & owner & Ho & Hne). injection Ho as <-. done.
Defined.
