(* ===== verification/StoreRules.v ===== *)
(** * Alert rules in the database: src/internal/store/rules.go.

    A rule is kept as the JSON of an [AlertConfig]; the model keeps the
    record itself (encoding/json reads back what it wrote). *)
From S2P Require Import Prelude GoStrings GoFloat GoTime Errors Monitor Alerts Kube Tasks Database StoreHosts.
From S2P Require Import StoreAlerts.
Local Open Scope Z_scope.

(** The rule SyMon adds itself *)
Definition DefaultHeartbeat : AlertConfig := {|
  rule_Name := "Host not reporting"; rule_Description := "Added by SyMon for every host";
  rule_MetricName := PING; rule_IsCustom := false; rule_Op := "";
  rule_Template := "{subject}" +:+ str1 10 +:+ "{serverName} has sent nothing for over {triggerInterval} seconds";
  rule_WarnThreshold := 0; rule_CriticalThreshold := 0; rule_TriggerIntveral := 300;
  rule_Servers := [AllHosts]; rule_Endpoint := ""; rule_ExpectedHTTPCode := 0; rule_Method := "";
  rule_CustomCACert := ""; rule_POSTContentType := ""; rule_POSTBody := ""; rule_Disk := ""; rule_Service := "";
  rule_Cluster := ""; rule_Namespace := ""; rule_Channels := []; rule_Email := false; rule_Pagerduty := false;
  rule_Slack := false; rule_SlackChannel := ""; rule_CertWarnDays := None; rule_CertCriticalDays := None |}.

Record AlertRule := {
  ar_ID : Z; ar_Enabled : bool; ar_Rule : AlertConfig; ar_UpdatedAt : time; ar_UpdatedBy : string }.

Definition scan_rule (r : RuleRow) : AlertRule := {|
  ar_ID := ru_id r; ar_Enabled := ru_enabled r; ar_Rule := ru_rule r; ar_UpdatedAt := ru_updated_at r;
  ar_UpdatedBy := ru_updated_by r |}.

(** SELECT ... FROM alert_rules WHERE p ORDER BY name *)
Definition queryRules (d : DB) (p : RuleRow → bool) : list AlertRule :=
  map scan_rule (stable_sort (λ a b, string_leb (ru_name a) (ru_name b)) (select_where p (alert_rules d))).
Definition AlertRules (d : DB) : list AlertRule := queryRules d (λ _, true).
Definition EnabledRules (d : DB) : list AlertConfig := map ar_Rule (queryRules d ru_enabled).

Definition rule_with (name : string) (r : RuleRow) : bool := str_eq (ru_name r) name.
Definition name_taken (d : DB) (name : string) : bool := exists_where (rule_with name) (alert_rules d).

Section Operations.
Context `{UrlParse}.

(** The checked rule: [Validate] trims some of its fields. *)
Definition checkRule (rule : AlertConfig) : result error AlertConfig :=
  match Validate rule with
  | (Ok _, rule') => Ok rule'
  | (Err e, _) => Err (ErrInvalid (error_text e))
  end.

Definition new_rule (now : time) (id : Z) (rule : AlertConfig) (enabled : bool) (by_ : string) : RuleRow := {|
  ru_id := id; ru_name := rule_Name rule; ru_rule := rule; ru_enabled := enabled; ru_updated_at := now;
  ru_updated_by := by_ |}.

(** INSERT INTO alert_rules; the name is unique. *)
Definition insert_rule (now : time) (rule : AlertConfig) (enabled : bool) (by_ : string) : DBM Z := λ d,
  let '(id, d) := next_id d in
  if name_taken d (rule_Name rule) then (Err ErrRuleExists, d)
  else (Ok id, set_alert_rules (alert_rules d ++ [new_rule now id rule enabled by_]) d).

Definition CreateRule (now : time) (rule : AlertConfig) (enabled : bool) (by_ : string) : DBM Z := λ d,
  match checkRule rule with
  | Err e => (Err e, d)
  | Ok rule => transaction (insert_rule now rule enabled by_) d
  end.

(** ** UpdateRule and DeleteRule *)

Definition open_of_rule (rule : string) (a : AlertRow) : bool := str_eq (al_rule a) rule && is_open a.

Definition resolve_row (now : time) (a : AlertRow) : AlertRow :=
  alert_set (al_severity a) (al_value a) now (Some now) a.

Definition resolveRuleAlerts (now : time) (rule : string) : DBM unit := λ d,
  (Ok (), set_alerts (update_where (open_of_rule rule) (resolve_row now) (alerts d)) d).

Definition rename_alert (name : string) (a : AlertRow) : AlertRow := {|
  al_id := al_id a; al_host_id := al_host_id a; al_rule := name; al_metric := al_metric a;
  al_target := al_target a; al_severity := al_severity a; al_value := al_value a;
  al_started_at := al_started_at a; al_updated_at := al_updated_at a; al_resolved_at := al_resolved_at a |}.

(** UPDATE alerts SET rule = name WHERE rule = old AND resolved_at IS NULL:
    the index on open alerts refuses it when an open alert has the new key. *)
Definition rename_open (old name : string) : DBM unit := λ d,
  if existsb (λ a, open_of_rule old a && open_taken (open_key (rename_alert name a)) d) (alerts d)
  then (Err unique_violation, d)
  else (Ok (), set_alerts (update_where (open_of_rule old) (rename_alert name) (alerts d)) d).

Definition rename_check (name : string) (c : EndpointCheck) : EndpointCheck := {|
  ec_Time := ec_Time c; ec_Name := name; ec_URL := ec_URL c; ec_Method := ec_Method c;
  ec_StatusCode := ec_StatusCode c; ec_OK := ec_OK c; ec_Latency := ec_Latency c; ec_Error := ec_Error c;
  ec_CertExpires := ec_CertExpires c |}.

Definition rename_checks (old name : string) : DBM unit := λ d,
  (Ok (), set_endpoint_checks
     (update_where (λ c, str_eq (ec_Name c) old) (rename_check name) (endpoint_checks d)) d).

(** A new name carries open alerts and endpoint checks along. *)
Definition carry_over (oldName name : string) : DBM unit :=
  if str_eq name oldName then mret () else rename_open oldName name;; rename_checks oldName name.

Definition replace_rule (now : time) (id : Z) (rule : AlertConfig) (enabled : bool) (by_ : string) : DBM unit := λ d,
  if exists_where (λ r, rule_with (rule_Name rule) r && negb (ru_id r =? id)) (alert_rules d)
  then (Err ErrRuleExists, d)
  else (Ok (), set_alert_rules
         (update_where (λ r, ru_id r =? id) (λ r, new_rule now (ru_id r) rule enabled by_) (alert_rules d)) d).

Definition rule_by_id (d : DB) (id : Z) : option RuleRow := List.find (λ r, ru_id r =? id) (alert_rules d).

Definition update_rule (now : time) (id : Z) (rule : AlertConfig) (enabled : bool) (by_ : string) : DBM unit := λ d,
  match rule_by_id d id with
  | None => (Err ErrNotFound, d)
  | Some row =>
      let oldName := ru_name row in
      (replace_rule now id rule enabled by_;;
       carry_over oldName (rule_Name rule);;
       (if enabled then mret () else resolveRuleAlerts now (rule_Name rule))) d
  end.

Definition UpdateRule (now : time) (id : Z) (rule : AlertConfig) (enabled : bool) (by_ : string) : DBM unit := λ d,
  match checkRule rule with
  | Err e => (Err e, d)
  | Ok rule => transaction (update_rule now id rule enabled by_) d
  end.

Definition DeleteRule (now : time) (id : Z) : DBM unit := λ d,
  match rule_by_id d id with
  | None => (Err ErrNotFound, d)
  | Some row =>
      transaction (resolveRuleAlerts now (ru_name row))
        (set_alert_rules (delete_where (λ r, ru_id r =? id) (alert_rules d)) d)
  end.

(** ** Setting up and importing *)

Definition RulesSetUp (d : DB) : bool := match rule_setup d with [] => false | _ => true end.

Record RuleSetup := { setup_Done : bool; setup_Imported : Z; setup_Added : list string }.

Definition rule_error (rule : AlertConfig) (e : error) : error := ErrWrap ("rule " +:+ quote (rule_Name rule)) e.

(** The state of the loop: the names seen, and whether a heartbeat for all
    hosts was among the rules. *)
Fixpoint setup_rules (now : time) (names : list string) (all_hosts : bool) (imported : Z) (rules : list AlertConfig)
    : DBM (list string * bool * Z) :=
  match rules with
  | [] => mret (names, all_hosts, imported)
  | rule :: rules' =>
      match checkRule rule with
      | Err e => sfail (rule_error (snd (Validate rule)) e)
      | Ok rule =>
          r ← stry (insert_rule now rule true "");
          match r with
          | Err e => sfail (rule_error rule e)
          | Ok _ =>
              setup_rules now (rule_Name rule :: names)
                (all_hosts || (str_eq (rule_MetricName rule) PING && contains (rule_Servers rule) AllHosts))
                (imported + 1) rules'
          end
      end
  end.

Definition SetupRules (now : time) (rules : list AlertConfig) (source : string) : DBM RuleSetup := λ d,
  if RulesSetUp d then (Ok {| setup_Done := true; setup_Imported := 0; setup_Added := [] |}, d)
  else transaction (
    res ← setup_rules now [] false 0 rules;
    let '(names, all_hosts, imported) := res in
    added ← (if negb all_hosts && negb (contains names (rule_Name DefaultHeartbeat))
             then _ ← insert_rule now DefaultHeartbeat true ""; mret [rule_Name DefaultHeartbeat]
             else mret []);
    smodify (λ d, set_rule_setup (rule_setup d ++ [(source, imported)]) d);;
    mret {| setup_Done := false; setup_Imported := imported; setup_Added := added |}) d.

(** INSERT ... ON CONFLICT (name) DO UPDATE SET rule, updated_at and
    updated_by: true for a row it inserted *)
Definition import_rule (now : time) (rule : AlertConfig) (by_ : string) : DBM bool := λ d,
  if name_taken d (rule_Name rule) then
    (Ok false, set_alert_rules (update_where (rule_with (rule_Name rule))
       (λ r, {| ru_id := ru_id r; ru_name := ru_name r; ru_rule := rule; ru_enabled := ru_enabled r;
                ru_updated_at := now; ru_updated_by := by_ |}) (alert_rules d)) d)
  else
    let '(id, d) := next_id d in
    (Ok true, set_alert_rules (alert_rules d ++ [new_rule now id rule true by_]) d).

(** The rules are all checked while the batch is filled, before it is sent. *)
Fixpoint check_rules (rules : list AlertConfig) : result error (list AlertConfig) :=
  match rules with
  | [] => Ok []
  | rule :: rules' =>
      match checkRule rule with
      | Err e => Err (rule_error (snd (Validate rule)) e)
      | Ok rule => rbind (check_rules rules') (λ l, Ok (rule :: l))
      end
  end.

Fixpoint import_rules (now : time) (by_ : string) (added updated : Z) (rules : list AlertConfig) : DBM (Z * Z) :=
  match rules with
  | [] => mret (added, updated)
  | rule :: rules' =>
      inserted ← import_rule now rule by_;
      if (inserted : bool) then import_rules now by_ (added + 1) updated rules'
      else import_rules now by_ added (updated + 1) rules'
  end.

Definition ImportRules (now : time) (rules : list AlertConfig) (by_ : string) : DBM (Z * Z) := λ d,
  match check_rules rules with
  | Err e => (Err e, d)
  | Ok rules => transaction (import_rules now by_ 0 0 rules) d
  end.
End Operations.
