(* ===== verification/StoreSchema.v ===== *)
(** * The schema of src/internal/store/migrations, and that every operation of
    the store keeps it: primary keys and unique indexes hold no key twice, new
    ids are new, and what a foreign key names is there. *)
From S2P Require Import Prelude GoStrings GoFloat GoTime Errors Monitor Alerts Json Kube Tasks Database StoreHosts.
From S2P Require Import StoreUsers StoreEnrollment Snapshot StoreIngest StoreTasks StoreAlerts StoreNotifications StoreKube StoreRules.
Local Open Scope Z_scope.

#[local] Arguments update_where : simpl never.
#[local] Arguments delete_where : simpl never.
#[local] Arguments exists_where : simpl never.

(** ** Constraints *)

(** A unique index; a row it leaves out has the key [None]. *)
Definition keys {A K} (key : A → option K) (l : list A) : list K := omap key l.
Definition unique {A K} (key : A → option K) (l : list A) : Prop := NoDup (keys key l).
(** What the identity column gives next is larger than all it gave. *)
Definition below {A} (id : A → Z) (s : Z) (l : list A) : Prop := ∀ x, x ∈ l → id x < s.
Definition references {A} (fk : A → option Z) (ids : list Z) (l : list A) : Prop :=
  ∀ x i, x ∈ l → fk x = Some i → i ∈ ids.
Definition primary {A} (id : A → Z) : A → option Z := λ x, Some (id x).

Section Constraints.
Context {A K : Type} (key : A → option K).

Lemma elem_of_keys k l : k ∈ keys key l ↔ ∃ x, x ∈ l ∧ key x = Some k.
Proof. apply list_elem_of_omap. Qed.
Lemma keys_cons x l : keys key (x :: l) = match key x with Some k => k :: keys key l | None => keys key l end.
Proof. done. Qed.

Lemma unique_app l x : unique key l → (∀ y k, y ∈ l → key x = Some k → key y ≠ Some k) → unique key (l ++ [x]).
Proof.
  intros Hl Hx. unfold unique, keys. rewrite omap_app. fold (keys key l). cbn. destruct (key x) as [k|] eqn:E; [|by rewrite app_nil_r].
  apply NoDup_app. split_and!; [done| |apply NoDup_singleton].
  intros k' Hk' Hk. apply list_elem_of_singleton in Hk as ->. apply elem_of_keys in Hk' as (y & Hy & Ey).
  by apply (Hx y k Hy).
Qed.

Lemma unique_update (p : A → bool) (f : A → A) l : unique key l →
  (∀ x y k, x ∈ l → y ∈ l → key (if p x then f x else x) = Some k → key (if p y then f y else y) = Some k →
     ∃ k', key x = Some k' ∧ key y = Some k') →
  unique key (update_where p f l).
Proof.
  unfold unique, update_where. induction l as [|x l IH]; [done|]. cbn [map]. rewrite !keys_cons. intros Hl H.
  assert (IH' : NoDup (keys key (map (λ x, if p x then f x else x) l))).
  { apply IH; [destruct (key x); [by inversion Hl|done]|]. intros y z k Hy Hz. apply H; by right. }
  destruct (key (if p x then f x else x)) as [k|] eqn:E; [|done]. constructor; [|done].
  rewrite elem_of_keys. intros (y & (z & -> & Hz)%list_elem_of_fmap & Ez).
  destruct (H x z k) as (k' & Ex & Ey); [by left|by right|done|done|]. rewrite Ex in Hl.
  apply NoDup_cons in Hl as [Hn _]. apply Hn, elem_of_keys. eauto.
Qed.

Lemma unique_update_less (p : A → bool) (f : A → A) l : unique key l →
  (∀ x k, x ∈ l → p x = true → key (f x) = Some k → key x = Some k) → unique key (update_where p f l).
Proof.
  intros Hl H. apply unique_update; [done|]. intros x y k Hx Hy.
  assert (E : ∀ x, x ∈ l → key (if p x then f x else x) = Some k → key x = Some k)
    by (intros z Hz; destruct (p z) eqn:Ez; eauto).
  eauto.
Qed.

Lemma unique_delete (p : A → bool) l : unique key l → unique key (delete_where p l).
Proof.
  unfold unique, delete_where. induction l as [|x l IH]; [done|]. cbn [List.filter]. rewrite keys_cons. intros Hl.
  assert (IH' : NoDup (keys key (List.filter (λ x, negb (p x)) l))) by (apply IH; destruct (key x); [by inversion Hl|done]).
  destruct (p x); cbn [negb]; [done|]. rewrite keys_cons. destruct (key x) as [k|] eqn:E; [|done]. apply NoDup_cons in Hl as [Hn Hl].
  constructor; [|done]. rewrite elem_of_keys. intros (y & Hy & Ey). apply Hn, elem_of_keys. exists y. split; [|done].
  by apply elem_of_delete_where in Hy as [Hy _].
Qed.

(** Rows with one key are one row. *)
Lemma unique_inj l x y k : unique key l → x ∈ l → y ∈ l → key x = Some k → key y = Some k → x = y.
Proof.
  unfold unique. induction l as [|z l IH]; [by intros _ ?%not_elem_of_nil|]. rewrite keys_cons.
  intros Hl [->|Hx]%elem_of_cons [->|Hy]%elem_of_cons Ex Ey; try done.
  - rewrite Ex in Hl. apply NoDup_cons in Hl as [Hn _]. destruct Hn. apply elem_of_keys. eauto.
  - rewrite Ey in Hl. apply NoDup_cons in Hl as [Hn _]. destruct Hn. apply elem_of_keys. eauto.
  - apply IH; try done. destruct (key z); [by inversion Hl|done].
Qed.
End Constraints.

Section Rows.
Context {A : Type}.

Lemma below_app id s (l : list A) x : below id s l → id x < s → below id s (l ++ [x]).
Proof. intros Hl Hx y [Hy|Hy]%elem_of_app; [by apply Hl|]. by apply list_elem_of_singleton in Hy as ->. Qed.
Lemma below_more id s s' (l : list A) : below id s l → s ≤ s' → below id s' l.
Proof. intros Hl Hs x Hx%Hl. lia. Qed.
Lemma below_update id s p f (l : list A) : below id s l → (∀ x, id (f x) = id x) → below id s (update_where p f l).
Proof. intros Hl Hf y (x & Hx & ->)%elem_of_update_where. destruct (p x); rewrite ?Hf; by apply Hl. Qed.
Lemma below_delete id s p (l : list A) : below id s l → below id s (delete_where p l).
Proof. intros Hl x [Hx _]%elem_of_delete_where. by apply Hl. Qed.

Lemma primary_app id s (l : list A) x : unique (primary id) l → below id s l → s ≤ id x → unique (primary id) (l ++ [x]).
Proof. intros Hl Hs Hx. apply unique_app; [done|]. intros y k Hy%Hs [= <-] [= E]. lia. Qed.
Lemma unique_same {K} (key : A → option K) p f l : unique key l → (∀ x, key (f x) = key x) →
  unique key (update_where p f l).
Proof. intros Hl Hf. apply unique_update_less; [done|]. intros x k _ _. by rewrite Hf. Qed.

Lemma references_more fk ids ids' (l : list A) : references fk ids l → (∀ i, i ∈ ids → i ∈ ids') → references fk ids' l.
Proof. intros Hl Hi x i Hx Ex. by apply Hi, (Hl x). Qed.
Lemma references_app fk ids (l : list A) x : references fk ids l → (∀ i, fk x = Some i → i ∈ ids) → references fk ids (l ++ [x]).
Proof.
  intros Hl Hx y i [Hy|Hy]%elem_of_app; [by apply Hl|]. apply list_elem_of_singleton in Hy as ->. apply Hx.
Qed.
Lemma references_update fk ids p f (l : list A) : references fk ids l →
  (∀ x i, x ∈ l → fk (f x) = Some i → fk x = Some i ∨ i ∈ ids) → references fk ids (update_where p f l).
Proof.
  intros Hl Hf y i (x & Hx & ->)%elem_of_update_where. destruct (p x); [|by apply Hl].
  intros [E|Hi]%Hf; [by eapply Hl|done|done].
Qed.
Lemma references_delete fk ids p (l : list A) : references fk ids l → references fk ids (delete_where p l).
Proof. intros Hl x i [Hx _]%elem_of_delete_where. by apply Hl. Qed.

(** ON DELETE CASCADE *)
Lemma references_cascade {B} fk (id : B → Z) (q : B → bool) p (l : list A) (t : list B) :
  references fk (map id t) l → (∀ x y, x ∈ l → y ∈ t → fk x = Some (id y) → q y = true → p x = true) →
  references fk (map id (delete_where q t)) (delete_where p l).
Proof.
  intros Hl Hp x i [Hx Npx]%elem_of_delete_where Ex. destruct (proj1 (list_elem_of_fmap _ _ _) (Hl x i Hx Ex)) as (y & -> & Hy).
  apply list_elem_of_fmap_2, elem_of_delete_where. split; [done|]. destruct (q y) eqn:Eq; [|done].
  by rewrite (Hp x y) in Npx.
Qed.
End Rows.

Create HintDb schema.
#[export] Hint Resolve unique_delete below_delete references_delete : schema.

(** ** The tables *)

Definition open_index (a : AlertRow) : option (option Z * string * string * string) :=
  if is_open a then Some (open_key a) else None.
Definition active_index (r : RunRow) : option Z := if is_active r then Some (tr_host_id r) else None.

Record hosts_ok (s : Z) (l : list HostRow) : Prop := {
  hs_ids : unique (primary h_id) l; hs_new : below h_id s l; hs_names : unique (λ h, Some (h_name h)) l }.
Record alerts_ok (s : Z) (host_ids : list Z) (l : list AlertRow) : Prop := {
  as_ids : unique (primary al_id) l; as_new : below al_id s l; as_hosts : references al_host_id host_ids l;
  as_open : unique open_index l }.
Record rules_ok (s : Z) (l : list RuleRow) : Prop := {
  rs_ids : unique (primary ru_id) l; rs_new : below ru_id s l; rs_names : unique (λ r, Some (ru_name r)) l }.
Record channels_ok (s : Z) (l : list ChannelRow) : Prop := {
  cs_ids : unique (primary ch_id) l; cs_new : below ch_id s l; cs_names : unique (λ c, Some (ch_name c)) l }.
Record notes_ok (s : Z) (alert_ids channel_ids : list Z) (l : list NoteRow) : Prop := {
  ns_ids : unique (primary no_id) l; ns_new : below no_id s l;
  ns_alerts : references (primary no_alert_id) alert_ids l; ns_channels : references (primary no_channel_id) channel_ids l }.
Record task_runs_ok (s : Z) (host_ids : list Z) (l : list RunRow) : Prop := {
  ts_ids : unique (primary tr_id) l; ts_new : below tr_id s l; ts_hosts : references (primary tr_host_id) host_ids l;
  ts_active : unique active_index l }.
Record users_ok (s : Z) (l : list UserRow) : Prop := {
  us_ids : unique (primary us_id) l; us_new : below us_id s l; us_names : unique (λ u, Some (us_name u)) l }.
Record sessions_ok (user_ids : list Z) (l : list SessionRow) : Prop := {
  ss_hashes : unique (λ s, Some (se_token_hash s)) l; ss_users : references (primary se_user_id) user_ids l }.
Record tokens_ok (s : Z) (l : list TokenRow) : Prop := {
  tk_ids : unique (primary tk_id) l; tk_new : below tk_id s l; tk_hashes : unique (λ t, Some (tk_hash t)) l }.
Record credentials_ok (host_ids : list Z) (l : list CredentialRow) : Prop := {
  cr_ids : unique (primary cr_host_id) l; cr_hashes : unique (λ c, Some (cr_secret_hash c)) l;
  cr_hosts : references (primary cr_host_id) host_ids l }.
Record clusters_ok (s : Z) (host_ids : list Z) (l : list ClusterRow) : Prop := {
  cl_ids : unique (primary cl_id) l; cl_new : below cl_id s l; cl_names : unique (λ c, Some (cl_name c)) l;
  cl_hosts : references cl_host_id host_ids l }.
Record latest_ok (host_ids : list Z) (l : list LatestRow) : Prop := {
  lt_ids : unique (primary lt_host_id) l; lt_hosts : references (primary lt_host_id) host_ids l }.

Record schema (d : DB) : Prop := {
  sc_hosts : hosts_ok (seq d) (hosts d);
  sc_alerts : alerts_ok (seq d) (map h_id (hosts d)) (alerts d);
  sc_rules : rules_ok (seq d) (alert_rules d);
  sc_channels : channels_ok (seq d) (channels d);
  sc_notes : notes_ok (seq d) (map al_id (alerts d)) (map ch_id (channels d)) (notifications d);
  sc_runs : task_runs_ok (seq d) (map h_id (hosts d)) (task_runs d);
  sc_users : users_ok (seq d) (users d);
  sc_sessions : sessions_ok (map us_id (users d)) (user_sessions d);
  sc_tokens : tokens_ok (seq d) (enrollment_tokens d);
  sc_credentials : credentials_ok (map h_id (hosts d)) (agent_credentials d);
  sc_clusters : clusters_ok (seq d) (map h_id (hosts d)) (kube_clusters d);
  sc_latest : latest_ok (map h_id (hosts d)) (host_latest d) }.

Lemma schema_empty : schema empty_db.
Proof. split; cbn; split; try apply NoDup_nil_2; intros ???%not_elem_of_nil || intros ??%not_elem_of_nil; done. Qed.

(** ** Writing one table *)

Ltac more := intros []; split; eauto using below_more, references_more.
Lemma hosts_more s s' l : hosts_ok s l → s ≤ s' → hosts_ok s' l. Proof. more. Qed.
Lemma rules_more s s' l : rules_ok s l → s ≤ s' → rules_ok s' l. Proof. more. Qed.
Lemma channels_more s s' l : channels_ok s l → s ≤ s' → channels_ok s' l. Proof. more. Qed.
Lemma users_more s s' l : users_ok s l → s ≤ s' → users_ok s' l. Proof. more. Qed.
Lemma tokens_more s s' l : tokens_ok s l → s ≤ s' → tokens_ok s' l. Proof. more. Qed.
Definition all_in (ids ids' : list Z) : Prop := ∀ i, i ∈ ids → i ∈ ids'.
Lemma alerts_more s s' ids ids' l : alerts_ok s ids l → s ≤ s' → all_in ids ids' → alerts_ok s' ids' l. Proof. more. Qed.
Lemma runs_more s s' ids ids' l : task_runs_ok s ids l → s ≤ s' → all_in ids ids' → task_runs_ok s' ids' l. Proof. more. Qed.
Lemma clusters_more s s' ids ids' l : clusters_ok s ids l → s ≤ s' → all_in ids ids' → clusters_ok s' ids' l. Proof. more. Qed.
Lemma notes_more s s' ids ids' chs chs' l : notes_ok s ids chs l → s ≤ s' → all_in ids ids' → all_in chs chs' →
  notes_ok s' ids' chs' l.
Proof. more. Qed.
Lemma sessions_more ids ids' l : sessions_ok ids l → all_in ids ids' → sessions_ok ids' l. Proof. more. Qed.
Lemma credentials_more ids ids' l : credentials_ok ids l → all_in ids ids' → credentials_ok ids' l. Proof. more. Qed.
Lemma latest_more ids ids' l : latest_ok ids l → all_in ids ids' → latest_ok ids' l. Proof. more. Qed.

Lemma all_in_refl ids : all_in ids ids. Proof. by intros i. Qed.
Lemma all_in_app {A} (id : A → Z) l l' : all_in (map id l) (map id (l ++ l')).
Proof. intros i Hi. rewrite map_app. apply elem_of_app. by left. Qed.
Lemma all_in_update {A} (id : A → Z) p f l : (∀ x, id (f x) = id x) → all_in (map id l) (map id (update_where p f l)).
Proof. intros Hf. rewrite map_update_where by done. apply all_in_refl. Qed.

#[export] Hint Resolve hosts_more rules_more channels_more users_more tokens_more alerts_more runs_more clusters_more
  notes_more sessions_more credentials_more latest_more all_in_refl all_in_app all_in_update : schema.
#[export] Hint Extern 5 (_ ≤ _) => lia : schema.

(** ** Writing one table *)

Ltac written := intros []; split; cbn; eauto with schema.

Lemma schema_seq d : schema d → schema (set_seq (seq d + 1) d). Proof. written. Qed.
Lemma schema_hosts l d : schema d → hosts_ok (seq d) l → all_in (map h_id (hosts d)) (map h_id l) → schema (set_hosts l d).
Proof. written. Qed.
Lemma schema_alerts l d : schema d → alerts_ok (seq d) (map h_id (hosts d)) l → all_in (map al_id (alerts d)) (map al_id l) →
  schema (set_alerts l d).
Proof. written. Qed.
Lemma schema_rules l d : schema d → rules_ok (seq d) l → schema (set_alert_rules l d). Proof. written. Qed.
Lemma schema_channels l d : schema d → channels_ok (seq d) l → all_in (map ch_id (channels d)) (map ch_id l) →
  schema (set_channels l d).
Proof. written. Qed.
Lemma schema_notes l d : schema d → notes_ok (seq d) (map al_id (alerts d)) (map ch_id (channels d)) l →
  schema (set_notifications l d).
Proof. written. Qed.
Lemma schema_runs l d : schema d → task_runs_ok (seq d) (map h_id (hosts d)) l → schema (set_task_runs l d).
Proof. written. Qed.
Lemma schema_users l d : schema d → users_ok (seq d) l → all_in (map us_id (users d)) (map us_id l) → schema (set_users l d).
Proof. written. Qed.
Lemma schema_sessions l d : schema d → sessions_ok (map us_id (users d)) l → schema (set_user_sessions l d).
Proof. written. Qed.
Lemma schema_tokens l d : schema d → tokens_ok (seq d) l → schema (set_enrollment_tokens l d). Proof. written. Qed.
Lemma schema_credentials l d : schema d → credentials_ok (map h_id (hosts d)) l → schema (set_agent_credentials l d).
Proof. written. Qed.
Lemma schema_clusters l d : schema d → clusters_ok (seq d) (map h_id (hosts d)) l → schema (set_kube_clusters l d).
Proof. written. Qed.
Lemma schema_latest l d : schema d → latest_ok (map h_id (hosts d)) l → schema (set_host_latest l d). Proof. written. Qed.

(** ** Inserting, updating and deleting rows *)

Section Inserting.
Context {A : Type} (id : A → Z).

Lemma primary_new s l x : unique (primary id) l → below id s l → id x = s → unique (primary id) (l ++ [x]).
Proof. intros Hl Hs <-. by eapply primary_app. Qed.
Lemma below_new s l x : below id s l → id x = s → below id (s + 1) (l ++ [x]).
Proof. intros Hl <-. apply below_app; [|lia]. eapply below_more; [done|lia]. Qed.
Lemma name_new {K} (name : A → K) l x : unique (λ x, Some (name x)) l → (∀ y, y ∈ l → name y ≠ name x) →
  unique (λ x, Some (name x)) (l ++ [x]).
Proof. intros Hl Hx. apply unique_app; [done|]. intros y k Hy [= <-] [= E]. by apply (Hx y). Qed.
Lemma references_in (fk : A → Z) ids l x : references (primary fk) ids l → fk x ∈ ids → references (primary fk) ids (l ++ [x]).
Proof. intros Hl Hx. apply references_app; [done|]. by intros i [= <-]. Qed.
Lemma references_kept fk ids p f (l : list A) : references fk ids l → (∀ x, fk (f x) = fk x) →
  references fk ids (update_where p f l).
Proof. intros Hl Hf. apply references_update; [done|]. intros x i _. rewrite Hf. auto. Qed.
Lemma references_set ids p f (fk : A → option Z) i l : references fk ids l → i ∈ ids →
  (∀ x, fk (f x) = Some i) → references fk ids (update_where p f l).
Proof. intros Hl Hi Hf. apply references_update; [done|]. intros x j _. rewrite Hf. intros [= <-]. auto. Qed.
End Inserting.

#[export] Hint Resolve primary_new below_new name_new references_in references_app references_kept unique_same below_update : schema.
#[export] Hint Extern 1 (primary _ (_ _) = primary _ _) => reflexivity : schema.

Lemma new_key {A} (key : A → string) k (l : list A) : (∀ x, x ∈ l → str_eq (key x) k = false) → ∀ x, x ∈ l → key x ≠ k.
Proof. intros H x Hx <-. specialize (H x Hx). by rewrite str_eq_refl in H. Qed.

Section Store.
Context `{Crypto, ParseFloat, SnapshotJSON, UrlParse}.

(** *** Hosts *)

Lemma hosts_ok_update s p f l : hosts_ok s l → (∀ h, h_id (f h) = h_id h) → (∀ h, h_name (f h) = h_name h) →
  hosts_ok s (update_where p f l).
Proof.
  intros [] Hi Hn. split; [apply unique_same; [done|]; intros h; unfold primary; by rewrite Hi|by apply below_update|].
  apply unique_same; [done|]. intros h. by rewrite Hn.
Qed.
Lemma update_hosts_schema p f d : schema d → (∀ h, h_id (f h) = h_id h) → (∀ h, h_name (f h) = h_name h) →
  schema (update_hosts p f d).
Proof. intros Hd Hi Hn. apply schema_hosts; [done|by apply hosts_ok_update; [apply Hd|..]|by apply all_in_update]. Qed.

Lemma insert_host_schema name timezone d : schema d → host_by_name d name = None →
  let d' := set_seq (seq d + 1) d in schema (set_hosts (hosts d' ++ [new_host (seq d) name timezone]) d').
Proof.
  intros Hd Hn d'. apply schema_hosts; [by apply schema_seq| |apply all_in_app]. destruct (sc_hosts d Hd).
  split; cbn; [by eauto with schema..|]. apply name_new; [done|]. apply new_key. exact (proj1 (find_nothing _ _) Hn).
Qed.

Lemma AddHost_schema name timezone d : schema d → schema (AddHost name timezone d).2.
Proof.
  intros Hd. unfold AddHost, next_id. change (host_by_name (set_seq _ _) name) with (host_by_name d name).
  destruct (host_by_name d name) eqn:E; [by apply schema_seq|].
  by apply insert_host_schema.
Qed.
Lemma Heartbeat_schema name at_ d : schema d → schema (Heartbeat name at_ d).2.
Proof. intros Hd. unfold Heartbeat. case_match; [done|]. by apply update_hosts_schema. Qed.
Lemma AgentCheckIn_schema host at_ version arch err d : schema d → schema (AgentCheckIn host at_ version arch err d).2.
Proof. intros Hd. unfold AgentCheckIn. case_match; [|done]. by apply update_hosts_schema. Qed.
Lemma RequestAgentUpdate_schema now names version url d : schema d → schema (RequestAgentUpdate now names version url d).2.
Proof. intros Hd. by apply update_hosts_schema. Qed.
Lemma SaveHostTasks_schema host l d : schema d → schema (SaveHostTasks host l d).2.
Proof. intros Hd. by apply update_hosts_schema. Qed.

(** *** Alerts *)

Lemma alerts_ok_update s ids p f l : alerts_ok s ids l → (∀ a, al_id (f a) = al_id a) →
  (∀ a, al_host_id (f a) = al_host_id a) → (∀ a k, open_index (f a) = Some k → open_index a = Some k) →
  alerts_ok s ids (update_where p f l).
Proof.
  intros [] Hi Hh Ho. split; [apply unique_same; [done|]; intros a; unfold primary; by rewrite Hi
    |by apply below_update|by apply references_kept|]. apply unique_update_less; eauto.
Qed.
Lemma set_alerts_schema p f d : schema d → (∀ a, al_id (f a) = al_id a) → (∀ a, al_host_id (f a) = al_host_id a) →
  (∀ a k, open_index (f a) = Some k → open_index a = Some k) → schema (set_alerts (update_where p f (alerts d)) d).
Proof. intros Hd Hi Hh Ho. apply schema_alerts; [done|by apply alerts_ok_update; [apply Hd|..]|by apply all_in_update]. Qed.

Lemma delete_alerts_schema p d : schema d → schema (delete_alerts p d).
Proof.
  intros []. unfold delete_alerts. split; cbn; try assumption.
  - destruct sc_alerts0. split; auto with schema.
  - destruct sc_notes0. split; auto with schema. apply references_cascade; [done|].
    intros n a Hn Ha [= E] Hp. apply bool_decide_true. rewrite E. by apply list_elem_of_fmap_2, elem_of_select_where.
Qed.

Lemma open_index_kept severity value at_ a k :
  open_index (alert_set severity value at_ (al_resolved_at a) a) = Some k → open_index a = Some k.
Proof. done. Qed.
Lemma open_index_resolved severity value at_ t a k :
  open_index (alert_set severity value at_ (Some t) a) = Some k → open_index a = Some k.
Proof. done. Qed.

Lemma CreateAlert_schema alert d : schema d → schema (CreateAlert alert d).2.
Proof.
  intros Hd. unfold CreateAlert. destruct (if str_eq (alert_Host alert) "" then _ else _) as [host_id|e] eqn:E; [|done]. unfold next_id.
  set (row := new_alert _ _ _). destruct (open_taken (open_key row) _) eqn:Ho; [by apply schema_seq|].
  apply schema_alerts; [by apply schema_seq| |apply all_in_app]. destruct (sc_alerts d Hd).
  split; cbn; [by eauto with schema..| |].
  - apply references_app; [done|]. cbn. intros i ->. destruct (str_eq _ _); [done|]. unfold hostID in E.
    destruct (host_by_name d _) as [h|] eqn:Eh; [|done]. injection E as <-.
    apply list_elem_of_fmap_2. by apply host_by_name_some in Eh as [Hh _].
  - apply unique_app; [done|]. intros a k Ha [= <-]. unfold open_index. destruct (is_open a) eqn:Ea; [|done].
    intros Ek%(inj Some). unfold open_taken in Ho. rewrite exists_where_false in Ho. specialize (Ho a Ha).
    by rewrite Ea, Ek, bool_decide_true in Ho.
Qed.
Lemma UpdateAlert_schema id severity value at_ d : schema d → schema (UpdateAlert id severity value at_ d).2.
Proof. intros Hd. apply set_alerts_schema; [done..|]. intros a k. apply open_index_kept. Qed.
Lemma ResolveAlert_schema id value at_ d : schema d → schema (ResolveAlert id value at_ d).2.
Proof. intros Hd. by apply set_alerts_schema. Qed.
Lemma PurgeResolvedAlerts_schema now keep d : schema d → schema (PurgeResolvedAlerts now keep d).2.
Proof. apply delete_alerts_schema. Qed.
Lemma SaveEndpointCheck_schema c d : schema d → schema (SaveEndpointCheck c d).2.
Proof. written. Qed.

(** *** Removing a host *)

Lemma host_gone d h name : schema d → host_by_name d name = Some h → ∀ y, y ∈ hosts d → host_named name y = true → h_id y = h_id h.
Proof.
  intros Hd [Hh Hn]%host_by_name_some y Hy Ey%str_eq_spec. f_equal.
  eapply (unique_inj (λ h, Some (h_name h))); [apply (hs_names _ _ (sc_hosts d Hd))|done..| |]; cbn; [done|by rewrite Hn, Ey].
Qed.

Lemma RemoveHost_schema name d : schema d → schema (RemoveHost name d).2.
Proof.
  intros Hd. unfold RemoveHost. destruct (host_by_name d name) as [h|] eqn:E; [|done]. cbn [snd].
  pose proof (host_gone d h name Hd E) as Hg.
  destruct (delete_alerts_schema (λ a, of_host (h_id h) (al_host_id a)) d Hd). destruct Hd.
  split; cbn; try assumption.
  - destruct sc_hosts1. split; auto with schema.
  - destruct sc_alerts1. split; auto with schema. apply references_cascade; [done|]. intros a y Ha Hy Ea Ny.
    unfold of_host. by rewrite Ea, (Hg y Hy Ny), bool_decide_true.
  - destruct sc_runs1. split; auto with schema. apply references_cascade; [done|]. intros r y Hr Hy [= Er] Ny.
    pose proof (Hg y Hy Ny). lia.
  - destruct sc_credentials1. split; auto with schema. apply references_cascade; [done|]. intros r y Hr Hy [= Er] Ny.
    pose proof (Hg y Hy Ny). lia.
  - destruct sc_clusters1. split; auto with schema.
    intros c i (c0 & Hc0 & ->)%elem_of_update_where Hi. destruct (of_host _ _) eqn:Eo; [done|].
    destruct (proj1 (list_elem_of_fmap _ _ _) (cl_hosts0 c0 i Hc0 Hi)) as (y & -> & Hy).
    apply list_elem_of_fmap_2, elem_of_delete_where. split; [done|]. destruct (host_named name y) eqn:Ny; [|done].
    unfold of_host in Eo. by rewrite Hi, (Hg y Hy Ny), bool_decide_true in Eo.
  - destruct sc_latest1. split; auto with schema. apply references_cascade; [done|]. intros r y Hr Hy [= Er] Ny.
    pose proof (Hg y Hy Ny). lia.
Qed.

(** *** Enrolling *)

Lemma CreateEnrollmentToken_schema now token host uses ttl d : schema d →
  schema (CreateEnrollmentToken now token host uses ttl d).2.
Proof.
  intros Hd. unfold CreateEnrollmentToken. destruct (_ || _); [done|]. unfold next_id.
  destruct (exists_where _ _) eqn:E; [by apply schema_seq|]. apply schema_tokens; [by apply schema_seq|].
  destruct (sc_tokens d Hd). split; cbn; [by eauto with schema..|]. apply name_new; [done|]. apply new_key.
  exact (proj1 (exists_where_false _ _) E).
Qed.

Lemma upsert_host_schema name timezone d id d' : schema d → upsert_host name timezone d = (id, d') →
  schema d' ∧ id ∈ map h_id (hosts d').
Proof.
  intros Hd. unfold upsert_host, next_id. change (host_by_name (set_seq _ _) name) with (host_by_name d name).
  destruct (host_by_name d name) as [h|] eqn:E; intros [= <- <-].
  - split; [by apply update_hosts_schema; [apply schema_seq|..]|]. cbn. rewrite map_update_where by done.
    apply list_elem_of_fmap_2. by apply host_by_name_some in E as [Hh _].
  - split; [by apply insert_host_schema|]. cbn. rewrite map_app. apply elem_of_app. right. by left.
Qed.

Lemma upsert_credential_schema id hash d : schema d → id ∈ map h_id (hosts d) → schema (upsert_credential id hash d).2.
Proof.
  intros Hd Hi. unfold upsert_credential. destruct (exists_where _ _) eqn:E; [done|]. rewrite exists_where_false in E.
  destruct (exists_where (credential_of id) _) eqn:E'; (apply schema_credentials; [done|]); destruct (sc_credentials d Hd); split.
  - by apply unique_same.
  - apply unique_update; [done|]. cbn. intros x y k Hx Hy. specialize (E x Hx) as Ex. specialize (E y Hy) as Ey. revert Ex Ey.
    destruct (credential_of id x) eqn:Cx, (credential_of id y) eqn:Cy; cbn; rewrite ?andb_true_r.
    + intros _ _ _ _. unfold credential_of in *. assert (x = y) as ->; [|eauto].
      apply (unique_inj (primary cr_host_id) (agent_credentials d) x y (cr_host_id x)); [done..|].
      unfold primary. f_equal. lia.
    + intros _ Ey [= <-] [= Ek]. rewrite Ek, str_eq_refl in Ey. done.
    + intros Ex _ [= Ek] [= <-]. rewrite Ek, str_eq_refl in Ex. done.
    + intros _ _ -> ->. eauto.
  - by apply references_kept.
  - apply unique_app; [done|]. intros y k Hy [= <-] [= Ek]. rewrite exists_where_false in E'. specialize (E' y Hy).
    unfold credential_of in E'. cbn in Ek. lia.
  - apply name_new; [done|]. intros y Hy Ey. specialize (E y Hy). rewrite exists_where_false in E'.
    rewrite (E' y Hy), Ey, str_eq_refl in E. done.
  - by apply references_in.
Qed.

Lemma spend_schema id d : schema d → schema (spend id d).2.
Proof.
  intros Hd. apply schema_tokens; [done|]. destruct (sc_tokens d Hd).
  split; [by apply unique_same|by apply below_update|by apply unique_same].
Qed.

Lemma transaction_schema {A} (m : DBM A) d : schema d → schema (m d).2 → schema (transaction m d).2.
Proof. intros Hd Hm. unfold transaction. by destruct (m d) as [[a|e] d']. Qed.

Lemma Store_Enroll_schema now token secret host timezone d : schema d → schema (Store_Enroll now token secret host timezone d).2.
Proof.
  intros Hd. unfold Store_Enroll. destruct (str_eq host ""); [done|]. destruct (List.find _ _) as [t|]; [|done].
  destruct (match tk_host_name t with Some _ => _ | None => _ end); [done|]. apply transaction_schema; [done|].
  unfold enroll_with. destruct (upsert_host host timezone d) as [id d'] eqn:E.
  destruct (upsert_host_schema _ _ _ _ _ Hd E) as [Hd' Hi]. pose proof (upsert_credential_schema id (hashSecret secret) d' Hd' Hi).
  unfold mbind, SM_bind, sbind. cbv beta. destruct (upsert_credential _ _ d') as [[u|e] d1]; [|done].
  by apply (spend_schema (tk_id t)) in H3.
Qed.
Lemma PurgeEnrollmentTokens_schema now d : schema d → schema (PurgeEnrollmentTokens now d).2.
Proof. intros Hd. apply schema_tokens; [done|]. destruct (sc_tokens d Hd). split; auto with schema. Qed.

(** *** Samples *)

Lemma save_latest_schema row d : schema d → lt_host_id row ∈ map h_id (hosts d) → schema (save_latest row d).
Proof.
  intros Hd Hi. unfold save_latest. destruct (exists_where _ _) eqn:E; (apply schema_latest; [done|]); destruct (sc_latest d Hd); split.
  - apply unique_update_less; [done|]. intros x k Hx Ep%andb_prop [= <-]. unfold primary. f_equal. lia.
  - by eapply references_set.
  - apply unique_app; [done|]. intros y k Hy [= <-] [= Ek]. rewrite exists_where_false in E. specialize (E y Hy). lia.
  - by apply references_in.
Qed.

Lemma hostID_in d name id : hostID d name = Ok id → id ∈ map h_id (hosts d).
Proof.
  unfold hostID. destruct (host_by_name d name) as [h|] eqn:E; [|done]. intros [= <-].
  apply list_elem_of_fmap_2. by apply host_by_name_some in E as [Hh _].
Qed.

Lemma SaveSnapshot_schema now data d : schema d → schema (SaveSnapshot now data d).2.
Proof.
  intros Hd. unfold SaveSnapshot. destruct (parseUnixTime _) as [at_|]; [|done].
  destruct (hostID d (md_ServerId data)) as [id|] eqn:E; [|done]. cbn [rbind].
  destruct (marshal_data data) as [snapshot|]; [|done]. cbn [rbind]. destruct (marshal_processes _) as [processes|]; [|done].
  apply update_hosts_schema; [|done..]. apply save_latest_schema; [|by apply hostID_in in E]. revert Hd. written.
Qed.
Lemma SaveCustomMetric_schema now m d : schema d → schema (SaveCustomMetric now m d).2.
Proof.
  intros Hd. unfold SaveCustomMetric. destruct (parse_float _); [|done]. destruct (rbind _ _) as [[at_ id]|]; [|done].
  apply update_hosts_schema; [|done..]. revert Hd. written.
Qed.

(** *** Clusters *)

Lemma saveClusterMetrics_schema id state restarts d : schema d → schema (saveClusterMetrics id state restarts d).
Proof. written. Qed.
Lemma update_cluster_schema id host_id f d : schema d → host_id ∈ map h_id (hosts d) → (∀ c, cl_id (f c) = cl_id c) →
  (∀ c, cl_name (f c) = cl_name c) → (∀ c, cl_host_id (f c) = Some host_id) → schema (update_cluster id f d).
Proof.
  intros Hd Hi Ei En Eh. apply schema_clusters; [done|]. destruct (sc_clusters d Hd).
  split; [apply unique_same; [done|]; intros c; unfold primary; by rewrite Ei|by apply below_update| |by eapply references_set].
  apply unique_same; [done|]. intros c. by rewrite En.
Qed.

Lemma SaveClusterReport_schema host state d : schema d → schema (SaveClusterReport host state d).2.
Proof.
  intros Hd. unfold SaveClusterReport. destruct (_ || _); [done|]. destruct (hostID d host) as [id|] eqn:E; [|done].
  apply hostID_in in E. destruct (cluster_by_name d _) as [c|] eqn:Ec.
  - destruct (match cl_host_id c with Some _ => _ | None => _ end); [done|].
    destruct (negb _); [by apply (update_cluster_schema _ id)|]. destruct (_ <=? _); [done|].
    by apply saveClusterMetrics_schema, (update_cluster_schema _ id).
  - unfold next_id. set (row := {| cl_id := _ |}).
    assert (Hn : schema (set_kube_clusters (kube_clusters (set_seq (seq d + 1) d) ++ [row]) (set_seq (seq d + 1) d))).
    { apply schema_clusters; [by apply schema_seq|]. destruct (sc_clusters d Hd). split; cbn; [by eauto with schema..| |].
      - apply name_new; [done|]. apply new_key. exact (proj1 (find_nothing _ _) Ec).
      - apply references_app; [done|]. by intros i [= <-]. }
    destruct (str_eq (cs_Error state) ""); [by apply saveClusterMetrics_schema|done].
Qed.
Lemma RemoveCluster_schema name d : schema d → schema (RemoveCluster name d).2.
Proof.
  intros Hd. unfold RemoveCluster. case_match; [done|]. apply schema_clusters; [done|]. destruct (sc_clusters d Hd).
  split; auto with schema.
Qed.

(** *** Channels and notifications *)

Lemma channels_ok_update s p f l : channels_ok s l → (∀ c, ch_id (f c) = ch_id c) → (∀ c, ch_name (f c) = ch_name c) →
  channels_ok s (update_where p f l).
Proof.
  intros [] Hi Hn. split; [apply unique_same; [done|]; intros c; unfold primary; by rewrite Hi|by apply below_update|].
  apply unique_same; [done|]. intros c. by rewrite Hn.
Qed.
Lemma CreateChannel_schema now c by_ d : schema d → schema (CreateChannel now c by_ d).2.
Proof.
  intros Hd. unfold CreateChannel, next_id. destruct (exists_where _ _) eqn:E; [by apply schema_seq|].
  apply schema_channels; [by apply schema_seq| |apply all_in_app]. destruct (sc_channels d Hd).
  split; cbn; [by eauto with schema..|]. apply name_new; [done|]. apply new_key. exact (proj1 (exists_where_false _ _) E).
Qed.
Lemma UpdateChannel_schema now c by_ d : schema d → schema (UpdateChannel now c by_ d).2.
Proof.
  intros Hd. unfold UpdateChannel. case_match; [done|].
  apply schema_channels; [done|apply channels_ok_update; [apply Hd|done..]|by apply all_in_update].
Qed.
Lemma Store_DeleteChannel_schema id d : schema d → schema (Store_DeleteChannel id d).2.
Proof.
  unfold Store_DeleteChannel. case_match; [done|]. intros []. split; cbn; try assumption.
  - destruct sc_channels0. split; auto with schema.
  - destruct sc_notes0. split; auto with schema. apply references_cascade; [done|]. intros n c Hn Hc [= En] Ec. lia.
Qed.

Lemma queue_one_schema now n id d : schema d → schema (queue_one now n id d).2.
Proof.
  intros Hd. unfold queue_one, next_id. destruct (_ && _) eqn:E; [|by apply schema_seq].
  apply andb_prop in E as [(a & Ha & Ea)%exists_where_true (c & Hc & Ec)%exists_where_true].
  apply schema_notes; [by apply schema_seq|]. destruct (sc_notes d Hd). split; cbn; [by eauto with schema..| |].
  - apply references_in; [done|]. cbn. replace (note_AlertID n) with (al_id a) by lia. by apply list_elem_of_fmap_2.
  - apply references_in; [done|]. cbn. replace id with (ch_id c) by lia. by apply list_elem_of_fmap_2.
Qed.

Lemma bind_schema {A B} (m : DBM A) (f : A → DBM B) d : schema (m d).2 →
  (∀ a d', m d = (Ok a, d') → schema d' → schema (f a d').2) → schema ((m ≫= f) d).2.
Proof.
  intros Hm Hf. unfold mbind, SM_bind, sbind. destruct (m d) as [[a|e] d'] eqn:E; [|done]. by apply Hf.
Qed.

Lemma QueueNotifications_schema now n ids d : schema d → schema (QueueNotifications now n ids d).2.
Proof.
  intros Hd. unfold QueueNotifications. destruct ids as [|id ids]; [done|]. apply transaction_schema; [done|].
  revert d Hd. generalize (id :: ids). intros l. induction l as [|i l IH]; intros d Hd; [done|].
  cbn [sfor]. apply bind_schema; [by apply queue_one_schema|]. intros _ d' _ Hd'. by apply IH.
Qed.

Lemma update_note_schema id f d : schema d → (∀ n, no_id (f n) = no_id n) → (∀ n, no_alert_id (f n) = no_alert_id n) →
  (∀ n, no_channel_id (f n) = no_channel_id n) → schema (update_note id f d).2.
Proof.
  intros Hd Hi Ha Hc. apply schema_notes; [done|]. destruct (sc_notes d Hd).
  split; [apply unique_same; [done|]; intros n; unfold primary; by rewrite Hi|by apply below_update|..];
    apply references_kept; try done; intros n; unfold primary; by rewrite ?Ha, ?Hc.
Qed.
Lemma MarkSent_schema now id ref d : schema d → schema (MarkSent now id ref d).2.
Proof. intros Hd. by apply update_note_schema. Qed.
Lemma MarkRetry_schema id reason next d : schema d → schema (MarkRetry id reason next d).2.
Proof. intros Hd. by apply update_note_schema. Qed.
Lemma MarkFailed_schema id reason d : schema d → schema (MarkFailed id reason d).2.
Proof. intros Hd. by apply update_note_schema. Qed.

(** *** Rules *)

Lemma insert_rule_schema now rule enabled by_ d : schema d → schema (insert_rule now rule enabled by_ d).2.
Proof.
  intros Hd. unfold insert_rule, next_id. destruct (name_taken _ _) eqn:E; [by apply schema_seq|].
  apply schema_rules; [by apply schema_seq|]. destruct (sc_rules d Hd). split; cbn; [by eauto with schema..|].
  apply name_new; [done|]. apply new_key. exact (proj1 (exists_where_false _ _) E).
Qed.
Lemma CreateRule_schema now rule enabled by_ d : schema d → schema (CreateRule now rule enabled by_ d).2.
Proof.
  intros Hd. unfold CreateRule. destruct (checkRule rule); [|done]. apply transaction_schema; [done|].
  by apply insert_rule_schema.
Qed.

Lemma resolveRuleAlerts_schema now rule d : schema d → schema (resolveRuleAlerts now rule d).2.
Proof. intros Hd. by apply set_alerts_schema. Qed.

Lemma rename_open_schema old name d : schema d → schema (rename_open old name d).2.
Proof.
  intros Hd. unfold rename_open. destruct (existsb _ _) eqn:E; [done|].
  apply schema_alerts; [done| |by apply all_in_update]. destruct (sc_alerts d Hd).
  split; [by apply unique_same|by apply below_update|by apply references_kept|].
  assert (Hfree : ∀ x y k, x ∈ alerts d → y ∈ alerts d → open_of_rule old x = true →
    open_index (rename_alert name x) = Some k → open_index y = Some k → False).
  { intros x y k Hx Hy Px. unfold open_index. destruct (is_open _); [|done]. intros [= <-].
    destruct (is_open y) eqn:Oy; [|done]. intros Ek%(inj Some).
    pose proof (proj1 (exists_where_false _ (alerts d)) E x Hx) as T. cbn beta in T. rewrite Px in T.
    apply exists_where_false with (x := y) in T; [|done].
    by rewrite Oy, Ek, bool_decide_true in T. }
  apply unique_update; [done|]. intros x y k Hx Hy.
  destruct (open_of_rule old x) eqn:Px, (open_of_rule old y) eqn:Py; intros Ex Ey.
  - revert Ex Ey. unfold open_of_rule in Px, Py. apply andb_prop in Px as [Rx%str_eq_spec Ox], Py as [Ry%str_eq_spec Oy].
    unfold open_index, open_key. change (is_open (rename_alert name x)) with (is_open x).
    change (is_open (rename_alert name y)) with (is_open y). rewrite Ox, Oy, Rx, Ry. cbn. intros [= <-] [= -> -> ->]. eauto.
  - by destruct (Hfree x y k Hx Hy Px Ex Ey).
  - by destruct (Hfree y x k Hy Hx Py Ey Ex).
  - eauto.
Qed.

Lemma carry_over_schema old name d : schema d → schema (carry_over old name d).2.
Proof.
  intros Hd. unfold carry_over. destruct (str_eq name old); [done|]. apply bind_schema; [by apply rename_open_schema|].
  intros _ d' _. written.
Qed.

Lemma replace_rule_schema now id rule enabled by_ d : schema d → schema (replace_rule now id rule enabled by_ d).2.
Proof.
  intros Hd. unfold replace_rule. destruct (exists_where _ _) eqn:E; [done|]. rewrite exists_where_false in E.
  apply schema_rules; [done|]. destruct (sc_rules d Hd). split; [by apply unique_same|by apply below_update|].
  apply unique_update; [done|]. cbn. intros x y k Hx Hy. specialize (E x Hx) as Ex. specialize (E y Hy) as Ey. revert Ex Ey.
  unfold rule_with. destruct (ru_id x =? id) eqn:Cx, (ru_id y =? id) eqn:Cy; cbn; rewrite ?andb_true_r.
  - intros _ _ _ _. assert (x = y) as ->; [|eauto].
    apply (unique_inj (primary ru_id) (alert_rules d) x y (ru_id x)); [done..|]. unfold primary. f_equal. lia.
  - intros _ Ey [= <-] [= Ek]. by rewrite Ek, str_eq_refl in Ey.
  - intros Ex _ [= Ek] [= <-]. by rewrite Ek, str_eq_refl in Ex.
  - intros _ _ -> ->. eauto.
Qed.

Lemma UpdateRule_schema now id rule enabled by_ d : schema d → schema (UpdateRule now id rule enabled by_ d).2.
Proof.
  intros Hd. unfold UpdateRule. destruct (checkRule rule) as [r|]; [|done]. apply transaction_schema; [done|].
  unfold update_rule. destruct (rule_by_id d id) as [row|]; [|done].
  apply bind_schema; [by apply replace_rule_schema|]. intros _ d1 _ Hd1.
  apply bind_schema; [by apply carry_over_schema|]. intros _ d2 _ Hd2.
  destruct enabled; [done|]. by apply resolveRuleAlerts_schema.
Qed.
Lemma DeleteRule_schema now id d : schema d → schema (DeleteRule now id d).2.
Proof.
  intros Hd. unfold DeleteRule. destruct (rule_by_id d id) as [row|]; [|done].
  assert (Hr : schema (set_alert_rules (delete_where (λ r, ru_id r =? id) (alert_rules d)) d)).
  { apply schema_rules; [done|]. destruct (sc_rules d Hd). split; auto with schema. }
  apply transaction_schema; [done|]. by apply resolveRuleAlerts_schema.
Qed.

Lemma setup_rules_schema now names all_hosts imported rules d : schema d →
  schema (setup_rules now names all_hosts imported rules d).2.
Proof.
  revert names all_hosts imported d. induction rules as [|rule rules IH]; intros names all_hosts imported d Hd; [done|].
  cbn [setup_rules]. destruct (checkRule rule) as [r|]; [|done]. apply bind_schema.
  - unfold stry. pose proof (insert_rule_schema now r true "" d Hd). by destruct (insert_rule _ _ _ _ d).
  - intros [a|e] d' _ Hd'; [by apply IH|done].
Qed.
Lemma SetupRules_schema now rules source d : schema d → schema (SetupRules now rules source d).2.
Proof.
  intros Hd. unfold SetupRules. destruct (RulesSetUp d); [done|]. apply transaction_schema; [done|].
  apply bind_schema; [by apply setup_rules_schema|]. intros [[names all_hosts] imported] d1 _ Hd1.
  apply bind_schema.
  - destruct (_ && _); [|done]. apply bind_schema; [by apply insert_rule_schema|done].
  - intros added d2 _ Hd2. apply bind_schema; [revert Hd2; written|done].
Qed.

Lemma import_rule_schema now rule by_ d : schema d → schema (import_rule now rule by_ d).2.
Proof.
  intros Hd. unfold import_rule, next_id. destruct (name_taken _ _) eqn:E.
  - apply schema_rules; [done|]. destruct (sc_rules d Hd).
    split; [by apply unique_same|by apply below_update|by apply unique_same].
  - apply schema_rules; [by apply schema_seq|]. destruct (sc_rules d Hd). split; cbn; [by eauto with schema..|].
    apply name_new; [done|]. apply new_key. exact (proj1 (exists_where_false _ _) E).
Qed.
Lemma ImportRules_schema now rules by_ d : schema d → schema (ImportRules now rules by_ d).2.
Proof.
  intros Hd. unfold ImportRules. destruct (check_rules rules) as [l|]; [|done]. apply transaction_schema; [done|].
  assert (Hl : ∀ m n, schema (import_rules now by_ m n l d).2); [|apply Hl].
  revert d Hd. induction l as [|r l IH]; intros d Hd m n; [done|]. cbn [import_rules]. apply bind_schema; [by apply import_rule_schema|]. intros [] d' _ Hd'; by apply IH.
Qed.

(** *** Task runs *)

Lemma runs_ok_update s ids p f l : task_runs_ok s ids l → (∀ r, tr_id (f r) = tr_id r) →
  (∀ r, tr_host_id (f r) = tr_host_id r) → (∀ r k, r ∈ l → p r = true → active_index (f r) = Some k → active_index r = Some k) →
  task_runs_ok s ids (update_where p f l).
Proof.
  intros [] Hi Hh Ha. split; [apply unique_same; [done|]; intros r; unfold primary; by rewrite Hi|by apply below_update|..].
  - apply references_kept; [done|]. intros r. unfold primary. by rewrite Hh.
  - apply unique_update_less; eauto.
Qed.
Lemma update_runs_schema p f d : schema d → (∀ r, tr_id (f r) = tr_id r) → (∀ r, tr_host_id (f r) = tr_host_id r) →
  (∀ r, p r = true → is_active (f r) = true → is_active r = true) → schema (update_runs p f d).
Proof.
  intros Hd Hi Hh Ha. apply schema_runs; [done|]. apply runs_ok_update; [apply Hd|done..|].
  intros r k _ Hp. unfold active_index. destruct (is_active (f r)) eqn:E; [|done]. rewrite Hh. by rewrite (Ha r Hp E).
Qed.

Lemma RequestTaskRun_schema now host task by_ d : schema d → schema (RequestTaskRun now host task by_ d).2.
Proof.
  intros Hd. unfold RequestTaskRun. destruct (host_by_name d host) as [h|] eqn:Eh; [|done].
  destruct (List.filter _ _) as [|t more]; [done|]. unfold next_id. destruct (_ || _) eqn:E; [by apply schema_seq|].
  apply orb_false_elim in E as [E _]. rewrite exists_where_false in E.
  apply schema_runs; [by apply schema_seq|]. destruct (sc_runs d Hd). split; cbn; [by eauto with schema..| |].
  - apply references_in; [done|]. cbn. apply list_elem_of_fmap_2. by apply host_by_name_some in Eh as [Hh _].
  - apply unique_app; [done|]. intros r k Hr [= <-]. unfold active_index. specialize (E r Hr).
    destruct (is_active r); [|done]. intros [= Ek]. lia.
Qed.
Lemma ClaimTaskRun_schema now host d : schema d → schema (ClaimTaskRun now host d).2.
Proof.
  intros Hd. unfold ClaimTaskRun. cbn [snd]. apply update_runs_schema; [by apply update_runs_schema|done..|].
  intros r Hr _. unfold is_active. unfold is_claimable in Hr. apply andb_prop in Hr as [[-> _]%andb_prop _]. done.
Qed.
Lemma AppendTaskOutput_schema host id output truncated d : schema d → schema (AppendTaskOutput host id output truncated d).2.
Proof. intros Hd. unfold AppendTaskOutput. destruct (negb _); [done|]. case_match; [done|]. by apply update_runs_schema. Qed.
Lemma FinishTaskRun_schema now host id result d : schema d → schema (FinishTaskRun now host id result d).2.
Proof.
  intros Hd. unfold FinishTaskRun. destruct (negb _); [done|]. case_match; [done|]. apply update_runs_schema; [done..|].
  intros r Hr _. unfold is_going in Hr. apply andb_prop in Hr as [[_ Hr]%andb_prop _]. unfold is_active.
  by rewrite Hr, orb_true_r.
Qed.
Lemma SweepTaskRuns_schema now d : schema d → schema (SweepTaskRuns now d).2.
Proof. intros Hd. apply update_runs_schema; [by apply update_runs_schema|done..]. Qed.
Lemma PurgeTaskRuns_schema now keep d : schema d → schema (PurgeTaskRuns now keep d).2.
Proof. intros Hd. apply schema_runs; [done|]. destruct (sc_runs d Hd). split; auto with schema. Qed.

(** *** Users and sessions *)

Lemma users_ok_update s p f l : users_ok s l → (∀ u, us_id (f u) = us_id u) → (∀ u, us_name (f u) = us_name u) →
  users_ok s (update_where p f l).
Proof.
  intros [] Hi Hn. split; [apply unique_same; [done|]; intros u; unfold primary; by rewrite Hi|by apply below_update|].
  apply unique_same; [done|]. intros u. by rewrite Hn.
Qed.
Lemma update_users_schema p f d : schema d → (∀ u, us_id (f u) = us_id u) → (∀ u, us_name (f u) = us_name u) →
  schema (update_users p f d).
Proof. intros Hd Hi Hn. apply schema_users; [done|by apply users_ok_update; [apply Hd|..]|by apply all_in_update]. Qed.
Lemma delete_sessions_schema p d : schema d → schema (delete_sessions p d).
Proof. intros Hd. apply schema_sessions; [done|]. destruct (sc_sessions d Hd). split; auto with schema. Qed.

Lemma AddUser_schema now slot salt name password role d : schema d → schema (AddUser now slot salt name password role d).2.
Proof.
  intros Hd. unfold AddUser. destruct (negb _); [done|]. destruct (checkRole role); [|done].
  destruct (newPasswordHash _ _ _) as [[hash salt']|]; [|done]. unfold next_id.
  change (user_by_name (set_seq _ _) name) with (user_by_name d name).
  destruct (user_by_name d name) eqn:E; [by apply schema_seq|].
  apply schema_users; [by apply schema_seq| |apply all_in_app]. destruct (sc_users d Hd).
  split; cbn; [by eauto with schema..|]. apply name_new; [done|]. apply new_key. exact (proj1 (find_nothing _ _) E).
Qed.
Lemma SetPassword_schema slot salt name password d : schema d → schema (SetPassword slot salt name password d).2.
Proof.
  intros Hd. unfold SetPassword. destruct (newPasswordHash _ _ _) as [[hash salt']|]; [|done].
  destruct (user_by_name d name); [|done]. by apply delete_sessions_schema, update_users_schema.
Qed.
Lemma SetRole_schema name role d : schema d → schema (SetRole name role d).2.
Proof.
  intros Hd. unfold SetRole. destruct (checkRole role); [|done]. case_match; [done|]. by apply update_users_schema.
Qed.
Lemma RemoveUser_schema name d : schema d → schema (RemoveUser name d).2.
Proof.
  unfold RemoveUser. destruct (user_by_name d name) as [u|] eqn:E; [|done]. intros []. split; cbn; try assumption.
  - destruct sc_users0. split; auto with schema.
  - apply find_in in E as [Hu Eu]. destruct sc_sessions0. split; auto with schema. apply references_cascade; [done|].
    intros x v Hx Hv [= Ex] Ev. assert (v = u) as ->; [|lia].
    unfold user_named in *. apply str_eq_spec in Eu, Ev.
    apply (unique_inj (λ u, Some (us_name u)) (users d) v u (us_name v)); [apply sc_users0|done..|congruence].
Qed.
Lemma Login_schema now slot token name password d : schema d → schema (StoreUsers.Login now slot token name password d).2.
Proof.
  intros Hd. unfold StoreUsers.Login. destruct (checkPassword slot d name password) as [[id role]|] eqn:E; [|done].
  destruct (exists_where _ _) eqn:Et; [done|]. apply update_users_schema; [|done..].
  apply schema_sessions; [done|]. destruct (sc_sessions d Hd). split.
  - apply name_new; [done|]. apply new_key. exact (proj1 (exists_where_false _ _) Et).
  - apply references_in; [done|]. cbn. unfold checkPassword in E. destruct (user_by_name d name) as [u|] eqn:Eu;
      [|by destruct slot]. apply find_in in Eu as [Hu _]. unfold hashPassword in E. destruct slot; [done|]. cbn in E.
    destruct (str_eq _ _); [|done]. injection E as <- _. by apply list_elem_of_fmap_2.
Qed.
Lemma Logout_schema token d : schema d → schema (Store_Logout token d).2.
Proof. apply delete_sessions_schema. Qed.
Lemma ChangePassword_schema now slot slot' salt token current next d : schema d →
  schema (Store_ChangePassword now slot slot' salt token current next d).2.
Proof.
  intros Hd. unfold Store_ChangePassword. destruct (Store_Session now d token); [|done].
  destruct (CheckPassword _ _ _ _); [|done]. destruct (newPasswordHash _ _ _) as [[hash salt']|]; [|done].
  by apply delete_sessions_schema, update_users_schema.
Qed.
Lemma PurgeSessions_schema now d : schema d → schema (PurgeSessions now d).2.
Proof. apply delete_sessions_schema. Qed.

(** ** All operations *)

(** Every operation of the store that writes, with its arguments *)
Inductive StoreOp :=
  | op_AddHost (name timezone : string) | op_RemoveHost (name : string) | op_Heartbeat (name : string) (at_ : time)
  | op_AgentCheckIn (host : string) (at_ : time) (version arch err : string)
  | op_RequestAgentUpdate (now : time) (names : list string) (version url : string)
  | op_CreateAlert (alert : Alert) | op_UpdateAlert (id severity : Z) (value : float64) (at_ : time)
  | op_ResolveAlert (id : Z) (value : float64) (at_ : time) | op_PurgeResolvedAlerts (now : time) (keep : duration)
  | op_SaveEndpointCheck (check : EndpointCheck)
  | op_CreateEnrollmentToken (now : time) (token host : string) (uses : Z) (ttl : duration)
  | op_Enroll (now : time) (token secret host timezone : string) | op_PurgeEnrollmentTokens (now : time)
  | op_SaveSnapshot (now : time) (data : MonitorData) | op_SaveCustomMetric (now : time) (m : CustomMetric)
  | op_SaveClusterReport (host : string) (state : ClusterState) | op_RemoveCluster (name : string)
  | op_CreateChannel (now : time) (c : Channel) (by_ : string) | op_UpdateChannel (now : time) (c : Channel) (by_ : string)
  | op_DeleteChannel (id : Z) | op_QueueNotifications (now : time) (n : Notification) (ids : list Z)
  | op_MarkSent (now : time) (id : Z) (ref : string) | op_MarkRetry (id : Z) (reason : string) (next : time)
  | op_MarkFailed (id : Z) (reason : string)
  | op_CreateRule (now : time) (rule : AlertConfig) (enabled : bool) (by_ : string)
  | op_UpdateRule (now : time) (id : Z) (rule : AlertConfig) (enabled : bool) (by_ : string)
  | op_DeleteRule (now : time) (id : Z) | op_SetupRules (now : time) (rules : list AlertConfig) (source : string)
  | op_ImportRules (now : time) (rules : list AlertConfig) (by_ : string)
  | op_SaveHostTasks (host : string) (list : list Task) | op_RequestTaskRun (now : time) (host task by_ : string)
  | op_ClaimTaskRun (now : time) (host : string) | op_AppendTaskOutput (host : string) (id : Z) (output : string) (truncated : bool)
  | op_FinishTaskRun (now : time) (host : string) (id : Z) (result : TaskResult) | op_SweepTaskRuns (now : time)
  | op_PurgeTaskRuns (now : time) (keep : duration)
  | op_AddUser (now : time) (slot : option error) (salt name password role : string)
  | op_SetPassword (slot : option error) (salt name password : string) | op_SetRole (name role : string)
  | op_RemoveUser (name : string) | op_Login (now : time) (slot : option error) (token name password : string)
  | op_Logout (token : string)
  | op_ChangePassword (now : time) (slot slot' : option error) (salt token current next : string)
  | op_PurgeSessions (now : time).

(** The database after the operation, whether it failed or not *)
Definition apply_op (op : StoreOp) (d : DB) : DB :=
  match op with
  | op_AddHost n t => (AddHost n t d).2
  | op_RemoveHost n => (RemoveHost n d).2
  | op_Heartbeat n t => (Heartbeat n t d).2
  | op_AgentCheckIn h t v a e => (AgentCheckIn h t v a e d).2
  | op_RequestAgentUpdate t n v u => (RequestAgentUpdate t n v u d).2
  | op_CreateAlert a => (CreateAlert a d).2
  | op_UpdateAlert i s v t => (UpdateAlert i s v t d).2
  | op_ResolveAlert i v t => (ResolveAlert i v t d).2
  | op_PurgeResolvedAlerts t k => (PurgeResolvedAlerts t k d).2
  | op_SaveEndpointCheck c => (SaveEndpointCheck c d).2
  | op_CreateEnrollmentToken t k h u l => (CreateEnrollmentToken t k h u l d).2
  | op_Enroll t k s h z => (Store_Enroll t k s h z d).2
  | op_PurgeEnrollmentTokens t => (PurgeEnrollmentTokens t d).2
  | op_SaveSnapshot t m => (SaveSnapshot t m d).2
  | op_SaveCustomMetric t m => (SaveCustomMetric t m d).2
  | op_SaveClusterReport h s => (SaveClusterReport h s d).2
  | op_RemoveCluster n => (RemoveCluster n d).2
  | op_CreateChannel t c b => (CreateChannel t c b d).2
  | op_UpdateChannel t c b => (UpdateChannel t c b d).2
  | op_DeleteChannel i => (Store_DeleteChannel i d).2
  | op_QueueNotifications t n l => (QueueNotifications t n l d).2
  | op_MarkSent t i r => (MarkSent t i r d).2
  | op_MarkRetry i r t => (MarkRetry i r t d).2
  | op_MarkFailed i r => (MarkFailed i r d).2
  | op_CreateRule t r e b => (CreateRule t r e b d).2
  | op_UpdateRule t i r e b => (UpdateRule t i r e b d).2
  | op_DeleteRule t i => (DeleteRule t i d).2
  | op_SetupRules t l s => (SetupRules t l s d).2
  | op_ImportRules t l b => (ImportRules t l b d).2
  | op_SaveHostTasks h l => (SaveHostTasks h l d).2
  | op_RequestTaskRun t h k b => (RequestTaskRun t h k b d).2
  | op_ClaimTaskRun t h => (ClaimTaskRun t h d).2
  | op_AppendTaskOutput h i o c => (AppendTaskOutput h i o c d).2
  | op_FinishTaskRun t h i r => (FinishTaskRun t h i r d).2
  | op_SweepTaskRuns t => (SweepTaskRuns t d).2
  | op_PurgeTaskRuns t k => (PurgeTaskRuns t k d).2
  | op_AddUser t s a n p r => (AddUser t s a n p r d).2
  | op_SetPassword s a n p => (SetPassword s a n p d).2
  | op_SetRole n r => (SetRole n r d).2
  | op_RemoveUser n => (RemoveUser n d).2
  | op_Login t s k n p => (StoreUsers.Login t s k n p d).2
  | op_Logout k => (Store_Logout k d).2
  | op_ChangePassword t s s' a k c n => (Store_ChangePassword t s s' a k c n d).2
  | op_PurgeSessions t => (PurgeSessions t d).2
  end.

Create HintDb store_ops.
#[local] Hint Resolve AddHost_schema RemoveHost_schema Heartbeat_schema AgentCheckIn_schema RequestAgentUpdate_schema
  CreateAlert_schema UpdateAlert_schema ResolveAlert_schema PurgeResolvedAlerts_schema SaveEndpointCheck_schema
  CreateEnrollmentToken_schema Store_Enroll_schema PurgeEnrollmentTokens_schema SaveSnapshot_schema SaveCustomMetric_schema
  SaveClusterReport_schema RemoveCluster_schema CreateChannel_schema UpdateChannel_schema Store_DeleteChannel_schema
  QueueNotifications_schema MarkSent_schema MarkRetry_schema MarkFailed_schema CreateRule_schema UpdateRule_schema
  DeleteRule_schema SetupRules_schema ImportRules_schema SaveHostTasks_schema RequestTaskRun_schema ClaimTaskRun_schema
  AppendTaskOutput_schema FinishTaskRun_schema SweepTaskRuns_schema PurgeTaskRuns_schema AddUser_schema SetPassword_schema
  SetRole_schema RemoveUser_schema Login_schema Logout_schema ChangePassword_schema PurgeSessions_schema : store_ops.

Lemma apply_op_schema op d : schema d → schema (apply_op op d).
Proof. intros Hd. destruct op; cbn [apply_op]; auto with store_ops. Qed.

(** *** What an operation leaves alone *)

(** A row of hosts by its id and name, which no update changes *)
Definition host_key (h : HostRow) : Z * string := (h_id h, h_name h).
(** The sessions and runs stay, and so do the hosts, if not alone. *)
Record beside (d d' : DB) : Prop := {
  bs_sessions : user_sessions d' = user_sessions d;
  bs_runs : task_runs d' = task_runs d;
  bs_hosts : ∀ k, k ∈ map host_key (hosts d) → k ∈ map host_key (hosts d') }.
#[local] Instance beside_preorder : PreOrder beside.
Proof.
  split; [by split|]. intros d1 d2 d3 [S1 R1 K1] [S2 R2 K2]. split; [congruence..|auto].
Qed.

Definition only_beside {A} (m : DBM A) : Prop := ∀ d, beside d (m d).2.
Lemma beside_bind {A B} (m : DBM A) (k : A → DBM B) : only_beside m → (∀ a, only_beside (k a)) → only_beside (m ≫= k).
Proof.
  intros Hm Hk d. unfold mbind, SM_bind, sbind. specialize (Hm d). destruct (m d) as [[a|e] d1]; [|done].
  etrans; [exact Hm|apply Hk].
Qed.
Lemma beside_transaction {A} (m : DBM A) : only_beside m → only_beside (transaction m).
Proof. intros Hm d. unfold transaction. specialize (Hm d). by destruct (m d) as [[a|e] d1]. Qed.
Lemma beside_for {A} (l : list A) (f : A → DBM unit) : (∀ a, only_beside (f a)) → only_beside (sfor l f).
Proof. intros Hf. induction l as [|a l IH]; [done|]. cbn. by apply beside_bind. Qed.
Lemma beside_pure {A} (a : result error A) : only_beside (λ d, (a, d)).
Proof. done. Qed.

Lemma update_hosts_beside p f d d1 : (∀ h, host_key (f h) = host_key h) → beside d d1 → beside d (update_hosts p f d1).
Proof.
  intros Hf Hd. etrans; [exact Hd|]. split; cbn; [done..|]. intros k (h & -> & Hh)%list_elem_of_fmap. apply list_elem_of_fmap.
  exists (if p h then f h else h). split; [destruct (p h); by rewrite ?Hf|]. apply elem_of_update_where. by exists h.
Qed.
Lemma more_hosts_beside h d d1 : beside d d1 → beside d (set_hosts (hosts d1 ++ [h]) d1).
Proof. intros Hd. etrans; [exact Hd|]. split; cbn; [done..|]. intros k Hk. rewrite map_app. apply elem_of_app. by left. Qed.

(** A few cases of writing other tables *)
Ltac other_tables :=
  intros ?; repeat case_match; simplify_eq;
  first [ done | by split | by apply update_hosts_beside | by apply more_hosts_beside ].

Lemma insert_rule_beside now rule enabled by_ : only_beside (insert_rule now rule enabled by_).
Proof. unfold insert_rule, next_id. other_tables. Qed.
Lemma import_rule_beside now rule by_ : only_beside (import_rule now rule by_).
Proof. unfold import_rule, next_id. other_tables. Qed.
Lemma setup_rules_beside now rules : ∀ names all n, only_beside (setup_rules now names all n rules).
Proof.
  induction rules as [|rule rules IH]; intros names all n; [apply beside_pure|]. cbn.
  destruct (checkRule rule) as [rule'|e]; [|apply beside_pure]. apply beside_bind.
  - intros d. unfold stry. pose proof (insert_rule_beside now rule' true "" d). by destruct (insert_rule now rule' true "" d) as [[]].
  - intros [x|e]; [apply IH|apply beside_pure].
Qed.
Lemma import_rules_beside now by_ rules : ∀ n m, only_beside (import_rules now by_ n m rules).
Proof.
  induction rules as [|rule rules IH]; intros n m; [apply beside_pure|]. cbn. apply beside_bind; [apply import_rule_beside|].
  intros []; apply IH.
Qed.

Lemma SetupRules_beside now rules source : only_beside (SetupRules now rules source).
Proof.
  intros d. unfold SetupRules. destruct (RulesSetUp d); [done|]. revert d. apply beside_transaction, beside_bind; [apply setup_rules_beside|].
  intros [[names all] n]. apply beside_bind; [destruct (_ && _); [apply beside_bind; [apply insert_rule_beside|intros x; apply beside_pure]|apply beside_pure]|].
  intros added. by apply beside_bind.
Qed.
Lemma ImportRules_beside now rules by_ : only_beside (ImportRules now rules by_).
Proof.
  intros d. unfold ImportRules. destruct (check_rules rules); [|done]. revert d. apply beside_transaction, import_rules_beside.
Qed.
Lemma CreateRule_beside now rule enabled by_ : only_beside (CreateRule now rule enabled by_).
Proof. intros d. unfold CreateRule. destruct (checkRule rule); [|done]. revert d. apply beside_transaction, insert_rule_beside. Qed.
Lemma UpdateRule_beside now id rule enabled by_ : only_beside (UpdateRule now id rule enabled by_).
Proof.
  intros d. unfold UpdateRule. destruct (checkRule rule) as [rule'|]; [|done]. revert d. apply beside_transaction. intros d.
  unfold update_rule. destruct (rule_by_id d id) as [row|]; [|done]. revert d.
  apply beside_bind; [unfold replace_rule; other_tables|]. intros _. apply beside_bind; [|intros _; by destruct enabled].
  unfold carry_over. destruct (str_eq _ _); [apply beside_pure|]. apply beside_bind; [unfold rename_open; other_tables|done].
Qed.
Lemma QueueNotifications_beside now n ids : only_beside (QueueNotifications now n ids).
Proof.
  intros d. unfold QueueNotifications. destruct ids as [|i ids]; [done|]. apply beside_transaction, beside_for.
  intros i'. unfold queue_one, next_id. other_tables.
Qed.
Lemma Enroll_beside now token secret host timezone : only_beside (Store_Enroll now token secret host timezone).
Proof.
  intros d. unfold Store_Enroll. destruct (str_eq host ""); [done|]. destruct (List.find _ _) as [t|]; [|done].
  case_match; [done|]. revert d. apply beside_transaction. intros d. unfold enroll_with.
  assert (Hrest : ∀ id, only_beside (upsert_credential id (hashSecret secret);; spend (tk_id t);; mret secret)).
  { intros id. apply beside_bind; [unfold upsert_credential; other_tables|]. intros _. by apply beside_bind. }
  assert (Hhost : beside d (upsert_host host timezone d).2).
  { unfold upsert_host, next_id. revert d. other_tables. }
  destruct (upsert_host host timezone d) as [id d1]. etrans; [exact Hhost|apply Hrest].
Qed.
Lemma SaveSnapshot_beside now data : only_beside (SaveSnapshot now data).
Proof.
  intros d. unfold SaveSnapshot. destruct (parseUnixTime _); [|done]. destruct (rbind _ _) as [[[id x] y]|]; [|done].
  unfold snapshot_rows, seen_now, save_latest. cbn [snd].
  apply update_hosts_beside; [done|]. split; cbn; by case_match.
Qed.

(** Operations on sessions, on runs, or that take a host away *)
Definition on_sessions (op : StoreOp) : bool :=
  match op with
  | op_SetPassword _ _ _ _ | op_RemoveUser _ | op_Login _ _ _ _ _ | op_Logout _ | op_ChangePassword _ _ _ _ _ _ _
  | op_PurgeSessions _ => true
  | _ => false
  end.
Definition on_runs (op : StoreOp) : bool :=
  match op with
  | op_RequestTaskRun _ _ _ _ | op_ClaimTaskRun _ _ | op_AppendTaskOutput _ _ _ _ | op_FinishTaskRun _ _ _ _ | op_SweepTaskRuns _
  | op_PurgeTaskRuns _ _ | op_RemoveHost _ => true
  | _ => false
  end.
Ltac one_statement :=
  unfold AddHost, Heartbeat, AgentCheckIn, RequestAgentUpdate, CreateAlert, UpdateAlert, ResolveAlert,
    PurgeResolvedAlerts, SaveEndpointCheck, CreateEnrollmentToken, PurgeEnrollmentTokens, SaveCustomMetric, SaveClusterReport,
    RemoveCluster, CreateChannel, UpdateChannel, Store_DeleteChannel, MarkSent, MarkRetry, MarkFailed, DeleteRule, SaveHostTasks,
    AddUser, SetRole, update_note, next_id, seen_now;
  other_tables.
Lemma apply_op_beside op : on_sessions op = false → on_runs op = false → ∀ d, beside d (apply_op op d).
Proof.
  destruct op; try done; intros _ _; cbn [apply_op];
    first [ apply SetupRules_beside | apply ImportRules_beside | apply CreateRule_beside | apply UpdateRule_beside
          | apply QueueNotifications_beside | apply Enroll_beside | apply SaveSnapshot_beside | one_statement ].
Qed.

(** C6: after any operations of the store, failed ones too, the database is
    typed by its schema: in every table the primary key and each unique index
    (an open alert per host, rule, metric and target, an active run per host,
    names, hashes) hold a key once, an id the sequence gives next is new, and
    every foreign key names a row that is there. *)
Theorem store_schema_kept (ops : list StoreOp) : schema (fold_left (λ d op, apply_op op d) ops empty_db).
Proof.
  assert (Hall : ∀ d, schema d → schema (fold_left (λ d op, apply_op op d) ops d)); [|apply Hall, schema_empty].
  induction ops as [|op ops IH]; intros d Hd; [done|]. cbn [fold_left]. by apply IH, apply_op_schema.
Qed.
End Store.
