(* ===== verification/Migrations.v ===== *)
(** * The migrations of the database: [Migrate] of src/internal/store/store.go.

    The tables and what a file of SQL does to them are parameters: only
    schema_migrations, which remembers the files that ran, is a list here. *)
From S2P Require Import Prelude GoStrings GoTime Errors Monitor Kube.
Local Open Scope Z_scope.

Section Migrations.
Context {Tables : Type}.

Record Migrated := { mg_versions : list string; mg_tables : Tables }.

(** Reading an embedded file, and a transaction that runs its statements *)
Record SQL := { sql_read : string → result error string; sql_exec : string → Tables → result error Tables }.

Definition applyMigration (sql : SQL) (file : string) (d : Migrated) : result error unit * Migrated :=
  if contains (mg_versions d) file then (Ok (), d)
  else match rbind (sql_read sql file) (λ text, sql_exec sql text (mg_tables d)) with
  | Err err => (Err err, d)
  | Ok tables => (Ok (), {| mg_versions := mg_versions d ++ [file]; mg_tables := tables |})
  end.

Fixpoint migrate_files (sql : SQL) (files : list string) (d : Migrated) : result error unit * Migrated :=
  match files with
  | [] => (Ok (), d)
  | file :: files' =>
      match applyMigration sql file d with
      | (Err err, d') => (Err (ErrWrap ("migration " +:+ file) err), d')
      | (Ok _, d') => migrate_files sql files' d'
      end
  end.

(** [created] is what creating schema_migrations, if it is not there, said. *)
Definition Migrate (sql : SQL) (created : option error) (files : list string) (d : Migrated) : result error unit * Migrated :=
  match created with
  | Some err => (Err (ErrWrap "cannot create schema_migrations" err), d)
  | None => migrate_files sql (stable_sort string_leb files) d
  end.

(** ** A migration runs once *)

Lemma applyMigration_grows sql file d : match applyMigration sql file d with
  | (Ok _, d') => file ∈ mg_versions d' ∧ ∀ v, v ∈ mg_versions d → v ∈ mg_versions d'
  | (Err _, d') => d' = d
  end.
Proof.
  unfold applyMigration. destruct (contains _ _) eqn:E; [by apply contains_spec in E|].
  destruct (rbind _ _); [|done]. cbn. split; [apply elem_of_app; right; by apply list_elem_of_singleton|].
  intros v Hv. apply elem_of_app. by left.
Qed.

Lemma applyMigration_done sql file d : file ∈ mg_versions d → applyMigration sql file d = (Ok (), d).
Proof. intros Hf%contains_spec. unfold applyMigration. by rewrite Hf. Qed.

Lemma migrate_files_grows sql files : ∀ d v, v ∈ mg_versions d → v ∈ mg_versions (migrate_files sql files d).2.
Proof.
  induction files as [|file files IH]; intros d v Hv; [done|]. cbn.
  pose proof (applyMigration_grows sql file d) as Ha. destruct (applyMigration sql file d) as [[u|e] d']; [|by subst].
  apply IH. by apply Ha.
Qed.

(** A run that failed is taken up where it stopped: with SQL that does what
    the first run's did wherever that worked, running again comes to the
    same as one run on the tables from before. *)
Lemma migrate_files_resumes sql sql' files :
  (∀ file text, sql_read sql file = Ok text → sql_read sql' file = Ok text) →
  (∀ text t t', sql_exec sql text t = Ok t' → sql_exec sql' text t = Ok t') →
  ∀ d, migrate_files sql' files (migrate_files sql files d).2 = migrate_files sql' files d.
Proof.
  intros Hread Hexec. induction files as [|file files IH]; intros d; [done|]. cbn [migrate_files].
  pose proof (applyMigration_grows sql file d) as Ha. destruct (applyMigration sql file d) as [[[]|e] d1] eqn:E; [|by subst].
  rewrite (applyMigration_done sql' file (migrate_files sql files d1).2) by (apply migrate_files_grows; exact (proj1 Ha)). rewrite IH.
  assert (applyMigration sql' file d = (Ok (), d1)) as ->; [|done].
  revert E. unfold applyMigration. destruct (contains _ _); [done|].
  destruct (sql_read sql file) as [text|] eqn:Er; [|done]. rewrite (Hread _ _ Er). cbn.
  destruct (sql_exec sql text (mg_tables d)) as [t|] eqn:Ee; [|done]. by rewrite (Hexec _ _ _ Ee).
Qed.

Lemma Migrate_resumes sql sql' created files d :
  (∀ file text, sql_read sql file = Ok text → sql_read sql' file = Ok text) →
  (∀ text t t', sql_exec sql text t = Ok t' → sql_exec sql' text t = Ok t') →
  Migrate sql' None files (Migrate sql created files d).2 = Migrate sql' None files d.
Proof. intros Hr He. destruct created; [done|]. by apply migrate_files_resumes. Qed.

(** After a run without an error every file has run, and another changes nothing. *)
Lemma Migrate_done sql files d d' : Migrate sql None files d = (Ok (), d') →
  (∀ file, file ∈ files → file ∈ mg_versions d') ∧ Migrate sql None files d' = (Ok (), d').
Proof.
  unfold Migrate. setoid_rewrite <- (elem_of_stable_sort string_leb _ files). generalize (stable_sort string_leb files) as l.
  intros l Hm. assert (Hall : ∀ file, file ∈ l → file ∈ mg_versions d').
  { revert d Hm. induction l as [|file l IH]; intros d Hm x Hx; [by apply not_elem_of_nil in Hx|]. cbn in Hm.
    pose proof (applyMigration_grows sql file d) as Ha. destruct (applyMigration sql file d) as [[u|e] d1]; [|done].
    apply elem_of_cons in Hx as [->|Hx]; [|by eapply IH].
    replace d' with (migrate_files sql l d1).2 by (by rewrite Hm). apply migrate_files_grows. exact (proj1 Ha). }
  split; [done|]. clear Hm d. induction l as [|file l IH]; [done|]. cbn.
  rewrite applyMigration_done by (apply Hall; left). apply IH. intros x Hx. apply Hall. by right.
Qed.
End Migrations.
#[global] Arguments Migrated : clear implicits.
#[global] Arguments SQL : clear implicits.
