(* ===== verification/Texts.v ===== *)
(** * What alert messages say: the texts of src/collector/alerts.go and
    src/collector/kube.go.

    Every function returns the subject and the body.  A template field is
    replaced in one pass from left to right, so a value that looks like a
    field is not replaced again. *)
From S2P Require Import Prelude GoStrings GoFloat GoTime Errors Monitor Alerts.
Local Open Scope Z_scope.

(** [expectedCode] of endpoints.go *)
Definition expectedCode (rule : AlertConfig) : Z :=
  if rule_ExpectedHTTPCode rule =? 0 then 200 else rule_ExpectedHTTPCode rule.

Definition endpointText (rule : AlertConfig) (actualHTTPCode : Z) (errMsg : string) (resolved : bool) (at_ : time)
    : string * string :=
  if resolved then
    ("[Resolved] " +:+ rule_Endpoint rule +:+ " is answering again",
     rule_Endpoint rule +:+ " answered with " +:+ itoa actualHTTPCode +:+ " at " +:+ rfc1123 at_ +:+ ".")
  else
    let subject := "[Critical] endpoint check failed on " +:+ rule_Endpoint rule in
    let body := replacer
      [("{subject}", subject); ("{endpoint}", rule_Endpoint rule); ("{metricName}", rule_MetricName rule);
       ("{expected}", itoa (expectedCode rule)); ("{actual}", itoa actualHTTPCode);
       ("{timestamp}", time_string at_); ("{error}", errMsg);
       ("{triggerInterval}", itoa (rule_TriggerIntveral rule))] (rule_Template rule) in
    (subject,
     if str_eq (trim_space body) "" then
       rule_Endpoint rule +:+ " should answer with " +:+ itoa (expectedCode rule) +:+ " and answered with "
       +:+ itoa actualHTTPCode +:+ (if str_eq errMsg "" then "" else ": " +:+ errMsg)
     else body).

(** [time.Duration(days * 24 * float64(time.Hour))] *)
Definition days_duration (days : float64) : duration :=
  to_int (fmul (fmul days (of_int 24)) (of_int hour)).

Definition certificateText (rule : AlertConfig) (days : float64) (status : StatusType) (at_ : time) : string * string :=
  let expires := day_minute (time_add at_ (days_duration days)) in
  match status with
  | Normal => ("[Resolved] certificate renewed for " +:+ rule_Endpoint rule,
               rule_Endpoint rule +:+ " has a certificate valid for " +:+ itoa (to_int days) +:+ " more days")
  | _ =>
      ((match status with Critical => "[Critical]" | _ => "[Warning]" end)
         +:+ " certificate expiring for " +:+ rule_Endpoint rule,
       if flt days f0 then rule_Endpoint rule +:+ " has a certificate that expired on " +:+ expires
       else rule_Endpoint rule +:+ " has a certificate that expires on " +:+ expires)
  end.

Definition alertText (rule : AlertConfig) (host : string) (status : StatusType) (value : float64) (at_ : time)
    : string * string :=
  let triggered := rule_Name rule +:+ " triggered on " +:+ host in
  match status with
  | Normal =>
      let subject := "[Resolved] " +:+ rule_Name rule +:+ " on " +:+ host in
      if str_eq (rule_MetricName rule) PING
      then (subject, host +:+ " is reporting again at " +:+ rfc1123 at_ +:+ ".")
      else (subject, rule_Name rule +:+ " on " +:+ host +:+ " is back to normal at " +:+ rfc1123 at_
                       +:+ ", with " +:+ fmt_fixed 2 value +:+ ".")
  | _ =>
      let subject := (match status with Critical => "[Critical] " | _ => "[Warning] " end) +:+ triggered in
      let expected := itoa (match status with Critical => rule_CriticalThreshold rule | _ => rule_WarnThreshold rule end) in
      let body := replacer
        [("{subject}", subject); ("{serverName}", host); ("{metricName}", rule_MetricName rule);
         ("{op}", rule_Op rule); ("{expected}", expected); ("{timestamp}", time_string at_);
         ("{desc}", rule_Description rule); ("{value}", fmt_fixed 2 value);
         ("{triggerInterval}", itoa (rule_TriggerIntveral rule))] (rule_Template rule) in
      (subject,
       if str_eq (trim_space body) "" then
         subject +:+ ": " +:+ fmt_fixed 2 value
         +:+ (if str_eq expected "" then "" else " " +:+ rule_Op rule +:+ " " +:+ expected)
       else body)
  end.

(** ** kube.go *)

Definition plural (n : Z) (word : string) : string :=
  if n =? 1 then "1 " +:+ word else itoa n +:+ " " +:+ word +:+ "s".

Definition kubeProblem (metric target : string) (value : float64) : string :=
  let n := to_int value in
  if str_eq metric KUBE_NODE then "node " +:+ target +:+ " is not ready"
  else if str_eq metric KUBE_WORKLOAD then target +:+ " is missing " +:+ plural n "replica"
  else if str_eq metric KUBE_PENDING then plural n "pod" +:+ " of " +:+ target +:+ " stuck pending"
  else target +:+ " restarted " +:+ plural n "time" +:+ " in the last hour".

Definition kubeFine (metric target : string) : string :=
  if str_eq metric KUBE_NODE then "node " +:+ target +:+ " is ready again"
  else if str_eq metric KUBE_WORKLOAD then target +:+ " has all its replicas again"
  else if str_eq metric KUBE_PENDING then target +:+ " has no pods pending"
  else target +:+ " stopped restarting".

Definition kubeText (rule : AlertConfig) (target reason : string) (status : StatusType) (value : float64) (at_ : time)
    : string * string :=
  match status with
  | Normal =>
      let fine := kubeFine (rule_MetricName rule) target in
      ("[Resolved] " +:+ rule_Name rule +:+ ": " +:+ fine +:+ " in " +:+ rule_Cluster rule,
       fine +:+ " in " +:+ rule_Cluster rule +:+ " at " +:+ rfc1123 at_ +:+ ".")
  | _ =>
      let level := match status with Warning => "[Warning] " | _ => "[Critical] " end in
      let problem := kubeProblem (rule_MetricName rule) target value in
      let subject := level +:+ rule_Name rule +:+ ": " +:+ problem +:+ " in " +:+ rule_Cluster rule in
      let body := replacer
        [("{subject}", subject); ("{cluster}", rule_Cluster rule); ("{target}", target);
         ("{metricName}", rule_MetricName rule); ("{value}", fmt_fixed 0 value); ("{reason}", reason);
         ("{timestamp}", time_string at_); ("{desc}", rule_Description rule);
         ("{triggerInterval}", itoa (rule_TriggerIntveral rule))] (rule_Template rule) in
      (subject,
       if str_eq (trim_space body) "" then
         if str_eq reason "" then problem +:+ " in " +:+ rule_Cluster rule +:+ "."
         else if str_eq (rule_MetricName rule) KUBE_NODE
         then problem +:+ " in " +:+ rule_Cluster rule +:+ ". It reports " +:+ reason +:+ "."
         else problem +:+ " in " +:+ rule_Cluster rule +:+ "." +:+ " The pods say " +:+ reason +:+ "."
       else body)
  end.

Definition kubeGoneText (rule : AlertConfig) (target : string) (at_ : time) : string * string :=
  let what := if str_eq (rule_MetricName rule) KUBE_NODE then "node " +:+ target else target in
  ("[Resolved] " +:+ rule_Name rule +:+ ": " +:+ what +:+ " is gone from " +:+ rule_Cluster rule,
   what +:+ " was removed from " +:+ rule_Cluster rule +:+ " by " +:+ rfc1123 at_ +:+ ".").

(** ** Tests *)
Example alertText_ex :
  alertText {| rule_Name := "CPU"; rule_Description := ""; rule_MetricName := PROC_USAGE; rule_IsCustom := false;
    rule_Op := ">"; rule_Template := "{serverName}: {value} {op} {expected}"; rule_WarnThreshold := 80;
    rule_CriticalThreshold := 95; rule_TriggerIntveral := 60; rule_Servers := ["*"]; rule_Endpoint := "";
    rule_ExpectedHTTPCode := 0; rule_Method := ""; rule_CustomCACert := ""; rule_POSTContentType := "";
    rule_POSTBody := ""; rule_Disk := ""; rule_Service := ""; rule_Cluster := ""; rule_Namespace := "";
    rule_Channels := []; rule_Email := false; rule_Pagerduty := false; rule_Slack := false;
    rule_SlackChannel := ""; rule_CertWarnDays := None; rule_CertCriticalDays := None |}
    "web1" Warning (of_int 85) 0
  = ("[Warning] CPU triggered on web1", "web1: 85.00 > 80").
Proof. vm_compute. reflexivity. Qed.
