(* ===== verification/Evaluator.v ===== *)
(** * The alert evaluator: src/collector/evaluator.go, and the rule checks of
    src/collector/alerts.go and src/collector/kube.go.

    The evaluator works against the interface [AlertStore], the methods of
    the source's [alertStore]; any of them may fail.  Its state is the four
    maps of the struct, the store, and the notices handed to the notify
    callback, in order (the log is the model's own: the callback's effect on
    the store is [st_notify]).  [now] is what [e.now()] answers; every handler reads
    the clock at most once. *)
From S2P Require Import Prelude GoStrings GoFloat GoTime Errors Monitor Alerts Json Notify Kube Database StoreHosts.
From S2P Require Import StoreAlerts StoreKube Texts.
Local Open Scope Z_scope.

(** notify.go's [notice] *)
Record notice := {
  nt_alertID : Z; nt_rule : AlertConfig; nt_host : string; nt_target : string; nt_event : string;
  nt_severity : Z; nt_value : float64; nt_subject : string; nt_body : string; nt_at : time }.

(** ** The store as the evaluator sees it

    [st_notify] is the callback the collector hands the evaluator; what it
    writes it writes to the same store. *)

Class AlertStore (W : Type) := {
  st_LatestValue : W → string → string → string → bool → result error (float64 * time);
  st_LastSeen : W → string → result error time;
  st_DaysUntilFull : W → string → string → result error float64;
  st_LatestEndpointCheck : W → string → result error EndpointCheck;
  st_LatestCertificate : W → string → result error (time * time);
  st_Cluster : W → string → result error KCluster;
  st_RestartsSince : W → string → time → result error (gmap string Z);
  st_Alerts : W → AlertFilter → result error (list Alert);
  st_OpenAlert : W → string → string → string → string → result error (option Alert);
  st_CreateAlert : Alert → SM W error Z;
  st_UpdateAlert : Z → Z → float64 → time → SM W error unit;
  st_ResolveAlert : Z → float64 → time → SM W error unit;
  st_notify : notice → W → W }.

Record pendingStatus := { pn_status : StatusType; pn_since : time }.

(** A node or workload a kubernetes rule checks. *)
Record kubeTarget := { kt_target : string; kt_value : float64; kt_reason : string }.

Record evaluator (W : Type) := {
  ev_store : W; ev_sent : list notice; ev_pending : gmap string pendingStatus; ev_checked : gmap string time;
  ev_checkErrors : gmap string string; ev_reasons : gmap string string }.
Arguments ev_store {_} _.
Arguments ev_sent {_} _.
Arguments ev_pending {_} _.
Arguments ev_checked {_} _.
Arguments ev_checkErrors {_} _.
Arguments ev_reasons {_} _.

Section Fields.
Context {W : Type}.
Implicit Types e : evaluator W.

Definition with_store (w : W) e : evaluator W := {|
  ev_store := w; ev_sent := ev_sent e; ev_pending := ev_pending e; ev_checked := ev_checked e;
  ev_checkErrors := ev_checkErrors e; ev_reasons := ev_reasons e |}.
Definition with_sent (l : list notice) e : evaluator W := {|
  ev_store := ev_store e; ev_sent := l; ev_pending := ev_pending e; ev_checked := ev_checked e;
  ev_checkErrors := ev_checkErrors e; ev_reasons := ev_reasons e |}.
Definition with_pending (m : gmap string pendingStatus) e : evaluator W := {|
  ev_store := ev_store e; ev_sent := ev_sent e; ev_pending := m; ev_checked := ev_checked e;
  ev_checkErrors := ev_checkErrors e; ev_reasons := ev_reasons e |}.
Definition with_checked (m : gmap string time) e : evaluator W := {|
  ev_store := ev_store e; ev_sent := ev_sent e; ev_pending := ev_pending e; ev_checked := m;
  ev_checkErrors := ev_checkErrors e; ev_reasons := ev_reasons e |}.
Definition with_checkErrors (m : gmap string string) e : evaluator W := {|
  ev_store := ev_store e; ev_sent := ev_sent e; ev_pending := ev_pending e; ev_checked := ev_checked e;
  ev_checkErrors := m; ev_reasons := ev_reasons e |}.
Definition with_reasons (m : gmap string string) e : evaluator W := {|
  ev_store := ev_store e; ev_sent := ev_sent e; ev_pending := ev_pending e; ev_checked := ev_checked e;
  ev_checkErrors := ev_checkErrors e; ev_reasons := m |}.

(** newEvaluator *)
Definition newEvaluator (w : W) : evaluator W := {|
  ev_store := w; ev_sent := []; ev_pending := ∅; ev_checked := ∅; ev_checkErrors := ∅; ev_reasons := ∅ |}.
End Fields.

(** ** What a rule watches and when it is breached *)

Definition ruleTarget (rule : AlertConfig) : string :=
  let m := rule_MetricName rule in
  if contains [DISKS; DISK_FORECAST] m then rule_Disk rule
  else if str_eq m SERVICES then rule_Service rule
  else if contains [ENDPOINT; CERTIFICATE] m then rule_Endpoint rule
  else "".

(** alerts.go: the hosts a rule checks *)
Definition ruleHosts (rule : AlertConfig) (hosts : list string) : list string :=
  if str_eq (rule_MetricName rule) ENDPOINT || IsKube (rule_MetricName rule) then [""]
  else if contains (rule_Servers rule) AllHosts then hosts
  else rule_Servers rule.

(** alerts.go: the six comparisons and the two service states *)
Definition getAlertType (alert : AlertConfig) (val : float64) : StatusType :=
  let critical := of_int (rule_CriticalThreshold alert) in
  let warn := of_int (rule_WarnThreshold alert) in
  let levels (breached : float64 → float64 → bool) :=
    if breached val critical then Critical else if breached val warn then Warning else Normal in
  let op := rule_Op alert in
  if str_eq op "==" then levels feq
  else if str_eq op "!=" then levels fne
  else if str_eq op ">" then levels fgt
  else if str_eq op "<" then levels flt
  else if str_eq op ">=" then levels fge
  else if str_eq op "<=" then levels fle
  else if str_eq op "inactive" then (if feq val f0 then Critical else Normal)
  else if str_eq op "active" then (if feq val f1 then Critical else Normal)
  else Normal.

Definition ruleStatus (rule : AlertConfig) (value : float64) : StatusType :=
  let m := rule_MetricName rule in
  if str_eq m ENDPOINT then (if negb (to_int value =? expectedCode rule) then Critical else Normal)
  else if str_eq m PING then (if fgt value (of_int (rule_TriggerIntveral rule)) then Critical else Normal)
  else if contains [KUBE_NODE; KUBE_WORKLOAD; KUBE_PENDING] m then (if fgt value f0 then Critical else Normal)
  else getAlertType rule value.

Definition triggerInterval (rule : AlertConfig) : duration := seconds (rule_TriggerIntveral rule).

Definition alertKey (host : string) (rule : AlertConfig) (target : string) : string :=
  host +:+ "|" +:+ rule_Name rule +:+ "|" +:+ rule_MetricName rule +:+ "|" +:+ target.

(** The rule on an HTTPS endpoint's certificate, [None] when it has none. *)
Definition certificateRule (rule : AlertConfig) : option AlertConfig :=
  let '(warn, critical) := CertDays rule in
  if (warn =? 0) && (critical =? 0) then None
  else Some {|
    rule_Name := rule_Name rule; rule_Description := rule_Description rule; rule_MetricName := CERTIFICATE;
    rule_IsCustom := rule_IsCustom rule; rule_Op := "<"; rule_Template := rule_Template rule;
    rule_WarnThreshold := warn; rule_CriticalThreshold := critical; rule_TriggerIntveral := 0;
    rule_Servers := rule_Servers rule; rule_Endpoint := rule_Endpoint rule;
    rule_ExpectedHTTPCode := rule_ExpectedHTTPCode rule; rule_Method := rule_Method rule;
    rule_CustomCACert := rule_CustomCACert rule; rule_POSTContentType := rule_POSTContentType rule;
    rule_POSTBody := rule_POSTBody rule; rule_Disk := rule_Disk rule; rule_Service := rule_Service rule;
    rule_Cluster := rule_Cluster rule; rule_Namespace := rule_Namespace rule; rule_Channels := rule_Channels rule;
    rule_Email := rule_Email rule; rule_Pagerduty := rule_Pagerduty rule; rule_Slack := rule_Slack rule;
    rule_SlackChannel := rule_SlackChannel rule; rule_CertWarnDays := rule_CertWarnDays rule;
    rule_CertCriticalDays := rule_CertCriticalDays rule |}.

(** ** kube.go: the targets of a kubernetes rule *)

Definition podReason (pods : list Pod) (lastRun : bool) : string :=
  match first_some (λ p, if str_eq (pod_Reason p) "" then None else Some (pod_Reason p)) pods with
  | Some r => r
  | None =>
      if lastRun
      then default "" (first_some (λ p,
             first_some (λ c, if str_eq (ctr_LastReason c) "" then None else Some (ctr_LastReason c)) (pod_Containers p)) pods)
      else ""
  end.

Definition inNamespace (rule : AlertConfig) (namespace : string) : bool :=
  str_eq (rule_Namespace rule) "" || str_eq (rule_Namespace rule) namespace.

(** [add]: the keys in the order they were first seen. *)
Definition add_key (keys : list string) (key : string) : list string :=
  if contains keys key then keys else keys ++ [key].

Definition node_target (n : Node) : kubeTarget := {|
  kt_target := node_Name n; kt_value := if node_Ready n then f0 else f1; kt_reason := join ", " (node_Pressure n) |}.

(** The map [pods]: the pods of each key, in the order of the state. *)
Definition pods_of (state : ClusterState) (key : string) : list Pod :=
  List.filter (λ p, str_eq (WorkloadKey p) key) (cs_Pods state).

Definition kube_keys (rule : AlertConfig) (state : ClusterState) : list string :=
  let workloads := map Workload_Key (List.filter (λ w, inNamespace rule (wl_Namespace w)) (cs_Workloads state)) in
  let pods := if str_eq (rule_MetricName rule) KUBE_WORKLOAD then []
              else map WorkloadKey (List.filter (λ p, inNamespace rule (pod_Namespace p)) (cs_Pods state)) in
  fold_left add_key (workloads ++ pods) [].

Definition kubeTargets (rule : AlertConfig) (state : ClusterState) (restarts : gmap string Z) : list kubeTarget :=
  let m := rule_MetricName rule in
  if str_eq m KUBE_NODE then map node_target (cs_Nodes state)
  else
    let keys := kube_keys rule state in
    if str_eq m KUBE_WORKLOAD then
      map (λ w, {| kt_target := Workload_Key w; kt_value := of_int (Missing w);
                   kt_reason := podReason (pods_of state (Workload_Key w)) false |})
        (List.filter (λ w, inNamespace rule (wl_Namespace w)) (cs_Workloads state))
    else if str_eq m KUBE_PENDING then
      map (λ key, let pending := List.filter (phase_is "Pending") (pods_of state key) in
                  {| kt_target := key; kt_value := of_int (len pending); kt_reason := podReason pending false |}) keys
    else if str_eq m KUBE_RESTARTS then
      map (λ key, {| kt_target := key; kt_value := of_int (default 0 (restarts !! key));
                     kt_reason := podReason (pods_of state key) true |}) keys
    else [].

(** ** The evaluator's methods *)

Section Methods.
Context {W : Type} `{AlertStore W}.

Definition EvalM := SM (evaluator W) error.

(** A call of the store. *)
Definition on_store {A} (m : SM W error A) : EvalM A := λ e,
  let '(r, w) := m (ev_store e) in (r, with_store w e).
Definition read_store {A} (f : W → result error A) : EvalM A := λ e, (f (ev_store e), e).

Definition set_pending (key : string) (p : pendingStatus) : EvalM unit :=
  smodify (λ e, with_pending (<[key := p]> (ev_pending e)) e).
Definition delete_pending (key : string) : EvalM unit :=
  smodify (λ e, with_pending (delete key (ev_pending e)) e).

(** [e.notify(ctx, n)] *)
Definition notify (n : notice) : EvalM unit :=
  smodify (λ e, with_sent (ev_sent e ++ [n]) (with_store (st_notify n (ev_store e)) e)).

Definition message (rule : AlertConfig) (host target : string) (id : Z) (event : string) (status : StatusType)
    (value : float64) (at_ : time) (e : evaluator W) : notice :=
  let m := rule_MetricName rule in
  let '(subject, body) :=
    if contains [KUBE_NODE; KUBE_WORKLOAD; KUBE_PENDING; KUBE_RESTARTS] m
    then kubeText rule target (default "" (ev_reasons e !! (rule_Name rule +:+ "|" +:+ target))) status value at_
    else if str_eq m ENDPOINT
    then endpointText rule (to_int value) (default "" (ev_checkErrors e !! rule_Name rule))
           (bool_decide (status = Normal)) at_
    else if str_eq m CERTIFICATE then certificateText rule value status at_
    else alertText rule host status value at_ in
  {| nt_alertID := id; nt_rule := rule; nt_host := host; nt_target := target; nt_event := event;
     nt_severity := status_int status; nt_value := value; nt_subject := subject; nt_body := body; nt_at := at_ |}.

Definition send (rule : AlertConfig) (host target : string) (id : Z) (event : string) (status : StatusType)
    (value : float64) (at_ : time) : EvalM unit :=
  e ← sget; notify (message rule host target id event status value at_ e).

Definition updateOpen (rule : AlertConfig) (host key : string) (open : Alert) (status : StatusType)
    (value : float64) (at_ : time) : EvalM unit :=
  match status with
  | Normal =>
      e ← sget;
      match ev_pending e !! key with
      | Some {| pn_status := Normal; pn_since := since |} =>
          if time_sub at_ since <? triggerInterval rule then mret ()
          else on_store (st_ResolveAlert (alert_ID open) value at_);;
               delete_pending key;;
               send rule host (alert_Target open) (alert_ID open) Resolved status value at_
      | _ => set_pending key {| pn_status := Normal; pn_since := at_ |}
      end
  | _ =>
      delete_pending key;;
      if status_int status =? alert_Severity open then mret ()
      else on_store (st_UpdateAlert (alert_ID open) (status_int status) value at_);;
           send rule host (alert_Target open) (alert_ID open) Changed status value at_
  end.

Definition alert_to_open (rule : AlertConfig) (host target : string) (status : StatusType) (value : float64)
    (at_ : time) : Alert := {|
  alert_ID := 0; alert_Host := host; alert_Rule := rule_Name rule; alert_Metric := rule_MetricName rule;
  alert_Target := target; alert_Severity := status_int status; alert_Value := value; alert_StartedAt := at_;
  alert_UpdatedAt := zero_time; alert_ResolvedAt := None |}.

Definition openIfBreached (rule : AlertConfig) (host target key : string) (status : StatusType)
    (value : float64) (at_ : time) : EvalM unit :=
  match status with
  | Normal => delete_pending key
  | _ =>
      e ← sget;
      match ev_pending e !! key with
      | None | Some {| pn_status := Normal |} => set_pending key {| pn_status := status; pn_since := at_ |}
      | Some {| pn_since := since |} =>
          if time_sub at_ since <? triggerInterval rule then mret ()
          else id ← on_store (st_CreateAlert (alert_to_open rule host target status value at_));
               delete_pending key;;
               send rule host target id Opened status value at_
      end
  end.

Definition check (rule : AlertConfig) (host target : string) (value : float64) (at_ : time) : EvalM unit :=
  let key := alertKey host rule target in
  e ← sget;
  if match ev_checked e !! key with Some last => negb (after at_ last) | None => false end then mret ()
  else
    smodify (λ e, with_checked (<[key := at_]> (ev_checked e)) e);;
    let status := ruleStatus rule value in
    open ← read_store (λ w, st_OpenAlert w host (rule_Name rule) (rule_MetricName rule) target);
    match open with
    | Some open => updateOpen rule host key open status value at_
    | None => openIfBreached rule host target key status value at_
    end.

(** [expires.Sub(checked).Hours() / 24] *)
Definition days_left (expires checked : time) : float64 := fdiv (dur_hours (time_sub expires checked)) (of_int 24).

Definition latest (now : time) (rule : AlertConfig) (host target : string) : EvalM (float64 * time) :=
  let m := rule_MetricName rule in
  if str_eq m ENDPOINT then
    c ← read_store (λ w, st_LatestEndpointCheck w (rule_Name rule));
    smodify (λ e, with_checkErrors (<[rule_Name rule := ec_Error c]> (ev_checkErrors e)) e);;
    mret (of_int (ec_StatusCode c), ec_Time c)
  else if str_eq m CERTIFICATE then
    c ← read_store (λ w, st_LatestCertificate w (rule_Name rule));
    mret (days_left c.1 c.2, c.2)
  else if str_eq m DISK_FORECAST then
    days ← read_store (λ w, st_DaysUntilFull w host target);
    mret (days, now)
  else if negb (str_eq m PING) then read_store (λ w, st_LatestValue w host m target (rule_IsCustom rule))
  else
    lastSeen ← read_store (λ w, st_LastSeen w host);
    if is_zero lastSeen then sfail ErrNotFound
    else mret (dur_seconds (time_sub now lastSeen), now).

(** *** Kubernetes rules *)

(** The loop over the rule's open alerts whose target is gone. *)
Fixpoint resolve_gone_from (rule : AlertConfig) (present : list string) (at_ : time) (open : list Alert) : EvalM unit :=
  match open with
  | [] => mret ()
  | a :: open' =>
      if negb (str_eq (alert_Metric a) (rule_MetricName rule)) || contains present (alert_Target a)
      then resolve_gone_from rule present at_ open'
      else
        on_store (st_ResolveAlert (alert_ID a) f0 at_);;
        e ← sget;
        let n := message rule "" (alert_Target a) (alert_ID a) Resolved Normal f0 at_ e in
        let '(subject, body) := kubeGoneText rule (alert_Target a) at_ in
        notify {| nt_alertID := nt_alertID n; nt_rule := nt_rule n; nt_host := nt_host n; nt_target := nt_target n;
                  nt_event := nt_event n; nt_severity := nt_severity n; nt_value := nt_value n;
                  nt_subject := subject; nt_body := body; nt_at := nt_at n |};;
        resolve_gone_from rule present at_ open'
  end.

(** Deleting the keys that start with [prefix] and whose rest is not present. *)
Definition gone_key (prefix : string) (present : list string) (key : string) : bool :=
  match cut_prefix prefix key with Some target => negb (contains present target) | None => false end.
Definition forget {A} (prefix : string) (present : list string) (m : gmap string A) : gmap string A :=
  filter (λ kv, gone_key prefix present kv.1 = false) m.

Definition resolveGone (rule : AlertConfig) (targets : list kubeTarget) (at_ : time) : EvalM unit :=
  let present := map kt_target targets in
  open ← read_store (λ w, st_Alerts w {| filter_Host := ""; filter_Rule := rule_Name rule; filter_OpenOnly := true;
                                         filter_From := zero_time; filter_To := zero_time |});
  resolve_gone_from rule present at_ open;;
  let prefix := alertKey "" rule "" in
  smodify (λ e, with_pending (forget prefix present (ev_pending e)) e);;
  smodify (λ e, with_checked (forget prefix present (ev_checked e)) e);;
  smodify (λ e, with_reasons (forget (rule_Name rule +:+ "|") present (ev_reasons e)) e).

Fixpoint check_targets (rule : AlertConfig) (at_ : time) (targets : list kubeTarget) : EvalM unit :=
  match targets with
  | [] => mret ()
  | t :: targets' =>
      smodify (λ e, with_reasons (<[rule_Name rule +:+ "|" +:+ kt_target t := kt_reason t]> (ev_reasons e)) e);;
      check rule "" (kt_target t) (kt_value t) at_;;
      check_targets rule at_ targets'
  end.

Definition evaluateCluster (now : time) (rule : AlertConfig) : EvalM unit :=
  r ← stry (read_store (λ w, st_Cluster w (rule_Cluster rule)));
  match r with
  | Err ErrNotFound => mret ()
  | Err err => sfail err
  | Ok cluster =>
      if Stale cluster now then mret ()
      else
        let at_ := unix_time (cs_Time (kc_State cluster)) in
        restarts ← (if str_eq (rule_MetricName rule) KUBE_RESTARTS
                    then read_store (λ w, st_RestartsSince w (rule_Cluster rule) (time_add at_ (- hour)))
                    else mret ∅);
        let targets := kubeTargets rule (kc_State cluster) restarts in
        check_targets rule at_ targets;;
        resolveGone rule targets at_
  end.

Definition evaluate (now : time) (rule : AlertConfig) (host : string) : EvalM unit :=
  if IsKube (rule_MetricName rule) then evaluateCluster now rule
  else
    let target := ruleTarget rule in
    r ← stry (latest now rule host target);
    match r with
    | Err ErrNotFound => mret ()
    | Err err => sfail err
    | Ok (value, at_) => check rule host target value at_
    end.

(** *** One round of handleAlerts: every rule on its hosts, each followed by
    its certificate rule.  An error is logged and the next one goes on. *)
Definition evaluate_logged (now : time) (rule : AlertConfig) (host : string) : evaluator W → evaluator W :=
  λ e, (evaluate now rule host e).2.

Definition evaluate_rule (now : time) (names : list string) (rule : AlertConfig) (e : evaluator W) : evaluator W :=
  let e := fold_left (λ e host, evaluate_logged now rule host e) (ruleHosts rule names) e in
  match certificateRule rule with
  | Some certificate => evaluate_logged now certificate "" e
  | None => e
  end.

Definition alert_round (now : time) (rules : list AlertConfig) (names : list string) (e : evaluator W) : evaluator W :=
  fold_left (λ e rule, evaluate_rule now names rule e) rules e.
End Methods.

#[global] Arguments message : simpl never.
#[global] Arguments alertKey : simpl never.
#[global] Arguments ruleStatus : simpl never.
#[global] Arguments kubeTargets : simpl never.
