(* ===== verification/Notices.v ===== *)
(** * Queueing and delivering notices: src/collector/notify.go. *)
From S2P Require Import Prelude GoStrings GoFloat GoTime Errors Monitor Alerts Json Notify Kube Tasks Database.
From S2P Require Import StoreHosts StoreAlerts StoreKube StoreNotifications Texts Evaluator.
Local Open Scope Z_scope.

Definition deliverBatch : Z := 20.
Definition retryWaits : list duration := [seconds 30; 2 * minute; 10 * minute; 30 * minute; hour].

(** ** Who hears about an event *)

Definition ruleWants (rule : AlertConfig) (channel : Channel) : bool :=
  if contains (rule_Channels rule) (channel_Name channel) then true
  else if (str_eq (channel_Kind channel) Email && rule_Email rule)
          || (str_eq (channel_Kind channel) Slack && rule_Slack rule)
          || (str_eq (channel_Kind channel) PagerDuty && rule_Pagerduty rule) then true
  else
    let picksNone := match rule_Channels rule with [] => true | _ => false end
                     && negb (rule_Email rule) && negb (rule_Slack rule) && negb (rule_Pagerduty rule) in
    picksNone && channel_IsDefault channel.

(** The body of the loop of [pickChannels] *)
Definition picks (rule : AlertConfig) (event : string) (severity : Z) (told : list Z) (channel : Channel) : bool :=
  if negb (channel_Enabled channel) then false
  else if str_eq event Resolved then bool_decide (channel_ID channel ∈ told)
  else if negb (ruleWants rule channel) then false
  else negb (channel_SkipWarnings channel && (severity <? SeverityCritical)).

Definition pickChannels (rule : AlertConfig) (channels : list Channel) (event : string) (severity : Z)
    (told : list Z) : list Z :=
  map channel_ID (List.filter (picks rule event severity told) channels).

Definition notice_row (n : notice) : Notification := {|
  note_ID := 0; note_AlertID := nt_alertID n; note_ChannelID := 0; note_Event := nt_event n;
  note_Severity := nt_severity n; note_Value := nt_value n; note_Subject := nt_subject n;
  note_Body := nt_body n; note_Status := ""; note_Attempts := 0; note_LastError := "";
  note_CreatedAt := zero_time; note_SentAt := zero_time; note_ChannelName := ""; note_ChannelKind := "";
  note_ChannelOn := false; note_Settings := ∅; note_Host := ""; note_Rule := ""; note_Metric := "";
  note_Target := ""; note_StartedAt := zero_time; note_PreviousRef := "" |}.

Definition queueNotice (now : time) (n : notice) : DBM unit := λ d,
  let told := if str_eq (nt_event n) Resolved then NotifiedChannels d (nt_alertID n) else [] in
  QueueNotifications now (notice_row n)
    (pickChannels (nt_rule n) (Channels d) (nt_event n) (nt_severity n) told) d.

(** ** Delivery *)

Definition retryAfter (failures : Z) : option duration :=
  if (failures <? 1) || (Z.of_nat (length retryWaits) <? failures) then None
  else retryWaits !! Z.to_nat (failures - 1).

(** net/url's PathEscape *)
Class PathEscape := url_PathEscape : string → string.

Section Deliver.
Context `{Outside, ParseAddress, UrlParse, PathEscape}.

Definition alertLink (dashboard host metric : string) : string :=
  if str_eq dashboard "" then ""
  else if str_eq metric ENDPOINT || str_eq metric CERTIFICATE then dashboard +:+ "/endpoints"
  else if IsKube metric then dashboard +:+ "/kubernetes"
  else if negb (str_eq host "") then dashboard +:+ "/hosts/" +:+ url_PathEscape host
  else dashboard +:+ "/alerts".

(** [message] of notify.go *)
Definition notice_message (n : Notification) (dashboard : string) (at_ : time) : Message := {|
  msg_Event := note_Event n; msg_Severity := note_Severity n; msg_Subject := note_Subject n; msg_Body := note_Body n;
  msg_Host := note_Host n; msg_Rule := note_Rule n; msg_Metric := note_Metric n; msg_Target := note_Target n;
  msg_Value := note_Value n; msg_AlertID := note_AlertID n; msg_StartedAt := note_StartedAt n; msg_At := at_;
  msg_Link := alertLink dashboard (note_Host n) (note_Metric n) |}.

(** The answer of [deliverOne]: the ref, or whether to retry and the error *)
Definition deliverOne (n : Notification) (dashboard : string) (at_ : time) (sent : list Request)
    : (string + bool * error) * list Request :=
  if negb (note_ChannelOn n) then (inr (false, ErrText "the channel is switched off"), sent)
  else match Parse (note_ChannelKind n) (note_Settings n) with
       | Err e => (inr (false, ErrWrap "the channel's settings are broken" e), sent)
       | Ok sender =>
           match Send sender (notice_message n dashboard at_) (note_PreviousRef n) sent with
           | (Ok ref, sent) => (inl ref, sent)
           | (Err e, sent) => (inr (true, e), sent)
           end
       end.

(** The mark left on a notification after a try *)
Definition mark (now : time) (n : Notification) (outcome : string + bool * error) : DBM unit :=
  match outcome with
  | inl ref => MarkSent now (note_ID n) ref
  | inr (retry, e) =>
      match retryAfter (note_Attempts n + 1) with
      | Some wait => if (retry : bool) then MarkRetry (note_ID n) (error_text e) (time_add now wait)
                     else MarkFailed (note_ID n) (error_text e)
      | None => MarkFailed (note_ID n) (error_text e)
      end
  end.

(** The loop of [deliverDue] over the batch it read; its clock says when a
    notification of the batch is sent and when the outcome is recorded. *)
Fixpoint deliver_batch (dashboard : string) (clock : nat → time * time) (due : list Notification) (st : DB * list Request)
    : DB * list Request :=
  match due with
  | [] => st
  | n :: due' =>
      let '(outcome, sent) := deliverOne n dashboard (clock 0%nat).1 st.2 in
      deliver_batch dashboard (λ i, clock (S i)) due' (snd (mark (clock 0%nat).2 n outcome st.1), sent)
  end.

(** When a tick reads its batch, and the clock while it sends it *)
Record Tick := { tick_read : time; tick_clock : nat → time * time }.

Definition deliverDue (dashboard : string) (tick : Tick) (st : DB * list Request) : DB * list Request :=
  deliver_batch dashboard (tick_clock tick) (DueNotifications (tick_read tick) st.1 deliverBatch) st.

(** [deliverNotifications]: a batch at every tick *)
Definition deliverNotifications (dashboard : string) (ticks : list Tick) (st : DB * list Request) : DB * list Request :=
  fold_left (λ st tick, deliverDue dashboard tick st) ticks st.
End Deliver.
