(* ===== verification/NoticesProps.v ===== *)
(** * Notifications arrive in order, a bounded number of times, and only
    where they should.

    Delivery runs beside the evaluator that queues and the admins who edit
    channels, so its steps are those of an interleaving: reading a batch,
    sending one of it, and everything others do in between. *)
From S2P Require Import Prelude GoStrings GoFloat GoTime Errors Monitor Alerts Json Notify Kube Tasks Database.
From S2P Require Import Smtp StoreHosts StoreAlerts StoreKube StoreNotifications Texts Evaluator Notices.
Local Open Scope Z_scope.

(** ** The interleaving *)

Record Delivery := { dl_db : DB; dl_batch : list Notification }.

Inductive delivery_step : relation Delivery :=
  | ds_queue now n ids d b : delivery_step {| dl_db := d; dl_batch := b |}
      {| dl_db := snd (QueueNotifications now n ids d); dl_batch := b |}
  | ds_read now d : delivery_step {| dl_db := d; dl_batch := [] |}
      {| dl_db := d; dl_batch := DueNotifications now d deliverBatch |}
  | ds_send now n outcome d b : delivery_step {| dl_db := d; dl_batch := n :: b |}
      {| dl_db := snd (mark now n outcome d); dl_batch := b |}
  | ds_create now c by_ d b : delivery_step {| dl_db := d; dl_batch := b |}
      {| dl_db := snd (CreateChannel now c by_ d); dl_batch := b |}
  | ds_update now c by_ d b : delivery_step {| dl_db := d; dl_batch := b |}
      {| dl_db := snd (UpdateChannel now c by_ d); dl_batch := b |}
  | ds_delete id d b : delivery_step {| dl_db := d; dl_batch := b |}
      {| dl_db := snd (Store_DeleteChannel id d); dl_batch := b |}
  | ds_alerts p d b : delivery_step {| dl_db := d; dl_batch := b |}
      {| dl_db := delete_alerts p d; dl_batch := b |}.

Definition maxTries : Z := Z.of_nat (length retryWaits) + 1.

Record notes_wf (d : DB) : Prop := {
  nw_ids : NoDup (map no_id (notifications d));
  nw_fresh : ∀ n, n ∈ notifications d → no_id n < seq d;
  nw_tries : ∀ n, n ∈ notifications d → 0 ≤ no_attempts n ≤ maxTries;
  nw_pending : ∀ n, n ∈ notifications d → is_pending n = true → no_attempts n < maxTries;
  nw_settled : ∀ n, n ∈ notifications d → is_pending n = false → 0 < no_attempts n;
  nw_order : ∀ p n, p ∈ notifications d → n ∈ notifications d → earlier n p = true → is_pending p = true →
    is_pending n = true ∧ no_attempts n = 0 }.

(** A notification of the batch that is still in the table is pending and
    has no earlier one pending. *)
Record batch_wf (d : DB) (b : list Notification) : Prop := {
  bw_ids : NoDup (map note_ID b);
  bw_fresh : ∀ n, n ∈ b → note_ID n < seq d;
  bw_rows : ∀ n r, n ∈ b → r ∈ notifications d → no_id r = note_ID n →
    is_pending r = true ∧ no_attempts r = note_Attempts n ∧
    ∀ p, p ∈ notifications d → earlier r p = true → is_pending p = false }.

Definition delivery_wf (s : Delivery) : Prop := notes_wf (dl_db s) ∧ batch_wf (dl_db s) (dl_batch s).

(** ** Steps that delete rows, or leave them *)

Lemma delivery_wf_subset d d' b :
  (∃ q, notifications d' = List.filter q (notifications d)) → seq d ≤ seq d' →
  delivery_wf {| dl_db := d; dl_batch := b |} → delivery_wf {| dl_db := d'; dl_batch := b |}.
Proof.
  intros [q Hq] Hseq [[Hi Hf Ht Hp Hs Ho] [Bi Bf Br]]. cbn in *.
  assert (Hsub : ∀ n, n ∈ notifications d' → n ∈ notifications d).
  { intros n. rewrite Hq, list_elem_of_filter_b. tauto. }
  split; constructor; cbn; eauto.
  - rewrite Hq. by apply NoDup_map_filter.
  - intros n Hn. specialize (Hf n (Hsub n Hn)). lia.
  - intros n Hn. specialize (Bf n Hn). lia.
  - intros n r Hn Hr E. destruct (Br n r Hn (Hsub r Hr) E) as (? & ? & Hall). split_and!; eauto.
Qed.

Lemma delivery_wf_same d d' b : notifications d' = notifications d → seq d ≤ seq d' →
  delivery_wf {| dl_db := d; dl_batch := b |} → delivery_wf {| dl_db := d'; dl_batch := b |}.
Proof.
  intros E. apply delivery_wf_subset. exists (λ _, true). rewrite E. clear.
  induction (notifications d) as [|n l IH]; cbn; congruence.
Qed.

(** ** Queueing *)

Lemma earlier_spec n p : earlier n p = true ↔
  no_alert_id p = no_alert_id n ∧ no_channel_id p = no_channel_id n ∧ no_id p < no_id n.
Proof. unfold earlier. lia. Qed.

Lemma delivery_wf_append d b row d' : delivery_wf {| dl_db := d; dl_batch := b |} →
  no_id row = seq d → no_attempts row = 0 → is_pending row = true →
  notifications d' = notifications d ++ [row] → seq d' = seq d + 1 →
  delivery_wf {| dl_db := d'; dl_batch := b |}.
Proof.
  intros [[Hi Hf Ht Hp Hs Ho] [Bi Bf Br]] Eid Eat Epe En Es. cbn in *.
  assert (Hin : ∀ n, n ∈ notifications d' ↔ n ∈ notifications d ∨ n = row).
  { intros n. by rewrite En, elem_of_app, list_elem_of_singleton. }
  assert (Hlast : ∀ n, n ∈ notifications d → earlier n row = false).
  { intros n Hn. specialize (Hf n Hn). apply not_true_iff_false. rewrite earlier_spec. lia. }
  split; constructor; cbn.
  - rewrite En, map_app. apply NoDup_app. split_and!; [done| |apply NoDup_singleton].
    intros x (n & -> & Hn)%list_elem_of_fmap. cbn. rewrite list_elem_of_singleton, Eid. specialize (Hf n Hn). lia.
  - intros n [Hn| ->]%Hin; [specialize (Hf n Hn)|]; lia.
  - intros n [Hn| ->]%Hin; [by apply Ht|]. rewrite Eat. unfold maxTries. lia.
  - intros n [Hn| ->]%Hin Hpe; [by apply Hp|]. rewrite Eat. unfold maxTries. lia.
  - intros n [Hn| ->]%Hin Hpe; [by apply Hs|congruence].
  - intros p n Hpin [Hn| ->]%Hin He Hpe; [|by split]. apply Hin in Hpin as [Hpin| ->]; [by apply (Ho p n)|].
    rewrite Hlast in He by done. done.
  - done.
  - intros n Hn. specialize (Bf n Hn). lia.
  - intros n r Hn [Hr| ->]%Hin E; [|specialize (Bf n Hn); lia].
    destruct (Br n r Hn Hr E) as (? & ? & Hall). split_and!; [done..|].
    intros p [Hpin| ->]%Hin He; [by apply Hall|]. by rewrite Hlast in He.
Qed.

Lemma delivery_wf_queue now n ids : ∀ d b, delivery_wf {| dl_db := d; dl_batch := b |} →
  match sfor ids (queue_one now n) d with
  | (Ok _, d') => delivery_wf {| dl_db := d'; dl_batch := b |}
  | (Err _, _) => True
  end.
Proof.
  induction ids as [|id ids IH]; intros d b Hwf; [done|]. cbn.
  unfold mbind, SM_bind, sbind, queue_one, next_id.
  destruct (_ && _); [|done]. apply IH.
  apply (delivery_wf_append d b (new_note now n (seq d) id)); done.
Qed.

(** ** Reading a batch *)

Lemma scanNotification_some d r f pr n : scanNotification d r f pr = Some n →
  note_ID n = no_id r ∧ note_Attempts n = no_attempts r ∧ note_AlertID n = no_alert_id r
  ∧ note_ChannelID n = no_channel_id r ∧ note_Event n = no_event r.
Proof.
  unfold scanNotification. destruct (channel_by_id _ _) as [c|]; [|done]. cbn.
  destruct (List.find _ _) as [a|]; [|done]. cbn. by intros [= <-].
Qed.

Lemma is_due_spec now d r : is_due now d r = true ↔ is_pending r = true ∧ no_next_attempt_at r ≤ now ∧
  ∀ p, p ∈ notifications d → earlier r p = true → is_pending p = false.
Proof.
  unfold is_due. rewrite !andb_true_iff, negb_true_iff, exists_where_false. split.
  - intros [[Hp Ht] Hall]. split_and!; [done|lia|]. intros p Hin He. specialize (Hall p Hin). by rewrite He in Hall.
  - intros (Hp & Ht & Hall). split_and!; [done|lia|]. intros p Hin. destruct (earlier r p) eqn:E; [|done]. by apply Hall.
Qed.

Lemma DueNotifications_rows now d limit : NoDup (map no_id (notifications d)) →
  NoDup (map note_ID (DueNotifications now d limit)) ∧
  ∀ n, n ∈ DueNotifications now d limit → ∃ r, r ∈ notifications d ∧ is_due now d r = true ∧
    scanNotification d r ch_settings (previous_ref d r) = Some n.
Proof.
  intros Hnd. unfold DueNotifications, take_at_most. set (rows := stable_sort _ _).
  assert (Hrows : NoDup (map no_id rows) ∧ ∀ r, r ∈ rows → r ∈ notifications d ∧ is_due now d r = true).
  { unfold rows. split; [rewrite stable_sort_perm; by apply NoDup_map_filter|].
    intros r. by rewrite elem_of_stable_sort, elem_of_select_where. }
  clearbody rows. destruct Hrows as [Hnr Hrows]. set (f := λ r, scanNotification d r ch_settings (previous_ref d r)).
  assert (Hin : ∀ n, n ∈ omap f rows → ∃ r, r ∈ rows ∧ f r = Some n) by (intros n; by rewrite list_elem_of_omap).
  assert (Hno : NoDup (map note_ID (omap f rows))).
  { clear Hrows Hin. induction rows as [|r rows IH]; [constructor|]. cbn in Hnr. apply NoDup_cons in Hnr as [Hr Hnr].
    cbn. destruct (f r) as [n|] eqn:E; [|by apply IH]. cbn. constructor; [|by apply IH].
    intros (m & Em & (r' & Hr' & Er')%list_elem_of_omap)%list_elem_of_fmap. apply Hr.
    apply scanNotification_some in E as [E _], Er' as [Er' _]. rewrite <- E, Em, Er'. by apply list_elem_of_fmap_2. }
  split.
  - rewrite <- firstn_map. change (firstn ?k ?l) with (take k l). rewrite <- (take_drop (Z.to_nat limit) (map note_ID _)) in Hno.
    by apply NoDup_app in Hno as (? & _).
  - intros n Hn. assert (Hn' : n ∈ omap f rows) by (by eapply elem_of_take in Hn as (i & Hi & _); eapply list_elem_of_lookup_2).
    destruct (Hin n Hn') as (r & Hr & E). exists r. destruct (Hrows r Hr). done.
Qed.

(** ** One try *)

Lemma retryAfter_some n w : retryAfter n = Some w → 1 ≤ n < maxTries.
Proof. unfold retryAfter, maxTries. destruct (_ || _) eqn:E; [done|]. lia. Qed.

(** What a try writes: the row stays who it is, counts the try, and is
    pending only when tries are left. *)
Lemma mark_spec now n outcome d : ∃ f, mark now n outcome d = update_note (note_ID n) f d ∧
  ∀ r, no_id (f r) = no_id r ∧ no_alert_id (f r) = no_alert_id r ∧ no_channel_id (f r) = no_channel_id r
    ∧ no_attempts (f r) = no_attempts r + 1
    ∧ (is_pending (f r) = true → note_Attempts n + 1 < maxTries).
Proof.
  unfold mark. destruct outcome as [ref|[retry e]].
  - eexists. split; [reflexivity|]. intros r. by split_and!.
  - destruct (retryAfter (note_Attempts n + 1)) as [w|] eqn:E.
    + apply retryAfter_some in E. destruct retry; (eexists; split; [reflexivity|]; intros r; split_and!; try done; cbn; lia).
    + eexists. split; [reflexivity|]. intros r. by split_and!.
Qed.

Lemma delivery_wf_mark now n outcome d b : delivery_wf {| dl_db := d; dl_batch := n :: b |} →
  delivery_wf {| dl_db := snd (mark now n outcome d); dl_batch := b |}.
Proof.
  intros [[Hi Hf Ht Hp Hs Ho] [Bi Bf Br]]. cbn in *.
  destruct (mark_spec now n outcome d) as (f & -> & Hfr). cbn [snd update_note].
  set (g := λ r, if no_id r =? note_ID n then f r else r).
  assert (Hin : ∀ x, x ∈ update_where (λ r, no_id r =? note_ID n) f (notifications d) ↔ ∃ r, r ∈ notifications d ∧ x = g r).
  { intros x. apply elem_of_update_where. }
  assert (Hg : ∀ r, no_id (g r) = no_id r ∧ no_alert_id (g r) = no_alert_id r ∧ no_channel_id (g r) = no_channel_id r).
  { intros r. unfold g. destruct (_ =? _); [|done]. by destruct (Hfr r) as (? & ? & ? & _). }
  assert (He : ∀ r p, earlier (g r) (g p) = earlier r p).
  { intros r p. unfold earlier. destruct (Hg r) as (-> & -> & ->), (Hg p) as (-> & -> & ->). done. }
  assert (Hrow : ∀ r, r ∈ notifications d → no_id r = note_ID n → is_pending r = true ∧ no_attempts r = note_Attempts n ∧
    ∀ p, p ∈ notifications d → earlier r p = true → is_pending p = false).
  { intros r Hr E. apply (Br n r ltac:(by left) Hr E). }
  assert (Hcase : ∀ r, r ∈ notifications d →
    (no_id r = note_ID n ∧ is_pending r = true ∧ no_attempts (g r) = no_attempts r + 1 ∧ no_attempts r < maxTries
      ∧ (is_pending (g r) = true → no_attempts r + 1 < maxTries))
    ∨ (no_id r ≠ note_ID n ∧ g r = r)).
  { intros r Hr. unfold g. destruct (Z.eqb_spec (no_id r) (note_ID n)) as [E|E]; [left|by right].
    destruct (Hrow r Hr E) as (Hpe & Hat & _), (Hfr r) as (_ & _ & _ & Ha & Hpn). split_and!; try done; [by apply Hp|].
    intros Hpf. specialize (Hpn Hpf). lia. }
  split; constructor; cbn.
  - rewrite map_update_where; [done|]. intros r. apply Hfr.
  - intros x (r & Hr & ->)%Hin. destruct (Hg r) as (-> & _). by apply Hf.
  - intros x (r & Hr & ->)%Hin. pose proof (Ht r Hr). destruct (Hcase r Hr) as [(_ & _ & -> & ? & _)|[_ ->]]; lia.
  - intros x (r & Hr & ->)%Hin Hpe. destruct (Hcase r Hr) as [(_ & _ & -> & _ & Hn)|[_ E]]; [by apply Hn|].
    rewrite E in *. by apply Hp.
  - intros x (r & Hr & ->)%Hin Hpe. pose proof (Ht r Hr). destruct (Hcase r Hr) as [(_ & _ & -> & _ & _)|[_ E]]; [lia|].
    rewrite E in *. by apply Hs.
  - intros x y (p & Hpin & ->)%Hin (r & Hr & ->)%Hin. rewrite He. intros Hear Hpe.
    assert (Hpp : is_pending p = true) by (destruct (Hcase p Hpin) as [(_ & ? & _)|[_ E]]; [done|by rewrite E in Hpe]).
    destruct (Hcase r Hr) as [(E & _)|[_ ->]]; [|by apply (Ho p r)].
    destruct (Hrow r Hr E) as (_ & _ & Hall). by rewrite (Hall p Hpin Hear) in Hpp.
  - by apply NoDup_cons in Bi as [_ Bi].
  - intros m Hm. apply Bf. by right.
  - intros m x Hm (r & Hr & ->)%Hin Hid. destruct (Hg r) as (Eg & _). rewrite Eg in Hid.
    assert (Hne : no_id r ≠ note_ID n).
    { rewrite Hid. intros E. apply NoDup_cons in Bi as [Bn _]. apply Bn. rewrite <- E. by apply list_elem_of_fmap_2. }
    destruct (Hcase r Hr) as [[? _]|[_ ->]]; [done|]. destruct (Br m r ltac:(by right) Hr Hid) as (? & ? & Hall).
    split_and!; [done..|]. intros y (p & Hpin & ->)%Hin Hear.
    assert (Hear' : earlier r p = true) by (rewrite <- He; unfold g at 1; by rewrite (proj2 (Z.eqb_neq _ _) Hne)).
    destruct (Hcase p Hpin) as [(_ & Hpp & _)|[_ ->]]; [|by apply Hall]. by rewrite (Hall p Hpin Hear') in Hpp.
Qed.

Lemma delivery_step_wf s s' : delivery_step s s' → delivery_wf s → delivery_wf s'.
Proof.
  intros Hstep Hwf. destruct Hstep as [now n ids d b|now d|now n outcome d b|now c by_ d b|now c by_ d b|id d b|p d b].
  - unfold QueueNotifications. destruct ids as [|id ids]; [done|]. pose proof (delivery_wf_queue now n (id :: ids) d b Hwf) as Hq.
    unfold transaction. by destruct (sfor _ _ d) as [[u|e] d'].
  - destruct Hwf as [Hn _]. split; [done|]. destruct (DueNotifications_rows now d deliverBatch (nw_ids d Hn)) as [Hnd Hrows].
    constructor; [done|..].
    + intros n Hin. destruct (Hrows n Hin) as (r & Hr & _ & E). apply scanNotification_some in E as [-> _]. by apply Hn.
    + cbn. intros n r Hin Hr Hid. destruct (Hrows n Hin) as (r' & Hr' & Hdue & E). apply scanNotification_some in E as (E1 & E2 & _).
      assert (r = r') as -> by (apply (NoDup_map_inj no_id (notifications d)); [apply Hn|done..|congruence]).
      apply is_due_spec in Hdue as (? & _ & ?). by split_and!.
  - by apply delivery_wf_mark.
  - unfold CreateChannel, next_id. destruct (exists_where _ _); (eapply delivery_wf_same; [..|exact Hwf]; [done|cbn; lia]).
  - unfold UpdateChannel. destruct (_ =? 0); [done|]. by eapply delivery_wf_same; [..|exact Hwf].
  - unfold Store_DeleteChannel. destruct (_ =? 0); [done|]. eapply delivery_wf_subset; [..|exact Hwf]; [|done]. by eexists.
  - eapply delivery_wf_subset; [..|exact Hwf]; [|done]. by eexists.
Qed.

(** ** Refinement: the loop of [deliverDue] is such steps *)

Section DeliverDue.
Context `{Outside, ParseAddress, UrlParse, PathEscape}.

Lemma deliver_batch_steps dashboard due : ∀ clock d sent,
  rtc delivery_step {| dl_db := d; dl_batch := due |}
    {| dl_db := (deliver_batch dashboard clock due (d, sent)).1; dl_batch := [] |}.
Proof.
  induction due as [|n due IH]; intros clock d sent; [done|]. cbn.
  destruct (deliverOne n dashboard (clock 0%nat).1 sent) as [outcome sent'].
  eapply rtc_l; [apply (ds_send (clock 0%nat).2 n outcome)|]. apply IH.
Qed.

(** [deliverDue] reads one batch and marks every notification of it, so
    it is a run of the steps of the interleaving that leaves the batch empty:
    what holds of the steps holds of the program's loop. *)
Lemma deliverDue_refines (dashboard : string) (tick : Tick) (d : DB) (sent : list Request) :
  rtc delivery_step {| dl_db := d; dl_batch := [] |}
    {| dl_db := (deliverDue dashboard tick (d, sent)).1; dl_batch := [] |}.
Proof.
  unfold deliverDue. eapply rtc_l; [apply (ds_read (tick_read tick))|]. apply deliver_batch_steps.
Qed.
End DeliverDue.

(** ** A queue left alone empties *)

(** What a notification refers to is there, and its status is one of three. *)
Record notes_refs (d : DB) : Prop := {
  nr_alert : ∀ n, n ∈ notifications d → ∃ a, a ∈ alerts d ∧ al_id a = no_alert_id n;
  nr_channel : ∀ n, n ∈ notifications d → ∃ c, c ∈ channels d ∧ ch_id c = no_channel_id n;
  nr_status : ∀ n, n ∈ notifications d →
    no_status n = NotificationPending ∨ no_status n = NotificationSent ∨ no_status n = NotificationFailed }.

Lemma queue_refs now n ids : ∀ d, notes_refs d →
  match sfor ids (queue_one now n) d with (Ok _, d') => notes_refs d' | (Err _, _) => True end.
Proof.
  induction ids as [|id ids IH]; intros d Hr; [done|]. cbn. unfold mbind, SM_bind, sbind, queue_one, next_id.
  destruct (_ && _) eqn:E; [|done]. apply IH. apply andb_true_iff in E as [Ea Ec].
  apply exists_where_true in Ea as (a & Ha & Ea), Ec as (c & Hc & Ec). destruct Hr as [R1 R2 R3].
  split; cbn; intros x [Hx| ->%list_elem_of_singleton]%elem_of_app; try eauto; cbn.
  - exists a. split; [done|lia].
  - exists c. split; [done|lia].
Qed.

(** The time a try sets, and the status it leaves *)
Lemma mark_sets now n outcome d : ∃ f, mark now n outcome d = update_note (note_ID n) f d ∧
  ∀ r, no_alert_id (f r) = no_alert_id r ∧ no_channel_id (f r) = no_channel_id r
    ∧ (no_status (f r) = no_status r ∨ no_status (f r) = NotificationSent ∨ no_status (f r) = NotificationFailed)
    ∧ (is_pending (f r) = true → no_next_attempt_at (f r) ≤ now + hour).
Proof.
  unfold mark. destruct outcome as [ref|[retry e]]; [|destruct (retryAfter (note_Attempts n + 1)) as [w|] eqn:E].
  - eexists. split; [reflexivity|]. intros r. split_and!; auto. done.
  - destruct retry; (eexists; split; [reflexivity|]; intros r; split_and!; auto); [|done]. intros _. cbn.
    assert (w ≤ hour).
    { unfold retryAfter in E. destruct (_ || _); [done|]. apply list_elem_of_lookup_2 in E.
      repeat (apply elem_of_cons in E as [->|E]; [by vm_compute|]). by apply not_elem_of_nil in E. }
    unfold time_add. lia.
  - eexists. split; [reflexivity|]. intros r. split_and!; auto. done.
Qed.

Lemma delivery_step_refs s s' : delivery_step s s' → notes_refs (dl_db s) → notes_refs (dl_db s').
Proof.
  intros Hstep Hr. destruct Hstep as [now n ids d b|now d|now n outcome d b|now c by_ d b|now c by_ d b|id d b|p d b]; cbn in *.
  - unfold QueueNotifications. destruct ids as [|id ids]; [done|]. pose proof (queue_refs now n (id :: ids) d Hr) as Hq.
    unfold transaction. by destruct (sfor _ _ d) as [[u|e] d'].
  - done.
  - destruct (mark_sets now n outcome d) as (f & -> & Hf). destruct Hr as [R1 R2 R3].
    split; cbn; intros x (r & Hx & ->)%elem_of_update_where; destruct (_ =? _); eauto; destruct (Hf r) as (Ea & Ec & Es & _).
    + rewrite Ea. by apply R1.
    + rewrite Ec. by apply R2.
    + destruct Es as [Es|Es]; [|tauto]. rewrite Es. by apply R3.
  - unfold CreateChannel, next_id. destruct Hr as [R1 R2 R3]. case_match; [done|]. split; cbn; eauto.
    intros n Hn. destruct (R2 n Hn) as (x & Hx & E). exists x. split; [|done]. apply elem_of_app. by left.
  - unfold UpdateChannel. destruct Hr as [R1 R2 R3]. destruct (_ =? 0); [done|]. split; cbn; eauto.
    intros n Hn. destruct (R2 n Hn) as (x & Hx & E). eexists. split; [apply elem_of_update_where; by eexists|].
    by destruct (_ =? _).
  - unfold Store_DeleteChannel. destruct Hr as [R1 R2 R3]. destruct (_ =? 0); [done|].
    split; cbn; intros n [Hn Hne]%elem_of_delete_where; eauto. destruct (R2 n Hn) as (x & Hx & E). exists x. split; [|done].
    apply elem_of_delete_where. split; [done|]. by rewrite E.
  - unfold delete_alerts. destruct Hr as [R1 R2 R3]. split; cbn; intros n [Hn Hne]%elem_of_delete_where; eauto.
    destruct (R1 n Hn) as (x & Hx & E). exists x. split; [|done]. apply elem_of_delete_where. split; [done|].
    destruct (p x) eqn:Ep; [|done]. exfalso. apply bool_decide_eq_false in Hne. apply Hne. rewrite <- E.
    apply list_elem_of_fmap_2, elem_of_select_where. by split.
Qed.

(** The tries the pending notifications have left *)
Definition tries_left (n : NoteRow) : Z := if is_pending n then maxTries - no_attempts n else 0.
Definition work (d : DB) : Z := zsum tries_left (notifications d).

(** No pending notification waits for a time after [t]. *)
Definition timely (t : time) (d : DB) : Prop :=
  ∀ n, n ∈ notifications d → is_pending n = true → no_next_attempt_at n ≤ t.

(** A try of a notification that is there takes one of its tries. *)
Lemma mark_work now n outcome d b t : delivery_wf {| dl_db := d; dl_batch := n :: b |} →
  note_ID n ∈ map no_id (notifications d) → now + hour ≤ t → timely t d →
  let d' := (mark now n outcome d).2 in
  work d' < work d ∧ timely t d' ∧ map no_id (notifications d') = map no_id (notifications d).
Proof.
  intros [Hn Hb] (r & Er & Hr)%list_elem_of_fmap Ht Htime. cbn in Hb.
  destruct (mark_spec now n outcome d) as (f & Ef & Hf). destruct (mark_sets now n outcome d) as (f' & Ef' & Hf').
  assert (Hff : ∀ x, x ∈ notifications d → no_id x = note_ID n → is_pending x = true ∧ no_attempts x = note_Attempts n)
    by (intros x Hx E; destruct (bw_rows _ _ Hb n x ltac:(by left) Hx E) as (? & ? & _); done).
  cbn zeta. split_and!.
  - rewrite Ef. unfold work. cbn [snd update_note]. unfold update_where. cbn [notifications set_notifications].
    rewrite zsum_map. apply (zsum_lt _ _ _ r); [|done|].
    + intros x Hx. destruct (Z.eqb_spec (no_id x) (note_ID n)) as [E|_]; [|lia]. destruct (Hff x Hx E) as [Hp Ha].
      destruct (Hf x) as (_ & _ & _ & Ea & Hl). unfold tries_left. rewrite Hp, Ea.
      pose proof (nw_pending d Hn x Hx Hp). destruct (is_pending (f x)); lia.
    + destruct (Z.eqb_spec (no_id r) (note_ID n)) as [E|E]; [|by destruct E]. destruct (Hff r Hr E) as [Hp Ha].
      destruct (Hf r) as (_ & _ & _ & Ea & Hl). unfold tries_left. rewrite Hp, Ea.
      pose proof (nw_pending d Hn r Hr Hp). destruct (is_pending (f r)); lia.
  - rewrite Ef'. intros x (y & Hy & ->)%elem_of_update_where. destruct (_ =? _); [|by apply Htime].
    intros Hp. pose proof (proj2 (proj2 (proj2 (Hf' y))) Hp). lia.
  - rewrite Ef. cbn. apply map_update_where. intros x. apply Hf.
Qed.

(** The ids of a batch are in the table. *)
Definition present (d : DB) (b : list Notification) : Prop := ∀ n, n ∈ b → note_ID n ∈ map no_id (notifications d).

Section Emptying.
Context `{Outside, ParseAddress, UrlParse, PathEscape}.

(** What a run of the delivery leaves: fewer tries, or everything as it was *)
Record ran (t : time) (d d' : DB) : Prop := {
  rn_wf : delivery_wf {| dl_db := d'; dl_batch := [] |};
  rn_refs : notes_refs d';
  rn_timely : timely t d';
  rn_ids : map no_id (notifications d') = map no_id (notifications d);
  rn_work : work d' < work d ∨ d' = d }.

Lemma ran_trans t d d1 d2 : ran t d d1 → ran t d1 d2 → ran t d d2.
Proof.
  intros [A1 A2 A3 A4 A5] [B1 B2 B3 B4 B5]. split; [done|done|done|congruence|].
  destruct A5 as [A5| ->], B5 as [B5| ->]; [left; lia|by left|by left|by right].
Qed.

Lemma deliver_batch_ran dashboard t due : ∀ (clock : nat → time * time) d sent,
  delivery_wf {| dl_db := d; dl_batch := due |} → notes_refs d → timely t d → present d due →
  (∀ i, (clock i).2 + hour ≤ t) →
  ran t d (deliver_batch dashboard clock due (d, sent)).1
  ∧ (due ≠ [] → work (deliver_batch dashboard clock due (d, sent)).1 < work d).
Proof.
  induction due as [|n due IH]; intros clock d sent Hwf Hrefs Ht Hpr Hc; [by split; [split; auto|]|].
  cbn [deliver_batch fst snd]. destruct (deliverOne n dashboard (clock 0%nat).1 sent) as [outcome sent'].
  destruct (mark_work (clock 0%nat).2 n outcome d due t Hwf (Hpr n ltac:(by left)) (Hc 0%nat) Ht) as (Hw & Ht' & Hids).
  pose proof (ds_send (clock 0%nat).2 n outcome d due) as Hstep.
  destruct (IH (λ i, clock (S i)) (mark (clock 0%nat).2 n outcome d).2 sent') as [Hrun _]; try done.
  - by apply delivery_wf_mark.
  - by apply (delivery_step_refs _ _ Hstep).
  - intros m Hm. rewrite Hids. apply Hpr. by right.
  - assert (Hless : work (deliver_batch dashboard (λ i, clock (S i)) due ((mark (clock 0%nat).2 n outcome d).2, sent')).1 < work d)
      by (destruct (rn_work _ _ _ Hrun) as [|E]; [lia|by rewrite E]).
    split; [|intros _; exact Hless]. split; [apply Hrun..| |by left]. rewrite (rn_ids _ _ _ Hrun). exact Hids.
Qed.

(** The oldest pending notification is due once no wait is left. *)
Lemma due_some now d : notes_refs d → timely now d → (∃ n, n ∈ notifications d ∧ is_pending n = true) →
  DueNotifications now d deliverBatch ≠ [].
Proof.
  intros Hr Ht (x & Hx & Hp). destruct (least_exists no_id (λ n, is_pending n = true) _ x Hx Hp) as (r & Hin & Hrp & Hleast);
    [intros y; apply bool_eq_dec|].
  destruct (nr_channel d Hr r Hin) as (c & Hc & Ec), (nr_alert d Hr r Hin) as (a & Ha & Ea).
  assert (Hdue : is_due now d r = true).
  { apply is_due_spec. split_and!; [done|by apply Ht|]. intros p Hpin He. destruct (is_pending p) eqn:Epp; [|done].
    apply earlier_spec in He. specialize (Hleast p Hpin Epp). lia. }
  assert (Hscan : is_Some (scanNotification d r ch_settings (previous_ref d r))).
  { unfold scanNotification, channel_by_id. destruct (List.find (λ c, ch_id c =? _) (channels d)) as [c'|] eqn:Efc.
    2:{ pose proof (List.find_none _ _ Efc c ltac:(by apply list_elem_of_In)) as Hno. cbn in Hno. lia. }
    cbn. destruct (List.find (λ a, al_id a =? _) (alerts d)) as [a'|] eqn:Efa; [by eexists|].
    pose proof (List.find_none _ _ Efa a ltac:(by apply list_elem_of_In)) as Hno. cbn in Hno. lia. }
  destruct Hscan as [n Hn]. unfold DueNotifications, take_at_most. set (l := omap _ _).
  assert (Hl : n ∈ l).
  { apply list_elem_of_omap. exists r. split; [|done]. rewrite elem_of_stable_sort, elem_of_select_where. done. }
  destruct l as [|y l]; [by apply not_elem_of_nil in Hl|]. done.
Qed.

Definition recorded_before (t : time) (tick : Tick) : Prop := ∀ i, (tick_clock tick i).2 + hour ≤ t.

Lemma deliverDue_ran dashboard t tick d sent : delivery_wf {| dl_db := d; dl_batch := [] |} → notes_refs d → timely t d →
  recorded_before t tick →
  ran t d (deliverDue dashboard tick (d, sent)).1
  ∧ (DueNotifications (tick_read tick) d deliverBatch ≠ [] → work (deliverDue dashboard tick (d, sent)).1 < work d).
Proof.
  intros Hwf Hr Ht Hc. unfold deliverDue. cbn [fst]. apply deliver_batch_ran; try done.
  - apply (delivery_step_wf _ _ (ds_read (tick_read tick) d) Hwf).
  - intros n Hn. destruct (DueNotifications_rows (tick_read tick) d deliverBatch (nw_ids d (proj1 Hwf))) as [_ Hrows].
    destruct (Hrows n Hn) as (r & Hin & _ & E). apply scanNotification_some in E as [-> _]. by apply list_elem_of_fmap_2.
Qed.

Lemma ticks_ran dashboard t ticks : ∀ d sent, delivery_wf {| dl_db := d; dl_batch := [] |} → notes_refs d → timely t d →
  Forall (recorded_before t) ticks → ran t d (deliverNotifications dashboard ticks (d, sent)).1.
Proof.
  induction ticks as [|tick ticks IH]; intros d sent Hwf Hr Ht Hc; [split; auto|].
  apply Forall_cons in Hc as [Hc Hcs]. destruct (deliverDue_ran dashboard t tick d sent Hwf Hr Ht Hc) as [Hran _].
  unfold deliverNotifications. cbn [fold_left]. destruct (deliverDue dashboard tick (d, sent)) as [d1 sent1].
  apply (ran_trans t d d1); [done|]. by apply IH; try apply Hran.
Qed.

Lemma deliverNotifications_app dashboard l1 l2 st :
  deliverNotifications dashboard (l1 ++ l2) st = deliverNotifications dashboard l2 (deliverNotifications dashboard l1 st).
Proof. apply fold_left_app. Qed.

(** A round with a tick after every wait uses up a try, unless nothing is
    pending. *)
Lemma round_ran dashboard t t' round d sent : delivery_wf {| dl_db := d; dl_batch := [] |} → notes_refs d → timely t d →
  t ≤ t' → Exists (λ tick, t ≤ tick_read tick) round → Forall (recorded_before t') round →
  let d' := (deliverNotifications dashboard round (d, sent)).1 in
  ran t' d d' ∧ ((∃ n, n ∈ notifications d ∧ is_pending n = true) → work d' < work d).
Proof.
  intros Hwf Hr Ht Hle Hex Hc. assert (Ht' : timely t' d) by (intros n Hn Hp; specialize (Ht n Hn Hp); lia).
  split; [by apply ticks_ran|]. intros Hpend. apply Exists_exists in Hex as (tick & Hin & Hread).
  apply list_elem_of_split in Hin as (r1 & r2 & ->). apply Forall_app in Hc as [Hc1 Hc2].
  pose proof (ticks_ran dashboard t' r1 d sent Hwf Hr Ht' Hc1) as H1ran. rewrite deliverNotifications_app.
  destruct (deliverNotifications dashboard r1 (d, sent)) as [d1 sent1]. cbn [fst] in H1ran.
  pose proof (ticks_ran dashboard t' (tick :: r2) d1 sent1 (rn_wf _ _ _ H1ran) (rn_refs _ _ _ H1ran) (rn_timely _ _ _ H1ran) Hc2) as H2ran.
  destruct (rn_work _ _ _ H1ran) as [Hlt| ->]; [destruct (rn_work _ _ _ H2ran) as [|E]; [lia|by rewrite E]|].
  apply Forall_cons in Hc2 as [Hc2 Hc3]. clear H2ran. destruct (deliverDue_ran dashboard t' tick d sent1 Hwf Hr Ht' Hc2) as [Hran Hdue].
  assert (Hlt : work (deliverDue dashboard tick (d, sent1)).1 < work d).
  { apply Hdue, due_some; [done| |done]. intros n Hn Hp. specialize (Ht n Hn Hp). lia. }
  unfold deliverNotifications. cbn [fold_left]. destruct (deliverDue dashboard tick (d, sent1)) as [d2 sent2]. cbn [fst] in *.
  pose proof (ticks_ran dashboard t' r2 d2 sent2 (rn_wf _ _ _ Hran) (rn_refs _ _ _ Hran) (rn_timely _ _ _ Hran) Hc3) as Hrest.
  unfold deliverNotifications in Hrest. destruct (rn_work _ _ _ Hrest) as [|E]; [lia|by rewrite E].
Qed.

(** Rounds of ticks: in each, one tick reads its batch an hour or more after
    all that was recorded in the rounds before. *)
Inductive hourly : time → list (list Tick) → Prop :=
  | hourly_nil t : hourly t []
  | hourly_cons t t' round rest : t ≤ t' → Exists (λ tick, t ≤ tick_read tick) round → Forall (recorded_before t') round →
      hourly t' rest → hourly t (round :: rest).

Lemma work_nonneg d : notes_wf d → 0 ≤ work d.
Proof.
  intros Hwf. apply zsum_nonneg. intros n Hn. unfold tries_left. destruct (is_pending n) eqn:E; [|done].
  pose proof (nw_pending d Hwf n Hn E). lia.
Qed.
Lemma work_done d : notes_wf d → work d ≤ 0 → ∀ n, n ∈ notifications d → is_pending n = false.
Proof.
  intros Hwf Hle n Hn. destruct (is_pending n) eqn:E; [|done].
  assert (zsum (λ _, 0) (notifications d) < work d).
  { apply (zsum_lt _ _ _ n); [|done|].
    - intros x Hx. unfold tries_left. destruct (is_pending x) eqn:Ex; [|done]. pose proof (nw_pending d Hwf x Hx Ex). lia.
    - unfold tries_left. rewrite E. pose proof (nw_pending d Hwf n Hn E). lia. }
  rewrite zsum_zero in *; [lia|done].
Qed.
Lemma work_bound d : notes_wf d → work d ≤ 6 * Z.of_nat (length (List.filter is_pending (notifications d))).
Proof.
  intros Hwf. unfold work. assert (Hall : ∀ n, n ∈ notifications d → 0 ≤ no_attempts n) by (intros n Hn; apply (nw_tries d Hwf n Hn)).
  clear Hwf. induction (notifications d) as [|n l IH]; [done|]. specialize (IH ltac:(intros y Hy; apply Hall; by right)).
  pose proof (Hall n ltac:(by left)). cbn [zsum foldr List.filter]. fold (zsum tries_left l). unfold tries_left at 1.
  destruct (is_pending n); cbn [length]; [|lia]. change maxTries with 6. lia.
Qed.

Lemma rounds_settle dashboard rounds : ∀ t d sent, hourly t rounds → delivery_wf {| dl_db := d; dl_batch := [] |} → notes_refs d →
  timely t d → work d ≤ Z.of_nat (length rounds) →
  let d' := (deliverNotifications dashboard (concat rounds) (d, sent)).1 in
  delivery_wf {| dl_db := d'; dl_batch := [] |} ∧ notes_refs d' ∧ map no_id (notifications d') = map no_id (notifications d)
  ∧ ∀ n, n ∈ notifications d' → is_pending n = false.
Proof.
  induction rounds as [|round rounds IH]; intros t d sent Hh Hwf Hr Ht Hw.
  { split_and!; [done..|]. apply work_done; [apply Hwf|exact Hw]. }
  inversion Hh as [|? t' ? ? Hle Hex Hc Hrest]; subst.
  destruct (round_ran dashboard t t' round d sent Hwf Hr Ht Hle Hex Hc) as [Hran Hless]. cbn zeta in *. cbn [concat].
  rewrite deliverNotifications_app. destruct (deliverNotifications dashboard round (d, sent)) as [d1 sent1]. cbn [fst] in *.
  destruct (IH t' d1 sent1) as (H1' & H2' & H3' & H4'); [done|apply Hran..| |by split_and!; try done; rewrite <- (rn_ids _ _ _ Hran)].
  destruct (decide (Exists (λ n, is_pending n = true) (notifications d))) as [(n & Hn & Hp)%Exists_exists|Hnone].
  - specialize (Hless ltac:(by exists n)). cbn [length] in Hw. lia.
  - assert (work d = 0).
    { apply zsum_zero. intros n Hn. unfold tries_left. destruct (is_pending n) eqn:E; [|done]. destruct Hnone.
      apply Exists_exists. by exists n. }
    destruct (rn_work _ _ _ Hran) as [| ->]; lia.
Qed.
End Emptying.

(** ** Who is picked *)

Definition wants (rule : AlertConfig) (c : Channel) : Prop :=
  channel_Name c ∈ rule_Channels rule
  ∨ (channel_Kind c = Email ∧ rule_Email rule = true)
  ∨ (channel_Kind c = Slack ∧ rule_Slack rule = true)
  ∨ (channel_Kind c = PagerDuty ∧ rule_Pagerduty rule = true)
  ∨ (rule_Channels rule = [] ∧ rule_Email rule = false ∧ rule_Slack rule = false ∧ rule_Pagerduty rule = false
     ∧ channel_IsDefault c = true).

Lemma ruleWants_spec rule c : ruleWants rule c = true ↔ wants rule c.
Proof.
  unfold ruleWants, wants. pose proof (contains_spec (rule_Channels rule) (channel_Name c)) as Hc.
  destruct (contains _ _); [split; [left|]; tauto|].
  assert (Hn : channel_Name c ∉ rule_Channels rule) by (intros Hin; by apply Hc in Hin).
  pose proof (str_eq_spec (channel_Kind c) Email) as E1. pose proof (str_eq_spec (channel_Kind c) Slack) as E2.
  pose proof (str_eq_spec (channel_Kind c) PagerDuty) as E3.
  assert (E4 : match rule_Channels rule with [] => true | _ => false end = true ↔ rule_Channels rule = [])
    by (by destruct (rule_Channels rule)).
  revert E1 E2 E3 E4. generalize (match rule_Channels rule with [] => true | _ => false end).
  intros b E1 E2 E3 E4. destruct (_ || _) eqn:E.
  - split; [|done]. intros _. rewrite !orb_true_iff, !andb_true_iff in E. tauto.
  - rewrite !orb_false_iff, !andb_false_iff in E. rewrite !andb_true_iff, !negb_true_iff, E4.
    rewrite <- E1, <- E2, <- E3. destruct E as [[E5 E6] E7]. split.
    + tauto.
    + intros [?|[[? ?]|[[? ?]|[[? ?]|?]]]]; [done| | | |tauto]; exfalso; naive_solver congruence.
Qed.

Lemma picks_spec rule event severity told c : picks rule event severity told c = true ↔
  channel_Enabled c = true ∧
  (if str_eq event Resolved then channel_ID c ∈ told
   else wants rule c ∧ (channel_SkipWarnings c = true → SeverityCritical ≤ severity)).
Proof.
  unfold picks. pose proof (ruleWants_spec rule c) as Hw. destruct (channel_Enabled c); cbn; [|by split; [|intros [? _]]].
  destruct (str_eq event Resolved); [by rewrite bool_decide_eq_true; tauto|].
  destruct (ruleWants rule c); cbn; [|split; [done|]; intros [_ [Hx _]]; by apply Hw in Hx].
  rewrite negb_true_iff, andb_false_iff, Z.ltb_ge. destruct (channel_SkipWarnings c); naive_solver.
Qed.

Lemma queue_one_ok now n i d :
  (∃ a, a ∈ alerts d ∧ al_id a = note_AlertID n) → (∃ c, c ∈ channels d ∧ ch_id c = i) →
  queue_one now n i d =
    (Ok (), set_notifications (notifications d ++ [new_note now n (seq d) i]) (set_seq (seq d + 1) d)).
Proof.
  intros (a & Ha & Ea) (c & Hc & Ec). unfold queue_one, next_id.
  change (alerts (set_seq (seq d + 1) d)) with (alerts d). change (channels (set_seq (seq d + 1) d)) with (channels d).
  rewrite (proj2 (exists_where_true (λ a, al_id a =? note_AlertID n) (alerts d))) by (exists a; split; [done|lia]).
  rewrite (proj2 (exists_where_true (λ c, ch_id c =? i) (channels d))) by (exists c; split; [done|lia]). done.
Qed.

(** The rows one call queues: one per channel, with the next ids. *)
Fixpoint queued (now : time) (n : Notification) (id : Z) (ids : list Z) : list NoteRow :=
  match ids with
  | [] => []
  | i :: ids' => new_note now n id i :: queued now n (id + 1) ids'
  end.

Lemma queued_channels now n ids : ∀ id, map no_channel_id (queued now n id ids) = ids.
Proof. induction ids as [|i ids IH]; intros id; cbn; [done|]. by rewrite IH. Qed.

Lemma queued_Forall now n ids : ∀ id, Forall (λ r, no_alert_id r = note_AlertID n ∧ no_event r = note_Event n
    ∧ no_severity r = note_Severity n ∧ is_pending r = true ∧ no_attempts r = 0 ∧ no_next_attempt_at r = now
    ∧ id ≤ no_id r) (queued now n id ids).
Proof.
  induction ids as [|i ids IH]; intros id; constructor; [split_and!; (done || cbn; lia)|].
  eapply Forall_impl; [apply IH|]. cbn. intros r Hr. destruct_and! Hr. split_and!; (done || lia).
Qed.

Definition add_notes (rows : list NoteRow) (d : DB) : DB :=
  set_notifications (notifications d ++ rows) (set_seq (seq d + Z.of_nat (length rows)) d).

Lemma add_notes_nil d : add_notes [] d = d.
Proof. destruct d. unfold add_notes. cbn. by rewrite app_nil_r, Z.add_0_r. Qed.

Lemma queue_all now n ids : ∀ d,
  (∃ a, a ∈ alerts d ∧ al_id a = note_AlertID n) → (∀ i, i ∈ ids → ∃ c, c ∈ channels d ∧ ch_id c = i) →
  sfor ids (queue_one now n) d = (Ok (), add_notes (queued now n (seq d) ids) d).
Proof.
  induction ids as [|i ids IH]; intros d Ha Hids; cbn [sfor queued].
  { by rewrite add_notes_nil. }
  unfold mbind, SM_bind, sbind. rewrite (queue_one_ok now n i d Ha (Hids i ltac:(by left))).
  rewrite IH; [|done|intros j Hj; by apply Hids; right].
  f_equal. unfold add_notes. cbn. rewrite <- app_assoc. cbn.
  by rewrite Nat2Z.inj_succ, <- Z.add_1_l, Z.add_assoc.
Qed.

Lemma Channels_rows d c : c ∈ Channels d → ∃ r, r ∈ channels d ∧ ch_id r = channel_ID c.
Proof.
  unfold Channels. intros (r & -> & Hr)%list_elem_of_fmap. rewrite elem_of_stable_sort in Hr. by exists r.
Qed.

(** What [queueNotice] writes, whoever calls it: nothing but new pending
    notifications at the end of the table, all about the notice's alert. *)
Definition queued_ids (d : DB) (n : notice) : list Z :=
  pickChannels (nt_rule n) (Channels d) (nt_event n) (nt_severity n)
    (if str_eq (nt_event n) Resolved then NotifiedChannels d (nt_alertID n) else []).

Lemma queued_ids_exist d n i : i ∈ queued_ids d n → ∃ c, c ∈ channels d ∧ ch_id c = i.
Proof.
  intros (c & -> & Hc)%list_elem_of_fmap. apply list_elem_of_filter_b in Hc as [Hc _]. by apply Channels_rows.
Qed.

Lemma queueNotice_ok now n d : (∃ a, a ∈ alerts d ∧ al_id a = nt_alertID n) →
  queueNotice now n d = (Ok (), add_notes (queued now (notice_row n) (seq d) (queued_ids d n)) d).
Proof.
  intros Ha. pose proof (queue_all now (notice_row n) (queued_ids d n) d Ha (queued_ids_exist d n)) as E.
  unfold queueNotice. fold (queued_ids d n). unfold QueueNotifications.
  destruct (queued_ids d n) as [|i ids]; [by cbn [queued]; rewrite add_notes_nil|]. unfold transaction. by rewrite E.
Qed.

Lemma queueNotice_frame now n d : ∃ rows, (queueNotice now n d).2 = add_notes rows d ∧
  if decide (nt_alertID n ∈ map al_id (alerts d)) then rows = queued now (notice_row n) (seq d) (queued_ids d n) else rows = [].
Proof.
  destruct (decide (nt_alertID n ∈ map al_id (alerts d))) as [Hin|Hn].
  - apply list_elem_of_fmap in Hin as (a & Ea & Ha). eexists. split; [|done].
    by rewrite queueNotice_ok by (by exists a).
  - exists []. split; [|done]. rewrite add_notes_nil. unfold queueNotice, QueueNotifications.
    destruct (pickChannels _ _ _ _ _) as [|i ids]; [done|]. unfold transaction.
    cbn [sfor]. unfold mbind, SM_bind, sbind, queue_one, next_id. cbv beta iota.
    change (alerts (set_seq (seq d + 1) d)) with (alerts d).
    destruct (exists_where (λ a, al_id a =? note_AlertID (notice_row n)) (alerts d)) eqn:E; [|done].
    apply exists_where_true in E as (a & Ha & Ea). destruct Hn. apply Z.eqb_eq in Ea.
    change (nt_alertID n) with (note_AlertID (notice_row n)). rewrite <- Ea. by apply list_elem_of_fmap_2.
Qed.

(** Every state the interleaving reaches from an empty queue *)
Lemma reached_wf d0 s : notifications d0 = [] → rtc delivery_step {| dl_db := d0; dl_batch := [] |} s →
  delivery_wf s ∧ notes_refs (dl_db s).
Proof.
  intros E0 Hsteps. split.
  - refine (rtc_invariant delivery_step delivery_wf _ _ delivery_step_wf Hsteps _).
    split; constructor; cbn; rewrite ?E0; try (intros; by match goal with H : _ ∈ [] |- _ => apply not_elem_of_nil in H end);
      constructor.
  - refine (rtc_invariant delivery_step (λ s, notes_refs (dl_db s)) _ _ delivery_step_refs Hsteps _).
    split; cbn; rewrite E0; intros n Hn; by apply not_elem_of_nil in Hn.
Qed.

(** ** Properties *)

(** [pickChannels] decides who hears of an event: a resolution goes to
    the enabled channels that were told about the alert, anything else to the
    enabled channels the rule wants (by name, by a tick for their kind, or
    the default ones when it picks none), warnings excepted for those that
    skip them.  Channels keep their order. *)
Lemma pickChannels_correct (rule : AlertConfig) (channels : list Channel) (event : string) (severity : Z) (told : list Z) :
  pickChannels rule channels event severity told `sublist_of` map channel_ID channels ∧
  ∀ id, id ∈ pickChannels rule channels event severity told ↔
    ∃ c, c ∈ channels ∧ channel_ID c = id ∧ channel_Enabled c = true ∧
      (event = Resolved → id ∈ told) ∧
      (event ≠ Resolved → wants rule c ∧ (channel_SkipWarnings c = true → SeverityCritical ≤ severity)).
Proof.
  unfold pickChannels. split.
  - induction channels as [|c l IH]; [constructor|]. cbn. destruct (picks _ _ _ _ c); cbn; by constructor.
  - intros id. rewrite list_elem_of_fmap. apply exist_proper. intros c. rewrite list_elem_of_filter_b, picks_spec.
    pose proof (str_eq_spec event Resolved) as He. destruct (str_eq event Resolved).
    + assert (event = Resolved) by tauto. naive_solver.
    + assert (event ≠ Resolved) by (intros ?; by destruct He as [_ He]; specialize (He ltac:(done))). naive_solver.
Qed.

(** For an alert in the table, [queueNotice] never fails and queues one
    pending notification about it per picked channel; the resolution of an
    alert goes exactly to the channels that are on and have had a
    notification about it. *)
Lemma queueNotice_correct (now : time) (n : notice) (d : DB) :
  (∃ a, a ∈ alerts d ∧ al_id a = nt_alertID n) →
  ∃ d' rows, queueNotice now n d = (Ok (), d') ∧ notifications d' = notifications d ++ rows
    ∧ Forall (λ r, no_alert_id r = nt_alertID n ∧ no_event r = nt_event n ∧ is_pending r = true
                   ∧ no_attempts r = 0 ∧ no_next_attempt_at r = now) rows
    ∧ (nt_event n = Resolved → ∀ id, id ∈ map no_channel_id rows ↔
         (∃ c, c ∈ channels d ∧ ch_id c = id ∧ ch_enabled c = true)
         ∧ ∃ p, p ∈ notifications d ∧ no_alert_id p = nt_alertID n ∧ no_channel_id p = id).
Proof.
  intros Ha. pose proof (queueNotice_ok now n d Ha) as E.
  set (ids := queued_ids d n) in E. set (rows := queued now (notice_row n) (seq d) ids) in E.
  exists (add_notes rows d), rows. split_and!; [done|done| |].
  - eapply Forall_impl; [apply queued_Forall|]. cbn. intros r Hr. by destruct_and! Hr; split_and!.
  - intros Her id. unfold rows. rewrite queued_channels. unfold ids, queued_ids, pickChannels. rewrite list_elem_of_fmap.
    set (told := if str_eq _ _ then _ else []).
    assert (Ht : id ∈ told ↔ ∃ p, p ∈ notifications d ∧ no_alert_id p = nt_alertID n ∧ no_channel_id p = id).
    { unfold told. rewrite Her, str_eq_refl. unfold NotifiedChannels.
      rewrite elem_of_stable_sort, elem_of_remove_dups, list_elem_of_fmap. apply exist_proper. intros p.
      rewrite elem_of_select_where. split; intros (? & ? & ?); split_and!; (done || lia). }
    rewrite <- Ht. split.
    + intros (c & -> & Hc). apply list_elem_of_filter_b in Hc as [Hc Hp]. apply picks_spec in Hp as [Hen Hp].
      rewrite Her, str_eq_refl in Hp. split; [|done]. unfold Channels in Hc.
      apply list_elem_of_fmap in Hc as (r & -> & Hr). rewrite elem_of_stable_sort in Hr. by exists r.
    + intros [(r & Hr & <- & Hen) Hin]. exists (scan_channel d r). split; [done|]. apply list_elem_of_filter_b. split.
      * unfold Channels. apply list_elem_of_fmap_2. by rewrite elem_of_stable_sort.
      * apply picks_spec. rewrite Her, str_eq_refl. done.
Qed.

(** C27: however queueing, delivery, edits of channels and removals of alerts
    interleave, a notification is tried at most [maxTries] (six) times, and
    one that has been tried once has no earlier notification about the same
    alert for the same channel left pending: messages go out in order. *)
Theorem notifications_in_order (d0 : DB) (s : Delivery) :
  notifications d0 = [] → rtc delivery_step {| dl_db := d0; dl_batch := [] |} s →
  ∀ n, n ∈ notifications (dl_db s) → no_attempts n ≤ 6 ∧
    (is_pending n = false → 0 < no_attempts n) ∧
    ∀ p, p ∈ notifications (dl_db s) → earlier n p = true → 0 < no_attempts n → is_pending p = false.
Proof.
  intros E0 Hsteps. destruct (reached_wf d0 s E0 Hsteps) as [Hwf _]. destruct Hwf as [[Hi Hf Ht Hp Hs Ho] _]. intros n Hn. split_and!; [apply (Ht n Hn)|by apply Hs|].
  intros p Hpin He Hat. destruct (is_pending p) eqn:Hpp; [|done]. destruct (Ho p n Hpin Hn He Hpp). lia.
Qed.

(** C28: a queue left alone empties, whatever the channels answer.  From any
    state the interleaving reaches, with no wait longer than [t], rounds of
    ticks of which each has one an hour after the rounds before settle every
    notification: after six rounds for each pending one, all are sent or given
    up, after one to six tries, and none is lost. *)
Theorem queue_settles `{Outside, ParseAddress, UrlParse, PathEscape} (dashboard : string) (d0 d : DB) (sent : list Request)
    (t : time) (rounds : list (list Tick)) :
  notifications d0 = [] → rtc delivery_step {| dl_db := d0; dl_batch := [] |} {| dl_db := d; dl_batch := [] |} →
  (∀ n, n ∈ notifications d → no_next_attempt_at n ≤ t) → hourly t rounds →
  6 * Z.of_nat (length (List.filter is_pending (notifications d))) ≤ Z.of_nat (length rounds) →
  let d' := (deliverNotifications dashboard (concat rounds) (d, sent)).1 in
  map no_id (notifications d') = map no_id (notifications d) ∧
  ∀ n, n ∈ notifications d' →
    (no_status n = NotificationSent ∨ no_status n = NotificationFailed) ∧ 1 ≤ no_attempts n ≤ 6.
Proof.
  intros E0 Hsteps Ht Hh Hlen. destruct (reached_wf d0 _ E0 Hsteps) as [Hwf Hr].
  destruct (rounds_settle dashboard rounds t d sent Hh Hwf Hr) as ([Hn _] & Hr' & Hids & Hp).
  { intros n Hn _. by apply Ht. }
  { etrans; [apply work_bound, Hwf|done]. }
  split; [exact Hids|]. intros n Hin. cbn [dl_db] in *. specialize (Hp n Hin). split.
  - destruct (nr_status _ Hr' n Hin) as [E|[E|E]]; [|by left|by right]. unfold is_pending in Hp. by rewrite E in Hp.
  - pose proof (nw_settled _ Hn n Hin Hp). pose proof (nw_tries _ Hn n Hin). change maxTries with 6 in *. lia.
Qed.

(** ** Witnesses *)

Definition ops_channel : ChannelRow := {|
  ch_id := 4; ch_name := "ops"; ch_kind := "webhook"; ch_settings := ∅; ch_is_default := true;
  ch_skip_warnings := false; ch_enabled := true; ch_updated_at := 0; ch_updated_by := "ann" |}.
Definition cpu_alert : AlertRow := {|
  al_id := 3; al_host_id := None; al_rule := "CPU"; al_metric := PROC_USAGE; al_target := ""; al_severity := 2;
  al_value := f0; al_started_at := 5; al_updated_at := 5; al_resolved_at := None |}.
Definition notices_db : DB := set_channels [ops_channel] (set_alerts [cpu_alert] (set_seq 10 empty_db)).
Definition cpu_notice (event : string) : notice := {|
  nt_alertID := 3; nt_rule := zero_rule; nt_host := ""; nt_target := ""; nt_event := event; nt_severity := 2;
  nt_value := f0; nt_subject := "CPU is high"; nt_body := "CPU is high"; nt_at := 5 |}.

Lemma queueNotice_correct_witness : ∃ d' rows, queueNotice 20 (cpu_notice Opened) notices_db = (Ok (), d')
  ∧ notifications d' = rows ∧ map no_channel_id rows = [4].
Proof.
  destruct (queueNotice_correct 20 (cpu_notice Opened) notices_db) as (d' & rows & E & En & _).
  - exists cpu_alert. split; [by apply list_elem_of_singleton|done].
  - exists d', rows. split; [exact E|]. split; [exact En|].
    change (queueNotice 20 (cpu_notice Opened) notices_db) with
      (Ok (E := error) (), snd (queueNotice 20 (cpu_notice Opened) notices_db)) in E.
    injection E as <-. change (notifications notices_db) with (@nil NoteRow) in En. rewrite app_nil_l in En.
    rewrite <- En. vm_compute. reflexivity.
Defined.

(** A notification that failed once and waits, with a second one queued
    behind it. *)
Definition waiting : Delivery :=
  let d1 := snd (queueNotice 20 (cpu_notice Opened) notices_db) in
  let b := DueNotifications 20 d1 deliverBatch in
  let d2 := match b with n :: _ => snd (mark 20 n (inr (true, ErrOther "timeout")) d1) | [] => d1 end in
  {| dl_db := snd (queueNotice 30 (cpu_notice Resolved) d2); dl_batch := [] |}.

Lemma waiting_reached : rtc delivery_step {| dl_db := notices_db; dl_batch := [] |} waiting.
Proof.
  eapply rtc_l; [apply (ds_queue 20 (notice_row (cpu_notice Opened)) [4])|].
  eapply rtc_l; [apply (ds_read 20)|].
  eapply rtc_l.
  { match goal with |- delivery_step {| dl_db := ?d; dl_batch := ?b |} _ =>
      let b' := eval vm_compute in b in replace b with b' by (vm_compute; reflexivity) end.
    apply (ds_send 20 _ (inr (true, ErrOther "timeout"))). }
  apply rtc_once.
  replace waiting with {| dl_db := snd (QueueNotifications 30 (notice_row (cpu_notice Resolved)) [4]
     (dl_db {| dl_db := snd (mark 20 (hd (notice_row (cpu_notice Opened)) (DueNotifications 20
        (snd (queueNotice 20 (cpu_notice Opened) notices_db)) deliverBatch)) (inr (true, ErrOther "timeout"))
        (snd (queueNotice 20 (cpu_notice Opened) notices_db))); dl_batch := [] |})); dl_batch := [] |}
    by (vm_compute; reflexivity).
  eapply (ds_queue 30 (notice_row (cpu_notice Resolved)) [4]).
Qed.

Lemma notifications_in_order_witness : Forall (λ n, no_attempts n ≤ 6 ∧
    (is_pending n = false → 0 < no_attempts n) ∧
    ∀ p, p ∈ notifications (dl_db waiting) → earlier n p = true → 0 < no_attempts n → is_pending p = false)
  (notifications (dl_db waiting)).
Proof. apply Forall_forall, (notifications_in_order notices_db); [reflexivity|apply waiting_reached]. Defined.

(** A network that answers nothing, and a tick every hour *)
Definition silence : Outside := {|
  net_answer _ _ := Err (ErrOther "timeout"); json_parse _ := None; json_float _ := None; now_Time := 0; now_UnixNano := 0;
  mail_server := {| ms_conn := unit; ms_dial _ := Err (ErrOther "timeout"); ms_handshake _ _ := Err (ErrOther "timeout");
                    ms_greet c := (Err (ErrOther "timeout"), c); ms_send _ c := (Err (ErrOther "timeout"), c) |};
  rfc1123z _ := "" |}.
Fixpoint every_hour (t : time) (k : nat) : list (list Tick) :=
  match k with
  | O => []
  | S k => [{| tick_read := t; tick_clock _ := (t, t) |}] :: every_hour (t + hour) k
  end.
Lemma every_hour_hourly k : ∀ t, hourly t (every_hour t k).
Proof.
  induction k as [|k IH]; intros t; [constructor|]. apply (hourly_cons t (t + hour)); [change hour with 3600000000000; lia| | |apply IH].
  - constructor. cbn. lia.
  - repeat constructor. intros i. cbn. lia.
Qed.

Lemma queue_settles_witness :
  Forall (λ n, (no_status n = NotificationSent ∨ no_status n = NotificationFailed) ∧ 1 ≤ no_attempts n ≤ 6)
    (notifications (@deliverNotifications silence (λ _, None) (λ _, None) (λ s, s) "" (concat (every_hour hour 12)) (dl_db waiting, [])).1).
Proof.
  apply Forall_forall.
  apply (@queue_settles silence (λ _, None) (λ _, None) (λ s, s) "" notices_db (dl_db waiting) [] hour (every_hour hour 12)).
  - reflexivity.
  - exact waiting_reached.
  - intros n Hn. apply Z.leb_le. revert n Hn.
    assert (E : forallb (λ n, no_next_attempt_at n <=? hour) (notifications (dl_db waiting)) = true) by (vm_compute; reflexivity).
    intros n Hn. eapply forallb_forall in E; [exact E|]. by apply list_elem_of_In.
  - apply every_hour_hourly.
  - vm_compute. discriminate.
Defined.
