(* ===== verification/EvaluatorSpec.v ===== *)
(** * What the evaluator promises: one alert state machine per target.

    [AlertStoreLaws] is what the evaluator relies on of its store.  [phase]
    and [step] are the abstract state machine of one rule's target: idle,
    pending (a breach that has not lasted), firing, recovering.  [check]
    refines it, and the machine's traces give the alerting guarantees. *)
From S2P Require Import Prelude GoStrings GoFloat GoTime Errors Monitor Alerts Json Notify Kube Database StoreHosts.
From S2P Require Import StoreAlerts StoreKube Texts Evaluator.
Local Open Scope Z_scope.

(** ** The laws of the alert store *)

(** An alert's identity: host, rule, metric, target. *)
Definition akey : Type := string * string * string * string.
Definition key_of_alert (a : Alert) : akey := (alert_Host a, alert_Rule a, alert_Metric a, alert_Target a).

Definition open_at {W} `{AlertStore W} (w : W) (k : akey) : result error (option Alert) :=
  let '(h, r, m, t) := k in st_OpenAlert w h r m t.

Definition same_elsewhere {W} `{AlertStore W} (w w' : W) (k : akey) : Prop :=
  ∀ k', k' ≠ k → open_at w' k' = open_at w k'.

(** The invariant the laws hold under is the store's own.  A call that fails
    promises nothing but the invariant. *)
Class AlertStoreLaws (W : Type) `{AlertStore W} := {
  st_inv : W → Prop;
  open_law w k a : st_inv w → open_at w k = Ok (Some a) → alert_Target a = k.2;
  create_law w w' a r : st_inv w → st_CreateAlert a w = (r, w') → st_inv w' ∧
    match r with
    | Ok id => same_elsewhere w w' (key_of_alert a) ∧
        ∃ a', open_at w' (key_of_alert a) = Ok (Some a') ∧ alert_ID a' = id ∧ alert_Severity a' = alert_Severity a
    | Err _ => True
    end;
  update_law w w' k a sev v t r : st_inv w → open_at w k = Ok (Some a) →
    st_UpdateAlert (alert_ID a) sev v t w = (r, w') → st_inv w' ∧
    match r with
    | Ok _ => same_elsewhere w w' k ∧
        ∃ a', open_at w' k = Ok (Some a') ∧ alert_ID a' = alert_ID a ∧ alert_Severity a' = sev
    | Err _ => True
    end;
  resolve_law w w' k a v t r : st_inv w → open_at w k = Ok (Some a) →
    st_ResolveAlert (alert_ID a) v t w = (r, w') → st_inv w' ∧
    match r with
    | Ok _ => same_elsewhere w w' k ∧ open_at w' k = Ok None
    | Err _ => True
    end;
  (** telling people about an alert changes none *)
  notify_law w n : st_inv w → st_inv (st_notify n w) ∧ ∀ k, open_at (st_notify n w) k = open_at w k;
  (** the open alerts of a rule are exactly the ones OpenAlert finds (of an
      empty name, which the query takes for no filter, all of them) *)
  alerts_law w rule l : st_inv w →
    st_Alerts w {| filter_Host := ""; filter_Rule := rule; filter_OpenOnly := true;
                   filter_From := zero_time; filter_To := zero_time |} = Ok l →
    (∀ a, a ∈ l → open_at w (key_of_alert a) = Ok (Some a)) ∧ NoDup (map key_of_alert l)
    ∧ (rule ≠ "" → (∀ a, a ∈ l → alert_Rule a = rule)
         ∧ ∀ k a, k.1.1.2 = rule → open_at w k = Ok (Some a) → a ∈ l ∧ key_of_alert a = k) }.

(** ** The alert state machine *)

Inductive phase :=
  | Idle
  | Pending (status : StatusType) (since : time)
  | Firing (id severity : Z)
  | Recovering (id severity : Z) (since : time).

(** An event: what happened, to which alert, at which severity. *)
Definition event : Type := string * Z * Z.

Inductive step (interval : duration) : phase → StatusType * time → list event → phase → Prop :=
  | idle_normal t : step interval Idle (Normal, t) [] Idle
  | idle_breached s t : s ≠ Normal → step interval Idle (s, t) [] (Pending s t)
  | pending_normal s0 t0 t : step interval (Pending s0 t0) (Normal, t) [] Idle
  | pending_wait s0 t0 s t : s ≠ Normal → time_sub t t0 < interval →
      step interval (Pending s0 t0) (s, t) [] (Pending s0 t0)
  | pending_open s0 t0 s t id : s ≠ Normal → interval ≤ time_sub t t0 →
      step interval (Pending s0 t0) (s, t) [(Opened, id, status_int s)] (Firing id (status_int s))
  | firing_same id sev s t : s ≠ Normal → status_int s = sev → step interval (Firing id sev) (s, t) [] (Firing id sev)
  | firing_change id sev s t : s ≠ Normal → status_int s ≠ sev →
      step interval (Firing id sev) (s, t) [(Changed, id, status_int s)] (Firing id (status_int s))
  | firing_normal id sev t : step interval (Firing id sev) (Normal, t) [] (Recovering id sev t)
  | recovering_wait id sev t0 t : time_sub t t0 < interval →
      step interval (Recovering id sev t0) (Normal, t) [] (Recovering id sev t0)
  | recovering_resolve id sev t0 t : interval ≤ time_sub t t0 →
      step interval (Recovering id sev t0) (Normal, t) [(Resolved, id, 0)] Idle
  | recovering_same id sev t0 s t : s ≠ Normal → status_int s = sev →
      step interval (Recovering id sev t0) (s, t) [] (Firing id sev)
  | recovering_change id sev t0 s t : s ≠ Normal → status_int s ≠ sev →
      step interval (Recovering id sev t0) (s, t) [(Changed, id, status_int s)] (Firing id (status_int s)).

(** A run of the machine over samples, with the events of each step. *)
Inductive steps (interval : duration) : phase → list (StatusType * time) → list event → phase → Prop :=
  | steps_nil p : steps interval p [] [] p
  | steps_snoc p l evs q x evs' r : steps interval p l evs q → step interval q x evs' r →
      steps interval p (l ++ [x]) (evs ++ evs') r.

(** The phase a target is in: its open alert and its pending status. *)
Definition phase_of (open : option Alert) (pending : option pendingStatus) : phase :=
  match open, pending with
  | None, Some {| pn_status := Normal |} => Idle
  | None, Some {| pn_status := s; pn_since := t |} => Pending s t
  | None, None => Idle
  | Some a, Some {| pn_status := Normal; pn_since := t |} => Recovering (alert_ID a) (alert_Severity a) t
  | Some a, _ => Firing (alert_ID a) (alert_Severity a)
  end.

Definition event_of_notice (n : notice) : event := (nt_event n, nt_alertID n, nt_severity n).

(** An open alert is what a firing or recovering phase is about. *)
Lemma phase_of_open o pending id sev : (phase_of o pending = Firing id sev ∨ ∃ t0, phase_of o pending = Recovering id sev t0) →
  ∃ a, o = Some a ∧ alert_ID a = id ∧ alert_Severity a = sev.
Proof.
  unfold phase_of. intros Hp. destruct o as [a|]; [|by destruct pending as [[[] ?]|], Hp as [?|(? & ?)]].
  exists a. destruct pending as [[[] ?]|], Hp as [[= <- <-]|(? & [= <- <- _])]; done.
Qed.

(** *** Traces of the machine *)

Definition breached (x : StatusType * time) : Prop := x.1 ≠ Normal.
Definition normal (x : StatusType * time) : Prop := x.1 = Normal.

(** What the samples so far say of a phase reached from [Idle]: a pending
    breach, or a recovery, started at a sample and nothing contradicted it
    since. *)
Definition lasted (P : StatusType * time → Prop) (l : list (StatusType * time)) (t0 : time) : Prop :=
  ∃ l1 x l2, l = l1 ++ x :: l2 ∧ x.2 = t0 ∧ Forall P (x :: l2).
Definition explained (l : list (StatusType * time)) (p : phase) : Prop :=
  match p with
  | Pending _ t0 => lasted breached l t0
  | Recovering _ _ t0 => lasted normal l t0
  | _ => True
  end.

Lemma lasted_one P l x : P x → lasted P (l ++ [x]) x.2.
Proof. intros HP. exists l, x, []. split_and!; [done..|]. by repeat constructor. Qed.

Lemma lasted_snoc P l x t0 : lasted P l t0 → P x → lasted P (l ++ [x]) t0.
Proof.
  intros (l1 & y & l2 & -> & Ht & Hall) HP. exists l1, y, (l2 ++ [x]).
  split_and!; [by rewrite <- app_assoc|done|]. rewrite Forall_cons in *. rewrite Forall_app. destruct Hall.
  split_and!; [done..|]. by repeat constructor.
Qed.

Lemma step_explained interval l p x evs q : step interval p x evs q → explained l p → explained (l ++ [x]) q.
Proof.
  destruct 1; simpl; intros Hex; try done.
  - by apply (lasted_one breached l (s, t)).
  - by apply lasted_snoc.
  - by apply (lasted_one normal l (Normal, t)).
  - by apply lasted_snoc.
Qed.

Lemma steps_explained interval l evs q : steps interval Idle l evs q → explained l q.
Proof.
  intros Hs. remember Idle as p eqn:Hp. induction Hs as [p|p l evs q x evs' r Hs IH Hx]; [by subst|].
  eapply step_explained; eauto.
Qed.

(** A step opens only from a pending breach, resolves only from a recovery. *)
Lemma step_event interval p x evs q id sev ev : step interval p x evs q → (ev, id, sev) ∈ evs →
  (ev = Opened ∧ breached x ∧ ∃ s0 t0, p = Pending s0 t0 ∧ interval ≤ time_sub x.2 t0)
  ∨ (ev = Resolved ∧ normal x ∧ ∃ sev0 t0, p = Recovering id sev0 t0 ∧ interval ≤ time_sub x.2 t0)
  ∨ (ev = Changed ∧ breached x ∧ sev = status_int x.1 ∧ ∃ sev0, sev ≠ sev0 ∧ (p = Firing id sev0 ∨ ∃ t0, p = Recovering id sev0 t0)).
Proof.
  destruct 1 as [| | | | |id0 sev0|id0 sev0| |id0 sev0|id0 sev0|id0 sev0|id0 sev0]; intros Hin; try (by apply not_elem_of_nil in Hin);
    apply list_elem_of_singleton in Hin as [= -> -> ->].
  - left. split_and!; eauto.
  - right; right. split_and!; [done..|]. exists sev0. split; [done|by left].
  - right; left. split_and!; [done..|]. eauto.
  - right; right. split_and!; [done..|]. exists sev0. split; [done|]. right. eauto.
Qed.

(** Along a breach that starts from [Idle], the machine is pending since its
    first sample and has opened nothing, or it is firing and has opened one
    alert. *)
Definition opened_count (evs : list event) : nat := length (List.filter (λ e, str_eq e.1.1 Opened) evs).

Lemma opened_count_app l1 l2 : opened_count (l1 ++ l2) = (opened_count l1 + opened_count l2)%nat.
Proof. unfold opened_count. by rewrite List.filter_app, length_app. Qed.

Lemma steps_breach interval p t0 s0 l evs q : steps interval p l evs q → p = Pending s0 t0 → Forall breached l →
  (q = Pending s0 t0 ∧ opened_count evs = 0%nat ∧ Forall (λ x, time_sub x.2 t0 < interval) l)
  ∨ ((∃ id sev, q = Firing id sev) ∧ opened_count evs = 1%nat ∧ ∃ x, x ∈ l ∧ interval ≤ time_sub x.2 t0).
Proof.
  induction 1 as [p|p l evs q x evs' r Hs IH Hx]; intros -> Hall; [left; split_and!; [done..|constructor]|].
  apply Forall_app in Hall as [Hall [Hb _]%Forall_cons]. rewrite opened_count_app.
  destruct (IH eq_refl Hall) as [(-> & -> & Hw)|((id & sev & ->) & -> & y & Hy & Hyt)].
  - inversion Hx; subst; try (by destruct Hb).
    + left. split_and!; [done..|]. rewrite Forall_app. split; [done|]. by repeat constructor.
    + right. split_and!; [eauto|done|]. exists (s, t). split; [|done]. apply elem_of_app. right. by left.
  - inversion Hx; subst; try (by destruct Hb); right; split_and!; eauto;
      exists y; (split; [|done]); apply elem_of_app; by left.
Qed.

(** ** [check] refines the machine *)

Section Refinement.
Context {W : Type} `{AlertStoreLaws W}.
Implicit Types e : evaluator W.

(** The phase of a rule's target, when the store answers. *)
Definition at_phase e (host : string) (rule : AlertConfig) (target : string) (p : phase) : Prop :=
  ∃ o, open_at (ev_store e) (host, rule_Name rule, rule_MetricName rule, target) = Ok o
    ∧ p = phase_of o (ev_pending e !! alertKey host rule target).

Definition fresh e (key : string) (t : time) : Prop := ∀ last : time, ev_checked e !! key = Some last → last < t.

(** Everything of [e] that is not about one target is as it was. *)
Definition untouched e e' (host : string) (rule : AlertConfig) (target : string) : Prop :=
  same_elsewhere (ev_store e) (ev_store e') (host, rule_Name rule, rule_MetricName rule, target)
  ∧ (∀ key, key ≠ alertKey host rule target → ev_pending e' !! key = ev_pending e !! key
       ∧ ev_checked e' !! key = ev_checked e !! key)
  ∧ ev_checkErrors e' = ev_checkErrors e ∧ ev_reasons e' = ev_reasons e.

Definition step_spec e (out : result error unit * evaluator W) (host : string) (rule : AlertConfig) (target : string)
    (status : StatusType) (t : time) (p : phase) : Prop :=
  st_inv (ev_store out.2) ∧
  match out with
  | (Ok _, e') =>
      ∃ evs q, step (triggerInterval rule) p (status, t) evs q ∧ at_phase e' host rule target q
        ∧ map event_of_notice (ev_sent e') = map event_of_notice (ev_sent e) ++ evs
        ∧ untouched e e' host rule target ∧ ev_checked e' = ev_checked e
  | (Err _, e') => ev_sent e' = ev_sent e ∧ ev_checked e' = ev_checked e
  end.

Lemma event_of_message rule host target id ev status v t e :
  event_of_notice (message rule host target id ev status v t e) = (ev, id, status_int status).
Proof.
  unfold message. set (x := if contains _ _ then _ else _). by destruct x.
Qed.

Lemma map_sent l rule host target id ev status v t e :
  map event_of_notice (l ++ [message rule host target id ev status v t e])
  = map event_of_notice l ++ [(ev, id, status_int status)].
Proof. rewrite map_app. cbn [map]. by rewrite event_of_message. Qed.

Lemma same_elsewhere_refl (w : W) k : same_elsewhere w w k.
Proof. by intros k' _. Qed.

Ltac frame := unfold untouched, same_elsewhere; cbn;
  split_and!; auto; intros; rewrite ?lookup_insert_ne, ?lookup_delete_ne; auto.

(** The end of a check that wrote [w']: the target's memory is cleared and
    its people are told. *)
Lemma send_spec e w' host rule target thost ttarget id ev status v t (o : option Alert) p :
  st_inv w' → same_elsewhere (ev_store e) w' (host, rule_Name rule, rule_MetricName rule, target) →
  open_at w' (host, rule_Name rule, rule_MetricName rule, target) = Ok o →
  step (triggerInterval rule) p (status, t) [(ev, id, status_int status)] (phase_of o None) →
  step_spec e ((delete_pending (alertKey host rule target);; send rule thost ttarget id ev status v t) (with_store w' e))
    host rule target status t p.
Proof.
  intros Hinv Helse Ho Hst. unfold send, mbind, SM_bind, sbind, delete_pending, sget, notify, smodify. cbv beta iota.
  cbn [ev_store with_store with_pending with_sent ev_sent ev_pending].
  match goal with |- context [st_notify ?x w'] => set (n := x) end. destruct (notify_law w' n Hinv) as [Hinv' Hopen].
  split; [done|]. exists [(ev, id, status_int status)], (phase_of o None).
  split_and!; [done| |subst n; by apply map_sent|frame; etrans; [apply Hopen|by apply Helse]|done].
  exists o. split; [by etrans; [apply Hopen|]|]. cbn. by rewrite lookup_delete_eq.
Qed.

Lemma openIfBreached_spec e host rule target status v t p :
  st_inv (ev_store e) → at_phase e host rule target p →
  open_at (ev_store e) (host, rule_Name rule, rule_MetricName rule, target) = Ok None →
  step_spec e (openIfBreached rule host target (alertKey host rule target) status v t e) host rule target status t p.
Proof.
  intros Hinv (o & Ho & ->) Hnone. rewrite Hnone in Ho. injection Ho as <-.
  assert (Hidle : status = Normal → step_spec e (Ok (), with_pending (delete (alertKey host rule target) (ev_pending e)) e)
    host rule target status t (phase_of None (ev_pending e !! alertKey host rule target))).
  { intros ->. split; [done|]. exists [], Idle. split_and!; [|by exists None; cbn; rewrite lookup_delete_eq|by rewrite app_nil_r|frame|done].
    destruct (ev_pending e !! _) as [[[] t0]|]; constructor. }
  assert (Hset : status ≠ Normal → phase_of None (ev_pending e !! alertKey host rule target) = Idle →
    step_spec e (Ok (), with_pending (<[alertKey host rule target := {| pn_status := status; pn_since := t |}]> (ev_pending e)) e)
    host rule target status t (phase_of None (ev_pending e !! alertKey host rule target))).
  { intros Hs ->. split; [done|]. exists [], (Pending status t).
    split_and!; [by constructor| |by rewrite app_nil_r|frame|done].
    exists None. cbn. rewrite lookup_insert_eq. split; [done|]. by destruct status. }
  assert (Hopen : ∀ s0 t0, status ≠ Normal → ev_pending e !! alertKey host rule target = Some {| pn_status := s0; pn_since := t0 |} →
    s0 ≠ Normal →
    step_spec e ((if time_sub t t0 <? triggerInterval rule then mret ()
       else id ← on_store (st_CreateAlert (alert_to_open rule host target status v t));
            delete_pending (alertKey host rule target);;
            send rule host target id Opened status v t) e)
    host rule target status t (phase_of None (ev_pending e !! alertKey host rule target))).
  { intros s0 t0 Hs Hp Hs0. rewrite Hp.
    assert (Hq : phase_of None (Some {| pn_status := s0; pn_since := t0 |}) = Pending s0 t0) by (by destruct s0).
    rewrite Hq. cbn.
    destruct (Z.ltb_spec (time_sub t t0) (triggerInterval rule)).
    { split; [done|]. exists [], (Pending s0 t0). split_and!; [by constructor| |by rewrite app_nil_r|frame|done].
      exists None. by rewrite Hp, Hq. }
    unfold mbind, SM_bind, sbind, on_store. 
    destruct (st_CreateAlert (alert_to_open rule host target status v t) (ev_store e)) as [r w'] eqn:Ec.
    destruct (create_law _ _ _ _ Hinv Ec) as [Hinv' Hr].
    destruct r as [id|err]; [|by split].
    destruct Hr as (Helse & a' & Ha' & Hid & Hsev). apply (send_spec e w' _ _ _ _ _ _ _ _ _ _ (Some a')); [done..|].
    cbn. rewrite Hid, Hsev. by apply pending_open. }
  unfold openIfBreached. destruct status; [by apply Hidle|..].
  - unfold mbind at 1, SM_bind, sbind, sget. destruct (ev_pending e !! alertKey host rule target) as [[[] t0]|] eqn:Ep;
      [apply Hset|apply (Hopen Warning)|apply (Hopen Critical)|apply Hset]; done.
  - unfold mbind at 1, SM_bind, sbind, sget. destruct (ev_pending e !! alertKey host rule target) as [[[] t0]|] eqn:Ep;
      [apply Hset|apply (Hopen Warning)|apply (Hopen Critical)|apply Hset]; done.
Qed.

(** The part of [updateOpen] for a breached sample. *)
Lemma updateOpen_breached e host rule target a status v t p :
  st_inv (ev_store e) → at_phase e host rule target p → status ≠ Normal →
  open_at (ev_store e) (host, rule_Name rule, rule_MetricName rule, target) = Ok (Some a) →
  step_spec e (updateOpen rule host (alertKey host rule target) a status v t e) host rule target status t p.
Proof.
  intros Hinv (o & Ho & ->) Hs Hopen. rewrite Hopen in Ho. injection Ho as <-.
  pose proof (open_law _ _ _ Hinv Hopen) as Htarget. cbn in Htarget.
  set (key := alertKey host rule target).
  assert (Hp : ∃ q, q = phase_of (Some a) (ev_pending e !! key) ∧
    (q = Firing (alert_ID a) (alert_Severity a) ∨ ∃ t0, q = Recovering (alert_ID a) (alert_Severity a) t0)).
  { eexists. split; [done|]. destruct (ev_pending e !! key) as [[[] t0]|]; cbn; eauto. }
  destruct Hp as (q & <- & Hq).
  assert (Hrun : updateOpen rule host key a status v t e
    = (delete_pending key;; if status_int status =? alert_Severity a then mret ()
       else on_store (st_UpdateAlert (alert_ID a) (status_int status) v t);;
            send rule host (alert_Target a) (alert_ID a) Changed status v t) e) by (by destruct status).
  rewrite Hrun. clear Hrun. unfold mbind at 1, SM_bind, sbind, delete_pending, smodify.
  destruct (Z.eqb_spec (status_int status) (alert_Severity a)) as [Hsev|Hsev].
  { split; [done|]. exists [], (Firing (alert_ID a) (alert_Severity a)).
    split_and!; [destruct Hq as [->|[t0 ->]]; by constructor| |by rewrite app_nil_r|frame|done].
    exists (Some a). cbn. by rewrite lookup_delete_eq. }
  unfold mbind, SM_bind, sbind, on_store. cbn [ev_store with_pending].
  destruct (st_UpdateAlert (alert_ID a) (status_int status) v t (ev_store e)) as [r w'] eqn:Eu.
  destruct (update_law _ _ _ _ _ _ _ _ Hinv Hopen Eu) as [Hinv' Hr].
  destruct r as [[]|err]; [|by split].
  destruct Hr as (Helse & a' & Ha' & Hid & Hsev'). apply (send_spec e w' _ _ _ _ _ _ _ _ _ _ (Some a')); [done..|].
  cbn. rewrite Hid, Hsev'. destruct Hq as [->|[t0 ->]]; by constructor.
Qed.

(** The part for a normal sample. *)
Lemma updateOpen_normal e host rule target a v t p :
  st_inv (ev_store e) → at_phase e host rule target p →
  open_at (ev_store e) (host, rule_Name rule, rule_MetricName rule, target) = Ok (Some a) →
  step_spec e (updateOpen rule host (alertKey host rule target) a Normal v t e) host rule target Normal t p.
Proof.
  intros Hinv (o & Ho & ->) Hopen. rewrite Hopen in Ho. injection Ho as <-.
  pose proof (open_law _ _ _ Hinv Hopen) as Htarget. cbn in Htarget.
  set (key := alertKey host rule target).
  assert (Hfire : (∀ t0, ev_pending e !! key ≠ Some {| pn_status := Normal; pn_since := t0 |}) →
    step_spec e (Ok (), with_pending (<[key := {| pn_status := Normal; pn_since := t |}]> (ev_pending e)) e)
      host rule target Normal t (phase_of (Some a) (ev_pending e !! key))).
  { intros Hn. split; [done|]. exists [], (Recovering (alert_ID a) (alert_Severity a) t).
    split_and!; [| |by rewrite app_nil_r|frame|done].
    - destruct (ev_pending e !! key) as [[[] t0]|]; [by destruct (Hn t0)|constructor..].
    - exists (Some a). cbn. by rewrite lookup_insert_eq. }
  unfold updateOpen. unfold mbind at 1, SM_bind, sbind, sget.
  destruct (ev_pending e !! key) as [[[] t0]|] eqn:Ep; [|by apply Hfire..].
  cbn [phase_of]. clear Hfire.
  destruct (Z.ltb_spec (time_sub t t0) (triggerInterval rule)).
  { split; [done|]. exists [], (Recovering (alert_ID a) (alert_Severity a) t0).
    split_and!; [by constructor| |by rewrite app_nil_r|frame|done]. exists (Some a). fold key. by rewrite Ep. }
  unfold mbind, SM_bind, sbind, on_store.
  destruct (st_ResolveAlert (alert_ID a) v t (ev_store e)) as [r w'] eqn:Er.
  destruct (resolve_law _ _ _ _ _ _ _ Hinv Hopen Er) as [Hinv' Hr].
  destruct r as [[]|err]; [|by split].
  destruct Hr as (Helse & Hnone). apply (send_spec e w' _ _ _ _ _ _ _ _ _ _ None); [done..|]. by constructor.
Qed.

Lemma updateOpen_spec e host rule target a status v t p :
  st_inv (ev_store e) → at_phase e host rule target p →
  open_at (ev_store e) (host, rule_Name rule, rule_MetricName rule, target) = Ok (Some a) →
  step_spec e (updateOpen rule host (alertKey host rule target) a status v t e) host rule target status t p.
Proof.
  destruct status; intros; [by apply updateOpen_normal|by apply updateOpen_breached..].
Qed.

(** A sample that is not newer than the last one counted changes nothing. *)
Lemma check_stale e host rule target v (t last : time) :
  ev_checked e !! alertKey host rule target = Some last → t ≤ last →
  check rule host target v t e = (Ok (), e).
Proof.
  intros Hl Ht. unfold check, mbind, SM_bind, sbind, sget. cbv beta iota zeta. rewrite Hl.
  unfold after. by rewrite (proj2 (Z.ltb_ge last t) Ht).
Qed.

(** What one [check] of a fresh sample does. *)
Definition check_spec e (out : result error unit * evaluator W) (host : string) (rule : AlertConfig) (target : string)
    (v : float64) (t : time) (p : phase) : Prop :=
  st_inv (ev_store out.2) ∧ ev_checked out.2 = <[alertKey host rule target := t]> (ev_checked e) ∧
  match out with
  | (Ok _, e') =>
      ∃ evs q, step (triggerInterval rule) p (ruleStatus rule v, t) evs q ∧ at_phase e' host rule target q
        ∧ map event_of_notice (ev_sent e') = map event_of_notice (ev_sent e) ++ evs
        ∧ untouched e e' host rule target
  | (Err _, e') => ev_sent e' = ev_sent e
  end.

Lemma check_refines e host rule target v t p :
  st_inv (ev_store e) → at_phase e host rule target p → fresh e (alertKey host rule target) t →
  check_spec e (check rule host target v t e) host rule target v t p.
Proof.
  intros Hinv Hp Hfresh. unfold check. cbv zeta. set (key := alertKey host rule target) in *.
  assert (Hold : match ev_checked e !! key with Some last => negb (after t last) | None => false end = false).
  { destruct (ev_checked e !! key) as [last|] eqn:El; [|done]. specialize (Hfresh _ El).
    unfold after. by rewrite (proj2 (Z.ltb_lt last t) Hfresh). }
  unfold mbind, SM_bind, sbind, sget, smodify, read_store. cbv beta iota zeta. rewrite Hold.
  set (e1 := with_checked (<[key:=t]> (ev_checked e)) e).
  pose proof Hp as (o & Ho & ->). cbn in Ho. cbn [ev_store e1 with_checked]. rewrite Ho.
  assert (Hp1 : at_phase e1 host rule target (phase_of o (ev_pending e !! key))) by (exists o; done).
  assert (Hfin : ∀ out, step_spec e1 out host rule target (ruleStatus rule v) t (phase_of o (ev_pending e !! key)) →
    check_spec e out host rule target v t (phase_of o (ev_pending e !! key))).
  { intros [[[]|err] e']; unfold step_spec, check_spec; cbn [fst snd]; intros [Hi Hrest].
    - destruct Hrest as (evs & q & Hst & Hq & Hsent & Hun & Hch). split_and!; [done|done|].
      exists evs, q. split_and!; [done..|]. destruct Hun as (Hse & Hmaps & Hce & Hre).
      split_and!; [done| |done|done]. intros k Hk. destruct (Hmaps k Hk) as [H1 H2]. split; [done|].
      rewrite H2. cbn. by rewrite lookup_insert_ne by (intros Heq; by apply Hk).
    - destruct Hrest as [Hsent Hch]. by split_and!. }
  apply Hfin. destruct o as [a|].
  - by apply updateOpen_spec.
  - by apply openIfBreached_spec.
Qed.

(** *** Runs of one target: its samples one after the other *)

Fixpoint check_all (rule : AlertConfig) (host target : string) (samples : list (float64 * time)) : EvalM unit :=
  match samples with
  | [] => mret ()
  | (v, t) :: samples' => check rule host target v t;; check_all rule host target samples'
  end.

Definition statuses (rule : AlertConfig) (samples : list (float64 * time)) : list (StatusType * time) :=
  map (λ s, (ruleStatus rule s.1, s.2)) samples.

(** Samples that are each newer than the ones before them and than what the
    evaluator has seen of the target. *)
Definition fresh_samples e (key : string) (samples : list (float64 * time)) : Prop :=
  StronglySorted Z.lt (map snd samples) ∧ ∀ s, s ∈ samples → fresh e key s.2.

Lemma steps_cons interval p x evs q l evs' r :
  step interval p x evs q → steps interval q l evs' r → steps interval p (x :: l) (evs ++ evs') r.
Proof.
  intros Hx Hs. revert Hx. induction Hs as [q|q l evs1 q' x' evs2 r Hs IH Hx']; intros Hx.
  - rewrite app_nil_r. apply (steps_snoc interval p [] [] p x evs q); [constructor|done].
  - rewrite app_assoc. change (x :: l ++ [x']) with ((x :: l) ++ [x']). econstructor; eauto.
Qed.

Lemma check_all_cons rule host target v t samples e out :
  check_all rule host target ((v, t) :: samples) e = (Ok (), out) →
  ∃ e1, check rule host target v t e = (Ok (), e1) ∧ check_all rule host target samples e1 = (Ok (), out).
Proof.
  cbn [check_all]. unfold mbind, SM_bind, sbind.
  destruct (check rule host target v t e) as [[[]|err] e1]; [eauto|done].
Qed.

Lemma check_all_app rule host target l1 : ∀ l2 e out,
  check_all rule host target (l1 ++ l2) e = (Ok (), out) →
  ∃ e1, check_all rule host target l1 e = (Ok (), e1) ∧ check_all rule host target l2 e1 = (Ok (), out).
Proof.
  induction l1 as [|[v t] l1 IH]; intros l2 e out Hrun; [by exists e|].
  change (((v, t) :: l1) ++ l2) with ((v, t) :: (l1 ++ l2)) in Hrun.
  apply check_all_cons in Hrun as (e1 & H1 & H2). apply IH in H2 as (e2 & H2 & H3).
  exists e2. split; [|done]. cbn [check_all]. unfold mbind, SM_bind, sbind. by rewrite H1.
Qed.

(** A run of successful checks is a run of the machine. *)
Lemma check_all_steps rule host target samples : ∀ e e' p,
  st_inv (ev_store e) → at_phase e host rule target p → fresh_samples e (alertKey host rule target) samples →
  check_all rule host target samples e = (Ok (), e') →
  st_inv (ev_store e') ∧ ∃ evs q, steps (triggerInterval rule) p (statuses rule samples) evs q
    ∧ at_phase e' host rule target q
    ∧ map event_of_notice (ev_sent e') = map event_of_notice (ev_sent e) ++ evs
    ∧ (∀ t, (∀ s, s ∈ samples → s.2 < t) → fresh e (alertKey host rule target) t → fresh e' (alertKey host rule target) t).
Proof.
  induction samples as [|[v t] samples IH]; intros e e' p Hinv Hp [Hsort Hfresh] Hrun.
  { injection Hrun as <-. split; [done|]. exists [], p.
    split_and!; [constructor|done|by rewrite app_nil_r|done]. }
  apply check_all_cons in Hrun as (e1 & Hc & Hrun).
  apply StronglySorted_inv in Hsort as [Hsort Hlt].
  pose proof (check_refines e host rule target v t p Hinv Hp (Hfresh (v, t) ltac:(by left))) as Hspec.
  rewrite Hc in Hspec. destruct Hspec as (Hinv1 & Hch & evs & q & Hst & Hq & Hsent & _). cbn [fst snd] in *.
  assert (Hfresh1 : ∀ t', t < t' → fresh e1 (alertKey host rule target) t').
  { intros t' Ht' last Hl. rewrite Hch, lookup_insert_eq in Hl. by injection Hl as <-. }
  destruct (IH e1 e' q Hinv1 Hq) as (Hinv' & evs' & r & Hsts & Hr & Hsent' & Hf); [|done|].
  { split; [done|]. intros s Hs. apply Hfresh1. rewrite Forall_forall in Hlt. apply Hlt. by apply list_elem_of_fmap_2. }
  split; [done|]. exists (evs ++ evs'), r. split_and!.
  - by eapply steps_cons.
  - done.
  - by rewrite Hsent', Hsent, app_assoc.
  - intros t' Hall _. apply Hf; [intros s Hs; apply Hall; by right|]. apply Hfresh1. by apply (Hall (v, t)); left.
Qed.
End Refinement.

(** The interval of a rule whose seconds fit a [time.Duration] is compared
    exactly. *)
Lemma interval_exact rule t t0 : 0 ≤ rule_TriggerIntveral rule ≤ 9223372036 →
  triggerInterval rule ≤ time_sub t t0 → rule_TriggerIntveral rule * second ≤ t - t0.
Proof.
  intros Hr. unfold triggerInterval. rewrite seconds_exact by done. unfold time_sub, second, int64_min, int64_max. lia.
Qed.

Lemma interval_reached rule t t0 : 0 ≤ rule_TriggerIntveral rule ≤ 9223372036 →
  rule_TriggerIntveral rule * second ≤ t - t0 → triggerInterval rule ≤ time_sub t t0.
Proof.
  intros Hr. unfold triggerInterval. rewrite seconds_exact by done. unfold time_sub, second, int64_min, int64_max. lia.
Qed.

(** ** Kubernetes rules *)

Section Cluster.
Context {W : Type} `{AlertStoreLaws W}.
Implicit Types e : evaluator W.

Definition rule_key (rule : AlertConfig) (host target : string) : akey :=
  (host, rule_Name rule, rule_MetricName rule, target).

(** A fresh check asks the store for the open alert first. *)
Lemma check_asks e e' host rule target v t :
  fresh e (alertKey host rule target) t → check rule host target v t e = (Ok (), e') →
  ∃ o, open_at (ev_store e) (rule_key rule host target) = Ok o.
Proof.
  intros Hfresh. unfold check, mbind, SM_bind, sbind, sget, smodify, read_store. cbv beta iota zeta.
  destruct (ev_checked e !! alertKey host rule target) as [last|] eqn:El.
  - specialize (Hfresh _ El). unfold after. rewrite (proj2 (Z.ltb_lt last t) Hfresh). cbn [negb].
    cbn [ev_store with_checked]. unfold open_at, rule_key. destruct (st_OpenAlert _ _ _ _ _); [eauto|done].
  - cbn [ev_store with_checked]. unfold open_at, rule_key. destruct (st_OpenAlert _ _ _ _ _); [eauto|done].
Qed.

(** A check that succeeds touches its own alert only. *)
Lemma check_frame e e' host rule target v t :
  st_inv (ev_store e) → check rule host target v t e = (Ok (), e') →
  st_inv (ev_store e') ∧ same_elsewhere (ev_store e) (ev_store e') (rule_key rule host target)
  ∧ ∃ evs, map event_of_notice (ev_sent e') = map event_of_notice (ev_sent e) ++ evs.
Proof.
  intros Hinv Hc. set (key := alertKey host rule target).
  assert (Hcase : fresh e key t ∨ ∃ last : time, ev_checked e !! key = Some last ∧ t ≤ last).
  { destruct (ev_checked e !! key) as [last|] eqn:El.
    - destruct (Z.leb_spec t last); [right; eauto|left]. intros l Hl. rewrite El in Hl. by injection Hl as <-.
    - left. intros l Hl. congruence. }
  destruct Hcase as [Hf|(last & Hl & Ht)].
  - destruct (check_asks _ _ _ _ _ _ _ Hf Hc) as [o Ho].
    assert (Hp : at_phase e host rule target (phase_of o (ev_pending e !! key))) by (exists o; done).
    pose proof (check_refines e host rule target v t _ Hinv Hp Hf) as Hs. rewrite Hc in Hs.
    destruct Hs as (Hinv' & _ & evs & q & _ & _ & Hsent & Hun). split_and!; [done|apply Hun|eauto].
  - rewrite (check_stale _ _ _ _ _ _ _ Hl Ht) in Hc. injection Hc as <-. split_and!; [done|by intros k _|].
    exists []. by rewrite app_nil_r.
Qed.

Definition of_rule (rule : AlertConfig) (k : akey) : Prop := k.1.1.2 = rule_Name rule ∧ k.1.2 = rule_MetricName rule.

Lemma check_targets_frame rule at_ targets : ∀ e e',
  st_inv (ev_store e) → check_targets rule at_ targets e = (Ok (), e') →
  st_inv (ev_store e') ∧ (∀ k, (∀ t, t ∈ map kt_target targets → k ≠ rule_key rule "" t) →
     open_at (ev_store e') k = open_at (ev_store e) k)
  ∧ ∃ evs, map event_of_notice (ev_sent e') = map event_of_notice (ev_sent e) ++ evs.
Proof.
  induction targets as [|t targets IH]; intros e e' Hinv.
  { intros [= <-]. split_and!; [done|done|]. exists []. by rewrite app_nil_r. }
  cbn [check_targets]. unfold mbind, SM_bind, sbind, smodify.
  set (e1 := with_reasons _ e).
  destruct (check rule "" (kt_target t) (kt_value t) at_ e1) as [[[]|err] e2] eqn:Hc; [|done].
  intros Hrun. destruct (check_frame e1 e2 _ _ _ _ _ Hinv Hc) as (Hinv2 & Hsame & evs & Hevs).
  destruct (IH e2 e' Hinv2 Hrun) as (Hinv' & Hframe & evs' & Hevs'). split_and!; [done| |].
  - intros k Hk. rewrite Hframe by (intros t' Ht'; apply Hk; by right).
    change (ev_store e) with (ev_store e1). apply Hsame. apply Hk. by left.
  - exists (evs ++ evs'). by rewrite Hevs', Hevs, app_assoc.
Qed.

(** *** Every target of the loop is checked *)

Lemma alertKey_target rule t : alertKey "" rule t = alertKey "" rule "" +:+ t.
Proof. unfold alertKey. rewrite !append_nil_r, !append_assoc. done. Qed.

Lemma alertKey_target_inj rule t t' : alertKey "" rule t = alertKey "" rule t' → t = t'.
Proof.
  rewrite (alertKey_target rule t), (alertKey_target rule t').
  intros E. apply (f_equal (sdrop (String.length (alertKey "" rule "")))) in E. by rewrite !sdrop_append in E.
Qed.

(** What the evaluator and the store know of a target is the same. *)
Definition same_target e e' (rule : AlertConfig) (t : string) : Prop :=
  open_at (ev_store e') (rule_key rule "" t) = open_at (ev_store e) (rule_key rule "" t)
  ∧ ev_pending e' !! alertKey "" rule t = ev_pending e !! alertKey "" rule t
  ∧ ev_checked e' !! alertKey "" rule t = ev_checked e !! alertKey "" rule t.

Lemma same_target_phase e e' rule t p : same_target e e' rule t → at_phase e "" rule t p ↔ at_phase e' "" rule t p.
Proof. intros (Ho & Hp & _). unfold at_phase. fold (rule_key rule "" t). by rewrite Ho, Hp. Qed.
Lemma same_target_fresh e e' rule t at_ : same_target e e' rule t → fresh e (alertKey "" rule t) at_ ↔ fresh e' (alertKey "" rule t) at_.
Proof. intros (_ & _ & Hc). unfold fresh. by rewrite Hc. Qed.
Lemma same_target_trans e1 e2 e3 rule t : same_target e1 e2 rule t → same_target e2 e3 rule t → same_target e1 e3 rule t.
Proof. intros (H1 & H2 & H3) (E1 & E2 & E3). split_and!; congruence. Qed.

(** One sample takes a step of its target's machine, sends the step's notices
    and is remembered; it says nothing of another target. *)
Definition stepped e e' (rule : AlertConfig) (t : string) (status : StatusType) (at_ : time) (evs : list event) : Prop :=
  ∃ p q, at_phase e "" rule t p ∧ step (triggerInterval rule) p (status, at_) evs q ∧ at_phase e' "" rule t q
    ∧ ev_checked e' !! alertKey "" rule t = Some at_.

Lemma fresh_or_seen e key t : fresh e key t ∨ ∃ last : time, ev_checked e !! key = Some last ∧ t ≤ last.
Proof.
  destruct (ev_checked e !! key) as [last|] eqn:El.
  - destruct (Z.leb_spec t last); [right; eauto|left]. intros l Hl. rewrite El in Hl. by injection Hl as <-.
  - left. intros l Hl. congruence.
Qed.

Lemma check_one e e' rule target v at_ : st_inv (ev_store e) → check rule "" target v at_ e = (Ok (), e') →
  st_inv (ev_store e') ∧ (∀ t, t ≠ target → same_target e e' rule t)
  ∧ ∃ evs, map event_of_notice (ev_sent e') = map event_of_notice (ev_sent e) ++ evs
      ∧ (fresh e (alertKey "" rule target) at_ → stepped e e' rule target (ruleStatus rule v) at_ evs)
      ∧ (¬ fresh e (alertKey "" rule target) at_ → e' = e).
Proof.
  intros Hinv Hc. destruct (fresh_or_seen e (alertKey "" rule target) at_) as [Hf|(last & Hl & Ht)].
  - destruct (check_asks _ _ _ _ _ _ _ Hf Hc) as [o Ho].
    assert (Hp : at_phase e "" rule target (phase_of o (ev_pending e !! alertKey "" rule target))) by (exists o; done).
    pose proof (check_refines e "" rule target v at_ _ Hinv Hp Hf) as Hs. rewrite Hc in Hs.
    destruct Hs as (Hinv' & Hch & evs & q & Hst & Hq & Hsent & Hun). cbn [fst snd] in *. split_and!; [done| |].
    + intros t Hne. destruct Hun as (Helse & Hmaps & _).
      destruct (Hmaps (alertKey "" rule t)) as [Hp' Hc']; [by intros E%alertKey_target_inj|].
      split_and!; [apply Helse|done|done]. intros E. apply Hne. by injection E.
    + exists evs. split_and!; [done| |done]. intros _. eexists _, q. split_and!; [exact Hp|done|done|].
      rewrite Hch. apply lookup_insert_eq.
  - rewrite (check_stale _ _ _ _ _ _ _ Hl Ht) in Hc. injection Hc as <-. split_and!; [done|done|].
    exists []. rewrite app_nil_r. split_and!; [done| |done]. intros Hf. specialize (Hf _ Hl). lia.
Qed.

(** Among the targets of one name the first is checked, the others are no
    newer. *)
Definition first_named (targets : list kubeTarget) (t : kubeTarget) : Prop :=
  List.find (λ x, str_eq (kt_target x) (kt_target t)) targets = Some t.

Lemma check_targets_same rule at_ targets name : ∀ e e',
  st_inv (ev_store e) → check_targets rule at_ targets e = (Ok (), e') →
  (name ∉ map kt_target targets ∨ ¬ fresh e (alertKey "" rule name) at_) → same_target e e' rule name.
Proof.
  induction targets as [|x targets IH]; intros e e' Hinv; [by intros [= <-]|].
  cbn [check_targets]. unfold mbind, SM_bind, sbind, smodify. set (e1 := with_reasons _ e).
  destruct (check rule "" (kt_target x) (kt_value x) at_ e1) as [[[]|err] e2] eqn:Hc; [|done]. intros Hrun Hno.
  assert (H1 : same_target e e1 rule name) by done.
  destruct (check_one e1 e2 _ _ _ _ Hinv Hc) as (Hinv2 & Hothers & evs & _ & _ & Hseen).
  assert (H2 : same_target e1 e2 rule name).
  { destruct (decide (name = kt_target x)) as [->|]; [|by apply Hothers]. destruct Hno as [Hno|Hno]; [destruct Hno; by left|].
    by rewrite Hseen. }
  eapply same_target_trans; [by eapply same_target_trans|]. apply (IH e2 e' Hinv2 Hrun).
  destruct Hno as [Hno|Hno]; [left; intros Hin; apply Hno; by right|right].
  rewrite <- (same_target_fresh e e2); [done|]. by eapply same_target_trans.
Qed.

Lemma check_targets_checked rule at_ targets t : ∀ e e',
  st_inv (ev_store e) → check_targets rule at_ targets e = (Ok (), e') → first_named targets t →
  fresh e (alertKey "" rule (kt_target t)) at_ →
  ∃ evs, stepped e e' rule (kt_target t) (ruleStatus rule (kt_value t)) at_ evs
    ∧ ∃ l1 l2, map event_of_notice (ev_sent e') = map event_of_notice (ev_sent e) ++ l1 ++ evs ++ l2.
Proof.
  induction targets as [|x targets IH]; intros e e' Hinv; [done|]. unfold first_named.
  cbn [check_targets List.find]. unfold mbind, SM_bind, sbind, smodify. set (e1 := with_reasons _ e).
  destruct (check rule "" (kt_target x) (kt_value x) at_ e1) as [[[]|err] e2] eqn:Hc; [|done]. intros Hrun Hfind Hf.
  destruct (check_one e1 e2 _ _ _ _ Hinv Hc) as (Hinv2 & Hothers & evs & Hsent & Hstep & _).
  destruct (check_targets_frame rule at_ targets e2 e' Hinv2 Hrun) as (_ & _ & evs' & Hevs').
  destruct (str_eq (kt_target x) (kt_target t)) eqn:Ex.
  - injection Hfind as ->. destruct (Hstep Hf) as (p & q & Hp & Hst & Hq & Hch). exists evs. split.
    + assert (Hsame : same_target e2 e' rule (kt_target t)).
      { apply (check_targets_same rule at_ targets _ e2 e' Hinv2 Hrun). right. intros Hf2. specialize (Hf2 _ Hch). lia. }
      exists p, q. split_and!; [done|done|by apply (same_target_phase e2 e')|]. destruct Hsame as (_ & _ & E). by rewrite E.
    + exists [], evs'. rewrite Hevs', Hsent. by rewrite <- app_assoc.
  - assert (Hne : kt_target t ≠ kt_target x) by (intros E; by rewrite E, str_eq_refl in Ex).
    pose proof (Hothers _ Hne) as Hsame.
    destruct (IH e2 e' Hinv2 Hrun Hfind) as (evs2 & (p & q & Hp & Hst & Hq & Hch) & l1 & l2 & Hsent2); [by apply (same_target_fresh e1 e2)|].
    exists evs2. split; [exists p, q; split_and!; try done; by apply (same_target_phase e1 e2)|].
    exists (evs ++ l1), l2. by rewrite Hsent2, Hsent, <- !app_assoc.
Qed.

Definition gone (rule : AlertConfig) (present : list string) (a : Alert) : bool :=
  str_eq (alert_Metric a) (rule_MetricName rule) && negb (contains present (alert_Target a)).

Lemma resolve_gone_from_spec rule present at_ open : ∀ e e',
  st_inv (ev_store e) → NoDup (map key_of_alert open) →
  (∀ a, a ∈ open → open_at (ev_store e) (key_of_alert a) = Ok (Some a)) →
  resolve_gone_from rule present at_ open e = (Ok (), e') →
  st_inv (ev_store e') ∧ ev_pending e' = ev_pending e ∧ ev_checked e' = ev_checked e
  ∧ (∀ a, a ∈ open → gone rule present a = true → open_at (ev_store e') (key_of_alert a) = Ok None)
  ∧ (∀ k, (∀ a, a ∈ open → gone rule present a = true → k ≠ key_of_alert a) →
       open_at (ev_store e') k = open_at (ev_store e) k)
  ∧ map event_of_notice (ev_sent e') = map event_of_notice (ev_sent e)
      ++ map (λ a, (Resolved, alert_ID a, 0)) (List.filter (gone rule present) open).
Proof.
  induction open as [|a open IH]; intros e e' Hinv Hnd Hopen.
  { intros [= <-]. split_and!; try done; [intros a Ha; by apply not_elem_of_nil in Ha|by rewrite app_nil_r]. }
  cbn [map] in Hnd. apply NoDup_cons in Hnd as [Ha Hnd].
  cbn [resolve_gone_from List.filter].
  assert (Hg : negb (str_eq (alert_Metric a) (rule_MetricName rule)) || contains present (alert_Target a)
               = negb (gone rule present a)).
  { unfold gone. by destruct (str_eq _ _), (contains _ _). }
  rewrite Hg. destruct (gone rule present a) eqn:Hga; cbn [negb].
  - unfold mbind, SM_bind, sbind, on_store, sget, notify, smodify.
    destruct (st_ResolveAlert (alert_ID a) f0 at_ (ev_store e)) as [[[]|err] w'] eqn:Er; [|done].
    destruct (resolve_law _ _ _ _ _ _ _ Hinv (Hopen a ltac:(by left)) Er) as (Hinv' & Hsame & Hnone).
    destruct (kubeGoneText rule (alert_Target a) at_) as [subject body]. cbv beta iota.
    cbn [ev_store with_sent with_store ev_pending ev_checked ev_sent].
    match goal with |- context [st_notify ?x w'] => destruct (notify_law w' x Hinv') as [Hinv2 Htold] end.
    intros Hrun. apply IH in Hrun; cbn [ev_store with_sent with_store ev_pending ev_checked ev_sent] in *; [| done..|].
    + destruct Hrun as (Hi & Hp & Hch & Hres & Hframe & Hsent). split_and!; [done..| | |].
      * intros b Hb Hgb. apply elem_of_cons in Hb as [->|Hb]; [|by apply Hres].
        rewrite Hframe; [by rewrite Htold|]. intros b Hb _ E. apply Ha. rewrite E. by apply list_elem_of_fmap_2.
      * intros k Hk. rewrite Hframe by (intros b Hb; apply Hk; by right). rewrite Htold. apply Hsame. apply Hk; [by left|done].
      * rewrite Hsent, map_app, <- app_assoc. f_equal. cbn [map app].
        pose proof (event_of_message rule "" (alert_Target a) (alert_ID a) Resolved Normal f0 at_ (with_store w' e)) as Hev.
        unfold event_of_notice in Hev |- *. cbn [nt_event nt_alertID nt_severity]. by rewrite Hev.
    + intros b Hb. rewrite Htold, Hsame; [apply Hopen; by right|]. intros E. apply Ha. rewrite <- E. by apply list_elem_of_fmap_2.
  - intros Hrun. apply IH in Hrun; [|done..|intros b Hb; apply Hopen; by right].
    destruct Hrun as (Hi & Hp & Hch & Hres & Hframe & Hsent). split_and!; [done..| | |done].
    + intros b Hb Hgb. apply elem_of_cons in Hb as [->|Hb]; [congruence|by apply Hres].
    + intros k Hk. apply Hframe. intros b Hb. apply Hk. by right.
Qed.

Lemma forget_gone {A} rule present (m : gmap string A) t : t ∉ present →
  forget (alertKey "" rule "") present m !! alertKey "" rule t = None.
Proof.
  intros Ht. unfold forget. apply map_lookup_filter_None_2. right. intros x _. cbn. unfold gone_key.
  rewrite (proj2 (cut_prefix_spec _ _ _) (alertKey_target rule t)). rewrite <- contains_spec in Ht. by destruct (contains _ _).
Qed.

Lemma forget_present {A} rule present (m : gmap string A) t : t ∈ present →
  forget (alertKey "" rule "") present m !! alertKey "" rule t = m !! alertKey "" rule t.
Proof.
  intros Ht. unfold forget. destruct (m !! alertKey "" rule t) as [x|] eqn:E.
  - apply map_lookup_filter_Some_2; [done|]. cbn. unfold gone_key.
    rewrite (proj2 (cut_prefix_spec _ _ _) (alertKey_target rule t)). apply contains_spec in Ht. by rewrite Ht.
  - apply map_lookup_filter_None_2. by left.
Qed.
End Cluster.

(** ** Whole rounds keep the store's invariant, whatever fails *)

Section Rounds.
Context {W : Type} `{AlertStoreLaws W}.
Implicit Types e : evaluator W.

Lemma check_inv rule host target v t e : st_inv (ev_store e) → st_inv (ev_store (check rule host target v t e).2).
Proof.
  intros Hinv. destruct (open_at (ev_store e) (rule_key rule host target)) as [o|err] eqn:Ho.
  - assert (Hp : at_phase e host rule target (phase_of o (ev_pending e !! alertKey host rule target))) by (exists o; done).
    destruct (ev_checked e !! alertKey host rule target) as [last|] eqn:El; [destruct (Z.leb_spec t last)|].
    + by rewrite (check_stale _ _ _ _ _ _ _ El).
    + apply (check_refines e host rule target v t _ Hinv Hp). intros l Hl. rewrite El in Hl. by injection Hl as <-.
    + apply (check_refines e host rule target v t _ Hinv Hp). intros l Hl. congruence.
  - unfold check, mbind, SM_bind, sbind, sget, smodify, read_store. cbv beta iota zeta.
    destruct (match ev_checked e !! _ with Some _ => _ | None => _ end); [done|].
    cbn [ev_store with_checked]. unfold open_at, rule_key in Ho. by rewrite Ho.
Qed.

Lemma check_targets_inv rule at_ targets : ∀ e, st_inv (ev_store e) → st_inv (ev_store (check_targets rule at_ targets e).2).
Proof.
  induction targets as [|t targets IH]; intros e Hinv; [done|].
  cbn [check_targets]. unfold mbind, SM_bind, sbind, smodify. set (e1 := with_reasons _ e).
  pose proof (check_inv rule "" (kt_target t) (kt_value t) at_ e1 Hinv) as Hc.
  destruct (check rule "" (kt_target t) (kt_value t) at_ e1) as [[[]|err] e2]; [by apply IH|done].
Qed.

Lemma resolve_gone_from_inv rule present at_ open : ∀ e,
  st_inv (ev_store e) → NoDup (map key_of_alert open) →
  (∀ a, a ∈ open → open_at (ev_store e) (key_of_alert a) = Ok (Some a)) →
  st_inv (ev_store (resolve_gone_from rule present at_ open e).2).
Proof.
  induction open as [|a open IH]; intros e Hinv Hnd Hopen; [done|].
  cbn [map] in Hnd. apply NoDup_cons in Hnd as [Ha Hnd]. cbn [resolve_gone_from].
  destruct (_ || _); [by apply IH; [|..|intros b Hb; apply Hopen; by right]|].
  unfold mbind, SM_bind, sbind, on_store, sget, notify, smodify.
  destruct (st_ResolveAlert (alert_ID a) f0 at_ (ev_store e)) as [r w'] eqn:Er.
  destruct (resolve_law _ _ _ _ _ _ _ Hinv (Hopen a ltac:(by left)) Er) as (Hinv' & Hr).
  destruct r as [[]|err]; [|done]. destruct Hr as (Hsame & _).
  destruct (kubeGoneText rule (alert_Target a) at_) as [subject body]. cbv beta iota.
  cbn [ev_store with_sent with_store].
  match goal with |- context [st_notify ?x w'] => destruct (notify_law w' x Hinv') as [Hinv2 Htold] end.
  apply IH; [done..|]. intros b Hb. cbn [ev_store with_sent with_store].
  rewrite Htold, Hsame; [apply Hopen; by right|]. intros E. apply Ha. rewrite <- E. by apply list_elem_of_fmap_2.
Qed.

Lemma resolveGone_inv rule targets at_ e : st_inv (ev_store e) → st_inv (ev_store (resolveGone rule targets at_ e).2).
Proof.
  intros Hinv. unfold resolveGone, mbind, SM_bind, sbind, read_store, smodify.
  destruct (st_Alerts (ev_store e) _) as [open|err] eqn:Eo; [|done].
  destruct (alerts_law _ _ _ Hinv Eo) as (Hopen & Hnd & _).
  pose proof (resolve_gone_from_inv rule (map kt_target targets) at_ open e Hinv Hnd Hopen) as Hi.
  by destruct (resolve_gone_from rule (map kt_target targets) at_ open e) as [[[]|err] e2].
Qed.

Lemma evaluateCluster_inv now rule e : st_inv (ev_store e) → st_inv (ev_store (evaluateCluster now rule e).2).
Proof.
  intros Hinv. unfold evaluateCluster, mbind, SM_bind, sbind, stry, read_store.
  destruct (st_Cluster (ev_store e) (rule_Cluster rule)) as [cluster|[]]; try done.
  destruct (Stale cluster now); [done|].
  set (at_ := unix_time (cs_Time (kc_State cluster))).
  assert (Hmain : ∀ restarts, st_inv (ev_store
    (match check_targets rule at_ (kubeTargets rule (kc_State cluster) restarts) e with
      | (Ok _, s') => resolveGone rule (kubeTargets rule (kc_State cluster) restarts) at_ s'
      | (Err err, s') => (Err err, s') end).2));
    [|by destruct (str_eq _ _); [destruct (st_RestartsSince _ _ _); [apply Hmain|done]|apply Hmain]].
  intros restarts. set (targets := kubeTargets rule (kc_State cluster) restarts).
  pose proof (check_targets_inv rule at_ targets e Hinv) as Hinv1.
  destruct (check_targets rule at_ targets e) as [[[]|err] e1]; [|done].
  by apply resolveGone_inv.
Qed.

Lemma latest_store now rule host target e : ev_store (latest now rule host target e).2 = ev_store e.
Proof.
  unfold latest, mbind, SM_bind, sbind, read_store, smodify, sfail.
  destruct (str_eq _ ENDPOINT); [by destruct (st_LatestEndpointCheck _ _)|].
  destruct (str_eq _ CERTIFICATE); [by destruct (st_LatestCertificate _ _)|].
  destruct (str_eq _ DISK_FORECAST); [by destruct (st_DaysUntilFull _ _ _)|].
  destruct (str_eq _ PING); cbn [negb]; [|done].
  destruct (st_LastSeen _ _); [|done]. by destruct (is_zero _).
Qed.

Lemma evaluate_inv now rule host e : st_inv (ev_store e) → st_inv (ev_store (evaluate now rule host e).2).
Proof.
  intros Hinv. unfold evaluate. destruct (IsKube _); [by apply evaluateCluster_inv|].
  unfold mbind, SM_bind, sbind, stry, sfail.
  pose proof (latest_store now rule host (ruleTarget rule) e) as Hl.
  destruct (latest now rule host (ruleTarget rule) e) as [r e1]. cbn [snd] in Hl. rewrite <- Hl in Hinv.
  destruct r as [[v t]|[]]; try done. by apply check_inv.
Qed.

Lemma evaluate_rule_inv now names rule e : st_inv (ev_store e) → st_inv (ev_store (evaluate_rule now names rule e)).
Proof.
  unfold evaluate_rule.
  assert (Hhosts : ∀ hs e, st_inv (ev_store e) →
    st_inv (ev_store (fold_left (λ e host, evaluate_logged now rule host e) hs e))).
  { induction hs as [|h hs IHh]; intros e0 Hi0; [done|]. cbn. apply IHh. by apply evaluate_inv. }
  intros Hinv. destruct (certificateRule rule) as [c|]; [apply evaluate_inv|]; by apply Hhosts.
Qed.

Lemma alert_round_inv now rules names e : st_inv (ev_store e) → st_inv (ev_store (alert_round now rules names e)).
Proof.
  unfold alert_round. revert e. induction rules as [|rule rules IH]; intros e Hinv; [done|].
  cbn [fold_left]. by apply IH, evaluate_rule_inv.
Qed.
End Rounds.
