(* ===== verification/StoreForecast.v ===== *)
(** * When a disk is full: src/internal/store/forecast.go.

    The hourly rollups and the regression over them are TimescaleDB's: the
    rows of the query are a parameter ([ForecastRows]), a row per host,
    device and mount of the window.  What the Go code makes of a row, and of
    the rows of a host or a device, is modelled. *)
From S2P Require Import Prelude GoStrings GoFloat GoTime Errors Monitor Alerts Kube Tasks Database StoreHosts.
Local Open Scope Z_scope.

Definition forecastWindow : duration := 7 * 24 * hour.
Definition forecastMinSamples : Z := 24.
(** 0.6 *)
Definition forecastMinR2 : float64 := fdiv (of_int 6) (of_int 10).
Definition forecastHorizonDays : Z := 365.

Definition NoForecastCollecting : string := "collecting".
Definition NoForecastNotGrowing : string := "not_growing".
Definition NoForecastNotSteady : string := "not_steady".
Definition NoForecastOverAYear : string := "over_a_year".

Record DiskForecast := {
  df_Host : string; df_Device : string; df_Mount : string; df_UsedPct : float64; df_PctPerDay : float64;
  df_BytesPerDay : float64; df_DaysToFull : option float64; df_NoForecast : string; df_Samples : Z }.

Definition forecastDays (usedPct usedBytes bytesPerDay r2 : float64) (samples : Z) : float64 * string :=
  if samples <? forecastMinSamples then (f0, NoForecastCollecting)
  else if fle bytesPerDay f0 || fle usedPct f0 then (f0, NoForecastNotGrowing)
  else if flt r2 forecastMinR2 then (f0, NoForecastNotSteady)
  else
    let left := fmax (fdiv (fmul usedBytes (fsub (of_int 100) usedPct)) usedPct) f0 in
    let days := fdiv left bytesPerDay in
    if fgt days (of_int forecastHorizonDays) then (f0, NoForecastOverAYear) else (days, "").

Definition valueOrZero (v : option float64) : float64 := default f0 v.

(** A row of the query: the last values, the slope, the fit, the count. *)
Record ForecastRow := {
  fr_host_id : Z; fr_host : string; fr_device : string; fr_mount : string; fr_used_pct : option float64;
  fr_used_bytes : option float64; fr_bytes_per_day : option float64; fr_r2 : option float64; fr_samples : Z }.
Class ForecastRows := forecast_rows : DB → time → list ForecastRow.

Definition scan_forecast (r : ForecastRow) : DiskForecast :=
  let usedPct := valueOrZero (fr_used_pct r) in
  let bytesPerDay := valueOrZero (fr_bytes_per_day r) in
  let used := valueOrZero (fr_used_bytes r) in
  let '(days, noForecast) := forecastDays usedPct used bytesPerDay (valueOrZero (fr_r2 r)) (fr_samples r) in
  {| df_Host := fr_host r; df_Device := fr_device r; df_Mount := fr_mount r; df_UsedPct := usedPct;
     df_PctPerDay := if fgt used f0 then fdiv (fmul bytesPerDay usedPct) used else f0;
     df_BytesPerDay := bytesPerDay;
     df_DaysToFull := if str_eq noForecast "" then Some days else None;
     df_NoForecast := noForecast; df_Samples := fr_samples r |}.

Section Forecast.
Context {Hrows : ForecastRows}.

Definition queryForecasts (d : DB) (now : time) (p : ForecastRow → bool) : list DiskForecast :=
  map scan_forecast (List.filter p (forecast_rows d (time_add now (- forecastWindow)))).

Definition DiskForecasts (d : DB) (now : time) (host : string) : result error (list DiskForecast) :=
  id ← hostID d host; Ok (queryForecasts d now (λ r, fr_host_id r =? id)).

(** The soonest day per host. *)
Definition add_soonest (m : gmap string float64) (f : DiskForecast) : gmap string float64 :=
  match df_DaysToFull f with
  | None => m
  | Some days =>
      match m !! df_Host f with
      | Some old => if flt days old then <[df_Host f := days]> m else m
      | None => <[df_Host f := days]> m
      end
  end.
Definition SoonestDiskFull (d : DB) (now : time) : gmap string float64 :=
  fold_left add_soonest (queryForecasts d now (λ _, true)) ∅.

(** The loop of [DaysUntilFull]: the days so far and whether a forecast was found. *)
Definition days_loop (acc : float64 * bool) (f : DiskForecast) : float64 * bool :=
  if df_Samples f <? forecastMinSamples then acc
  else (match df_DaysToFull f with Some days => fmin acc.1 days | None => acc.1 end, true).
Definition DaysUntilFull (d : DB) (now : time) (host device : string) : result error float64 :=
  id ← hostID d host;
  let '(days, found) := fold_left days_loop
    (queryForecasts d now (λ r, (fr_host_id r =? id) && str_eq (fr_device r) device)) (of_int forecastHorizonDays, false) in
  if found then Ok days else Err ErrNotFound.
End Forecast.
