(* ===== verification/Api.v ===== *)
(** * The collector's server: src/internal/api/api.go.

    A call is an [SrvM] computation: it changes the server's state and ends
    with a response or a gRPC status.  [ctx] is the host an agent's own key
    authenticated as ([agentHost]), [now] the time of the call; one call sees
    one instant.  The generated messages of api.pb.go are records of the
    fields the code sets.  Log lines are left out. *)
From S2P Require Import Prelude GoStrings GoFloat GoTime Errors Monitor Alerts Json Kube Tasks Database StoreHosts StoreUsers StoreEnrollment Snapshot StoreIngest StoreSeries StoreTasks StoreAlerts StoreQuery StoreForecast Login.
Local Open Scope Z_scope.

(** [taskWaiters] of tasks.go: the channel agents of a host wait on.  A
    channel is a number; [tw_next] is the next one [make] gives out, and
    [tw_closed] holds the closed ones. *)
Record taskWaiters := { tw_waiting : gmap string nat; tw_closed : gset nat; tw_next : nat }.
Definition no_waiters : taskWaiters := {| tw_waiting := ∅; tw_closed := ∅; tw_next := 0%nat |}.

Record Server := {
  sv_db : DB; sv_forecastAt : time; sv_diskFull : gmap string float64; sv_logins : loginFailures;
  sv_tasks : taskWaiters }.

Definition SrvM := SM Server error.

Definition set_db (d : DB) (s : Server) : Server := {|
  sv_db := d; sv_forecastAt := sv_forecastAt s; sv_diskFull := sv_diskFull s; sv_logins := sv_logins s;
  sv_tasks := sv_tasks s |}.
Definition set_logins (l : loginFailures) (s : Server) : Server := {|
  sv_db := sv_db s; sv_forecastAt := sv_forecastAt s; sv_diskFull := sv_diskFull s; sv_logins := l;
  sv_tasks := sv_tasks s |}.
Definition set_waiters (w : taskWaiters) (s : Server) : Server := {|
  sv_db := sv_db s; sv_forecastAt := sv_forecastAt s; sv_diskFull := sv_diskFull s; sv_logins := sv_logins s;
  sv_tasks := w |}.

Definition start_server (d : DB) : Server := {|
  sv_db := d; sv_forecastAt := zero_time; sv_diskFull := ∅; sv_logins := ∅; sv_tasks := no_waiters |}.

Definition UpWindow : duration := 61 * second.
Definition forecastCacheTTL : duration := 5 * minute.
Definition errNoData : error := ErrStatus codes_NotFound "no data found".

(** The status of a store error; what the database says stays inside. *)
Definition toStatus (e : error) : error :=
  match cause_of e with
  | ErrNotFound => errNoData
  | ErrHostExists | ErrRuleExists | ErrTaskBusy | ErrChannelExists => ErrStatus codes_AlreadyExists (error_text e)
  | ErrInvalid _ => ErrStatus codes_InvalidArgument (error_text e)
  | ErrClusterTaken => ErrStatus codes_FailedPrecondition (error_text e)
  | ErrBadLogin | ErrBadSession => ErrStatus codes_Unauthenticated (error_text e)
  | ErrCanceled => ErrStatus codes_Canceled "canceled"
  | ErrDeadlineExceeded => ErrStatus codes_DeadlineExceeded "timed out"
  | _ => ErrStatus codes_Internal "internal error"
  end.

Definition agentStatus (host : string) (e : error) : error :=
  if bool_decide (cause_of e = ErrNotFound)
  then ErrStatus codes_NotFound ("agent " +:+ host +:+ " is not registered, run the agent with -init")
  else toStatus e.

Definition invalid_argument {A} (msg : string) : SrvM A := sfail (ErrStatus codes_InvalidArgument msg).

(** A call of the store whose error becomes the status [f] makes of it *)
Definition store {A} (f : error → error) (m : DBM A) : SrvM A := λ s,
  match m (sv_db s) with
  | (Ok a, d) => (Ok a, set_db d s)
  | (Err e, d) => (Err (f e), set_db d s)
  end.
(** The same for a call that only reads *)
Definition query {A} (f : error → error) (q : DB → result error A) : SrvM A := store f (dread q).

(** The host a call is about: the agent's own when it came with a key *)
Definition host_of (ctx : option string) (named : string) : string := default named ctx.

Definition isUp (lastSeen now : time) : bool := negb (is_zero lastSeen) && (time_sub now lastSeen <=? UpWindow).

(** 0 for a zero time instead of a large negative number *)
Definition unix (t : time) : Z := if is_zero t then 0 else to_unix t.

Definition milliseconds (d : duration) : float64 := fdiv (of_int d) (of_int 1000000).

(** ** Enrolling and registering *)

Record EnrollRequest := { enr_Token : string; enr_HostName : string; enr_Timezone : string }.
Record EnrollResponse := { enr_Host : string; enr_AgentKey : string }.

(** [^[A-Za-z0-9][A-Za-z0-9._-]{0,62}$] *)
Definition validHostName (name : string) : bool := simple_name "._-" 62 name.

Section Enroll.
Context `{Crypto}.

(** [secret] is the key the store draws. *)
Definition enroll_status (e : error) : error :=
  if bool_decide (cause_of e = ErrBadToken) then ErrStatus codes_PermissionDenied (error_text e) else toStatus e.
Definition Enroll (now : time) (secret : string) (i : EnrollRequest) : SrvM EnrollResponse :=
  if negb (validHostName (enr_HostName i)) then
    invalid_argument "host names may use letters, digits, dots, dashes and underscores, up to 63 characters"
  else
    key ← store enroll_status (Store_Enroll now (enr_Token i) secret (enr_HostName i) (enr_Timezone i));
    mret {| enr_Host := enr_HostName i; enr_AgentKey := key |}.
End Enroll.

(** A task on the wire *)
Record TaskInfo := { ti_Name : string; ti_Description : string; ti_Command : string; ti_TimeoutSeconds : Z }.
Record ServerInfo := {
  si_ServerName : string; si_Timezone : string; si_AgentVersion : string; si_Arch : string;
  si_UpdateError : string; si_Tasks : list TaskInfo }.

(** [Message] only carries its body. *)
Definition InitAgent (i : ServerInfo) : SrvM string :=
  store toStatus (AddHost (si_ServerName i) (si_Timezone i));; mret "agent added".

(** [saveTasks] of tasks.go: the tasks as the store keeps them, none when the
    list breaks the rules of a tasks file.  An error of the store is only
    logged. *)
Definition sent_task (t : TaskInfo) : Task := {|
  task_Name := ti_Name t; task_Description := ti_Description t; task_Command := ti_Command t;
  task_TimeoutSeconds := ti_TimeoutSeconds t |}.
Definition accepted_tasks (sent : list TaskInfo) : list Task :=
  match Validate_tasks (map sent_task sent) with (Ok _, list) => list | (Err _, _) => [] end.
Definition saveTasks (host : string) (sent : list TaskInfo) : SrvM unit :=
  stry (store toStatus (SaveHostTasks host (accepted_tasks sent)));; mret ().

(** [WireUpdate] is the message AgentUpdate. *)
Record WireUpdate := { wu_Version : string; wu_DownloadUrl : string; wu_RequestedAt : Z }.
Record PingResponse := { ping_Body : string; ping_Update : option WireUpdate }.

Definition HandlePing (ctx : option string) (now : time) (i : ServerInfo) : SrvM PingResponse :=
  let host := host_of ctx (si_ServerName i) in
  update ← store (agentStatus host) (AgentCheckIn host now (si_AgentVersion i) (si_Arch i) (si_UpdateError i));
  saveTasks host (si_Tasks i);;
  mret {| ping_Body := "pong";
          ping_Update := option_map (λ u, {| wu_Version := au_Version u; wu_DownloadUrl := au_URL u;
                                             wu_RequestedAt := unix (au_RequestedAt u) |}) update |}.

Record AgentUpdateRequest := { aur_Hosts : list string; aur_Version : string; aur_DownloadUrl : string; aur_By : string }.

(** How many hosts were asked *)
Definition Server_RequestAgentUpdate (now : time) (i : AgentUpdateRequest) : SrvM Z :=
  if str_eq (aur_Version i) "" || (negb (has_prefix (aur_DownloadUrl i) "http://")
                                   && negb (has_prefix (aur_DownloadUrl i) "https://"))
  then invalid_argument "an update needs a version and the dashboard's address"
  else requested ← store toStatus (RequestAgentUpdate now (aur_Hosts i) (aur_Version i) (aur_DownloadUrl i));
       mret (wrap32 requested).

(** ** Data *)

Definition with_server (host : string) (m : MonitorData) : MonitorData := {|
  md_UnixTime := md_UnixTime m; md_ServerId := host; md_System := md_System m; md_Memory := md_Memory m;
  md_Swap := md_Swap m; md_Disk := md_Disk m; md_ProcUsage := md_ProcUsage m; md_Networks := md_Networks m;
  md_Services := md_Services m; md_Processes := md_Processes m; md_DiskIO := md_DiskIO m; md_TCPStates := md_TCPStates m;
  md_Pressure := md_Pressure m; md_Temperatures := md_Temperatures m; md_Containers := md_Containers m;
  md_AgentVersion := md_AgentVersion m |}.
Definition metric_with_server (host : string) (m : CustomMetric) : CustomMetric := {|
  cmv_Name := cmv_Name m; cmv_Unit := cmv_Unit m; cmv_Value := cmv_Value m; cmv_Time := cmv_Time m;
  cmv_ServerId := host |}.

Section Data.
Context `{ParseFloat} `{SnapshotJSON}.

(** The message MonitorData is one JSON text; data of an agent with a key is
    its own whatever the text says. *)
Definition HandleMonitorData (ctx : option string) (now : time) (text : string) : SrvM string :=
  match unmarshal_data text with
  | Err e => invalid_argument ("cannot parse monitor data: " +:+ error_text e)
  | Ok data =>
      let data := match ctx with Some host => with_server host data | None => data end in
      store (agentStatus (md_ServerId data)) (SaveSnapshot now data);; mret "ok"
  end.

Definition HandleCustomMonitorData (ctx : option string) (now : time) (text : string) : SrvM string :=
  match unmarshal_metric text with
  | Err e => invalid_argument ("cannot parse custom metric: " +:+ error_text e)
  | Ok metric =>
      let metric := match ctx with Some host => metric_with_server host metric | None => metric end in
      store (agentStatus (cmv_ServerId metric)) (SaveCustomMetric now metric);; mret "ok"
  end.
End Data.

(** ** The fleet *)

Record FleetHost := {
  fh_Name : string; fh_Up : bool; fh_LastSeen : Z; fh_Time : Z; fh_Os : string; fh_UptimeSeconds : float64;
  fh_CpuPct : float64; fh_MemUsedPct : float64; fh_SwapUsedPct : float64; fh_DiskUsedPct : float64;
  fh_RxBps : float64; fh_TxBps : float64; fh_ActiveAlerts : Z; fh_WorstSeverity : Z; fh_Containers : Z;
  fh_AgentVersion : string; fh_CanUpdate : bool; fh_UpdateVersion : string; fh_UpdateError : string;
  fh_UpdateRequestedAt : Z; fh_DiskFullDays : option float64 }.

Definition fleet_host (now : time) (diskFull : gmap string float64) (s : HostSummary) : FleetHost := {|
  fh_Name := hs_Name s; fh_Up := isUp (hs_LastSeen s) now; fh_LastSeen := unix (hs_LastSeen s);
  fh_Time := unix (hs_Time s); fh_Os := hs_OS s; fh_UptimeSeconds := hs_UptimeSeconds s; fh_CpuPct := hs_CPUPct s;
  fh_MemUsedPct := hs_MemUsedPct s; fh_SwapUsedPct := hs_SwapUsedPct s; fh_DiskUsedPct := hs_DiskUsedPct s;
  fh_RxBps := hs_RxBps s; fh_TxBps := hs_TxBps s; fh_ActiveAlerts := wrap32 (hs_ActiveAlerts s);
  fh_WorstSeverity := wrap32 (hs_WorstSeverity s); fh_Containers := wrap32 (hs_Containers s);
  fh_AgentVersion := hs_AgentVersion s; fh_CanUpdate := hs_CanUpdate s; fh_UpdateVersion := hs_UpdateVersion s;
  fh_UpdateError := hs_UpdateError s;
  fh_UpdateRequestedAt := if is_zero (hs_UpdateRequestedAt s) then 0 else to_unix (hs_UpdateRequestedAt s);
  fh_DiskFullDays := diskFull !! hs_Name s |}.

(** The cached forecasts, read again with [forecast] once they are old.  When
    that fails the previous ones stay, and the next call tries again. *)
Definition soonestDiskFull (now : time) (forecast : DB → result error (gmap string float64))
    : SrvM (gmap string float64) := λ s,
  if time_sub now (sv_forecastAt s) <? forecastCacheTTL then (Ok (sv_diskFull s), s)
  else match forecast (sv_db s) with
       | Err _ => (Ok (sv_diskFull s), s)
       | Ok diskFull => (Ok diskFull, {| sv_db := sv_db s; sv_forecastAt := now; sv_diskFull := diskFull;
                                         sv_logins := sv_logins s; sv_tasks := sv_tasks s |})
       end.

Section Fleet.
Context `{ParseFloat} `{SnapshotJSON} `{QueryRows} {Hforecasts : ForecastRows}.

Definition Fleet (now : time) : SrvM (list FleetHost) :=
  summaries ← query toStatus Store_FleetSummary;
  diskFull ← soonestDiskFull now (λ d, Ok (SoonestDiskFull d now));
  mret (map (fleet_host now diskFull) summaries).

Definition wire_forecast (f : DiskForecast) : DiskForecast := {|
  df_Host := ""; df_Device := df_Device f; df_Mount := df_Mount f; df_UsedPct := df_UsedPct f;
  df_PctPerDay := df_PctPerDay f; df_BytesPerDay := df_BytesPerDay f; df_DaysToFull := df_DaysToFull f;
  df_NoForecast := df_NoForecast f; df_Samples := wrap32 (df_Samples f) |}.

Definition Server_DiskForecasts (now : time) (host : string) : SrvM (list DiskForecast) :=
  forecasts ← query toStatus (λ d, DiskForecasts d now host); mret (map wire_forecast forecasts).

Record HostSnapshot := {
  snap_Host : string; snap_Time : Z; snap_SnapshotJson : string; snap_LastSeen : Z; snap_Up : bool }.

Definition Server_Snapshot (now : time) (host : string) : SrvM HostSnapshot :=
  latest ← query toStatus (λ d, Store_LatestSnapshot d host);
  mret {| snap_Host := host; snap_Time := to_unix (ls_Time latest); snap_SnapshotJson := ls_Snapshot latest;
          snap_LastSeen := unix (ls_LastSeen latest); snap_Up := isUp (ls_LastSeen latest) now |}.

Definition host_snapshot (now : time) (latest : LatestSnapshot) : HostSnapshot := {|
  snap_Host := ls_Host latest; snap_Time := unix (ls_Time latest); snap_SnapshotJson := ls_Snapshot latest;
  snap_LastSeen := unix (ls_LastSeen latest); snap_Up := isUp (ls_LastSeen latest) now |}.
Record WireValue := { wv_Host : string; wv_Name : string; wv_Unit : string; wv_Value : float64; wv_Time : Z }.
Definition wire_value (c : CustomValue) : WireValue := {|
  wv_Host := cv_Host c; wv_Name := cv_Name c; wv_Unit := cv_Unit c; wv_Value := cv_Value c;
  wv_Time := to_unix (cv_Time c) |}.
Record SnapshotList := { sl_Hosts : list HostSnapshot; sl_CustomMetrics : list WireValue }.

Definition Snapshots (now : time) : SrvM SnapshotList :=
  hosts ← query toStatus (λ d, Ok (LatestSnapshots d));
  customValues ← query toStatus (λ d, Ok (LatestCustomValues now d));
  mret {| sl_Hosts := map (host_snapshot now) hosts; sl_CustomMetrics := map wire_value customValues |}.

(** ** Charts *)

Record SeriesRequest := {
  sr_Host : string; sr_Metric : string; sr_Label : string; sr_From : Z; sr_To : Z; sr_MaxPoints : Z; sr_Max : bool }.
Record WireSeries := { ws_Label : string; ws_Points : list (Z * float64) }.
Record SeriesResponse := { sres_Metric : string; sres_Source : string; sres_StepSeconds : Z; sres_Series : list WireSeries }.

Definition seriesResponse (metric : string) (result : SeriesResult) : SeriesResponse := {|
  sres_Metric := metric; sres_Source := res_Source result; sres_StepSeconds := to_int (dur_seconds (res_Step result));
  sres_Series := map (λ s, {| ws_Label := ser_Label s;
                              ws_Points := map (λ p, (to_unix (pt_Time p), pt_Value p)) (ser_Points s) |})
                   (res_Series result) |}.

Context `{SeriesRows}.

Definition Server_QuerySeries (retention : Retention) (now : time) (i : SeriesRequest) : SrvM SeriesResponse :=
  result ← query toStatus (λ d, QuerySeries retention now d
    {| sq_Host := sr_Host i; sq_Metric := sr_Metric i; sq_Label := sr_Label i; sq_From := unix_time (sr_From i);
       sq_To := unix_time (sr_To i); sq_MaxPoints := sr_MaxPoints i; sq_Max := sr_Max i |});
  mret (seriesResponse (sr_Metric i) result).

Record EndpointSeriesRequest := {
  esr_Name : string; esr_Metric : string; esr_From : Z; esr_To : Z; esr_MaxPoints : Z }.
Definition Server_EndpointSeries (i : EndpointSeriesRequest) : SrvM SeriesResponse :=
  result ← query toStatus (λ d, EndpointSeries d (esr_Name i) (esr_Metric i) (unix_time (esr_From i))
                                  (unix_time (esr_To i)) (esr_MaxPoints i));
  mret (seriesResponse (esr_Metric i) result).

(** The message of [ClusterSeries] has the same fields. *)
Definition Server_ClusterSeries (i : EndpointSeriesRequest) : SrvM SeriesResponse :=
  result ← query toStatus (λ d, ClusterSeries d (esr_Name i) (esr_Metric i) (unix_time (esr_From i))
                                  (unix_time (esr_To i)) (esr_MaxPoints i));
  mret (seriesResponse (esr_Metric i) result).

(** ** Processes, custom metrics and alerts *)

Definition Server_Processes (now : time) (host : string) (at_ : Z) : SrvM (Z * string) :=
  let at_ := if 0 <? at_ then unix_time at_ else now in
  p ← query toStatus (λ d, Store_Processes d host at_);
  mret (to_unix p.1, p.2).

Record ProcessUsageList := { pul_Snapshots : Z; pul_FirstTime : Z; pul_Processes : list ProcessShare }.
Definition Server_ProcessUsage (host : string) (from to : Z) : SrvM ProcessUsageList :=
  r ← query toStatus (λ d, ProcessUsage d host (unix_time from) (unix_time to));
  mret {| pul_Snapshots := wrap32 (pur_Snapshots r); pul_FirstTime := unix (pur_FirstTime r);
          pul_Processes := pur_Processes r |}.

Definition CustomMetricNames (host : string) : SrvM (list string) :=
  query toStatus (λ d, Store_CustomMetricNames d host).
End Fleet.

Record AlertsRequest := { arq_Host : string; arq_OpenOnly : bool; arq_From : Z; arq_To : Z }.
Record AlertRecord := {
  arec_Id : Z; arec_Host : string; arec_Rule : string; arec_Metric : string; arec_Target : string;
  arec_Severity : Z; arec_Value : float64; arec_StartedAt : Z; arec_UpdatedAt : Z; arec_ResolvedAt : Z }.

Definition alert_record (a : Alert) : AlertRecord := {|
  arec_Id := alert_ID a; arec_Host := alert_Host a; arec_Rule := alert_Rule a; arec_Metric := alert_Metric a;
  arec_Target := alert_Target a; arec_Severity := wrap32 (alert_Severity a); arec_Value := alert_Value a;
  arec_StartedAt := to_unix (alert_StartedAt a); arec_UpdatedAt := to_unix (alert_UpdatedAt a);
  arec_ResolvedAt := match alert_ResolvedAt a with Some t => to_unix t | None => 0 end |}.

Definition given_time (t : Z) : time := if 0 <? t then unix_time t else zero_time.
Definition Server_Alerts (i : AlertsRequest) : SrvM (list AlertRecord) :=
  list ← query toStatus (λ d, Ok (Alerts d {| filter_Host := arq_Host i; filter_Rule := ""; filter_OpenOnly := arq_OpenOnly i;
                                              filter_From := given_time (arq_From i); filter_To := given_time (arq_To i) |}));
  mret (map alert_record list).

(** [version.String]: the release, or the commit of the build's settings *)
Definition from_build (acc : string * bool) (setting : string * string) : string * bool :=
  let '(revision, modified) := acc in
  if str_eq setting.1 "vcs.revision" then (setting.2, modified)
  else if str_eq setting.1 "vcs.modified" then (revision, str_eq setting.2 "true")
  else acc.
Definition fromBuildInfo (settings : list (string * string)) : string :=
  let '(revision, modified) := fold_left from_build settings ("", false) in
  if str_eq revision "" then "dev"
  else (if 7 <? slen revision then stake 7 revision else revision) +:+ (if modified then "-dirty" else "").
Definition version_String (Version : string) (info : option (list (string * string))) : string :=
  if negb (str_eq Version "") then Version
  else match info with None => "dev" | Some settings => fromBuildInfo settings end.
Definition Server_Version (Version : string) (info : option (list (string * string))) : SrvM string :=
  mret (version_String Version info).

(** ** Endpoints *)

Record EndpointStatus := {
  est_Name : string; est_Url : string; est_Method : string; est_Time : Z; est_Ok : bool; est_StatusCode : Z;
  est_LatencyMs : float64; est_Error : string; est_Checks : Z; est_UptimePct : float64; est_AvgLatencyMs : float64;
  est_CertExpires : Z }.
Definition endpoint_status (s : EndpointSummary) : EndpointStatus :=
  let latest := es_Latest s in {|
  est_Name := ec_Name latest; est_Url := ec_URL latest; est_Method := ec_Method latest;
  est_Time := to_unix (ec_Time latest); est_Ok := ec_OK latest; est_StatusCode := wrap32 (ec_StatusCode latest);
  est_LatencyMs := milliseconds (ec_Latency latest); est_Error := ec_Error latest; est_Checks := wrap32 (es_Checks s);
  est_UptimePct := es_UptimePct s; est_AvgLatencyMs := milliseconds (es_AvgLatency s);
  est_CertExpires := unix (es_CertExpires s) |}.
Definition Endpoints `{EndpointAverages} (from to : Z) : SrvM (list EndpointStatus) :=
  summaries ← query toStatus (λ d, Store_Endpoints d (unix_time from) (unix_time to));
  mret (map endpoint_status summaries).
