(* ===== verification/Systats.v ===== *)
(** * From the systats library to the wire: the conversions of
    src/internal/monitor/types.go.

    The module [systats] holds the fields the agent reads of that library's
    structs, with the types the conversions force on them; what the library
    puts there is outside.  [float32] values are [float64] here, as on the
    wire. *)
From S2P Require Import Prelude GoStrings GoFloat GoTime Errors Monitor Snapshot.
Local Open Scope Z_scope.

Module systats.
Record User := { u_Username : string; u_RemoteHost : string; u_LoggedInTime : time }.
Record System := {
  s_HostName : string; s_OS : string; s_Kernel : string; s_UpTime : string; s_LastBootDate : time;
  s_LoggedInUsers : list User; s_Time : Z; s_TimeZone : string; s_UpTimeSeconds : float64 }.
Record CPU := {
  c_LoadAvg : Z; c_CoreAvg : list Z; c_Model : string; c_NoOfCores : Z; c_Freq : string; c_Cache : string;
  c_Time : Z; c_Load1 : float64; c_Load5 : float64; c_Load15 : float64; c_PhysicalCores : Z; c_Sockets : Z;
  c_Limited : bool; c_AllocatedCores : float64 }.
(** sizes are floats since v0.4 *)
Record Memory := {
  m_PercentageUsed : float64; m_Available : float64; m_Free : float64; m_Used : float64; m_Time : Z;
  m_Total : float64; m_Unit : string; m_Limited : bool }.
Record Swap := {
  w_PercentageUsed : float64; w_Free : float64; w_Used : float64; w_Time : Z; w_Total : float64; w_Unit : string }.
Record DiskUsage := {
  du_Size : float64; du_Used : float64; du_Available : float64; du_Usage : string; du_Unit : string }.
Record InodeUsage := { i_Inodes : Z; i_Available : Z; i_Used : Z; i_Usage : string }.
Record Disk := {
  d_FileSystem : string; d_Type : string; d_MountedOn : string; d_Usage : DiskUsage; d_Inodes : InodeUsage; d_Time : Z }.
Record NetworkUsage := { nu_RxBytes : Z; nu_TxBytes : Z; nu_RxPackets : Z; nu_TxPackets : Z; nu_State : string }.
Record Network := {
  n_Interface : string; n_Ip : string; n_Usage : NetworkUsage; n_Time : Z; n_Ipv6 : string; n_MacAddress : string }.
Record ProcessIO := {
  io_ReadBytes : Z; io_WriteBytes : Z; io_ReadChars : Z; io_WriteChars : Z; io_Accessible : bool }.
Record Process := {
  p_Pid : Z; p_ExecPath : string; p_User : string; p_CPUUsage : float64; p_MemUsage : float64; p_Name : string;
  p_State : string; p_StateName : string; p_Threads : Z; p_OpenFDs : Z; p_FDsAccessible : bool; p_IO : ProcessIO }.
Record DiskIORates := {
  r_Device : string; r_ReadsPerSec : float64; r_WritesPerSec : float64; r_ReadBytesPerSec : float64;
  r_WriteBytesPerSec : float64; r_UtilPercent : float64 }.
Record TCPStates := {
  t_Established : Z; t_SynSent : Z; t_SynRecv : Z; t_FinWait1 : Z; t_FinWait2 : Z; t_TimeWait : Z; t_Close : Z;
  t_CloseWait : Z; t_LastAck : Z; t_Listen : Z; t_Closing : Z; t_NewSynRecv : Z; t_Unknown : Z; t_Total : Z; t_Time : Z }.
Record PressureMetric := { pm_Avg10 : float64; pm_Avg60 : float64; pm_Avg300 : float64; pm_Total : Z }.
Record ResourcePressure := { rp_Some : PressureMetric; rp_Full : PressureMetric; rp_FullAvailable : bool }.
Record Pressure := {
  ps_CPU : ResourcePressure; ps_Memory : ResourcePressure; ps_IO : ResourcePressure; ps_Limited : bool;
  ps_Time : Z; ps_Available : bool }.
Record Temperature := {
  tp_Name : string; tp_Label : string; tp_Celsius : float64; tp_High : float64; tp_HighAvailable : bool;
  tp_Critical : float64; tp_CriticalAvailable : bool }.
Record ContainerCPU := {
  cc_CoresUsed : float64; cc_PercentOfHost : float64; cc_PercentOfLimit : float64; cc_Limited : bool;
  cc_AllocatedCores : float64; cc_ThrottledSeconds : float64 }.
Record ContainerMemory := {
  cm_Used : float64; cm_Limit : float64; cm_Limited : bool; cm_PercentageUsed : float64; cm_OOMKills : Z }.
Record ContainerInterface := { if_RxBytes : Z; if_TxBytes : Z }.
Record ContainerNetwork := {
  cn_Interfaces : list ContainerInterface; cn_SharesHostNetwork : bool; cn_Accessible : bool }.
Record ContainerDevice := { dv_ReadBytes : Z; dv_WriteBytes : Z }.
Record ContainerPids := { cp_Current : Z; cp_Max : Z; cp_Limited : bool }.
Record ContainerLayer := { l_Size : float64; l_Available : bool }.
Record Container := {
  ct_ID : string; ct_ShortID : string; ct_Name : string; ct_Image : string; ct_State : string; ct_Runtime : string;
  ct_Labels : gmap string string; ct_MetadataAvailable : bool; ct_PodUID : string; ct_CPU : ContainerCPU;
  ct_Memory : ContainerMemory; ct_Network : ContainerNetwork; ct_BlockIO : list ContainerDevice;
  ct_Pids : ContainerPids; ct_Pressure : Pressure; ct_Layer : ContainerLayer; ct_Time : Z }.
Record ContainerRates := {
  cr_ReadBytesPerSec : float64; cr_WriteBytesPerSec : float64; cr_CPUThrottledSecPerSec : float64;
  cr_RxBytesPerSec : float64; cr_TxBytesPerSec : float64 }.
End systats.
Import systats.

Definition fromSystatsUser (u : systats.User) : LoggedInUser := {|
  su_Username := u_Username u; su_RemoteHost := u_RemoteHost u; su_LoggedInTime := u_LoggedInTime u |}.
Definition fromSystatsSystem (s : systats.System) : Snapshot.System := {|
  sys_HostName := s_HostName s; sys_OS := s_OS s; sys_Kernel := s_Kernel s; sys_UpTime := s_UpTime s;
  sys_LastBootDate := s_LastBootDate s; sys_LoggedInUsers := map fromSystatsUser (s_LoggedInUsers s);
  sys_Time := s_Time s; sys_TimeZone := s_TimeZone s; sys_UpTimeSeconds := s_UpTimeSeconds s |}.

Definition fromSystatsCPU (c : systats.CPU) : Snapshot.CPU := {|
  cpu_LoadAvg := c_LoadAvg c; cpu_CoreAvg := c_CoreAvg c; cpu_Model := c_Model c; cpu_NoOfCores := c_NoOfCores c;
  cpu_Freq := c_Freq c; cpu_Cache := c_Cache c; cpu_Time := c_Time c; cpu_Load1 := c_Load1 c; cpu_Load5 := c_Load5 c;
  cpu_Load15 := c_Load15 c; cpu_PhysicalCores := c_PhysicalCores c; cpu_Sockets := c_Sockets c;
  cpu_Limited := c_Limited c; cpu_AllocatedCores := c_AllocatedCores c |}.

Definition fromSystatsMemory (m : systats.Memory) : Snapshot.Memory := {|
  mem_PercentageUsed := m_PercentageUsed m; mem_Available := toUint (m_Available m); mem_Free := toUint (m_Free m);
  mem_Used := toUint (m_Used m); mem_Time := m_Time m; mem_Total := toUint (m_Total m); mem_Unit := m_Unit m;
  mem_Limited := m_Limited m |}.

Definition fromSystatsSwap (s : systats.Swap) : Snapshot.Swap := {|
  swp_PercentageUsed := w_PercentageUsed s; swp_Free := toUint (w_Free s); swp_Used := toUint (w_Used s);
  swp_Time := w_Time s; swp_Total := toUint (w_Total s); swp_Unit := w_Unit s |}.

Definition fromSystatsDisk (d : systats.Disk) : Snapshot.Disk := {|
  dk_FileSystem := d_FileSystem d; dk_Type := d_Type d; dk_MountedOn := d_MountedOn d;
  dk_Usage := {|
    Snapshot.du_Size := toUint (du_Size (d_Usage d)); Snapshot.du_Used := toUint (du_Used (d_Usage d));
    Snapshot.du_Available := toUint (du_Available (d_Usage d)); Snapshot.du_Usage := du_Usage (d_Usage d);
    Snapshot.du_Unit := du_Unit (d_Usage d) |};
  dk_Inodes := {|
    iu_Inodes := i_Inodes (d_Inodes d); iu_Available := i_Available (d_Inodes d); iu_Used := i_Used (d_Inodes d);
    iu_Usage := i_Usage (d_Inodes d) |};
  dk_Time := d_Time d |}.

Definition fromSystatsNetwork (n : systats.Network) : Snapshot.Network := {|
  nw_Interface := n_Interface n; nw_Ip := n_Ip n;
  nw_Usage := {|
    Snapshot.nu_RxBytes := nu_RxBytes (n_Usage n); Snapshot.nu_TxBytes := nu_TxBytes (n_Usage n);
    Snapshot.nu_RxPackets := nu_RxPackets (n_Usage n); Snapshot.nu_TxPackets := nu_TxPackets (n_Usage n);
    Snapshot.nu_State := nu_State (n_Usage n) |};
  nw_Time := n_Time n; nw_Ipv6 := n_Ipv6 n; nw_MacAddress := n_MacAddress n; nw_Rates := None |}.

Definition fromSystatsProcess (p : systats.Process) : Snapshot.Process := {|
  pr_Pid := p_Pid p; pr_ExecPath := p_ExecPath p; pr_User := p_User p; pr_CPUUsage := p_CPUUsage p;
  pr_MemUsage := p_MemUsage p; pr_Name := p_Name p; pr_State := p_State p; pr_StateName := p_StateName p;
  pr_Threads := p_Threads p; pr_OpenFDs := p_OpenFDs p; pr_FDsAccessible := p_FDsAccessible p;
  pr_IO := {|
    pio_ReadBytes := io_ReadBytes (p_IO p); pio_WriteBytes := io_WriteBytes (p_IO p);
    pio_ReadChars := io_ReadChars (p_IO p); pio_WriteChars := io_WriteChars (p_IO p);
    pio_Accessible := io_Accessible (p_IO p) |} |}.
Definition fromSystatsProcesses (processes : list systats.Process) : list Snapshot.Process :=
  map fromSystatsProcess processes.

Definition fromSystatsDiskIORates (r : systats.DiskIORates) : Snapshot.DiskIO := {|
  dio_Device := r_Device r; dio_ReadsPerSec := r_ReadsPerSec r; dio_WritesPerSec := r_WritesPerSec r;
  dio_ReadBytesPerSec := r_ReadBytesPerSec r; dio_WriteBytesPerSec := r_WriteBytesPerSec r;
  dio_UtilPercent := r_UtilPercent r |}.

Definition fromSystatsTCPStates (t : systats.TCPStates) : Snapshot.TCPStates := {|
  tcp_Established := t_Established t; tcp_SynSent := t_SynSent t; tcp_SynRecv := t_SynRecv t;
  tcp_FinWait1 := t_FinWait1 t; tcp_FinWait2 := t_FinWait2 t; tcp_TimeWait := t_TimeWait t; tcp_Close := t_Close t;
  tcp_CloseWait := t_CloseWait t; tcp_LastAck := t_LastAck t; tcp_Listen := t_Listen t; tcp_Closing := t_Closing t;
  tcp_NewSynRecv := t_NewSynRecv t; tcp_Unknown := t_Unknown t; tcp_Total := t_Total t; tcp_Time := t_Time t |}.

Definition fromSystatsPressureMetric (m : systats.PressureMetric) : Snapshot.PressureMetric := {|
  Snapshot.pm_Avg10 := pm_Avg10 m; Snapshot.pm_Avg60 := pm_Avg60 m; Snapshot.pm_Avg300 := pm_Avg300 m;
  Snapshot.pm_Total := pm_Total m |}.
Definition fromSystatsResourcePressure (r : systats.ResourcePressure) : Snapshot.ResourcePressure := {|
  Snapshot.rp_Some := fromSystatsPressureMetric (rp_Some r); Snapshot.rp_Full := fromSystatsPressureMetric (rp_Full r);
  Snapshot.rp_FullAvailable := rp_FullAvailable r |}.
Definition fromSystatsPressure (p : systats.Pressure) : Snapshot.Pressure := {|
  psi_CPU := fromSystatsResourcePressure (ps_CPU p); psi_Memory := fromSystatsResourcePressure (ps_Memory p);
  psi_IO := fromSystatsResourcePressure (ps_IO p); psi_Limited := ps_Limited p; psi_Time := ps_Time p |}.

Definition fromSystatsTemperature (t : systats.Temperature) : Snapshot.Temperature := {|
  tmp_Name := tp_Name t; tmp_Label := tp_Label t; tmp_Celsius := tp_Celsius t; tmp_High := tp_High t;
  tmp_HighAvailable := tp_HighAvailable t; tmp_Critical := tp_Critical t; tmp_CriticalAvailable := tp_CriticalAvailable t |}.

(** ** Containers: the counters of all interfaces and of all devices added
    up, as unsigned 64-bit integers *)

Definition add64 (x y : Z) : Z := (x + y) mod 2 ^ 64.
Definition sum64 (l : list Z) : Z := fold_left add64 l 0.

Definition fromSystatsContainer (c : systats.Container) : HostContainer := {|
  hc_ID := ct_ID c; hc_ShortID := ct_ShortID c; hc_Name := ct_Name c; hc_Image := ct_Image c; hc_State := ct_State c;
  hc_Runtime := ct_Runtime c; hc_ComposeProject := default "" (ct_Labels c !! "com.docker.compose.project");
  hc_MetadataAvailable := ct_MetadataAvailable c; hc_PodUID := ct_PodUID c; hc_Namespace := ""; hc_Pod := "";
  hc_CPU := {|
    hcc_CoresUsed := cc_CoresUsed (ct_CPU c); hcc_PercentOfHost := cc_PercentOfHost (ct_CPU c);
    hcc_PercentOfLimit := cc_PercentOfLimit (ct_CPU c); hcc_Limited := cc_Limited (ct_CPU c);
    hcc_AllocatedCores := cc_AllocatedCores (ct_CPU c); hcc_ThrottledSeconds := cc_ThrottledSeconds (ct_CPU c) |};
  hc_Memory := {|
    hcm_Used := cm_Used (ct_Memory c); hcm_Limit := cm_Limit (ct_Memory c); hcm_Limited := cm_Limited (ct_Memory c);
    hcm_PercentageUsed := cm_PercentageUsed (ct_Memory c); hcm_OOMKills := cm_OOMKills (ct_Memory c) |};
  hc_Network := {|
    hcn_RxBytes := sum64 (map if_RxBytes (cn_Interfaces (ct_Network c)));
    hcn_TxBytes := sum64 (map if_TxBytes (cn_Interfaces (ct_Network c)));
    hcn_SharesHostNetwork := cn_SharesHostNetwork (ct_Network c); hcn_Accessible := cn_Accessible (ct_Network c) |};
  hc_BlockIO := {|
    hcb_ReadBytes := sum64 (map dv_ReadBytes (ct_BlockIO c)); hcb_WriteBytes := sum64 (map dv_WriteBytes (ct_BlockIO c)) |};
  hc_Pids := {|
    hcp_Current := cp_Current (ct_Pids c); hcp_Max := cp_Max (ct_Pids c); hcp_Limited := cp_Limited (ct_Pids c) |};
  hc_Pressure := if ps_Available (ct_Pressure c) then Some (fromSystatsPressure (ct_Pressure c)) else None;
  hc_LayerSize := if l_Available (ct_Layer c) then Some (l_Size (ct_Layer c)) else None;
  hc_Rates := None; hc_Time := ct_Time c |}.

(** Traffic is left out when the counters are the host's or unknown. *)
Definition fromSystatsContainerRates (r : systats.ContainerRates) (network : Snapshot.ContainerNetwork) : Snapshot.ContainerRates :=
  let own := hcn_Accessible network && negb (hcn_SharesHostNetwork network) in {|
  hcr_ReadBytesPerSec := cr_ReadBytesPerSec r; hcr_WriteBytesPerSec := cr_WriteBytesPerSec r;
  hcr_CPUThrottledSecPerSec := cr_CPUThrottledSecPerSec r;
  hcr_RxBytesPerSec := if own then Some (cr_RxBytesPerSec r) else None;
  hcr_TxBytesPerSec := if own then Some (cr_TxBytesPerSec r) else None |}.

(** ** What the conversions keep *)

Lemma add64_mod x y : add64 (x mod 2 ^ 64) y = (x + y) mod 2 ^ 64.
Proof. unfold add64. by rewrite Zplus_mod_idemp_l. Qed.

Lemma fold_add64 l : ∀ acc, fold_left add64 l (acc mod 2 ^ 64) = fold_left Z.add l acc mod 2 ^ 64.
Proof. induction l as [|x l IH]; intros acc; [done|]. cbn [fold_left]. by rewrite add64_mod, IH. Qed.

(** A container's traffic is the sum over its interfaces modulo 2^64, the
    exact sum while that fits. *)
Lemma sum64_spec l : sum64 l = fold_left Z.add l 0 mod 2 ^ 64.
Proof. apply (fold_add64 l 0). Qed.

Lemma fold_add_from l : ∀ acc, fold_left Z.add l acc = acc + fold_left Z.add l 0.
Proof.
  induction l as [|x l IH]; intros acc; cbn [fold_left]; [lia|]. rewrite (IH (acc + x)), (IH (0 + x)). lia.
Qed.

Lemma sum64_exact l : Forall (λ x, 0 ≤ x) l → fold_left Z.add l 0 < 2 ^ 64 → sum64 l = fold_left Z.add l 0.
Proof.
  intros Hl Hlt. rewrite sum64_spec. apply Z.mod_small. split; [|done].
  clear Hlt. induction Hl as [|x l Hx Hl IH]; cbn [fold_left]; [lia|]. rewrite fold_add_from. lia.
Qed.
