(* ===== verification/AgentCollect.v ===== *)
(** * What the agent collects: src/internal/monitor/monitor.go and cri.go.

    The readings of the host come from the systats library and the names of
    pods from the container runtime: both are arguments.  A sample of a
    container or of a disk is a type of that library, with what the agent
    asks of it. *)
From S2P Require Import Prelude GoStrings GoFloat GoTime Errors Monitor Snapshot StoreIngest Config Systats.
Local Open Scope Z_scope.

(** ** The container runtime *)

Definition podNamespaceLabel : string := "io.kubernetes.pod.namespace".
Definition podNameLabel : string := "io.kubernetes.pod.name".
Definition containerNameLabel : string := "io.kubernetes.container.name".

Record podContainer := {
  pc_namespace : string; pc_pod : string; pc_name : string; pc_image : string; pc_state : string; pc_sandbox : bool }.

(** The fields [podContainers] reads of an answer of the runtime, an absent
    message or label as the empty text *)
Record CRIContainer := {
  cri_Id : string; cri_Labels : gmap string string; cri_MetadataName : string; cri_UserSpecifiedImage : string;
  cri_Image : string; cri_State : string }.

Definition label (c : CRIContainer) (name : string) : string := default "" (cri_Labels c !! name).
Definition or_else (s otherwise : string) : string := if str_eq s "" then otherwise else s.
Definition cri_container (c : CRIContainer) : podContainer := {|
  pc_namespace := label c podNamespaceLabel; pc_pod := label c podNameLabel;
  pc_name := or_else (label c containerNameLabel) (cri_MetadataName c);
  pc_image := or_else (cri_UserSpecifiedImage c) (cri_Image c);
  pc_state := to_lower (trim_prefix (cri_State c) "CONTAINER_"); pc_sandbox := false |}.
Definition cri_sandbox : podContainer := {|
  pc_namespace := ""; pc_pod := ""; pc_name := ""; pc_image := ""; pc_state := ""; pc_sandbox := true |}.

Definition cri_pods (containers : list CRIContainer) (sandboxes : list string) : gmap string podContainer :=
  fold_left (λ m id, <[id := cri_sandbox]> m) sandboxes
    (fold_left (λ m c, if str_eq (label c podNameLabel) "" then m else <[cri_Id c := cri_container c]> m) containers ∅).
(** [criClient.podContainers]: the answers to its two calls *)
Definition cri_podContainers (containers : result error (list CRIContainer)) (sandboxes : result error (list string))
    : result error (gmap string podContainer) :=
  l ← containers; ids ← sandboxes; Ok (cri_pods l ids).

Definition apply_pod (p : podContainer) (c : HostContainer) : HostContainer := {|
  hc_ID := hc_ID c; hc_ShortID := hc_ShortID c; hc_Name := pc_namespace p +:+ "/" +:+ pc_pod p +:+ "/" +:+ pc_name p;
  hc_Image := if str_eq (pc_image p) "" then hc_Image c else pc_image p; hc_State := pc_state p; hc_Runtime := hc_Runtime c;
  hc_ComposeProject := hc_ComposeProject c; hc_MetadataAvailable := true; hc_PodUID := hc_PodUID c;
  hc_Namespace := pc_namespace p; hc_Pod := pc_pod p; hc_CPU := hc_CPU c; hc_Memory := hc_Memory c;
  hc_Network := hc_Network c; hc_BlockIO := hc_BlockIO c; hc_Pids := hc_Pids c; hc_Pressure := hc_Pressure c;
  hc_LayerSize := hc_LayerSize c; hc_Rates := hc_Rates c; hc_Time := hc_Time c |}.
(** No map is the nil map; the container as it is now called, or none for
    one that is left out *)
Definition namePodContainer (c : HostContainer) (pods : option (gmap string podContainer)) : option HostContainer :=
  match pods with
  | None => Some c
  | Some pods =>
      match pods !! hc_ID c with
      | None => if str_eq (hc_PodUID c) "" then Some c else None
      | Some p => if pc_sandbox p then None else Some (apply_pod p c)
      end
  end.

(** ** The collector *)

(** The collector of the library, as far as the agent sets it up *)
Record SyStats := { st_ContainerAware : bool; st_ContainerSocketPath : string; st_ContainerLayerSize : bool }.

(** Samples of the library, with what the agent asks of them, and a new
    collector of it *)
Class Systats := {
  systats_New : SyStats;
  ContainerSample : Type;
  cts_fields : ContainerSample → systats.Container;
  cts_RatesSince : ContainerSample → ContainerSample → float64 → systats.ContainerRates;
  DiskSample : Type;
  dks_Device : DiskSample → string;
  dks_RatesSince : DiskSample → DiskSample → float64 → systats.DiskIORates }.

Definition cts_ID `{Systats} (s : ContainerSample) : string := systats.ct_ID (cts_fields s).
Definition cts_PodUID `{Systats} (s : ContainerSample) : string := systats.ct_PodUID (cts_fields s).

Definition CollectorDiskIO : string := "diskio".
Definition CollectorTCP : string := "tcp".
Definition CollectorPressure : string := "pressure".
Definition CollectorTemps : string := "temps".
Definition CollectorContainers : string := "containers".
Definition optional_collectors : list string :=
  [CollectorDiskIO; CollectorTCP; CollectorPressure; CollectorTemps; CollectorContainers].

Section Collecting.
Context `{Systats}.

Record Collector := {
  ac_stats : SyStats; ac_enabled : gmap string bool;
  ac_prevDiskIO : gmap string DiskSample; ac_prevDiskIOTime : time;
  ac_prevNetworks : gmap string NetworkUsage; ac_prevNetTime : time;
  ac_prevContainers : gmap string ContainerSample; ac_prevContainersTime : time;
  ac_containersFailed : bool; ac_criFailed : bool }.

(** [NewCollector]: the names in SYMON_DISABLED_COLLECTORS that are none are logged. *)
Fixpoint switch_off (names : list string) (enabled : gmap string bool) : gmap string bool * list string :=
  match names with
  | [] => (enabled, [])
  | name :: names' =>
      match enabled !! name with
      | None => let '(m, log) := switch_off names' enabled in
                (m, ("unknown collector in SYMON_DISABLED_COLLECTORS: " +:+ name) :: log)
      | Some _ => switch_off names' (<[name := false]> enabled)
      end
  end.
Definition NewCollector (config : Agent_config) : Collector * list string :=
  let '(enabled, log) := switch_off (ag_DisabledCollectors config)
    (list_to_map (map (λ name, (name, true)) optional_collectors)) in
  ({| ac_stats := {| st_ContainerAware := ag_ContainerAware config;
                     st_ContainerSocketPath := if str_eq (ag_ContainerSocket config) "" then st_ContainerSocketPath systats_New
                                               else ag_ContainerSocket config;
                     st_ContainerLayerSize := ag_ContainerLayerSize config |};
      ac_enabled := enabled; ac_prevDiskIO := ∅; ac_prevDiskIOTime := zero_time; ac_prevNetworks := ∅;
      ac_prevNetTime := zero_time; ac_prevContainers := ∅; ac_prevContainersTime := zero_time;
      ac_containersFailed := false; ac_criFailed := false |}, log).
Definition is_enabled (c : Collector) (name : string) : bool := default false (ac_enabled c !! name).

(** What the library gives beside an error is used all the same: the value
    and the error of a reading. *)
Definition reading (A : Type) : Type := A * option error.
Definition logged {A} (r : reading A) : list string := match r.2 with Some err => [error_text err] | None => [] end.

(** What the host answers in one tick *)
Record Readings := {
  rd_Now : time; rd_System : reading systats.System; rd_Memory : reading systats.Memory;
  rd_Swap : reading systats.Swap; rd_Disks : reading (list systats.Disk); rd_CPU : reading systats.CPU;
  rd_NetTime : time; rd_Networks : reading (list systats.Network); rd_Running : string → reading bool;
  rd_TopCPU : reading (list systats.Process); rd_TopMemory : reading (list systats.Process);
  rd_DiskIO : result error (list DiskSample); rd_DiskIOTime : time; rd_TCPStates : result error systats.TCPStates;
  rd_Pressure : result error systats.Pressure; rd_Temperatures : result error (list systats.Temperature);
  rd_Containers : result error (list ContainerSample); rd_ContainersTime : time;
  rd_CRIClient : option error; rd_CRIContainers : result error (list CRIContainer); rd_CRISandboxes : result error (list string) }.

(** Each method answers its section and what it logs. *)
Definition system (rd : Readings) : System * list string := (fromSystatsSystem (rd_System rd).1, logged (rd_System rd)).
Definition cpu (rd : Readings) : CPU * list string := (fromSystatsCPU (rd_CPU rd).1, logged (rd_CPU rd)).
Definition memory (rd : Readings) : Memory * list string := (fromSystatsMemory (rd_Memory rd).1, logged (rd_Memory rd)).
Definition swap (rd : Readings) : Swap * list string := (fromSystatsSwap (rd_Swap rd).1, logged (rd_Swap rd)).
(** [TimeZone], from a reading of its own *)
Definition TimeZone (system : reading systats.System) : string * list string :=
  (systats.s_TimeZone system.1, logged system).

Definition keepDisk (disksToIgnore : string) (disk : systats.Disk) : bool :=
  negb (ignoredDisk disksToIgnore (systats.d_FileSystem disk)) && negb (bool_decide (systats.d_Type disk ∈ skippedFsTypes)).
Definition disks (config : Agent_config) (rd : Readings) : list Disk * list string :=
  (map fromSystatsDisk (List.filter (keepDisk (ag_DisksToIgnore config)) (rd_Disks rd).1), logged (rd_Disks rd)).

Definition processes (rd : Readings) : Processes * list string :=
  ({| prs_CPU := fromSystatsProcesses (rd_TopCPU rd).1; prs_Memory := fromSystatsProcesses (rd_TopMemory rd).1 |},
   logged (rd_TopCPU rd) ++ logged (rd_TopMemory rd)).

Definition services (config : Agent_config) (unixTime : string) (running : string → reading bool) : list Service * list string :=
  (map (λ s, {| svc_Name := stm_Name s; svc_Running := (running (stm_ServiceName s)).1; svc_Time := unixTime |}) (ag_Services config),
   flat_map (λ s, match (running (stm_ServiceName s)).2 with
                  | Some err => ["cannot check service " +:+ stm_ServiceName s +:+ ": " +:+ error_text err]
                  | None => []
                  end) (ag_Services config)).

Definition tcpStates (rd : Readings) : option TCPStates * list string :=
  match rd_TCPStates rd with
  | Ok states => (Some (fromSystatsTCPStates states), [])
  | Err err => (None, [error_text err])
  end.
(** nil when the kernel has no PSI support *)
Definition pressure (rd : Readings) : option Pressure * list string :=
  match rd_Pressure rd with
  | Ok p => (if systats.ps_Available p then Some (fromSystatsPressure p) else None, [])
  | Err err => (None, [error_text err])
  end.
Definition temperatures (rd : Readings) : list Temperature * list string :=
  match rd_Temperatures rd with
  | Ok temps => (map fromSystatsTemperature temps, [])
  | Err err => ([], [error_text err])
  end.

(** The loop of [diskIO]: the rates, and the samples kept for the next tick *)
Fixpoint diskIO_loop (config : Agent_config) (prev : gmap string DiskSample) (elapsed : float64) (current : gmap string DiskSample)
    (samples : list DiskSample) : list DiskIO * gmap string DiskSample :=
  match samples with
  | [] => ([], current)
  | s :: rest =>
      if ignoredDisk (ag_DisksToIgnore config) ("/dev/" +:+ dks_Device s) then diskIO_loop config prev elapsed current rest
      else
        let '(l, m) := diskIO_loop config prev elapsed (<[dks_Device s := s]> current) rest in
        (match prev !! dks_Device s with Some p => fromSystatsDiskIORates (dks_RatesSince s p elapsed) :: l | None => l end, m)
  end.
Definition diskIO (config : Agent_config) (rd : Readings) (c : Collector) : list DiskIO * list string * Collector :=
  match rd_DiskIO rd with
  | Err err => ([], [error_text err], c)
  | Ok samples =>
      let elapsed := dur_seconds (time_sub (rd_DiskIOTime rd) (ac_prevDiskIOTime c)) in
      let '(rates, current) := diskIO_loop config (ac_prevDiskIO c) elapsed ∅ samples in
      (rates, [], {| ac_stats := ac_stats c; ac_enabled := ac_enabled c; ac_prevDiskIO := current; ac_prevDiskIOTime := rd_DiskIOTime rd;
                 ac_prevNetworks := ac_prevNetworks c; ac_prevNetTime := ac_prevNetTime c;
                 ac_prevContainers := ac_prevContainers c; ac_prevContainersTime := ac_prevContainersTime c;
                 ac_containersFailed := ac_containersFailed c; ac_criFailed := ac_criFailed c |})
  end.

(** [podContainers]: the pods, what is logged, and [criFailed].  A client that
    was made stays, so [rd_CRIClient] is [None] from then on. *)
Definition podContainers (config : Agent_config) (rd : Readings) (samples : list ContainerSample) (criFailed : bool)
    : option (gmap string podContainer) * list string * bool :=
  if negb (existsb (λ s, negb (str_eq (cts_PodUID s) "")) samples) then (None, [], criFailed)
  else match rd_CRIClient rd with
  | Some err => (None, ["cannot use the CRI socket " +:+ ag_CRISocket config +:+ ": " +:+ error_text err], criFailed)
  | None =>
      match cri_podContainers (rd_CRIContainers rd) (rd_CRISandboxes rd) with
      | Ok pods => (Some pods, [], false)
      | Err err =>
          (None, if criFailed then [] else ["cannot read pod names from the CRI socket " +:+ ag_CRISocket config
             +:+ ", set SYMON_CRI_SOCKET: " +:+ error_text err], true)
      end
  end.

Definition with_container_rates (r : option ContainerRates) (c : HostContainer) : HostContainer := {|
  hc_ID := hc_ID c; hc_ShortID := hc_ShortID c; hc_Name := hc_Name c; hc_Image := hc_Image c; hc_State := hc_State c;
  hc_Runtime := hc_Runtime c; hc_ComposeProject := hc_ComposeProject c; hc_MetadataAvailable := hc_MetadataAvailable c;
  hc_PodUID := hc_PodUID c; hc_Namespace := hc_Namespace c; hc_Pod := hc_Pod c; hc_CPU := hc_CPU c; hc_Memory := hc_Memory c;
  hc_Network := hc_Network c; hc_BlockIO := hc_BlockIO c; hc_Pids := hc_Pids c; hc_Pressure := hc_Pressure c;
  hc_LayerSize := hc_LayerSize c; hc_Rates := r; hc_Time := hc_Time c |}.

Fixpoint containers_loop (pods : option (gmap string podContainer)) (prev : gmap string ContainerSample) (elapsed : float64)
    (current : gmap string ContainerSample) (samples : list ContainerSample) : list HostContainer * gmap string ContainerSample :=
  match samples with
  | [] => ([], current)
  | s :: rest =>
      match namePodContainer (fromSystatsContainer (cts_fields s)) pods with
      | None => containers_loop pods prev elapsed current rest
      | Some c =>
          let c := match prev !! cts_ID s with
                   | Some p => if flt f0 elapsed
                               then with_container_rates (Some (fromSystatsContainerRates (cts_RatesSince s p elapsed) (hc_Network c))) c
                               else c
                   | None => c
                   end in
          let '(l, m) := containers_loop pods prev elapsed (<[cts_ID s := s]> current) rest in
          (c :: l, m)
      end
  end.
Definition containers (config : Agent_config) (rd : Readings) (c : Collector) : list HostContainer * list string * Collector :=
  let keep containers time failed criFailed := {|
    ac_stats := ac_stats c; ac_enabled := ac_enabled c; ac_prevDiskIO := ac_prevDiskIO c; ac_prevDiskIOTime := ac_prevDiskIOTime c;
    ac_prevNetworks := ac_prevNetworks c; ac_prevNetTime := ac_prevNetTime c; ac_prevContainers := containers;
    ac_prevContainersTime := time; ac_containersFailed := failed; ac_criFailed := criFailed |} in
  match rd_Containers rd with
  | Err err =>
      ([], if ac_containersFailed c then [] else ["cannot read containers, skipping them: " +:+ error_text err],
       keep (ac_prevContainers c) (ac_prevContainersTime c) true (ac_criFailed c))
  | Ok samples =>
      let elapsed := dur_seconds (time_sub (rd_ContainersTime rd) (ac_prevContainersTime c)) in
      let '(pods, log, criFailed) := podContainers config rd samples (ac_criFailed c) in
      let '(output, current) := containers_loop pods (ac_prevContainers c) elapsed ∅ samples in
      (output, log, keep current (rd_ContainersTime rd) false criFailed)
  end.

(** A section that is switched off is left out. *)
Definition when_enabled {A} (c : Collector) (name : string) (off : A) (section : A * list string) : A * list string :=
  if is_enabled c name then section else (off, []).

Definition Collect (config : Agent_config) (version : string) (rd : Readings) (c : Collector) : MonitorData * list string * Collector :=
  let unixTime := itoa (to_unix (rd_Now rd)) in
  let '(sys, log1) := system rd in
  let '(mem, log2) := memory rd in
  let '(swp, log3) := swap rd in
  let '(dks, log4) := disks config rd in
  let '(usage, log5) := cpu rd in
  let '(nets, current) := networks (ac_prevNetworks c) (ac_prevNetTime c) (rd_NetTime rd)
                            (map fromSystatsNetwork (rd_Networks rd).1) in
  let c := {| ac_stats := ac_stats c; ac_enabled := ac_enabled c; ac_prevDiskIO := ac_prevDiskIO c;
              ac_prevDiskIOTime := ac_prevDiskIOTime c;
              ac_prevNetworks := current; ac_prevNetTime := rd_NetTime rd; ac_prevContainers := ac_prevContainers c;
              ac_prevContainersTime := ac_prevContainersTime c; ac_containersFailed := ac_containersFailed c;
              ac_criFailed := ac_criFailed c |} in
  let '(svcs, log7) := services config unixTime (rd_Running rd) in
  let '(procs, log8) := processes rd in
  let '(io, log9, c) := if is_enabled c CollectorDiskIO then diskIO config rd c else ([], [], c) in
  let '(tcp, log10) := when_enabled c CollectorTCP None (tcpStates rd) in
  let '(psi, log11) := when_enabled c CollectorPressure None (pressure rd) in
  let '(temps, log12) := when_enabled c CollectorTemps [] (temperatures rd) in
  let '(cts, log13, c) := if is_enabled c CollectorContainers then containers config rd c else ([], [], c) in
  ({| md_UnixTime := unixTime; md_System := sys; md_Memory := mem; md_Swap := swp; md_Disk := dks; md_ProcUsage := usage;
      md_Networks := nets; md_Processes := procs; md_Services := svcs; md_ServerId := ag_ServerId config; md_DiskIO := io;
      md_TCPStates := tcp; md_Pressure := psi; md_Temperatures := temps; md_Containers := cts; md_AgentVersion := version |},
   log1 ++ log2 ++ log3 ++ log4 ++ log5 ++ logged (rd_Networks rd) ++ log7 ++ log8 ++ log9 ++ log10 ++ log11 ++ log12 ++ log13, c).

(** The snapshot as the agent sends it, the empty text when it cannot be
    written *)
Definition CollectJSON `{SnapshotJSON} (config : Agent_config) (version : string) (rd : Readings) (c : Collector)
    : string * list string * Collector :=
  let '(data, log, c) := Collect config version rd c in
  match marshal_data data with
  | Ok text => (text, log, c)
  | Err err => ("", log ++ [error_text err], c)
  end.
End Collecting.

(** ** What a tick gives *)

Lemma apply_pod_ID p c : hc_ID (apply_pod p c) = hc_ID c.
Proof. done. Qed.

(** A container that is kept has its own ID, and is named after its pod when
    the runtime knows it; a pause container is never kept. *)
Lemma namePodContainer_spec c pods c' : namePodContainer c pods = Some c' →
  hc_ID c' = hc_ID c ∧ hc_Rates c' = hc_Rates c ∧
  ∀ m p, pods = Some m → m !! hc_ID c = Some p →
    pc_sandbox p = false ∧ hc_Name c' = pc_namespace p +:+ "/" +:+ pc_pod p +:+ "/" +:+ pc_name p.
Proof.
  unfold namePodContainer. destruct pods as [m|]; [|by intros [= <-]].
  destruct (m !! hc_ID c) as [p|] eqn:E.
  - destruct (pc_sandbox p) eqn:Ep; intros [= <-]. split_and!; [done..|]. intros m' p' [= <-] Hp. rewrite E in Hp.
    by injection Hp as <-.
  - destruct (str_eq _ _); intros [= <-]. split_and!; [done..|]. intros m' p' [= <-] Hp. by rewrite E in Hp.
Qed.

Section Ticks.
Context `{Systats}.

Definition kept (pods : option (gmap string podContainer)) (s : ContainerSample) : Prop :=
  is_Some (namePodContainer (fromSystatsContainer (cts_fields s)) pods).

Lemma containers_loop_current pods prev elapsed samples : ∀ current id,
  is_Some ((containers_loop pods prev elapsed current samples).2 !! id) ↔
  is_Some (current !! id) ∨ ∃ s, s ∈ samples ∧ kept pods s ∧ cts_ID s = id.
Proof.
  induction samples as [|s rest IH]; intros current id; cbn [containers_loop].
  { split; [auto|]. intros [Hc|(s & Hs & _)]; [done|by apply not_elem_of_nil in Hs]. }
  unfold kept in *. destruct (namePodContainer (fromSystatsContainer (cts_fields s)) pods) as [c|] eqn:E.
  - specialize (IH (<[cts_ID s := s]> current) id). destruct (containers_loop pods prev elapsed _ rest) as [l m]. cbn [snd] in *.
    rewrite IH, lookup_insert_is_Some'. setoid_rewrite elem_of_cons. split.
    + intros [[<-|Hc]|(x & Hx & Hk & Hi)]; [right; exists s; eauto|by left|right; exists x; eauto].
    + intros [Hc|(x & [->|Hx] & Hk & Hi)]; [by left; right|by left; left|right; exists x; eauto].
  - rewrite IH. setoid_rewrite elem_of_cons. split; [intros [Hc|(x & Hx & Hk & Hi)]; [by left|right; exists x; eauto]|].
    intros [Hc|(x & [->|Hx] & Hk & Hi)]; [by left|rewrite E in Hk; by destruct Hk|right; exists x; eauto].
Qed.

Lemma containers_loop_output pods prev elapsed samples : ∀ current c,
  c ∈ (containers_loop pods prev elapsed current samples).1 →
  ∃ s, s ∈ samples ∧ kept pods s ∧ hc_ID c = cts_ID s ∧
    (is_Some (hc_Rates c) ↔ is_Some (prev !! cts_ID s) ∧ flt f0 elapsed = true).
Proof.
  induction samples as [|s rest IH]; intros current c; cbn [containers_loop]; [by intros Hc%not_elem_of_nil|].
  destruct (namePodContainer (fromSystatsContainer (cts_fields s)) pods) as [c0|] eqn:E.
  2:{ intros Hc. destruct (IH _ _ Hc) as (x & Hx & Hr). exists x. split; [by right|done]. }
  specialize (IH (<[cts_ID s := s]> current) c). destruct (containers_loop pods prev elapsed _ rest) as [l m]. cbn [fst] in *.
  intros [->|Hc]%elem_of_cons.
  2:{ destruct (IH Hc) as (x & Hx & Hr). exists x. split; [by right|done]. }
  exists s. split; [by left|]. split; [by eexists|].
  destruct (namePodContainer_spec _ _ _ E) as (Hid & Hrates & _). change (hc_ID c0 = cts_ID s) in Hid. change (hc_Rates c0 = None) in Hrates.
  destruct (prev !! cts_ID s) as [p|] eqn:Ep; [destruct (flt f0 elapsed) eqn:Ef|]; cbn; rewrite ?Hid, ?Hrates;
    (split; [done|]); rewrite ?is_Some_alt; cbn; intuition congruence.
Qed.

(** Over two ticks that read the containers, one after the other by the
    clock: a container of the second tick has rates exactly when the first
    tick had it too. *)
Lemma containers_rated (config : Agent_config) (rd rd' : Readings) (c : Collector) samples samples' :
  rd_Containers rd = Ok samples → rd_Containers rd' = Ok samples' →
  flt f0 (dur_seconds (time_sub (rd_ContainersTime rd') (rd_ContainersTime rd))) = true →
  let '(out, _, c1) := containers config rd c in
  let '(out', _, _) := containers config rd' c1 in
  ∀ x', x' ∈ out' → is_Some (hc_Rates x') ↔ ∃ s, s ∈ samples ∧ cts_ID s = hc_ID x' ∧
    kept (podContainers config rd samples (ac_criFailed c)).1.1 s.
Proof.
  intros Hrd Hrd' Hlater. unfold containers. rewrite Hrd, Hrd'.
  destruct (podContainers config rd samples (ac_criFailed c)) as [[pods log] failed]. cbn [fst].
  pose proof (containers_loop_current pods (ac_prevContainers c)
    (dur_seconds (time_sub (rd_ContainersTime rd) (ac_prevContainersTime c))) samples ∅) as Hcur.
  destruct (containers_loop pods _ _ ∅ samples) as [out current]. cbn [ac_prevContainers ac_prevContainersTime ac_criFailed snd] in *.
  destruct (podContainers config rd' samples' failed) as [[pods' log'] failed'].
  pose proof (containers_loop_output pods' current
    (dur_seconds (time_sub (rd_ContainersTime rd') (rd_ContainersTime rd))) samples' ∅) as Hout.
  destruct (containers_loop pods' _ _ ∅ samples') as [out' current']. cbn [fst] in Hout.
  intros x' Hx. destruct (Hout x' Hx) as (s' & _ & _ & Hid & Hr). rewrite Hr, Hcur, Hid, lookup_empty. split.
  - intros [[[? ?]|(s & Hs & Hk & E)] _]; [done|]. by exists s.
  - intros (s & Hs & E & Hk). split; [right; by exists s|done].
Qed.
End Ticks.
