(* ===== verification/AgentUpdate.v ===== *)
(** * Updates of the agent: src/internal/update/update.go, src/agent/update.go
    and src/tools/sign/main.go.

    ed25519 is a parameter with the laws of the algorithm.  What the operating
    system and the dashboard answer one call of [selfUpdate] is a record, and
    so is what the system answers one run of the sign tool; the files of a
    machine are a map, changed only by the program that runs. *)
From S2P Require Import Prelude GoStrings GoTime Errors Monitor Base64 Api.
Local Open Scope Z_scope.

Class Ed25519 := {
  ed_public : string → string;
  ed_sign : string → string → string;
  ed_verify : string → string → string → bool }.
Definition SeedSize : Z := 32.
Definition PublicKeySize : Z := 32.
Definition SignatureSize : Z := 64.
(** RFC 8032 *)
Class Ed25519Laws `{Ed25519} : Prop := {
  ed_public_size seed : slen seed = SeedSize → slen (ed_public seed) = PublicKeySize;
  ed_sign_size seed m : slen seed = SeedSize → slen (ed_sign seed m) = SignatureSize;
  ed_sign_verifies seed m : slen seed = SeedSize → ed_verify (ed_public seed) m (ed_sign seed m) = true }.

(** ** Signatures *)

Section Signatures.
Context `{Ed25519}.

(** [PublicKey] is set when the agent is built. *)
Definition Verify (PublicKey build signature : string) : result error unit :=
  if str_eq PublicKey "" then Err ErrNoKey
  else match b64_decode PublicKey with
  | None => Err (ErrText "this agent's update key is broken")
  | Some key =>
      if negb (slen key =? PublicKeySize) then Err (ErrText "this agent's update key is broken")
      else match b64_decode (trim_space signature) with
      | None => Err (ErrText "the signature file is not a signature")
      | Some sig =>
          if negb (slen sig =? SignatureSize) then Err (ErrText "the signature file is not a signature")
          else if ed_verify key build sig then Ok ()
          else Err (ErrText "the build is not signed with this agent's update key")
      end
  end.

(** The seed is what [rand.Reader] gave; a private key is its seed. *)
Definition NewKey (seed : string) : string * string := (b64_encode seed, b64_encode (ed_public seed)).
Definition ParsePrivateKey (text : string) : result error string :=
  match b64_decode (trim_space text) with
  | Some seed => if slen seed =? SeedSize then Ok seed else Err (ErrText "not a SyMon signing key")
  | None => Err (ErrText "not a SyMon signing key")
  end.
Definition Sign (key build : string) : string := b64_encode (ed_sign key build) +:+ str1 10.
Definition PublicKeyOf (key : string) : string := b64_encode (ed_public key).

(** ** tools/sign *)

(** What the operating system answers one run of the tool: the bytes of
    [rand.Reader], and the calls that fail.  A write that fails may leave a part
    of the file. *)
Record SignEnv := {
  sg_random : result error string;
  sg_stat_fails : string → bool;
  sg_mkdir_fails : option error;
  sg_read_fails : string → option error;
  sg_write_fails : string → option (error * option string) }.

(** The tool works on the files by their paths.  It ends well, with a line for
    stderr or none, or with the exit code 1 and a message. *)
Notation SignM := (SM (gmap string string) string).

Definition check {A} (r : result error A) : SignM A :=
  match r with Ok a => mret a | Err err => sfail (error_text err) end.
Definition sign_usage : string := "usage: sign keygen -key FILE | sign sign -key FILE BUILD...".

(** [os.ReadFile]; [Err None] is [os.ErrNotExist]. *)
Definition read_file (env : SignEnv) (path : string) (files : gmap string string) : result (option error) string :=
  match sg_read_fails env path with
  | Some err => Err (Some err)
  | None => match files !! path with Some text => Ok text | None => Err None end
  end.
Definition write_file (env : SignEnv) (path content : string) : SignM unit :=
  match sg_write_fails env path with
  | Some (err, left_) =>
      match left_ with Some part => smodify <[path := part]> | None => mret () end;; sfail (error_text err)
  | None => smodify <[path := content]>
  end.

(** It leaves an existing key alone. *)
Definition keygen (env : SignEnv) (path : string) : SignM string :=
  files ← sget;
  if negb (sg_stat_fails env path) && bool_decide (is_Some (files !! path)) then mret ""
  else
    key ← check (rbind (sg_random env) (λ seed, Ok (NewKey seed)));
    check (match sg_mkdir_fails env with Some err => Err err | None => Ok () end);;
    write_file env path (key.1 +:+ str1 10);;
    write_file env (path +:+ ".pub") (key.2 +:+ str1 10);;
    mret ("Created the agent signing key " +:+ path +:+ ". Back it up: agents only accept updates signed with it.").

Fixpoint sign_builds (env : SignEnv) (key : string) (builds : list string) : SignM string :=
  match builds with
  | [] => mret ""
  | build :: rest =>
      files ← sget;
      match read_file env build files with
      | Err (Some err) => sfail (error_text err)
      | Err None => sfail ("open " +:+ build +:+ ": no such file or directory")
      | Ok data => write_file env (build +:+ ".sig") (Sign key data);; sign_builds env key rest
      end
  end.
Definition sign (env : SignEnv) (path : string) (builds : list string) : SignM string :=
  files ← sget;
  match read_file env path files with
  | Err (Some err) => sfail (error_text err)
  | Err None => sfail ("there is no signing key at " +:+ path +:+ ", create one with: make signing-key")
  | Ok text => key ← check (ParsePrivateKey text); sign_builds env key builds
  end.

(** [main] from the first argument, if there is one, the flag -key and the
    arguments after the flags *)
Definition sign_main (env : SignEnv) (command : option string) (keyPath : string) (builds : list string) : SignM string :=
  match command with
  | None => sfail sign_usage
  | Some command =>
      if str_eq keyPath "" then sfail sign_usage
      else if str_eq command "keygen" then keygen env keyPath
      else if str_eq command "sign" then sign env keyPath builds
      else sfail sign_usage
  end.
End Signatures.

(** ** selfUpdate *)

(** An answer of the dashboard: the status, its text, the body, and the error
    that cut the body short *)
Record Download := { dl_Status : Z; dl_StatusText : string; dl_Body : string; dl_Ended : option error }.

Record UpdateEnv := {
  ue_Executable : result error string;
  ue_GOARCH : string;
  ue_http : string → result error Download;
  (** [os.WriteFile] fails with an error and what is then in the file *)
  ue_write_fails : option (error * option string);
  ue_chmod_fails : option error;
  (** the output of running a file of this content with -version *)
  ue_version_output : string → result error string;
  ue_rename_fails : option error;
  ue_exec_fails : option error }.

(** The files, and the content the running agent was started from *)
Record Machine := { mc_files : gmap string string; mc_running : string }.
Definition set_file (path content : string) (m : Machine) : Machine :=
  {| mc_files := <[path := content]> (mc_files m); mc_running := mc_running m |}.
Definition remove_file (path : string) (m : Machine) : Machine :=
  {| mc_files := delete path (mc_files m); mc_running := mc_running m |}.

Definition maxBuildSize : Z := 200 * 2 ^ 20.

Definition download (http : string → result error Download) (url : string) : result error string :=
  response ← http url;
  if negb (dl_Status response =? 200) then Err (ErrText (url +:+ " answered " +:+ dl_StatusText response))
  else if maxBuildSize <? slen (dl_Body response) then Err (ErrText (url +:+ " is too big for an agent build"))
  else match dl_Ended response with Some err => Err err | None => Ok (dl_Body response) end.

Definition build_url (dashboard arch : string) : string :=
  trim_right "/" dashboard +:+ "/downloads/agent-linux-" +:+ arch.
Definition fetchBuild (env : UpdateEnv) (dashboard : string) : result error (string * string) :=
  let url := build_url dashboard (ue_GOARCH env) in
  build ← download (ue_http env) url;
  signature ← download (ue_http env) (url +:+ ".sig");
  Ok (build, signature).

Section Update.
Context `{Ed25519} (PublicKey : string) (own_version : string).

Notation MachineM := (SM Machine error).

(** [os.Remove(next)] and the error *)
Definition remove_and_fail (next : string) {A} (err : error) : MachineM A := smodify (remove_file next);; sfail err.

Definition says_version (want output : string) : bool := str_eq (trim_space output) ("SyMon agent " +:+ want).

Definition installBuild (env : UpdateEnv) (exe build signature want : string) : MachineM unit :=
  match Verify PublicKey build signature with
  | Err err => sfail err
  | Ok _ =>
    let next := exe +:+ ".new" in
    match ue_write_fails env with
    | Some (err, written) => match written with Some part => smodify (set_file next part);; sfail err | None => sfail err end
    | None =>
      smodify (set_file next build);;
      match ue_chmod_fails env with
      | Some err => remove_and_fail next err
      | None =>
        match ue_version_output env build with
        | Err err => remove_and_fail next (ErrWrap "the new build does not run here" err)
        | Ok out =>
          if negb (says_version want out)
          then remove_and_fail next (ErrText ("the new build says " +:+ quote (trim_space out) +:+ ", not " +:+ want))
          else match ue_rename_fails env with
          | Some err => remove_and_fail next err
          | None => smodify (λ m, remove_file next (set_file exe build m))
          end
        end
      end
    end
  end.

(** [syscall.Exec] replaces the process by what is at [exe]. *)
Definition exec (env : UpdateEnv) (exe : string) : MachineM unit :=
  match ue_exec_fails env with
  | Some err => sfail err
  | None => smodify (λ m, {| mc_files := mc_files m; mc_running := default (mc_running m) (mc_files m !! exe) |})
  end.

(** It returns only on failure: [Ok] is a process that was replaced. *)
Definition selfUpdate (env : UpdateEnv) (request : WireUpdate) : MachineM unit :=
  match ue_Executable env with
  | Err err => sfail err
  | Ok exe =>
    match fetchBuild env (wu_DownloadUrl request) with
    | Err err => sfail err
    | Ok (build, signature) =>
        installBuild env exe build signature (wu_Version request);; exec env exe
    end
  end.

(** ** The updater *)

Record updater := { up_tried : Z; up_lastError : string }.
Definition newUpdater : updater := {| up_tried := 0; up_lastError := "" |}.

(** What becomes of the agent: it goes on with its updater, or it restarted *)
Inductive Fate := GoesOn (u : updater) | Restarted.

Definition wants (u : updater) (request : option WireUpdate) : option WireUpdate :=
  r ← request;
  if str_eq (wu_Version r) own_version || (wu_RequestedAt r =? up_tried u) then None else Some r.

Definition handle (env : UpdateEnv) (request : option WireUpdate) (u : updater) (m : Machine) : Fate * Machine :=
  match wants u request with
  | None => (GoesOn u, m)
  | Some r =>
      match selfUpdate env r m with
      | (Ok _, m') => (Restarted, m')
      | (Err err, m') => (GoesOn {| up_tried := wu_RequestedAt r; up_lastError := error_text err |}, m')
      end
  end.

(** The pings of one process, until it restarts *)
Fixpoint handle_all (pings : list (UpdateEnv * option WireUpdate)) (u : updater) (m : Machine) : Fate * Machine :=
  match pings with
  | [] => (GoesOn u, m)
  | (env, request) :: rest =>
      match handle env request u m with
      | (GoesOn u', m') => handle_all rest u' m'
      | r => r
      end
  end.
End Update.
