(* ===== verification/AgentUpdateProps.v ===== *)
(** * An agent installs signed builds of the version asked for and nothing
    else, and what tools/sign signs is accepted: theorems about AgentUpdate.v. *)
From S2P Require Import Prelude GoStrings GoTime Errors Monitor Base64 Api AgentUpdate.
Local Open Scope Z_scope.

(** ** Signing and verifying *)

Section Signing.
Context `{Ed25519Laws}.

Lemma Verify_spec key build signature : Verify key build signature = Ok () ↔
  key ≠ "" ∧ ∃ k sig, b64_decode key = Some k ∧ slen k = PublicKeySize ∧ b64_decode (trim_space signature) = Some sig
    ∧ slen sig = SignatureSize ∧ ed_verify k build sig = true.
Proof.
  unfold Verify. destruct (str_eq key "") eqn:Ek.
  { apply str_eq_spec in Ek. split; [done|]. intros [Hk _]. by destruct Hk. }
  assert (key ≠ "") by (intros ->; done).
  destruct (b64_decode key) as [k|]; [|split; [done|]; intros (_ & k & sig & E & _); congruence].
  destruct (slen k =? PublicKeySize) eqn:El; cbn [negb]; [|split; [done|]; intros (_ & k' & sig & [= <-] & ? & _); lia].
  destruct (b64_decode (trim_space signature)) as [sig|]; [|split; [done|]; intros (_ & k' & sig & _ & _ & E & _); congruence].
  destruct (slen sig =? SignatureSize) eqn:Es; cbn [negb]; [|split; [done|]; intros (_ & k' & sig' & _ & _ & [= <-] & ? & _); lia].
  destruct (ed_verify k build sig) eqn:Ev; split; try done.
  - intros _. split; [done|]. exists k, sig. split_and!; try done; lia.
  - intros (_ & k' & sig' & [= <-] & _ & [= <-] & _ & E). congruence.
Qed.

(** The key file, read back, signs what the public key verifies. *)
Lemma key_verifies (seed build : string) : slen seed = SeedSize →
  ParsePrivateKey ((NewKey seed).1 +:+ str1 10) = Ok seed ∧
  Verify (trim_space ((NewKey seed).2 +:+ str1 10)) build (Sign seed build) = Ok ().
Proof.
  intros Hseed. unfold NewKey, ParsePrivateKey. cbn [fst snd]. rewrite b64_line, Hseed. split; [done|].
  apply Verify_spec. rewrite trim_line by apply b64_encode_alphabet. split.
  - intros E. assert (Hs := ed_public_size seed Hseed).
    pose proof (b64_decode_encode (ed_public seed)) as D. rewrite E in D. injection D as D. by rewrite <- D in Hs.
  - exists (ed_public seed), (ed_sign seed build). unfold Sign. rewrite b64_line, b64_decode_encode.
    split_and!; [done|by apply ed_public_size|done|by apply ed_sign_size|by apply ed_sign_verifies].
Qed.

(** ** tools/sign *)

(** No call of the operating system fails. *)
Definition undisturbed (env : SignEnv) : Prop :=
  (∀ path, sg_stat_fails env path = false) ∧ sg_mkdir_fails env = None ∧ (∀ path, sg_read_fails env path = None)
  ∧ ∀ path, sg_write_fails env path = None.

(** The builds are there, and no name of a file the tool writes is the name of
    another file it reads. *)
Definition builds_ready (path : string) (builds : list string) (files : gmap string string) : Prop :=
  ∀ build, build ∈ builds → is_Some (files !! build) ∧ build ≠ path ∧ build ≠ path +:+ ".pub"
    ∧ build +:+ ".sig" ≠ path ∧ build +:+ ".sig" ≠ path +:+ ".pub" ∧ build +:+ ".sig" ∉ builds.

(** The files after signing: [sign_builds] when nothing fails *)
Definition signed_files (key : string) (builds : list string) (files : gmap string string) : gmap string string :=
  foldl (λ files build, match files !! build with Some data => <[build +:+ ".sig" := Sign key data]> files | None => files end) files builds.

Lemma signed_files_cons key build builds files : signed_files key (build :: builds) files
  = signed_files key builds (match files !! build with Some data => <[build +:+ ".sig" := Sign key data]> files | None => files end).
Proof. done. Qed.

Lemma sign_builds_run env key builds : ∀ files, undisturbed env →
  (∀ build, build ∈ builds → is_Some (files !! build)) →
  sign_builds env key builds files = (Ok "", signed_files key builds files).
Proof.
  induction builds as [|build builds IH]; intros files Henv Hthere; [done|]. destruct Henv as (Hs & Hm & Hr & Hw).
  cbn [sign_builds]. rewrite signed_files_cons. unfold mbind, SM_bind, sbind, sget, read_file, write_file. rewrite Hr, Hw.
  destruct (Hthere build) as [data E]; [by left|]. rewrite E. cbn. apply IH; [done|].
  intros b Hb. apply lookup_insert_is_Some'. right. apply Hthere. by right.
Qed.

Lemma sig_inj (a b : string) : a +:+ ".sig" = b +:+ ".sig" → a = b.
Proof.
  intros E. destruct (append_length_inj a ".sig" b ".sig") as [? _]; [|done..].
  apply (f_equal String.length) in E. rewrite !length_append in E. lia.
Qed.

(** Every build keeps its content and gets its signature; nothing else
    changes. *)
Lemma signed_files_other key path builds : ∀ files, (∀ build, build ∈ builds → path ≠ build +:+ ".sig") →
  signed_files key builds files !! path = files !! path.
Proof.
  induction builds as [|build builds IH]; intros files Hne; [done|].
  rewrite signed_files_cons, IH by (intros b Hb; apply Hne; by right).
  destruct (files !! build); [|done]. rewrite lookup_insert_ne; [done|]. intros E. apply (Hne build); [by left|done].
Qed.
Lemma signed_files_sig key builds build data : ∀ files, build ∈ builds → (∀ b, b ∈ builds → build ≠ b +:+ ".sig") →
  files !! build = Some data → signed_files key builds files !! (build +:+ ".sig") = Some (Sign key data).
Proof.
  induction builds as [|b builds IH]; intros files Hin Hne Hd; [by apply not_elem_of_nil in Hin|]. rewrite signed_files_cons.
  assert (Hkeep : match files !! b with Some data => <[b +:+ ".sig" := Sign key data]> files | None => files end !! build = Some data).
  { destruct (files !! b); [|done]. rewrite lookup_insert_ne; [done|]. intros E. apply (Hne b); [by left|done]. }
  destruct (decide (build ∈ builds)) as [Hm|Hn]; [apply IH; [done|by intros b' Hb'; apply Hne; right|done]|].
  apply elem_of_cons in Hin as [<-|Hin]; [|done]. rewrite signed_files_other, Hd, lookup_insert_eq; [done|].
  intros b Hb E. apply sig_inj in E as ->. done.
Qed.

Lemma sign_main_command env command path builds : path ≠ "" → sign_main env (Some command) path builds
  = if str_eq command "keygen" then keygen env path else if str_eq command "sign" then sign env path builds else sfail sign_usage.
Proof. intros Hp. unfold sign_main. destruct (str_eq path "") eqn:E; [by apply str_eq_spec in E|done]. Qed.

Lemma keygen_run env seed path files : undisturbed env → sg_random env = Ok seed → files !! path = None →
  ∃ said, keygen env path files
    = (Ok said, <[path +:+ ".pub" := (NewKey seed).2 +:+ str1 10]> (<[path := (NewKey seed).1 +:+ str1 10]> files)).
Proof.
  intros (Hs & Hm & _ & Hw) Hr Hnew. unfold keygen, mbind, SM_bind, sbind, sget, write_file. rewrite Hs, Hnew, Hr, Hm, !Hw.
  rewrite bool_decide_false by (intros []; done). by eexists.
Qed.
Lemma keygen_again env path files : undisturbed env → is_Some (files !! path) → keygen env path files = (Ok "", files).
Proof.
  intros (Hs & _) Hf. unfold keygen, mbind, SM_bind, sbind, sget. by rewrite Hs, bool_decide_true by done.
Qed.

(** C37: [sign keygen] on a path without a key and then [sign sign] end well
    when no call fails.  Every build then has its signature beside it, which
    every agent built with the public key accepts for the build, the builds and
    all other files are as they were, and [sign keygen] once more changes
    nothing. *)
Theorem release_verifies (env : SignEnv) (seed path : string) (builds : list string) (files : gmap string string)
    (Henv : undisturbed env) (Hrandom : sg_random env = Ok seed) (Hseed : slen seed = SeedSize) (Hpath : path ≠ "")
    (Hnew : files !! path = None) (Hready : builds_ready path builds files) :
  ∃ said public files1 files2,
    sign_main env (Some "keygen") path [] files = (Ok said, files1) ∧
    sign_main env (Some "sign") path builds files1 = (Ok "", files2) ∧
    files2 !! (path +:+ ".pub") = Some public ∧
    (∀ build, build ∈ builds → ∃ content signature, files !! build = Some content ∧ files2 !! build = Some content ∧
       files2 !! (build +:+ ".sig") = Some signature ∧ Verify (trim_space public) content signature = Ok ()) ∧
    (∀ other, other ≠ path → other ≠ path +:+ ".pub" → (∀ build, build ∈ builds → other ≠ build +:+ ".sig") →
       files2 !! other = files !! other) ∧
    sign_main env (Some "keygen") path [] files2 = (Ok "", files2).
Proof.
  set (files1 := <[path +:+ ".pub" := (NewKey seed).2 +:+ str1 10]> (<[path := (NewKey seed).1 +:+ str1 10]> files)).
  assert (Hpub : path +:+ ".pub" ≠ path) by (intros E; apply (f_equal String.length) in E; rewrite length_append in E; cbn in E; lia).
  assert (Hkey : files1 !! path = Some ((NewKey seed).1 +:+ str1 10)) by (unfold files1; by rewrite lookup_insert_ne, lookup_insert_eq).
  assert (Hsame : ∀ p, p ≠ path → p ≠ path +:+ ".pub" → files1 !! p = files !! p)
    by (intros p H1 H2; unfold files1; by rewrite !lookup_insert_ne).
  assert (Hsigs : ∀ build, build ∈ builds → path ≠ build +:+ ".sig" ∧ path +:+ ".pub" ≠ build +:+ ".sig")
    by (intros b Hb; destruct (Hready b Hb) as (_ & _ & _ & H1 & H2 & _); auto).
  assert (Hother : ∀ build, build ∈ builds → ∀ b, b ∈ builds → build ≠ b +:+ ".sig")
    by (intros b Hb b' Hb' ->; by apply (Hready b' Hb')).
  destruct (keygen_run env seed path files Henv Hrandom Hnew) as [said Hsaid].
  exists said, ((NewKey seed).2 +:+ str1 10), files1, (signed_files seed builds files1).
  rewrite !sign_main_command by done. cbn [str_eq]. split_and!.
  - exact Hsaid.
  - change (sign env path builds files1 = (Ok "", signed_files seed builds files1)).
    unfold sign, mbind, SM_bind, sbind, sget, read_file.
    pose proof Henv as (_ & _ & Hr & _). rewrite Hr, Hkey, (proj1 (key_verifies seed "" Hseed)). apply sign_builds_run; [done|].
    intros b Hb. destruct (Hready b Hb) as (Hb1 & Hb2 & Hb3 & _). by rewrite Hsame.
  - rewrite signed_files_other by (intros b Hb; by apply Hsigs). apply lookup_insert_eq.
  - intros b Hb. destruct (Hready b Hb) as ([content Hc] & H1 & H2 & _). exists content, (Sign seed content).
    assert (Hc1 : files1 !! b = Some content) by (by rewrite Hsame).
    rewrite signed_files_other by (by apply Hother). split_and!; [done|done| |by apply key_verifies].
    apply signed_files_sig; [done|by apply Hother|done].
  - intros p H1 H2 H3. rewrite signed_files_other by done. by apply Hsame.
  - apply keygen_again; [done|]. rewrite signed_files_other by (intros b Hb; by apply Hsigs). by rewrite Hkey.
Qed.
End Signing.

(** An instance of the laws: a key signs with itself, twice. *)
Definition mirror : Ed25519 := {|
  ed_public seed := seed; ed_sign seed _ := seed +:+ seed; ed_verify key _ sig := str_eq sig (key +:+ key) |}.
Lemma mirror_laws : @Ed25519Laws mirror.
Proof.
  split; [done| |by intros; apply str_eq_refl]. intros seed m. unfold slen. cbn [ed_sign mirror]. rewrite length_append.
  unfold SeedSize, SignatureSize. lia.
Qed.
Definition seed_example : string := "0123456789abcdef0123456789abcdef".
Definition calm : SignEnv := {|
  sg_random := Ok seed_example; sg_stat_fails _ := false; sg_mkdir_fails := None; sg_read_fails _ := None; sg_write_fails _ := None |}.
Lemma release_verifies_witness : ∃ said public files1 files2,
  @sign_main mirror calm (Some "keygen") "signing.key" [] {["agent" := "build"]} = (Ok said, files1) ∧
  @sign_main mirror calm (Some "sign") "signing.key" ["agent"] files1 = (Ok "", files2) ∧
  files2 !! "signing.key.pub" = Some public ∧
  ∃ signature, files2 !! "agent.sig" = Some signature ∧ @Verify mirror (trim_space public) "build" signature = Ok ().
Proof.
  destruct (@release_verifies mirror mirror_laws calm seed_example "signing.key" ["agent"] {["agent" := "build"]})
    as (said & public & files1 & files2 & H1 & H2 & H3 & H4 & _); [by split_and!|done|done|done|by vm_compute| |].
  - intros build ->%list_elem_of_singleton. split; [by eexists|]. split_and!; [done..|]. by intros H%list_elem_of_singleton.
  - exists said, public, files1, files2. split_and!; [done..|].
    destruct (H4 "agent") as (content & signature & [= <-] & _ & Hs & Hv); [by left|]. by exists signature.
Defined.

(** ** What an update leaves on the machine *)

Section Installing.
Context `{Ed25519} (PublicKey own_version : string).

(** The build came from the place asked for, its signature with it, and it
    says the version asked for. *)
Definition vouched (env : UpdateEnv) (r : WireUpdate) (build : string) : Prop :=
  ∃ signature out, fetchBuild env (wu_DownloadUrl r) = Ok (build, signature)
    ∧ Verify PublicKey build signature = Ok ()
    ∧ ue_version_output env build = Ok out ∧ says_version (wu_Version r) out = true.

(** [m'] differs from [m] in the agent's own file at most, which then holds a
    build that was vouched for, and in the file beside it, which is only left
    when writing it failed; and it runs what it ran or that build. *)
Record updated (env : UpdateEnv) (r : WireUpdate) (m m' : Machine) : Prop := {
  ud_files : ∀ path, mc_files m' !! path = mc_files m !! path
    ∨ ∃ exe, ue_Executable env = Ok exe ∧
        (path = exe ∧ (∃ build, mc_files m' !! path = Some build ∧ vouched env r build)
         ∨ path = exe +:+ ".new" ∧ (mc_files m' !! path = None ∨ ∃ e, ue_write_fails env = Some e));
  ud_running : mc_running m' = mc_running m ∨ ∃ exe, ue_Executable env = Ok exe ∧ mc_files m' !! exe = Some (mc_running m')
    ∧ vouched env r (mc_running m') }.

Lemma new_beside exe : exe +:+ ".new" ≠ exe.
Proof. intros E. apply (f_equal String.length) in E. rewrite length_append in E. cbn in E. lia. Qed.

(** The outcomes of [installBuild] *)
Lemma installBuild_spec env exe build signature want m res m' :
  installBuild PublicKey env exe build signature want m = (res, m') →
  mc_running m' = mc_running m ∧
  match res with
  | Ok _ => Verify PublicKey build signature = Ok () ∧ (∃ out, ue_version_output env build = Ok out ∧ says_version want out = true)
            ∧ mc_files m' = delete (exe +:+ ".new") (<[exe := build]> (mc_files m))
  | Err _ => ∀ path, mc_files m' !! path = mc_files m !! path
      ∨ path = exe +:+ ".new" ∧ (mc_files m' !! path = None ∨ ∃ e, ue_write_fails env = Some e)
  end.
Proof.
  unfold installBuild. destruct (Verify PublicKey build signature) as [[]|err] eqn:Ev; [|intros [= <- <-]; auto].
  destruct (ue_write_fails env) as [[err written]|] eqn:Ew.
  { destruct written as [part|]; intros [= <- <-]; (split; [done|]); intros path; [|by left].
    cbn. destruct (decide (path = exe +:+ ".new")) as [->|Hne]; [right; eauto|left; by rewrite lookup_insert_ne]. }
  unfold mbind, SM_bind, sbind, smodify. cbv beta.
  assert (Hgone : ∀ path, delete (exe +:+ ".new") (<[exe +:+ ".new" := build]> (mc_files m)) !! path = mc_files m !! path
    ∨ path = exe +:+ ".new" ∧ (delete (exe +:+ ".new") (<[exe +:+ ".new" := build]> (mc_files m)) !! path = None
                               ∨ ∃ e, @None (error * option string) = Some e)).
  { intros path. destruct (decide (path = exe +:+ ".new")) as [->|Hne].
    - right. split; [done|]. left. by rewrite lookup_delete_eq.
    - left. by rewrite lookup_delete_ne, lookup_insert_ne. }
  destruct (ue_chmod_fails env); [intros [= <- <-]; done|].
  destruct (ue_version_output env build) as [out|err] eqn:Eo; [|intros [= <- <-]; done].
  destruct (says_version want out) eqn:Es; cbn [negb]; [|intros [= <- <-]; done].
  destruct (ue_rename_fails env); intros [= <- <-]; [done|].
  split; [done|]. split_and!; [done|eauto|]. cbn. apply map_eq. intros path.
  destruct (decide (path = exe +:+ ".new")) as [->|Hn]; [by rewrite !lookup_delete_eq|]. rewrite !lookup_delete_ne by done.
  destruct (decide (path = exe)) as [->|He]; [by rewrite !lookup_insert_eq|]. by rewrite !lookup_insert_ne.
Qed.

Lemma updated_refl env r m : updated env r m m.
Proof. split; auto. Qed.

Lemma selfUpdate_updated env r m res m' : selfUpdate PublicKey env r m = (res, m') → updated env r m m'.
Proof.
  unfold selfUpdate. destruct (ue_Executable env) as [exe|err] eqn:Ee; [|intros [= <- <-]; apply updated_refl].
  destruct (fetchBuild env _) as [[build signature]|err] eqn:Ef; [|intros [= <- <-]; apply updated_refl].
  unfold mbind, SM_bind, sbind. destruct (installBuild _ _ _ _ _ _ m) as [r1 m1] eqn:Ei.
  apply installBuild_spec in Ei as [Hr Hi]. destruct r1 as [[]|err].
  - destruct Hi as (Hv & (out & Ho & Hs) & Hf).
    assert (Hvouched : vouched env r build) by (exists signature, out; done).
    assert (Hexe : mc_files m1 !! exe = Some build) by (rewrite Hf, lookup_delete_ne, lookup_insert_eq by apply new_beside; done).
    assert (Hfiles : ∀ path, mc_files m1 !! path = mc_files m !! path ∨ path = exe ∨ path = exe +:+ ".new" ∧ mc_files m1 !! path = None).
    { intros path. rewrite Hf. destruct (decide (path = exe +:+ ".new")) as [->|Hn]; [right; right; by rewrite lookup_delete_eq|].
      destruct (decide (path = exe)) as [->|He]; [by right; left|]. left. by rewrite lookup_delete_ne, lookup_insert_ne. }
    assert (Hud : updated env r m m1).
    { split; [|by left]. intros path. destruct (Hfiles path) as [|[->|[-> Hnone]]]; [by left|right; exists exe; eauto 7..]. }
    unfold exec. destruct (ue_exec_fails env); intros [= <- <-]; [done|]. split; [apply Hud|].
    right. exists exe. cbn. by rewrite Hexe.
  - intros [= <- <-]. split; [|by left]. intros path. destruct (Hi path) as [|Hp]; [by left|right; eauto 7].
Qed.

(** The runs of [selfUpdate] there were, in order *)
Inductive update_runs : Machine → list (UpdateEnv * WireUpdate) → Machine → Prop :=
  | ur_none m : update_runs m [] m
  | ur_more m m1 m2 env r l : updated env r m m1 → update_runs m1 l m2 → update_runs m ((env, r) :: l) m2.

Lemma wants_request u request r : wants own_version u request = Some r → request = Some r ∧ wu_Version r ≠ own_version ∧ wu_RequestedAt r ≠ up_tried u.
Proof.
  unfold wants. destruct request as [r0|]; [|done]. cbn. destruct (_ || _) eqn:E; [done|]. intros [= ->].
  apply orb_false_elim in E as [E1 E2]. split_and!; [done| |lia]. intros E3. by rewrite E3, str_eq_refl in E1.
Qed.

(** No request is run right after itself; 0 is what a new updater tried. *)
Fixpoint no_repeat (tried : Z) (runs : list (UpdateEnv * WireUpdate)) : Prop :=
  match runs with
  | [] => True
  | (_, r) :: rest => wu_RequestedAt r ≠ tried ∧ no_repeat (wu_RequestedAt r) rest
  end.

Definition asked_for (pings : list (UpdateEnv * option WireUpdate)) (runs : list (UpdateEnv * WireUpdate)) : Prop :=
  ∀ env r, (env, r) ∈ runs → (env, Some r) ∈ pings ∧ wu_Version r ≠ own_version.

Lemma handle_all_runs pings u m :
  let '(_, m') := handle_all PublicKey own_version pings u m in
  ∃ runs, update_runs m runs m' ∧ asked_for pings runs ∧ no_repeat (up_tried u) runs.
Proof.
  revert u m. induction pings as [|[env request] pings IH]; intros u m.
  { exists []. split_and!; [constructor|by intros env r ?%not_elem_of_nil|done]. }
  assert (Hmore : ∀ runs, asked_for pings runs → asked_for ((env, request) :: pings) runs)
    by (intros runs Hr e r Hin; split; [right; by apply Hr|by eapply Hr]).
  cbn [handle_all]. unfold handle. destruct (wants own_version u request) as [r|] eqn:Ew.
  2:{ specialize (IH u m). destruct (handle_all _ _ pings u m) as [fate m']. destruct IH as (runs & H1 & H2 & H3). exists runs. auto. }
  apply wants_request in Ew as (-> & Hv & Ht). destruct (selfUpdate PublicKey env r m) as [[[]|err] m1] eqn:Es; apply selfUpdate_updated in Es.
  - exists [(env, r)]. split_and!; [by eapply ur_more, ur_none| |done].
    intros e r' [= -> ->]%list_elem_of_singleton. split; [by left|done].
  - specialize (IH {| up_tried := wu_RequestedAt r; up_lastError := error_text err |} m1).
    destruct (handle_all _ _ pings _ m1) as [fate m']. destruct IH as (runs & H1 & H2 & H3). exists ((env, r) :: runs).
    split_and!; [by econstructor| |done]. intros e r' [[= -> ->]|Hin]%elem_of_cons; [split; [by left|done]|exact (Hmore runs H2 e r' Hin)].
Qed.

(** C12: whatever the dashboard, the network and the operating system answer,
    the pings of one agent process change the machine only by runs of updates
    that were asked for, of another version than the agent's and none right
    after itself; each leaves in the agent's file what it was or a build that
    is signed with the agent's key and says it is the version asked for, leaves
    every other file alone (the new one beside it is removed unless writing it
    failed), and restarts into such a build only. *)
Theorem update_signed_only (pings : list (UpdateEnv * option WireUpdate)) (m : Machine) :
  let '(_, m') := handle_all PublicKey own_version pings newUpdater m in
  ∃ runs, update_runs m runs m' ∧ asked_for pings runs ∧ no_repeat 0 runs.
Proof. apply handle_all_runs. Qed.
End Installing.
