(* ===== verification/AgentMain.v ===== *)
(** * The agent's calls of the collector: src/agent/main.go, the parts of
    src/agent/tasks.go around a run, and src/agent/kube.go.

    The collector is a function from a request to its answer; what the program
    prints is part of the result. *)
From S2P Require Import Prelude GoStrings GoTime Errors Monitor Kube Tasks Database Snapshot Login Config AgentTasks Api AgentUpdate.
Local Open Scope Z_scope.

(** ** main.go *)

(** [credentials]: the agent's own key once it is enrolled, the shared
    SYMON_KEY before that.  [key] is what reading the key file gave. *)
Inductive Credentials := AgentKey (key : string) | SharedKey.
Definition credentials (key : result error string) : Credentials :=
  match key with
  | Ok text => if 0 <? slen (trim_space text) then AgentKey (trim_space text) else SharedKey
  | Err _ => SharedKey
  end.

(** How a command of the program ends: with a message, or with one and the
    exit code 1 *)
Inductive Ending := Done (message : string) | ExitsWith (message : string).

(** The machine's answers to [enroll]: what [MkdirAll] and [WriteFile] said *)
Record EnrollEnv := { en_mkdir_fails : option error; en_write_fails : option error }.

(** [enroll], and what it wrote to the key file *)
Definition enroll (config : Agent_config) (token timezone : string) (dial : result error (EnrollRequest → result error EnrollResponse))
    (env : EnrollEnv) : Ending * option string :=
  if str_eq token "" then (ExitsWith "-enroll needs -token, get one with collector -enroll-token", None)
  else match dial with
  | Err err => (ExitsWith ("cannot create collector client: " +:+ error_text err), None)
  | Ok collector =>
    match collector {| enr_Token := token; enr_HostName := ag_ServerId config; enr_Timezone := timezone |} with
    | Err err => (ExitsWith ("cannot enroll: " +:+ error_text err), None)
    | Ok response =>
      match en_mkdir_fails env, en_write_fails env with
      | Some err, _ => (ExitsWith ("cannot save agent key: " +:+ error_text err), None)
      | None, Some err => (ExitsWith ("cannot save agent key: " +:+ error_text err), None)
      | None, None =>
          (Done ("Enrolled as " +:+ enr_Host response +:+ ", key saved to " +:+ ag_AgentKeyPath config),
           Some (enr_AgentKey response +:+ str1 10))
      end
    end
  end.

(** [initAgent] after the call; a failed one is logged. *)
Definition initAgent (Error : error → string) (response : result error string) : Ending :=
  match response with
  | Ok body => Done (body +:+ " ")
  | Err err => ExitsWith ("error adding agent: " +:+ Error err)
  end.

Definition codes_Unimplemented : Z := 12.

(** ** taskRunner around a run *)

(** [loadError] is the last mistake of the tasks file; the log gets a new one
    once. *)
Record taskRunner := { rn_loadError : string; rn_oldCollector : bool; rn_working : bool }.
Definition newTaskRunner : taskRunner := {| rn_loadError := ""; rn_oldCollector := false; rn_working := false |}.

Definition load (file : result error (list Task)) (r : taskRunner) : list Task * taskRunner * list string :=
  let message := match file with Ok _ => "" | Err err => error_text err end in
  (match file with Ok l => l | Err _ => [] end,
   {| rn_loadError := message; rn_oldCollector := rn_oldCollector r; rn_working := rn_working r |},
   if negb (str_eq message (rn_loadError r)) && negb (str_eq message "") then ["this host offers no tasks: " +:+ message] else []).

Definition task_info (task : Task) : TaskInfo := {|
  ti_Name := task_Name task; ti_Description := task_Description task; ti_Command := task_Command task;
  ti_TimeoutSeconds := wrap32 (task_TimeoutSeconds task) |}.

(** [step]: what the call of [NextTask] came back with; how long to wait
    before the next step, the run to make, and what is logged *)
Definition runner_step (Error : error → string) (retryAfter : duration) (file : result error (list Task))
    (nextTask : result error TaskAssignment) (r : taskRunner) : duration * option TaskAssignment * taskRunner * list string :=
  let '(tasks, r, log) := load file r in
  match tasks with
  | [] => (taskCheckEvery, None, r, log)
  | _ =>
      match nextTask with
      | Ok a => (0, if ta_Id a =? 0 then None else Some a, r, log)
      | Err err =>
          if (status_code err =? codes_Unimplemented) || (status_code err =? codes_PermissionDenied) then
            (taskOldCollector, None, {| rn_loadError := rn_loadError r; rn_oldCollector := true; rn_working := rn_working r |},
             log ++ if rn_oldCollector r then [] else ["the collector is too old for tasks, update it to run them from the dashboard"])
          else (retryAfter, None, r, log ++ ["cannot ask the collector for tasks: " +:+ Error err])
      end
  end.

(** [list]: what a ping says this host offers *)
Definition list_tasks (file : result error (list Task)) (r : taskRunner) : list TaskInfo * taskRunner * list string :=
  let '(tasks, r', log) := load file r in (map task_info tasks, r', log).

(** [whenIdle]: [skip] is what stays of the state when a task is running. *)
Definition whenIdle {A} (working : bool) (skip f : A) : A := if working then skip else f.

(** ** sendPing *)

Definition server_info (config : Agent_config) (version arch : string) (updates : updater) (tasks : list Task) : ServerInfo := {|
  si_ServerName := ag_ServerId config; si_Timezone := ""; si_AgentVersion := version; si_Arch := arch;
  si_UpdateError := up_lastError updates; si_Tasks := map task_info tasks |}.

Section Ping.
Context `{Ed25519} (PublicKey version : string).

(** One ping: the request, and what becomes of the process.  An update waits
    while a task is running; the next ping asks again. *)
Definition sendPing (config : Agent_config) (env : UpdateEnv) (tasks : list Task) (working : bool)
    (collector : ServerInfo → result error PingResponse) (updates : updater) (m : Machine) : Fate * Machine :=
  match collector (server_info config version (ue_GOARCH env) updates tasks) with
  | Err _ => (GoesOn updates, m)
  | Ok response => whenIdle working (GoesOn updates, m) (handle PublicKey version env (ping_Update response) updates m)
  end.
End Ping.

(** ** The cluster reader *)

Definition kubeOldCollector : duration := 10 * minute.

Record clusterReader := { rd_cluster : string; rd_host : string; rd_lastError : string }.

(** The report, as its message: the host and the state's JSON *)
Record WireClusterReport := { wcr_Host : string; wcr_StateJson : string }.
Class ClusterJSON := marshal_state : ClusterState → result error string.

(** [step]: the state [Read] gave, the collector's answer to the report as its
    status code; the lines it logs and how long it waits *)
Definition reader_log (cluster last err : string) : list string :=
  if str_eq err last then []
  else if str_eq err "" then ["reading the kubernetes cluster " +:+ cluster +:+ " again"]
  else ["cannot read the kubernetes cluster " +:+ cluster +:+ ": " +:+ err].
(** [Error] is what gRPC makes of the error of a call. *)
Definition reader_step `{ClusterJSON} (Error : error → string) (state : ClusterState) (collector : WireClusterReport → result error unit) (r : clusterReader)
    : duration * list string * clusterReader :=
  let logged := reader_log (rd_cluster r) (rd_lastError r) (cs_Error state) in
  let r' := {| rd_cluster := rd_cluster r; rd_host := rd_host r; rd_lastError := cs_Error state |} in
  match marshal_state state with
  | Err err => (ReportInterval, logged ++ ["cannot encode the cluster state: " +:+ error_text err], r')
  | Ok data =>
      match collector {| wcr_Host := rd_host r; wcr_StateJson := data |} with
      | Ok _ => (ReportInterval, logged, r')
      | Err err =>
          if (status_code err =? codes_Unimplemented) || (status_code err =? codes_PermissionDenied)
          then (kubeOldCollector, logged ++ ["the collector is too old for kubernetes clusters, update it to see " +:+ rd_cluster r], r')
          else (ReportInterval, logged ++ ["cannot report the kubernetes cluster: " +:+ Error err], r')
      end
  end.

(** ** Samples and custom metrics *)

(** [sendCustomMetric], from the decimal Unix time on *)
Definition custom_metric (config : Agent_config) (now : time) (name unit value : string) : CustomMetric := {|
  cmv_Name := name; cmv_Unit := unit; cmv_Value := value; cmv_Time := itoa (to_unix now); cmv_ServerId := ag_ServerId config |}.

(** What the flags make [main] do once the settings are read *)
Inductive AgentMode := Enrolls | Inits | SendsCustom | NeedsCustom | Runs.
Definition agent_mode (enroll init custom : bool) (name unit value : string) : AgentMode :=
  if enroll then Enrolls
  else if init then Inits
  else if custom then
    if (0 <? slen name) && (0 <? slen value) && (0 <? slen unit) then SendsCustom else NeedsCustom
  else Runs.

(** The context of a collection leaves a quarter of the interval. *)
Definition monitor_interval (config : Agent_config) : duration := seconds (ag_MonitorIntervalSeconds config).
Definition collect_timeout (config : Agent_config) : duration := wrap64 (monitor_interval config * 3) ÷ 4.
