(* ===== verification/CollectorMain.v ===== *)
(** * The collector's program: src/collector/main.go, purge.go, tasks.go,
    rules.go, users.go and endpoints.go.

    A command ends with what it prints, or with a message and the exit code 1.
    The database of the model does not fail; where a round of the program
    handles a failing call, which calls fail is an argument. *)
From S2P Require Import Prelude GoStrings GoTime Errors Monitor Alerts Json Kube Tasks Database StoreHosts StoreUsers StoreEnrollment.
From S2P Require Import StoreSeries StoreTasks StoreAlerts StoreKube StoreRules StoreForecast Texts Config.
Local Open Scope Z_scope.

(** ** Settings *)

(** [time.Duration(n) * 24 * time.Hour] *)
Definition days (n : Z) : duration := wrap64 (wrap64 (n * 24) * hour).

Definition defaultTaskHistoryDays : Z := 90.
Definition taskHistory (config : Collector_config) : duration :=
  if 0 <? cc_TaskHistoryDays config then days (cc_TaskHistoryDays config) else days defaultTaskHistoryDays.

Definition days_or (n : Z) (otherwise : duration) : duration := if 0 <? n then days n else otherwise.

(** [openStore] up to the connection: the retention it opens the store with *)
Definition openStore (config : Collector_config) : result error Retention :=
  if str_eq (cc_DatabaseURL config) "" then Err (ErrText "SYMON_DATABASE_URL is not set")
  else
    let retention := {|
      keep_Raw := days_or (cc_RetentionRawDays config) (keep_Raw DefaultRetention);
      keep_Minute := days_or (cc_RetentionMinuteDays config) (keep_Minute DefaultRetention);
      keep_Hour := days_or (cc_RetentionHourDays config) (keep_Hour DefaultRetention) |} in
    if keep_Minute retention <? days 3 then Err (ErrText "SYMON_RETENTION_MINUTE_DAYS must be at least 3")
    else Ok retention.

(** The groups of [ApplyRetention] of store.go: a policy per table, with its
    interval.  What applying them does is in CollectorRun.v. *)
Definition rawTables : list string :=
  ["host_metrics"; "cpu_core_metrics"; "disk_metrics"; "disk_io_metrics"; "net_metrics"; "temp_metrics"; "custom_metrics";
   "service_status"; "process_snapshots"; "container_metrics"; "kube_restarts"].
Definition minuteTables : list string :=
  ["host_metrics_1m"; "disk_metrics_1m"; "disk_io_metrics_1m"; "net_metrics_1m"; "temp_metrics_1m"; "custom_metrics_1m";
   "container_metrics_1m"].
Definition hourTables : list string :=
  ["host_metrics_1h"; "disk_metrics_1h"; "disk_io_metrics_1h"; "net_metrics_1h"; "temp_metrics_1h"; "custom_metrics_1h";
   "container_metrics_1h"].
Definition longTables : list string := ["endpoint_checks"; "kube_metrics"].
(** [int64(keep.Seconds())] cuts the fraction of a second off; a policy that
    openStore makes from days that do not wrap has none. *)
Definition keep_text (keep : duration) : string := itoa (keep ÷ second) +:+ " seconds".
Definition retention_groups (r : Retention) : list (list string * duration) :=
  [(rawTables, keep_Raw r); (minuteTables, keep_Minute r); (hourTables, keep_Hour r); (longTables, keep_Hour r)].
Definition retention_policies (r : Retention) : list (string * string) :=
  flat_map (λ group, map (λ table, (table, keep_text group.2)) group.1) (retention_groups r).

(** ** Rounds *)

(** Which of the four calls of a purge fail *)
Record PurgeFails := {
  pf_alerts : option error; pf_tokens : option error; pf_sessions : option error; pf_runs : option error }.

Definition purge_call (fails : option error) (what : string) (op : DB → DB) (d : DB) : DB * list string :=
  match fails with Some err => (d, [what +:+ " purge: " +:+ error_text err]) | None => (op d, []) end.

(** One round of [purgeOldRecords], with what it logs: after a failed purge
    of alerts it waits for the next day. *)
Definition purge_round (now : time) (keep_hour taskHistory : duration) (fails : PurgeFails) (d : DB) : DB * list string :=
  match pf_alerts fails with
  | Some err => (d, ["alert purge: " +:+ error_text err])
  | None =>
      match PurgeResolvedAlerts now keep_hour d with
      | (Ok deleted, d) =>
          let '(d, log1) := purge_call (pf_tokens fails) "token" (λ d, (PurgeEnrollmentTokens now d).2) d in
          let '(d, log2) := purge_call (pf_sessions fails) "session" (λ d, (PurgeSessions now d).2) d in
          let '(d, log3) := purge_call (pf_runs fails) "task run" (λ d, (PurgeTaskRuns now taskHistory d).2) d in
          (d, ["alert purge: deleted " +:+ itoa deleted +:+ " alerts"] ++ log1 ++ log2 ++ log3)
      | (Err err, d) => (d, ["alert purge: " +:+ error_text err])
      end
  end.

(** One round of [sweepTaskRuns] *)
Definition sweep_round (now : time) (fails : option error) (d : DB) : DB * list string :=
  match fails with
  | Some err => (d, ["task sweep: " +:+ error_text err])
  | None =>
      match SweepTaskRuns now d with
      | (Ok ended, d) =>
          (d, if 0 <? ended then ["ended " +:+ itoa ended +:+ " task runs that were not picked up or went silent"] else [])
      | (Err err, d) => (d, ["task sweep: " +:+ error_text err])
      end
  end.

(** ** Endpoint checks *)

Definition endpointTimeout : duration := 30 * second.

(** A request of a check, and what came of it.  [http] is the request made
    with [http.Client]; a response has its status, when the first certificate
    of the connection expires ([zero_time] without one) and how long it took. *)
Record CheckRequest := {
  cq_Method : string; cq_URL : string; cq_Body : option string; cq_ContentType : option string; cq_CustomCA : option string }.
Record CheckResponse := { cp_StatusCode : Z; cp_NotAfter : time; cp_Latency : duration }.
Record CheckNet := {
  cn_read : string → result error string;
  cn_has_certs : string → bool;
  cn_new_request : string → string → option error;
  cn_http : CheckRequest → result error CheckResponse }.

(** [endpointClient]: the CA the client trusts as well *)
Definition endpointClient (net : CheckNet) (rule : AlertConfig) : result error (option string) :=
  if str_eq (trim_space (rule_CustomCACert rule)) "" then Ok None
  else match cn_read net (rule_CustomCACert rule) with
  | Err err => Err err
  | Ok pem => if cn_has_certs net pem then Ok (Some pem) else Err (ErrText ("no certificates in " +:+ rule_CustomCACert rule))
  end.

Definition check_method (rule : AlertConfig) : string :=
  let method := to_upper (trim_space (rule_Method rule)) in if str_eq method "" then "GET" else method.
Definition check_request (rule : AlertConfig) (ca : option string) : CheckRequest :=
  let method := check_method rule in
  let post := str_eq method "POST" in
  {| cq_Method := method; cq_URL := rule_Endpoint rule; cq_Body := if post then Some (rule_POSTBody rule) else None;
     cq_ContentType := if post && negb (str_eq (rule_POSTContentType rule) "") then Some (rule_POSTContentType rule) else None;
     cq_CustomCA := ca |}.

Definition check_result (rule : AlertConfig) (now : time) (r : result error CheckResponse) : EndpointCheck :=
  match r with
  | Err err => {| ec_Time := now; ec_Name := rule_Name rule; ec_URL := rule_Endpoint rule; ec_Method := check_method rule;
                  ec_StatusCode := 0; ec_OK := false; ec_Latency := 0; ec_Error := error_text err; ec_CertExpires := zero_time |}
  | Ok p => {| ec_Time := now; ec_Name := rule_Name rule; ec_URL := rule_Endpoint rule; ec_Method := check_method rule;
               ec_StatusCode := cp_StatusCode p; ec_OK := cp_StatusCode p =? expectedCode rule; ec_Latency := cp_Latency p;
               ec_Error := ""; ec_CertExpires := cp_NotAfter p |}
  end.
Definition checkEndpoint (net : CheckNet) (rule : AlertConfig) (now : time) : EndpointCheck :=
  check_result rule now
    (ca ← endpointClient net rule;
     match cn_new_request net (check_method rule) (rule_Endpoint rule) with
     | Some err => Err err
     | None => cn_http net (check_request rule ca)
     end).

(** [checkAll]: a check per enabled endpoint rule at the same time, so the
    checks are saved in any order: [order] is the one they came in. *)
Definition endpoint_rules (d : DB) : list AlertConfig :=
  List.filter (λ rule, str_eq (rule_MetricName rule) ENDPOINT) (EnabledRules d).
Definition check_round (net : CheckNet) (now : time) (order : list AlertConfig) (d : DB) : DB :=
  fold_left (λ d rule, (SaveEndpointCheck (checkEndpoint net rule now) d).2) order d.

(** ** Commands *)

Inductive Command := Prints (text : string) | Exits (message : string).
Definition command (A : Type) : Type := DB → A * DB.

(** [alerts.LoadRules]: [decode] is the strict decoder of a list of rules *)
Definition LoadRules `{UrlParse} (decode : string → result error (list AlertConfig)) (path : string) (file : result error string)
    : result error (list AlertConfig) :=
  match file with
  | Err err => Err err
  | Ok data => match rbind (decode data) ParseRules with Ok rules => Ok rules | Err err => Err (ErrWrap path err) end
  end.

Section Rules.
Context `{UrlParse} (decode : string → result error (list AlertConfig)).

(** [setupRules]: [Exits] is [log.Fatal] *)
Definition setup_message (path : string) (setup : RuleSetup) : string :=
  let changes := (if str_eq path "" then [] else ["imported " +:+ itoa (setup_Imported setup) +:+ " from " +:+ path])
    ++ match setup_Added setup with [] => [] | l => ["added " +:+ join ", " l] end in
  "alert rules now live in the database and are edited on the dashboard"
  +:+ match changes with [] => "" | _ => ": " +:+ join ", " changes end.
Definition setupRules (now : time) (path : string) (file : result error string) : command Command := λ d,
  if RulesSetUp d then
    (Prints (if str_eq path "" then ""
             else path +:+ " is no longer read, alert rules are edited on the dashboard. Remove SYMON_ALERTS_CONFIG_PATH, or load a file with -import-rules."), d)
  else
    match (if str_eq path "" then Ok [] else LoadRules decode path file) with
    | Err err => (Exits ("cannot import the alert rules, fix the file or unset SYMON_ALERTS_CONFIG_PATH: " +:+ error_text err), d)
    | Ok rules =>
        match SetupRules now rules path d with
        | (Err err, d) => (Exits ("cannot import the alert rules: " +:+ error_text err), d)
        | (Ok setup, d) => (Prints (if setup_Done setup then "" else setup_message path setup), d)
        end
    end.

Definition importRules (now : time) (path : string) (file : result error string) : command Command := λ d,
  match LoadRules decode path file with
  | Err err => (Exits (error_text err), d)
  | Ok rules =>
      match ImportRules now rules "command line" d with
      | (Err err, d) => (Exits ("cannot import the rules: " +:+ error_text err), d)
      | (Ok (added, updated), d) =>
          (Prints ("Added " +:+ itoa added +:+ " rules and replaced " +:+ itoa updated
                   +:+ ". The collector checks them within 15 seconds."), d)
      end
  end.

(** [exportRules]: [encode] is the indented JSON of a list of rules *)
Definition exportRules (encode : list AlertConfig → result error string) (d : DB) : Command :=
  match encode (EnabledRules d) with Ok text => Prints text | Err err => Exits (error_text err) end.
End Rules.

(** [dashboardURL]: [hostname] is [os.Hostname] *)
Definition dashboardURL (config : Collector_config) (hostname : result error string) : string :=
  if negb (str_eq (cc_DashboardURL config) "") then trim_right "/" (cc_DashboardURL config)
  else "http://" +:+ match hostname with Ok name => name | Err _ => "localhost" end +:+ ":8080".

Section Accounts.
Context `{Crypto}.

(** [newPassword] with -password-stdin: the first line of stdin *)
Definition stdin_password (line : string) (err : option error) : result error string :=
  match err with
  | Some e => if str_eq line "" then Err (ErrWrap "cannot read a password from stdin" e) else Ok (trim_right (str1 13 +:+ str1 10) line)
  | None => Ok (trim_right (str1 13 +:+ str1 10) line)
  end.
Definition password_text (password : string) : string :=
  str1 10 +:+ "Password, shown only this once:" +:+ str1 10 +:+ str1 10 +:+ "  " +:+ password +:+ str1 10 +:+ str1 10.
Definition roleWords (role : string) : string :=
  if str_eq role RoleViewer then "a viewer, who can look but not change alert rules" else "an admin, who can change alert rules".
(** The password that was made up is printed, one from stdin is not. *)
Definition shown_password (fromStdin : bool) (password : string) : string := if fromStdin then "" else password_text password.

Definition addUser (now : time) (slot : option error) (salt url name role : string) (fromStdin : bool) (password : string)
    : command Command := λ d,
  match AddUser now slot salt name password role d with
  | (Ok _, d) => (Prints ("Created user " +:+ name +:+ ", " +:+ roleWords role +:+ "." +:+ str1 10
                    +:+ shown_password fromStdin password +:+ "Log in at " +:+ url +:+ str1 10), d)
  | (Err ErrUserExists, d) => (Exits ("User " +:+ name +:+ " already exists. Use -reset-password to give it a new password."), d)
  | (Err err, d) => (Exits ("cannot add the user: " +:+ error_text err), d)
  end.
Definition resetPassword (slot : option error) (salt name : string) (fromStdin : bool) (password : string) : command Command := λ d,
  match SetPassword slot salt name password d with
  | (Ok _, d) => (Prints ("Set a new password for " +:+ name +:+ " and logged them out everywhere." +:+ str1 10
                    +:+ shown_password fromStdin password), d)
  | (Err ErrNotFound, d) => (Exits ("There is no user " +:+ name +:+ "."), d)
  | (Err err, d) => (Exits ("cannot set the password: " +:+ error_text err), d)
  end.
Definition setRole (name role : string) : command Command := λ d,
  match SetRole name role d with
  | (Ok _, d) => (Prints (name +:+ " is now " +:+ roleWords role +:+ ". The dashboard picks it up within a minute." +:+ str1 10), d)
  | (Err ErrNotFound, d) => (Exits ("There is no user " +:+ name +:+ "."), d)
  | (Err err, d) => (Exits ("cannot set the role: " +:+ error_text err), d)
  end.
Definition removeUser (name : string) : command Command := λ d,
  match RemoveUser name d with
  | (Ok _, d) => (Prints ("Removed user " +:+ name +:+ " and logged them out everywhere." +:+ str1 10), d)
  | (Err ErrNotFound, d) => (Exits ("There is no user " +:+ name +:+ "."), d)
  | (Err err, d) => (Exits ("cannot remove the user: " +:+ error_text err), d)
  end.

(** [listUsers]: [day] and [moment] format a time as "Jan 2 2006" and "Jan 2
    2006 15:04" of the local zone, [table] is a tabwriter given the lines. *)
Definition user_line (day moment : time → string) (user : User) : list string :=
  [user_Name user; user_Role user; day (user_CreatedAt user);
   if is_zero (user_LastLogin user) then "never" else moment (user_LastLogin user)].
Definition listUsers (day moment : time → string) (table : list (list string) → string) (d : DB) : Command :=
  match Users d with
  | [] => Prints "No users yet, so the dashboard is locked. Add one with -add-user <name>."
  | l => Prints (table (["USER"; "ROLE"; "CREATED"; "LAST LOGIN"] :: map (user_line day moment) l))
  end.

(** [local] is [expires.Local().Format(...)]. *)
Definition printEnrollmentToken (now : time) (token url host : string) (uses : Z) (ttl : duration) (local : time → string)
    : command Command := λ d,
  match CreateEnrollmentToken now token host uses ttl d with
  | (Err err, d) => (Exits ("cannot create token: " +:+ error_text err), d)
  | (Ok (token, expires), d) =>
      let usable := (if 1 <? uses then "by " +:+ itoa uses +:+ " hosts" else "once")
                    +:+ (if str_eq host "" then "" else " by " +:+ host) in
      (Prints ("Token usable " +:+ usable +:+ " until " +:+ local expires +:+ ". On the new host run:" +:+ str1 10 +:+ str1 10
        +:+ "  curl -fsSL --connect-timeout 10 " +:+ url +:+ "/install.sh | sudo sh -s -- --token " +:+ token +:+ str1 10 +:+ str1 10
        +:+ "The host downloads the agent from the dashboard, then sends its data to the collector." +:+ str1 10
        +:+ "Run the same command again later to upgrade the agent." +:+ str1 10), d)
  end.
Definition removeAgent (name : string) : command Command := λ d,
  let removing := "Removing agent " +:+ name +:+ str1 10 in
  match RemoveHost name d with
  | (Ok _, d) => (Prints removing, d)
  | (Err ErrNotFound, d) => (Prints (removing +:+ "Agent ID " +:+ name +:+ " doesn't exist" +:+ str1 10), d)
  | (Err err, d) => (Prints (removing +:+ error_text err +:+ str1 10), d)
  end.
End Accounts.

(** What [main] does for its flags: the first of them that is given wins. *)
Record CollectorFlags := {
  fl_init : bool; fl_removeAgentVal : string; fl_enrollToken : bool; fl_addUserName : string; fl_setRoleName : string;
  fl_resetPasswordName : string; fl_removeUserName : string; fl_listUsers : bool; fl_importRulesPath : string;
  fl_exportRules : bool; fl_version : bool }.
Inductive CollectorCommand :=
  | PrintVersion | InitCollector | RemoveAgent (name : string) | PrintEnrollmentToken | AddUserNamed (name : string)
  | SetRoleOf (name : string) | ResetPasswordOf (name : string) | RemoveUserNamed (name : string) | ListUsers
  | ImportRulesFrom (path : string) | ExportRules | Serve.
Definition collector_command (f : CollectorFlags) : CollectorCommand :=
  if fl_version f then PrintVersion
  else if fl_init f then InitCollector
  else if negb (str_eq (fl_removeAgentVal f) "") then RemoveAgent (fl_removeAgentVal f)
  else if fl_enrollToken f then PrintEnrollmentToken
  else if negb (str_eq (fl_addUserName f) "") then AddUserNamed (fl_addUserName f)
  else if negb (str_eq (fl_setRoleName f) "") then SetRoleOf (fl_setRoleName f)
  else if negb (str_eq (fl_resetPasswordName f) "") then ResetPasswordOf (fl_resetPasswordName f)
  else if negb (str_eq (fl_removeUserName f) "") then RemoveUserNamed (fl_removeUserName f)
  else if fl_listUsers f then ListUsers
  else if negb (str_eq (fl_importRulesPath f) "") then ImportRulesFrom (fl_importRulesPath f)
  else if fl_exportRules f then ExportRules
  else Serve.

(** ** Bounds of the settings *)

Lemma days_exact n : 0 ≤ n ≤ 106751 → days n = n * 24 * hour.
Proof.
  intros Hn. unfold days, hour, minute, second. rewrite (wrap64_id (n * 24)), wrap64_id; unfold in_int64, int64_min, int64_max; lia.
Qed.

(** With every retention setting at most 106751 days, the store is opened
    exactly when there is a database and the minute rollups are kept 3 days or
    more, and keeps what the settings say, the defaults for those not given;
    one day more for the raw data is accepted too, and makes the interval its
    policies drop data after negative. *)
Lemma openStore_bounds (config : Collector_config) :
  let kept n otherwise := if 0 <? n then n * 24 * hour else otherwise in
  (0 ≤ cc_RetentionRawDays config ≤ 106751 ∧ 0 ≤ cc_RetentionMinuteDays config ≤ 106751 ∧ 0 ≤ cc_RetentionHourDays config ≤ 106751 →
   match openStore config with
   | Ok r => cc_DatabaseURL config ≠ "" ∧ (3 * 24 * hour ≤ keep_Minute r)%Z
       ∧ keep_Raw r = kept (cc_RetentionRawDays config) (7 * 24 * hour)
       ∧ keep_Minute r = kept (cc_RetentionMinuteDays config) (30 * 24 * hour)
       ∧ keep_Hour r = kept (cc_RetentionHourDays config) (365 * 24 * hour)
   | Err _ => cc_DatabaseURL config = "" ∨ 0 < cc_RetentionMinuteDays config < 3
   end)
  ∧ (cc_DatabaseURL config ≠ "" → cc_RetentionRawDays config = 106752 → cc_RetentionMinuteDays config = 0 →
     ∃ r, openStore config = Ok r ∧ keep_Raw r < 0).
Proof.
  intros kept. split.
  - intros (Hr & Hm & Hh). unfold openStore. destruct (str_eq _ "") eqn:E; [left; by apply str_eq_spec|].
    assert (Hne : cc_DatabaseURL config ≠ "") by (intros E'; by rewrite E' in E).
    assert (Hk : ∀ n o, 0 ≤ n ≤ 106751 → days_or n o = kept n o) by (intros n o Hn; unfold days_or; by rewrite days_exact by done).
    rewrite (Hk _ _ Hr), (Hk _ _ Hm), (Hk _ _ Hh), (days_exact 3) by lia. clear Hk.
    match goal with |- context [?k <? 3 * 24 * hour] => destruct (Z.ltb_spec k (3 * 24 * hour)) as [Hlt|Hge] end; cbn in *.
    + right. subst kept. cbv beta in Hlt. unfold DefaultRetention, keep_Minute, hour, minute, second in Hlt.
      destruct (Z.ltb_spec 0 (cc_RetentionMinuteDays config)); lia.
    + by split_and!.
  - intros Hne Hr Hm. unfold openStore, days_or. rewrite Hr, Hm.
    destruct (str_eq _ "") eqn:E; [by apply str_eq_spec in E|]. eexists. split; [reflexivity|]. by vm_compute.
Qed.
