(* ===== verification/ApiTasks.v ===== *)
(** * Task runs at the collector's server: src/internal/api/tasks.go.

    [NextTask] blocks, so it is given in its two halves: [NextTask_look] up to
    the [select], and [NextTask_answer] once one of its cases fires.  The
    other calls run in between; [call_step] is that interleaving. *)
From S2P Require Import Prelude GoStrings GoFloat GoTime Errors Monitor Alerts Json Kube Tasks Database StoreHosts StoreTasks AgentTasks Login Api.
Local Open Scope Z_scope.

Definition TaskWaitTime : duration := 25 * second.

(** ** taskWaiters *)

(** The channel the host's agents wait on, made when there is none *)
Definition wait (host : string) (w : taskWaiters) : nat * taskWaiters :=
  match tw_waiting w !! host with
  | Some woken => (woken, w)
  | None => (tw_next w, {| tw_waiting := <[host := tw_next w]> (tw_waiting w); tw_closed := tw_closed w;
                           tw_next := S (tw_next w) |})
  end.

(** Closing the channel wakes them all. *)
Definition wake (host : string) (w : taskWaiters) : taskWaiters :=
  match tw_waiting w !! host with
  | Some woken => {| tw_waiting := delete host (tw_waiting w); tw_closed := {[ woken ]} ∪ tw_closed w;
                     tw_next := tw_next w |}
  | None => w
  end.

(** ** NextTask *)

Definition assignment (run : TaskRun) : TaskAssignment :=
  {| ta_Id := run_ID run; ta_Task := run_Task run; ta_Command := run_Command run |}.
(** An empty reply means ask again. *)
Definition no_assignment : TaskAssignment := {| ta_Id := 0; ta_Task := ""; ta_Command := "" |}.

(** The channel, taken before looking, so a run asked for in between is not missed *)
Definition NextTask_wait (host : string) : SrvM nat := λ s,
  let '(woken, w) := wait host (sv_tasks s) in (Ok woken, set_waiters w s).
(** The run, or [None] to go on waiting *)
Definition NextTask_claim (now : time) (host : string) : SrvM (option TaskAssignment) :=
  run ← store toStatus (ClaimTaskRun now host); mret (option_map assignment run).
Definition NextTask_look (ctx : option string) (now : time) (serverName : string) : SrvM (nat * option TaskAssignment) :=
  let host := host_of ctx serverName in
  woken ← NextTask_wait host;
  run ← NextTask_claim now host;
  mret (woken, run).

(** The case of the [select] that fires *)
Inductive WaitEnd := Woken | TimerFired | HungUp (err : error).
(** [status.FromContextError(err).Err()] *)
Definition FromContextError (err : error) : error :=
  match cause_of err with
  | ErrCanceled => ErrStatus codes_Canceled (error_text err)
  | ErrDeadlineExceeded => ErrStatus codes_DeadlineExceeded (error_text err)
  | _ => ErrStatus 2 (error_text err)
  end.
Definition NextTask_answer (now : time) (host : string) (ended : WaitEnd) : SrvM TaskAssignment :=
  match ended with
  | TimerFired => mret no_assignment
  | HungUp err => sfail (FromContextError err)
  | Woken => run ← NextTask_claim now host; mret (default no_assignment run)
  end.

(** One call with nothing in between: [ended] is how its wait ends at [later]. *)
Definition Server_NextTask (ctx : option string) (now later : time) (ended : WaitEnd) (serverName : string)
    : SrvM TaskAssignment :=
  '(_, run) ← NextTask_look ctx now serverName;
  match run with
  | Some a => mret a
  | None => NextTask_answer later (host_of ctx serverName) ended
  end.

(** ** Reporting *)

Record TaskReport := { rp_ServerName : string; rp_Id : Z; rp_Progress : TaskProgress }.

Definition report_status (e : error) : error :=
  if bool_decide (cause_of e = ErrNotFound) then ErrStatus codes_NotFound "this run is not going any more" else toStatus e.

Definition ReportTask (ctx : option string) (now : time) (i : TaskReport) : SrvM string :=
  let host := host_of ctx (rp_ServerName i) in
  let p := rp_Progress i in
  store report_status
    (if tp_Done p
     then FinishTaskRun now host (rp_Id i) {| res_Output := tp_Output p; res_Truncated := tp_Truncated p;
                                              res_ExitCode := tp_ExitCode p; res_TimedOut := tp_TimedOut p;
                                              res_Error := tp_Error p |}
     else AppendTaskOutput host (rp_Id i) (tp_Output p) (tp_Truncated p));;
  mret "ok".

(** ** Asking and reading *)

Definition Server_HostTasks (host : string) : SrvM (list TaskInfo) :=
  list ← query toStatus (λ d, HostTasks d host);
  mret (map (λ t, {| ti_Name := task_Name t; ti_Description := task_Description t; ti_Command := task_Command t;
                     ti_TimeoutSeconds := wrap32 (task_TimeoutSeconds t) |}) list).

Record TaskRunInfo := {
  tri_Id : Z; tri_Host : string; tri_Task : string; tri_Command : string; tri_Status : string;
  tri_RequestedBy : string; tri_RequestedAt : Z; tri_StartedAt : Z; tri_FinishedAt : Z; tri_ExitCode : Z;
  tri_Error : string; tri_Output : string; tri_Truncated : bool }.

Definition taskRunInfo (run : TaskRun) : TaskRunInfo := {|
  tri_Id := run_ID run; tri_Host := run_Host run; tri_Task := run_Task run; tri_Command := run_Command run;
  tri_Status := run_Status run; tri_RequestedBy := run_RequestedBy run; tri_RequestedAt := unix (run_RequestedAt run);
  tri_StartedAt := unix (run_StartedAt run); tri_FinishedAt := unix (run_FinishedAt run);
  tri_ExitCode := wrap32 (run_ExitCode run); tri_Error := run_Error run; tri_Output := run_Output run;
  tri_Truncated := run_Truncated run |}.

Record TaskRunRequest := { trq_Host : string; trq_Task : string; trq_By : string }.

Definition request_status (i : TaskRunRequest) (e : error) : error :=
  if bool_decide (cause_of e = ErrNotFound)
  then ErrStatus codes_NotFound (trq_Host i +:+ " does not list a task named " +:+ quote (trq_Task i))
  else toStatus e.

(** Up to the row *)
Definition RequestTaskRun_insert (now : time) (i : TaskRunRequest) : SrvM TaskRun :=
  if str_eq (trq_Host i) "" || str_eq (trq_Task i) "" || str_eq (trq_By i) ""
  then invalid_argument "a run needs a host, a task and who asked"
  else store (request_status i) (RequestTaskRun now (trq_Host i) (trq_Task i) (trq_By i)).
Definition wake_host (host : string) : SrvM unit := smodify (λ s, set_waiters (wake host (sv_tasks s)) s).
Definition Server_RequestTaskRun (now : time) (i : TaskRunRequest) : SrvM TaskRunInfo :=
  run ← RequestTaskRun_insert now i;
  wake_host (trq_Host i);;
  mret (taskRunInfo run).

Definition Server_TaskRuns (host : string) (limit : Z) : SrvM (list TaskRunInfo) :=
  runs ← query toStatus (λ d, TaskRuns d host limit); mret (map taskRunInfo runs).
Definition Server_TaskRun (id : Z) : SrvM TaskRunInfo :=
  run ← query toStatus (λ d, Store_TaskRun d id); mret (taskRunInfo run).

(** ** Calls that overlap *)

(** Where a call of [NextTask] is: before its claim, or in the [select] *)
Inductive Phase := Looking (woken : nat) | Sleeping (woken : nat).
Definition channel_of (p : Phase) : nat := match p with Looking ch | Sleeping ch => ch end.

(** The server, its clock, the calls of [NextTask] that are going, and the
    calls of [RequestTaskRun] that made their row and did not wake yet. *)
Record Calls := {
  ca_server : Server; ca_clock : time; ca_next : gmap nat (string * Phase); ca_asking : gmap nat string }.

Definition with_next (s : Calls) (srv : Server) (next : gmap nat (string * Phase)) : Calls :=
  {| ca_server := srv; ca_clock := ca_clock s; ca_next := next; ca_asking := ca_asking s |}.
Definition with_asking (s : Calls) (srv : Server) (asking : gmap nat string) : Calls :=
  {| ca_server := srv; ca_clock := ca_clock s; ca_next := ca_next s; ca_asking := asking |}.

(** What else happens to the database meanwhile: the other operations on
    runs and hosts *)
Inductive other_step (now : time) (d : DB) : DB → Prop :=
  | os_append host id output truncated : other_step now d (AppendTaskOutput host id output truncated d).2
  | os_finish host id result : other_step now d (FinishTaskRun now host id result d).2
  | os_sweep : other_step now d (SweepTaskRuns now d).2
  | os_purge keep : other_step now d (PurgeTaskRuns now keep d).2
  | os_tasks host list : other_step now d (SaveHostTasks host list d).2
  | os_add name timezone : other_step now d (AddHost name timezone d).2
  | os_remove name : other_step now d (RemoveHost name d).2.

Inductive call_step (s : Calls) : Calls → Prop :=
  | cs_wait c host ch srv : ca_next s !! c = None → NextTask_wait host (ca_server s) = (Ok ch, srv) →
      call_step s (with_next s srv (<[c := (host, Looking ch)]> (ca_next s)))
  | cs_claim c host ch run srv : ca_next s !! c = Some (host, Looking ch) →
      NextTask_claim (ca_clock s) host (ca_server s) = (Ok run, srv) →
      call_step s (with_next s srv match run with
                                   | Some _ => delete c (ca_next s)
                                   | None => <[c := (host, Sleeping ch)]> (ca_next s)
                                   end)
  | cs_end c host ch ended r srv : ca_next s !! c = Some (host, Sleeping ch) →
      (ended = Woken → ch ∈ tw_closed (sv_tasks (ca_server s))) →
      NextTask_answer (ca_clock s) host ended (ca_server s) = (r, srv) →
      call_step s (with_next s srv (delete c (ca_next s)))
  | cs_ask c i run srv : ca_asking s !! c = None → RequestTaskRun_insert (ca_clock s) i (ca_server s) = (Ok run, srv) →
      call_step s (with_asking s srv (<[c := trq_Host i]> (ca_asking s)))
  | cs_ask_fails i e srv : RequestTaskRun_insert (ca_clock s) i (ca_server s) = (Err e, srv) →
      call_step s (with_asking s srv (ca_asking s))
  | cs_wake c host srv : ca_asking s !! c = Some host → wake_host host (ca_server s) = (Ok (), srv) →
      call_step s (with_asking s srv (delete c (ca_asking s)))
  | cs_other d : other_step (ca_clock s) (sv_db (ca_server s)) d →
      call_step s (with_asking s (set_db d (ca_server s)) (ca_asking s))
  | cs_tick t : ca_clock s ≤ t →
      call_step s {| ca_server := ca_server s; ca_clock := t; ca_next := ca_next s; ca_asking := ca_asking s |}.

Definition start_calls (d : DB) (now : time) : Calls :=
  {| ca_server := start_server d; ca_clock := now; ca_next := ∅; ca_asking := ∅ |}.
