(* ===== verification/ApiTasksProps.v ===== *)
(** * No agent sleeps through a run: the calls of [ApiTasks] interleaved. *)
From S2P Require Import Prelude GoStrings GoFloat GoTime Errors Monitor Alerts Json Kube Tasks Database StoreHosts StoreTasks AgentTasks Login Api ApiTasks StoreTasksProps.
Local Open Scope Z_scope.

(** The host has a run an agent would be handed now. *)
Definition has_claim (now : time) (d : DB) (host : string) : Prop :=
  ∃ r, r ∈ task_runs d ∧ is_claimable now d host r = true.

(** Ids of hosts are not used twice. *)
Record host_ids_ok (d : DB) : Prop := {
  hi_ids : NoDup (map h_id (hosts d));
  hi_fresh : ∀ h, h ∈ hosts d → h_id h < seq d;
  hi_runs : ∀ r, r ∈ task_runs d → tr_host_id r < seq d }.

Lemma is_claimable_spec now d host r : is_claimable now d host r = true ↔
  tr_status r = TaskQueued ∧ of_host_named d host r = true ∧ now - taskPickupWindow < tr_requested_at r.
Proof. unfold is_claimable, time_add. rewrite !andb_true_iff, str_eq_spec, Z.ltb_lt. intuition lia. Qed.

Lemma has_claim_mono now now' d host : now ≤ now' → has_claim now' d host → has_claim now d host.
Proof.
  intros Hn (r & Hr & (Hq & Hh & Ht)%is_claimable_spec). exists r. split; [done|]. apply is_claimable_spec.
  split_and!; [done..|]. unfold time in *. lia.
Qed.

(** ** Operations that queue nothing *)

(** What [d'] has of queued runs, [d] has too, and no name got the id of an
    older host. *)
Definition quiet (d d' : DB) : Prop :=
  seq d ≤ seq d' ∧ (∀ r, r ∈ task_runs d' → tr_status r = TaskQueued → r ∈ task_runs d)
  ∧ (∀ host r, tr_host_id r < seq d → of_host_named d' host r = true → of_host_named d host r = true).

#[global] Instance quiet_preorder : PreOrder quiet.
Proof.
  split; [intros d; split_and!; [lia|done..]|]. intros d1 d2 d3 (S1 & A1 & B1) (S2 & A2 & B2). split_and!; [lia|by auto|].
  intros host r Hr Ho. apply B1; [done|]. apply B2; [lia|done].
Qed.

Lemma quiet_claims now d d' host : host_ids_ok d → quiet d d' → has_claim now d' host → has_claim now d host.
Proof.
  intros Hd (_ & Hr & Hh) (r & Hin & (Hq & Ho & Ht)%is_claimable_spec). exists r. specialize (Hr r Hin Hq).
  split; [done|]. apply is_claimable_spec. split_and!; [done| |done]. apply Hh; [|done]. by apply (hi_runs d).
Qed.

(** An operation that is quiet and keeps the ids unique *)
Definition gentle (d d' : DB) : Prop := host_ids_ok d → host_ids_ok d' ∧ quiet d d'.

#[global] Instance gentle_preorder : PreOrder gentle.
Proof.
  split; [by intros d Hd|]. intros d1 d2 d3 H1 H2 Hd. destruct (H1 Hd) as [Hd2 Q1], (H2 Hd2) as [Hd3 Q2].
  split; [done|by etrans].
Qed.

Lemma update_runs_gentle p f d : (∀ r, tr_host_id (f r) = tr_host_id r) →
  (∀ r, p r = true → tr_status (f r) ≠ TaskQueued) → gentle d (update_runs p f d).
Proof.
  intros Hs Hf [A B C]. split; [split; [done..|]|split_and!; [done| |done]].
  - intros r (x & Hx & ->)%elem_of_update_where. destruct (p x); rewrite ?Hs; by apply C.
  - intros r (x & Hx & ->)%elem_of_update_where. destruct (p x) eqn:E; [|done]. intros Hq. by destruct (Hf x E).
Qed.

Lemma ClaimTaskRun_gentle now host d : gentle d (ClaimTaskRun now host d).2.
Proof.
  unfold ClaimTaskRun. cbn. etrans; [|by apply update_runs_gentle]. by apply update_runs_gentle.
Qed.

Lemma update_hosts_gentle p f d : (∀ h, h_id (f h) = h_id h) → (∀ h, h_name (f h) = h_name h) →
  gentle d (update_hosts p f d).
Proof.
  intros Hi Hn [A B C]. split; [split|split_and!; [done..|]].
  - unfold update_hosts. cbn -[update_where]. by rewrite map_update_where.
  - intros h (x & Hx & ->)%elem_of_update_where. destruct (p x); rewrite ?Hi; by apply B.
  - done.
  - intros host r _. unfold of_host_named, host_by_name, update_hosts. cbn. clear -Hi Hn.
    induction (hosts d) as [|h l IH]; [done|]. cbn. unfold host_named in *.
    assert (E : h_name (if p h then f h else h) = h_name h) by (destruct (p h); auto). rewrite E.
    destruct (str_eq (h_name h) host); [|done]. by destruct (p h); rewrite ?Hi.
Qed.

Lemma host_by_name_app d name l : host_by_name (set_hosts (hosts d ++ l) d) name =
  match host_by_name d name with Some h => Some h | None => List.find (host_named name) l end.
Proof.
  unfold host_by_name. cbn. induction (hosts d) as [|h hs IH]; [done|]. cbn. by destruct (host_named name h).
Qed.

Lemma AddHost_gentle name timezone d : gentle d (AddHost name timezone d).2.
Proof.
  intros [A B C]. unfold AddHost, next_id.
  change (host_by_name (set_seq (seq d + 1) d) name) with (host_by_name d name).
  destruct (host_by_name d name) as [h|] eqn:Eh; cbn.
  - split; [|split_and!; [cbn; lia|done..]]. split; [done|intros x Hx%B; cbn; lia|intros r Hr%C; cbn; lia].
  - split; [split; cbn|split_and!; [cbn; lia|done|]].
    + rewrite map_app. apply NoDup_app. split_and!; [done| |apply NoDup_singleton].
      intros i (x & -> & Hx%B)%list_elem_of_fmap E%list_elem_of_singleton. cbn in E. lia.
    + intros x [Hx|Hx]%elem_of_app; [apply B in Hx; cbn; lia|]. apply list_elem_of_singleton in Hx as ->. cbn. lia.
    + intros r Hr%C. lia.
    + intros host r Hr. unfold of_host_named. rewrite (host_by_name_app (set_seq (seq d + 1) d)).
      change (host_by_name (set_seq (seq d + 1) d) host) with (host_by_name d host).
      destruct (host_by_name d host) as [x|]; [done|]. cbn. destruct (host_named host _); [|done].
      rewrite Z.eqb_eq. cbn. lia.
Qed.

Lemma host_by_name_delete name d host : host ≠ name →
  List.find (host_named host) (delete_where (host_named name) (hosts d)) = host_by_name d host.
Proof.
  intros Hn. unfold host_by_name, delete_where. induction (hosts d) as [|h l IH]; [done|]. cbn.
  destruct (host_named name h) eqn:E; cbn; [|by destruct (host_named host h)].
  rewrite IH. unfold host_named in *. apply str_eq_spec in E. rewrite E.
  destruct (str_eq name host) eqn:E2; [by apply str_eq_spec in E2|done].
Qed.

Lemma RemoveHost_gentle name d : gentle d (RemoveHost name d).2.
Proof.
  intros [A B C]. unfold RemoveHost. destruct (host_by_name d name) as [h|]; [|by split]. cbn -[delete_where].
  split; [split; cbn -[delete_where]|split_and!; [done|..]].
  - by apply NoDup_map_filter.
  - intros x [Hx _]%elem_of_delete_where. by apply B.
  - intros r [Hr _]%elem_of_delete_where. by apply C.
  - cbn -[delete_where]. by intros r [Hr _]%elem_of_delete_where.
  - intros host r _. unfold of_host_named at 1, host_by_name. cbn -[delete_where].
    destruct (decide (host = name)) as [->|Hn]; [|by rewrite host_by_name_delete].
    destruct (List.find _ _) as [x|] eqn:E; [|done]. apply find_in in E as [[_ E1]%elem_of_delete_where E2]. congruence.
Qed.

Lemma other_step_gentle now d d' : other_step now d d' → gentle d d'.
Proof.
  assert (Hgoing : ∀ host id r, is_going d host id r = true → tr_status r ≠ TaskQueued).
  { unfold is_going. intros host id r Hr. rewrite !andb_true_iff in Hr. destruct Hr as [[_ Hr%str_eq_spec] _].
    by rewrite Hr. }
  destruct 1.
  - unfold AppendTaskOutput. do 2 (case_match; [reflexivity|]). cbn. apply update_runs_gentle; [done|]. by apply Hgoing.
  - unfold FinishTaskRun. do 2 (case_match; [reflexivity|]). cbn. apply update_runs_gentle; [done|].
    intros r _. cbn. unfold TaskResult_status. by repeat case_match.
  - unfold SweepTaskRuns. cbn. etrans; by apply update_runs_gentle.
  - intros [A B C]. unfold PurgeTaskRuns. cbn -[delete_where]. split; [split; [done..|]|split_and!; [done| |done]].
    + intros r [Hr _]%elem_of_delete_where. by apply C.
    + by intros r [Hr _]%elem_of_delete_where.
  - by apply update_hosts_gentle.
  - apply AddHost_gentle.
  - apply RemoveHost_gentle.
Qed.

(** ** Claiming and asking *)

Lemma ClaimTaskRun_run now host d : ∃ run, (ClaimTaskRun now host d).1 = Ok run ∧
  match run with
  | Some t => ∃ r, r ∈ task_runs d ∧ is_claimable now d host r = true ∧ t = claimed host r
  | None => ¬ has_claim now d host ∧ ¬ has_claim now (ClaimTaskRun now host d).2 host
  end.
Proof.
  unfold ClaimTaskRun. set (d1 := update_runs _ _ d). cbn -[update_runs is_claimable].
  destruct (List.find _ _) as [r|] eqn:E; (eexists; split; [done|]); cbn -[update_runs is_claimable].
  - apply find_in in E as [Hr Hc]. exists r. split; [|done].
    apply (proj1 (is_claimable_spec _ _ _ _)) in Hc as (Hq & _). apply elem_of_update_where in Hr as (x & Hx & ->).
    by destruct (is_lost_claim d host x).
  - pose proof (proj1 (find_nothing _ _) E) as Hn. split.
    + intros (r & Hr & Hc). pose proof (proj1 (is_claimable_spec _ _ _ _) Hc) as (Hq & _).
      assert (r ∈ task_runs d1) as Hr1.
      { apply elem_of_update_where. exists r. split; [done|]. unfold is_lost_claim. by rewrite Hq. }
      apply Hn in Hr1. change (is_claimable now d host r = false) in Hr1. congruence.
    + unfold update_runs at 1. rewrite update_where_none by done. intros (r & Hr & Hc). apply Hn in Hr.
      change (is_claimable now d host r = false) in Hr. change (is_claimable now d host r = true) in Hc. congruence.
Qed.

Lemma NextTask_claim_run now host s r srv : NextTask_claim now host s = (r, srv) →
  srv = set_db (ClaimTaskRun now host (sv_db s)).2 s ∧ ∃ run, r = Ok (option_map assignment run)
  ∧ (ClaimTaskRun now host (sv_db s)).1 = Ok run.
Proof.
  unfold NextTask_claim, store, mbind, SM_bind, sbind, mret, SM_ret, sret. cbv beta.
  destruct (ClaimTaskRun_run now host (sv_db s)) as (run & E & _).
  destruct (ClaimTaskRun now host (sv_db s)) as [q d']. cbn in E. subst q. intros [= <- <-]. split; [done|]. by exists run.
Qed.

Lemma NextTask_answer_gentle now host ended s r srv : NextTask_answer now host ended s = (r, srv) →
  gentle (sv_db s) (sv_db srv) ∧ sv_tasks srv = sv_tasks s.
Proof.
  destruct ended; cbn; [|intros [= <- <-]; split; [reflexivity|done]..].
  unfold mbind, SM_bind, sbind. cbv beta. destruct (NextTask_claim now host s) as [q s'] eqn:E.
  apply NextTask_claim_run in E as (-> & run & -> & _). intros [= <- <-]. split; [apply ClaimTaskRun_gentle|done].
Qed.

Lemma seq_gentle d : gentle d (set_seq (seq d + 1) d).
Proof.
  intros [A B C]. split; [|split_and!; [cbn; lia|done..]]. split; [done|intros x Hx%B; cbn; lia|intros r Hr%C; cbn; lia].
Qed.

Lemma RequestTaskRun_gentle now host task by_ d : host_ids_ok d →
  match RequestTaskRun now host task by_ d with
  | (Err _, d') => gentle d d'
  | (Ok _, d') => host_ids_ok d' ∧ ∀ t other, has_claim t d' other → has_claim t d other ∨ other = host
  end.
Proof.
  intros Hd. unfold RequestTaskRun. destruct (host_by_name d host) as [h|] eqn:Eh; [|reflexivity].
  destruct (List.filter _ _) as [|t more]; [reflexivity|]. unfold next_id.
  destruct (exists_where _ _ || _); [apply seq_gentle|].
  apply host_by_name_some in Eh as [Hh <-]. destruct Hd as [A B C]. split; [split; cbn|].
  - done.
  - intros x Hx%B. lia.
  - intros r [Hr|Hr]%elem_of_app; [apply C in Hr; lia|]. apply list_elem_of_singleton in Hr as ->. cbn.
    apply B in Hh. lia.
  - intros t0 other (r & [Hr|Hr]%elem_of_app & (Hq & Ho & Ht)%is_claimable_spec).
    + left. exists r. split; [done|]. by apply is_claimable_spec.
    + right. apply list_elem_of_singleton in Hr as ->. unfold of_host_named in Ho.
      change (host_by_name _ other) with (host_by_name d other) in Ho.
      destruct (host_by_name d other) as [x|] eqn:Ex; [|done]. apply host_by_name_some in Ex as [Hx <-].
      cbn in Ho. apply Z.eqb_eq in Ho. f_equal. by apply (NoDup_map_inj h_id (hosts d)).
Qed.

(** ** The invariant of the calls *)

#[local] Notation waiters s := (sv_tasks (ca_server s)).
#[local] Notation db s := (sv_db (ca_server s)).

Record calls_ok (s : Calls) : Prop := {
  co_hosts : host_ids_ok (db s);
  co_open : ∀ host ch, tw_waiting (waiters s) !! host = Some ch → ch ∉ tw_closed (waiters s) ∧ (ch < tw_next (waiters s))%nat;
  co_closed : ∀ ch, ch ∈ tw_closed (waiters s) → (ch < tw_next (waiters s))%nat;
  co_mine : ∀ host other ch, tw_waiting (waiters s) !! host = Some ch → tw_waiting (waiters s) !! other = Some ch →
    host = other;
  co_calls : ∀ c host p, ca_next s !! c = Some (host, p) →
    channel_of p ∈ tw_closed (waiters s) ∨ tw_waiting (waiters s) !! host = Some (channel_of p);
  co_awake : ∀ c host ch, ca_next s !! c = Some (host, Sleeping ch) → ch ∉ tw_closed (waiters s) →
    has_claim (ca_clock s) (db s) host → ∃ k, ca_asking s !! k = Some host }.

Lemma start_calls_ok d now : host_ids_ok d → calls_ok (start_calls d now).
Proof. intros Hd. by split. Qed.

(** A step that leaves the waiters and the askers alone: calls may end, and
    may fall asleep when there is nothing to claim. *)
Lemma calls_ok_keep (s s' : Calls) : calls_ok s → gentle (db s) (db s') → waiters s' = waiters s →
  ca_asking s' = ca_asking s → ca_clock s ≤ ca_clock s' →
  (∀ c host p, ca_next s' !! c = Some (host, p) → ca_next s !! c = Some (host, p) ∨
    ∃ ch, p = Sleeping ch ∧ ca_next s !! c = Some (host, Looking ch) ∧ ¬ has_claim (ca_clock s') (db s') host) →
  calls_ok s'.
Proof.
  intros [H1 H2 H3 H4 H5 H6] Hg Hw Ha Ht Hn. destruct (Hg H1) as [Hi Hq]. split; rewrite ?Hw, ?Ha; try done.
  - intros c host p [Hc|(ch & -> & Hc & _)]%Hn; [by eapply H5|]. by apply (H5 c host (Looking ch)).
  - intros c host ch [Hc|(ch' & [= <-] & Hc & Hno)]%Hn Hop Hcl; [|done]. apply (H6 c host ch); [done..|].
    apply (has_claim_mono _ (ca_clock s')); [done|]. by apply (quiet_claims _ _ (db s')).
Qed.

(** Waiting: the channel of the host, or a fresh one *)
Lemma wait_ok (s : Calls) c host ch srv : calls_ok s → NextTask_wait host (ca_server s) = (Ok ch, srv) →
  calls_ok (with_next s srv (<[c := (host, Looking ch)]> (ca_next s))).
Proof.
  unfold NextTask_wait, wait. intros [H1 H2 H3 H4 H5 H6] Hw.
  destruct (tw_waiting (waiters s) !! host) as [ch'|] eqn:E; injection Hw as <- <-; split; cbn; try done.
  - intros c' host' p. rewrite lookup_insert_Some. intros [[_ [= <- <-]]|[_ Hc']]; [by right|by eapply H5].
  - intros c' host' ch. rewrite lookup_insert_Some. intros [[_ [=]]|[_ Hc']]. by eapply H6.
  - intros host' ch. rewrite lookup_insert_Some. intros [[_ <-]|[_ Hch]].
    + split; [|lia]. intros Hin%H3. lia.
    + destruct (H2 _ _ Hch). split; [done|lia].
  - intros ch Hin%H3. lia.
  - intros a b ch. rewrite !lookup_insert_Some. intros [[<- <-]|[Na Ha]] [[<- Hb]|[Nb Hb]]; try done.
    + apply H2 in Hb as [_ Hb]. lia.
    + subst ch. apply H2 in Ha as [_ Ha]. lia.
    + by eapply H4.
  - intros c' host' p. rewrite lookup_insert_Some. intros [[_ [= <- <-]]|[_ Hc']]; cbn.
    + right. by rewrite lookup_insert_eq.
    + destruct (H5 _ _ _ Hc') as [Hin|Hin]; [by left|]. right. rewrite lookup_insert_ne; [done|]. congruence.
  - intros c' host' ch. rewrite lookup_insert_Some. intros [[_ [=]]|[_ Hc']]. by eapply H6.
Qed.

Lemma claim_ok (s : Calls) c host ch run srv : calls_ok s → ca_next s !! c = Some (host, Looking ch) →
  NextTask_claim (ca_clock s) host (ca_server s) = (Ok run, srv) →
  calls_ok (with_next s srv (match run with
                             | Some _ => delete c (ca_next s)
                             | None => <[c := (host, Sleeping ch)]> (ca_next s)
                             end)).
Proof.
  intros Hok Hc Hr. apply NextTask_claim_run in Hr as (-> & t & [= ->] & Et).
  destruct (ClaimTaskRun_run (ca_clock s) host (db s)) as (t' & Et' & Hnone). rewrite Et in Et'. injection Et' as <-.
  apply (calls_ok_keep s); [done|apply ClaimTaskRun_gentle|reflexivity..|]. intros c' host' p. cbn. destruct t as [t|]; cbn.
  - rewrite lookup_delete_Some. intros [_ Hc']. by left.
  - rewrite lookup_insert_Some. intros [[<- [= <- <-]]|[_ Hc']]; [|by left]. right. exists ch. by destruct Hnone.
Qed.

(** Asking: the new row is looked after by the call that made it. *)
Lemma ask_ok (s : Calls) c i run srv : calls_ok s → ca_asking s !! c = None →
  RequestTaskRun_insert (ca_clock s) i (ca_server s) = (Ok run, srv) →
  calls_ok (with_asking s srv (<[c := trq_Host i]> (ca_asking s))).
Proof.
  intros Hok Hc Hr. unfold RequestTaskRun_insert in Hr. destruct (_ || _); [done|]. unfold store in Hr.
  pose proof (RequestTaskRun_gentle (ca_clock s) (trq_Host i) (trq_Task i) (trq_By i) (db s) (co_hosts _ Hok)) as Hg.
  destruct (RequestTaskRun _ _ _ _ _) as [[q|q] d']; [|done]. injection Hr as _ <-. destruct Hg as [Hi Hnew].
  destruct Hok as [H1 H2 H3 H4 H5 H6]. split; cbn; try done. intros c' host ch Hc' Hop [Hcl| ->]%Hnew.
  - destruct (H6 _ _ _ Hc' Hop Hcl) as [k Hk]. exists k. rewrite lookup_insert_ne; [done|]. congruence.
  - exists c. by rewrite lookup_insert_eq.
Qed.

Lemma ask_fails_ok (s : Calls) i e srv : calls_ok s → RequestTaskRun_insert (ca_clock s) i (ca_server s) = (Err e, srv) →
  calls_ok (with_asking s srv (ca_asking s)).
Proof.
  intros Hok Hr. unfold RequestTaskRun_insert in Hr. destruct (_ || _).
  { injection Hr as _ <-. apply (calls_ok_keep s); [done|reflexivity..|]. intros c host p Hc. by left. }
  unfold store in Hr.
  pose proof (RequestTaskRun_gentle (ca_clock s) (trq_Host i) (trq_Task i) (trq_By i) (db s) (co_hosts _ Hok)) as Hg.
  destruct (RequestTaskRun _ _ _ _ _) as [[q|q] d']; [done|]. injection Hr as _ <-.
  apply (calls_ok_keep s); [done|done|reflexivity..|]. intros c host p Hc. by left.
Qed.

(** Waking: everyone who sleeps on the host's channel is woken. *)
Lemma wake_ok (s : Calls) c host srv : calls_ok s → ca_asking s !! c = Some host →
  wake_host host (ca_server s) = (Ok (), srv) → calls_ok (with_asking s srv (delete c (ca_asking s))).
Proof.
  intros [H1 H2 H3 H4 H5 H6] Hc Hr. unfold wake_host, smodify, wake in Hr. injection Hr as <-.
  assert (Hstill : ∀ c' host' ch', ca_next s !! c' = Some (host', Sleeping ch') → ch' ∉ tw_closed (waiters s) →
    tw_waiting (waiters s) !! host ≠ Some ch' → has_claim (ca_clock s) (db s) host' →
    ∃ k, delete c (ca_asking s) !! k = Some host').
  { intros c' host' ch' Hc' Hop Hne Hcl. destruct (H6 _ _ _ Hc' Hop Hcl) as [k Hk]. exists k.
    rewrite lookup_delete_ne; [done|]. intros <-. destruct (H5 _ _ _ Hc') as [Hin|Hin]; [done|]. cbn in Hin. congruence. }
  destruct (tw_waiting (waiters s) !! host) as [ch|] eqn:E; split; cbn; try done.
  - intros host' ch'. rewrite lookup_delete_Some. intros [Hn Hch]. destruct (H2 _ _ Hch) as [Hop Hlt]. split; [|done].
    rewrite not_elem_of_union, not_elem_of_singleton. split; [|done]. intros ->. by apply Hn, (H4 _ _ ch).
  - intros ch' [Hin|Hin]%elem_of_union; [|by apply H3]. apply elem_of_singleton in Hin as ->. by apply (H2 host).
  - intros a b ch'. rewrite !lookup_delete_Some. intros [_ Ha] [_ Hb]. by eapply H4.
  - intros c' host' p Hc'. destruct (H5 _ _ _ Hc') as [Hin|Hin]; [left; set_solver|].
    destruct (decide (host = host')) as [<-|Hn]; [left; rewrite E in Hin; injection Hin as ->; set_solver|].
    right. by rewrite lookup_delete_ne.
  - intros c' host' ch' Hc'. rewrite not_elem_of_union, not_elem_of_singleton. intros [Hne Hop].
    apply (Hstill _ _ _ Hc' Hop). congruence.
  - intros c' host' ch' Hc' Hop. by apply (Hstill _ _ _ Hc' Hop).
Qed.

Lemma call_step_ok s s' : call_step s s' → calls_ok s → calls_ok s'.
Proof.
  intros Hs Hok. destruct Hs as [c host ch srv Hc Hw|c host ch run srv Hc Hr|c host ch ended r srv Hc He Hr
    |c i run srv Hc Hr|i e srv Hr|c host srv Hc Hr|d Ho|t Ht].
  - by apply (wait_ok _ _ host).
  - by apply (claim_ok _ _ host ch).
  - apply NextTask_answer_gentle in Hr as [Hg Hw]. apply (calls_ok_keep s); [done..|reflexivity|reflexivity|]. intros c' host' p. cbn.
    rewrite lookup_delete_Some. intros [_ Hc']. by left.
  - by apply (ask_ok _ _ _ run).
  - by apply (ask_fails_ok _ i e).
  - by apply (wake_ok _ _ host).
  - apply (calls_ok_keep s); [done|by eapply other_step_gentle|reflexivity..|]. intros c host p Hc. by left.
  - apply (calls_ok_keep s); [done|reflexivity..|done|]. intros c host p Hc. by left.
Qed.

(** ** Properties *)

(** C29: No agent sleeps through a run.  However the calls of NextTask and
    RequestTaskRun, the reports, the sweeps and the changes of hosts
    interleave, a channel is never closed twice; and when no call is between
    making a run and waking its host, an agent that waits while its host has
    a run it may be handed has a closed channel, so its wait ends, and it is
    then handed such a run. *)
Theorem no_lost_wakeup (d : DB) (t : time) (s : Calls) : host_ids_ok d → rtc call_step (start_calls d t) s →
  (∀ host ch, tw_waiting (waiters s) !! host = Some ch → ch ∉ tw_closed (waiters s))
  ∧ ∀ c host ch, ca_next s !! c = Some (host, Sleeping ch) → has_claim (ca_clock s) (db s) host →
      (∀ k, ca_asking s !! k ≠ Some host) →
      ch ∈ tw_closed (waiters s) ∧ ∃ r srv, r ∈ task_runs (db s) ∧ is_claimable (ca_clock s) (db s) host r = true
        ∧ NextTask_answer (ca_clock s) host Woken (ca_server s) = (Ok (assignment (claimed host r)), srv)
        ∧ call_step s (with_next s srv (delete c (ca_next s))).
Proof.
  intros Hd Hs. assert (calls_ok s) as Hok.
  { apply (rtc_invariant call_step calls_ok _ _ call_step_ok Hs). by apply start_calls_ok. }
  split; [by intros host ch [Hch _]%(co_open _ Hok)|]. intros c host ch Hc Hcl Hno.
  assert (ch ∈ tw_closed (waiters s)) as Hin.
  { destruct (decide (ch ∈ tw_closed (waiters s))) as [Hin|Hop]; [done|].
    destruct (co_awake _ Hok _ _ _ Hc Hop Hcl) as [k Hk]. by destruct (Hno k). }
  split; [done|]. destruct (NextTask_claim (ca_clock s) host (ca_server s)) as [q srv] eqn:E.
  pose proof (NextTask_claim_run _ _ _ _ _ E) as (-> & run & -> & Er).
  destruct (ClaimTaskRun_run (ca_clock s) host (db s)) as (run' & Er' & Hrun). rewrite Er in Er'. injection Er' as <-.
  destruct run as [run|]; cbn in E.
  - destruct Hrun as (r & Hr & Hcr & ->). exists r, (set_db (ClaimTaskRun (ca_clock s) host (db s)).2 (ca_server s)).
    assert (Ha : NextTask_answer (ca_clock s) host Woken (ca_server s) =
      (Ok (assignment (claimed host r)), set_db (ClaimTaskRun (ca_clock s) host (db s)).2 (ca_server s))).
    { cbn. unfold mbind, SM_bind, sbind. cbv beta. by rewrite E. }
    split_and!; [done..|]. by apply (cs_end s c host ch Woken (Ok (assignment (claimed host r)))).
  - by destruct Hrun.
Qed.

(** ** An agent waits, a run is asked for, the agent is woken *)

Definition ask_backup : TaskRunRequest := {| trq_Host := "web1"; trq_Task := "backup"; trq_By := "ann" |}.
Definition waiting_call : Calls :=
  let s := start_calls tasks_db 100 in
  with_next s (NextTask_wait "web1" (ca_server s)).2 (<[0%nat := ("web1", Looking 0%nat)]> (ca_next s)).
Definition sleeping : Calls :=
  with_next waiting_call (NextTask_claim 100 "web1" (ca_server waiting_call)).2
    (<[0%nat := ("web1", Sleeping 0%nat)]> (ca_next waiting_call)).
Definition asked : Calls :=
  with_asking sleeping (RequestTaskRun_insert 100 ask_backup (ca_server sleeping)).2
    (<[1%nat := "web1"]> (ca_asking sleeping)).
Definition woken : Calls :=
  with_asking asked (wake_host "web1" (ca_server asked)).2 (delete 1%nat (ca_asking asked)).

Lemma woken_reached : rtc call_step (start_calls tasks_db 100) woken.
Proof.
  apply (rtc_l _ _ waiting_call); [by apply (cs_wait _ 0%nat "web1")|].
  apply (rtc_l _ _ sleeping); [apply (cs_claim waiting_call 0%nat "web1" 0%nat None); vm_compute; reflexivity|].
  apply (rtc_l _ _ asked).
  - apply (cs_ask sleeping 1%nat ask_backup (requested "web1" (new_run 100 10 1 backup_task "ann")));
      vm_compute; reflexivity.
  - apply rtc_once. apply (cs_wake asked 1%nat "web1"); vm_compute; reflexivity.
Qed.

Definition backup_run : RunRow := new_run 100 10 1 backup_task "ann".

Lemma woken_runs : task_runs (sv_db (ca_server woken)) = [backup_run].
Proof. vm_compute. reflexivity. Qed.

Lemma woken_claim : has_claim 100 (sv_db (ca_server woken)) "web1".
Proof. exists backup_run. rewrite woken_runs. split; [by left|]. vm_compute. reflexivity. Qed.

Lemma tasks_db_ids : host_ids_ok tasks_db.
Proof.
  split; [apply (NoDup_singleton 1)|..].
  - intros h Hh. apply list_elem_of_singleton in Hh as ->. reflexivity.
  - intros r Hr. by apply not_elem_of_nil in Hr.
Qed.

Lemma woken_asleep : ca_next woken !! 0%nat = Some ("web1", Sleeping 0%nat).
Proof. vm_compute. reflexivity. Qed.

Lemma no_lost_wakeup_witness : 0%nat ∈ tw_closed (sv_tasks (ca_server woken)) ∧
  ∃ r, fst (NextTask_answer 100 "web1" Woken (ca_server woken)) = Ok r ∧ ta_Command r = "/bin/backup".
Proof.
  destruct (no_lost_wakeup tasks_db 100 woken tasks_db_ids woken_reached) as [_ H].
  destruct (H 0%nat "web1" 0%nat woken_asleep woken_claim) as (Hin & r & srv & Hr & _ & Ha & _); [done|].
  split; [done|]. change (ca_clock woken) with 100 in Ha. rewrite Ha. rewrite woken_runs in Hr.
  apply list_elem_of_singleton in Hr as ->. by eexists.
Defined.
