(* ===== verification/AgentMainProps.v ===== *)
(** * The agent against the collector, end to end.

    An update, from the admin's request to the collector's confirmation
    (AgentMain.v and AgentUpdate.v against Api.v); and a run of a task, from the
    request to what the dashboard reads back (AgentTasks.v against ApiTasks.v
    and the database), while the store goes on with everything else and
    reports get lost. *)
From S2P Require Import Prelude GoStrings GoFloat GoTime Errors Monitor Alerts Json Kube Tasks Database StoreHosts StoreUsers StoreEnrollment Snapshot StoreIngest StoreTasks StoreTasksProps StoreAlerts StoreNotifications StoreKube StoreRules StoreSchema Login Config Base64 Api AgentTasks AgentTasksProps AgentUpdate AgentUpdateProps AgentMain ApiTasks.
Local Open Scope Z_scope.

Section EndToEnd.
Context `{Ed25519} (PublicKey : string).

(** One ping of an idle agent that runs [version], with its key of [host] *)
Definition ping_round (version : string) (config : Agent_config) (env : UpdateEnv) (tasks : list Task) (host : string)
    (now : time) (u : updater) (m : Machine) (s : Server) : Fate * Machine * Server :=
  let '(answer, s') := HandlePing (Some host) now (server_info config version (ue_GOARCH env) u tasks) s in
  (sendPing PublicKey version config env tasks false (λ _, answer) u m, s').

Definition with_tasks (l : list Task) (h : HostRow) : HostRow := {|
  h_id := h_id h; h_name := h_name h; h_timezone := h_timezone h; h_last_seen := h_last_seen h;
  h_agent_version := h_agent_version h; h_agent_arch := h_agent_arch h; h_update_version := h_update_version h;
  h_update_url := h_update_url h; h_update_requested_at := h_update_requested_at h;
  h_update_error := h_update_error h; h_tasks := l |}.

Lemma HandlePing_known host now i s h : host_by_name (sv_db s) host = Some h →
  let h' := check_in now (si_AgentVersion i) (si_Arch i) (si_UpdateError i) h in
  ∃ s', HandlePing (Some host) now i s = (Ok {| ping_Body := "pong";
      ping_Update := option_map (λ u, {| wu_Version := au_Version u; wu_DownloadUrl := au_URL u;
                                         wu_RequestedAt := unix (au_RequestedAt u) |}) (waiting_update h') |}, s')
    ∧ host_by_name (sv_db s') host = Some (with_tasks (accepted_tasks (si_Tasks i)) h').
Proof.
  intros Hh h'. eexists. split.
  - unfold HandlePing, mbind, SM_bind, sbind, store. change (host_of (Some host) (si_ServerName i)) with host.
    unfold AgentCheckIn. rewrite Hh. reflexivity.
  - exact (host_by_name_update _ host (with_tasks (accepted_tasks (si_Tasks i))) _ (λ _, eq_refl)
      (host_by_name_update _ host (check_in now (si_AgentVersion i) (si_Arch i) (si_UpdateError i)) h (λ _, eq_refl) Hh)).
Qed.

(** C14: an update an admin asks for arrives: at its next ping the agent of the
    host is told of it, and when the machine lets it install it restarts into
    the new build; the first ping of that build confirms it: the collector
    has its version, asks for nothing more, and the agent changes nothing. *)
Theorem update_end_to_end (s : Server) (m : Machine) (config : Agent_config) (env env' : UpdateEnv) (tasks tasks' : list Task)
  (host own want url : string) (h : HostRow) (now t1 t2 : time)
  (Hh : host_by_name (sv_db s) host = Some h) (Harch : h_agent_arch h ≠ "") (Hver : h_agent_version h ≠ want)
  (Hown : own ≠ want) (Hwant : want ≠ "") (Hurl : has_prefix url "http://" = true) (Hnow : unix now ≠ 0)
  (Hinstall : (selfUpdate PublicKey env {| wu_Version := want; wu_DownloadUrl := url; wu_RequestedAt := unix now |} m).1 = Ok ()) :
  let s1 := (Server_RequestAgentUpdate now {| aur_Hosts := [host]; aur_Version := want; aur_DownloadUrl := url; aur_By := "" |} s).2 in
  let '(fate, m2, s2) := ping_round own config env tasks host t1 newUpdater m s1 in
  let '(fate', m3, s3) := ping_round want config env' tasks' host t2 newUpdater m2 s2 in
  fate = Restarted ∧ fate' = GoesOn newUpdater ∧ m3 = m2 ∧
  ∃ h', host_by_name (sv_db s3) host = Some h' ∧ h_agent_version h' = want ∧ h_update_version h' = None ∧ h_update_error h' = "".
Proof.
  intros s1. assert (H1 : host_by_name (sv_db s1) host = Some (ask_update now want url h)).
  { subst s1. unfold Server_RequestAgentUpdate. cbn [aur_Version aur_DownloadUrl aur_Hosts]. rewrite Hurl.
    assert (str_eq want "" = false) as -> by (destruct (str_eq want "") eqn:E; [by apply str_eq_spec in E|done]).
    cbn. by apply requested_update. }
  unfold ping_round at 1. destruct (HandlePing_known host t1 (server_info config own (ue_GOARCH env) newUpdater tasks) s1 _ H1)
    as (s2 & -> & H2). cbn [si_AgentVersion si_Arch si_UpdateError server_info up_lastError newUpdater] in H2.
  assert (Hwait : waiting_update (check_in t1 own (ue_GOARCH env) "" (ask_update now want url h))
    = Some {| au_Version := want; au_URL := url; au_RequestedAt := now |}).
  { unfold waiting_update, check_in, ask_update. cbn. rewrite bool_decide_false by congruence. done. }
  unfold sendPing at 1. cbn [si_AgentVersion si_Arch si_UpdateError server_info up_lastError newUpdater ping_Update].
  rewrite Hwait. cbn [option_map au_Version au_URL au_RequestedAt]. unfold handle at 1, wants.
  cbn [mbind option_bind wu_Version wu_RequestedAt up_tried newUpdater].
  assert (str_eq want own = false) as -> by (destruct (str_eq want own) eqn:E; [by apply str_eq_spec in E|done]).
  rewrite (proj2 (Z.eqb_neq (unix now) 0) Hnow). cbn [orb].
  destruct (selfUpdate PublicKey env _ m) as [r m2]. cbn in Hinstall. subst r.
  unfold ping_round. destruct (HandlePing_known host t2 (server_info config want (ue_GOARCH env') newUpdater tasks') s2 _ H2)
    as (s3 & -> & H3). cbn [si_AgentVersion si_Arch si_UpdateError server_info up_lastError newUpdater] in H3.
  assert (Hdone : bool_decide (Some want = Some want) = true) by by apply bool_decide_true.
  assert (Hkept : bool_decide (Some want = Some own) = false) by (apply bool_decide_false; congruence).
  unfold sendPing. cbn [si_AgentVersion si_Arch si_UpdateError server_info up_lastError newUpdater ping_Update].
  unfold waiting_update, check_in, ask_update, with_tasks in H3 |- *. cbn in H3 |- *. rewrite Hkept in H3 |- *. cbn in H3 |- *.
  rewrite Hdone in H3 |- *. cbn in H3 |- *. split_and!; [done..|]. eexists. split; [exact H3|]. cbn.
  split_and!; [|done..]. destruct (str_eq want "") eqn:E; [by apply str_eq_spec in E|done].
Qed.
End EndToEnd.

(** ** A run in the collector's database *)

Section Row.
Context `{Crypto} `{ParseFloat} `{SnapshotJSON} `{UrlParse}.

(** The row of a run of [host], in a database that keeps its schema *)
Record stored (host : string) (r : RunRow) (d : DB) : Prop := {
  st_schema : schema d; st_row : r ∈ task_runs d; st_host : (tr_host_id r, host) ∈ map host_key (hosts d) }.

Lemma host_by_key d host id : schema d → (id, host) ∈ map host_key (hosts d) →
  ∃ h, host_by_name d host = Some h ∧ host_by_id d id = Some h ∧ h_id h = id ∧ h_name h = host.
Proof.
  intros Hd (h & [= -> ->] & Hh)%list_elem_of_fmap. exists h. destruct (sc_hosts d Hd) as [Hi _ Hn]. split_and!; [..|done|done].
  - apply find_unique; [done|apply str_eq_refl|]. intros y Hy Ey%str_eq_spec. apply (unique_inj _ _ y h (h_name h) Hn); congruence.
  - apply find_unique; [done|apply Z.eqb_refl|]. intros y Hy Ey%Z.eqb_eq. apply (unique_inj _ _ y h (h_id h) Hi); try done. unfold primary. congruence.
Qed.

Lemma stored_host host r d : stored host r d → of_host_named d host r = true ∧
  ∀ other, of_host_named d other r = true → other = host.
Proof.
  intros [Hd _ Hk]. destruct (host_by_key d host _ Hd Hk) as (h & Eh & Ei & Hi & Hn). unfold of_host_named. split; [rewrite Eh, Hi; lia|].
  intros other. destruct (host_by_name d other) as [h'|] eqn:E; [|done]. intros Ho%Z.eqb_eq. apply host_by_name_some in E as [Hin <-].
  rewrite <- Hn. f_equal. apply find_in in Ei as [Hh _]. destruct (sc_hosts d Hd) as [Hu _ _].
  apply (unique_inj _ _ h' h (h_id h) Hu); try done. unfold primary. congruence.
Qed.

Lemma stored_id host r d x : stored host r d → x ∈ task_runs d → tr_id x = tr_id r → x = r.
Proof.
  intros [Hd Hr _] Hx E. destruct (sc_runs d Hd) as [Hi _ _ _]. apply (unique_inj _ _ x r (tr_id r) Hi); try done. unfold primary. congruence.
Qed.
Lemma stored_active host r d x : stored host r d → is_active r = true → x ∈ task_runs d → is_active x = true →
  tr_host_id x = tr_host_id r → x = r.
Proof.
  intros [Hd Hr _] Ha Hx Hax E. destruct (sc_runs d Hd) as [_ _ _ Hu].
  apply (unique_inj _ _ x r (tr_host_id r) Hu); try done; unfold active_index; rewrite ?Ha, ?Hax; congruence.
Qed.

(** Operations that have nothing to do with this run: no claim by its host,
    no report on it, its host stays, and no sweep that finds it too old *)
Definition spares_run (host : string) (id : Z) (deadline : time) (op : StoreOp) : Prop :=
  match op with
  | op_ClaimTaskRun _ other | op_RemoveHost other => other ≠ host
  | op_AppendTaskOutput other run _ _ | op_FinishTaskRun _ other run _ => other ≠ host ∨ run ≠ id
  | op_SweepTaskRuns now => now < deadline
  | _ => True
  end.
(** When a sweep finds a run too old *)
Definition in_time (r : RunRow) (deadline : time) : Prop := ∀ now, now < deadline → is_expired now r = false ∧ is_silent now r = false.

Lemma row_stays p f (l : list RunRow) r : r ∈ l → p r = false → r ∈ update_where p f l.
Proof. intros Hr Hp. apply elem_of_update_where. exists r. by rewrite Hp. Qed.

Lemma not_going host r d other run : stored host r d → other ≠ host ∨ run ≠ tr_id r → is_going d other run r = false.
Proof.
  intros Hs Ho. apply not_true_iff_false. unfold is_going. rewrite !andb_true_iff, Z.eqb_eq.
  intros [[Hi _] Hh]. destruct Ho as [Ho|Ho]; [|done]. by apply (stored_host host r d Hs) in Hh.
Qed.

Lemma row_kept host r d op deadline : stored host r d → is_active r = true → in_time r deadline →
  spares_run host (tr_id r) deadline op → r ∈ task_runs (apply_op op d).
Proof.
  intros Hs Ha Ht Hop. pose proof (st_row _ _ _ Hs) as Hr. destruct (on_runs op) eqn:Er.
  2:{ destruct (on_sessions op) eqn:Es; [|by rewrite (bs_runs _ _ (apply_op_beside op Es Er d))].
      destruct op; try done; cbn [apply_op]; unfold SetPassword, RemoveUser, StoreUsers.Login, Store_ChangePassword; repeat case_match;
        simplify_eq; done. }
  destruct op; try done; cbn [apply_op spares_run] in *.
  - unfold RemoveHost. destruct (host_by_name d name) as [h|] eqn:E; [|done]. cbn. apply elem_of_delete_where. split; [done|].
    apply not_true_iff_false. intros Ei. apply Hop, (stored_host host r d Hs). unfold of_host_named. by rewrite E.
  - unfold RequestTaskRun, next_id. repeat case_match; simplify_eq; try done. cbn. apply elem_of_app. by left.
  - assert (Hh : of_host_named d host0 r = false) by (apply not_true_iff_false; by intros ?%(stored_host host r d Hs)).
    cbn. apply row_stays; [apply row_stays; [done|]|].
    + unfold is_lost_claim. by rewrite Hh, andb_false_r.
    + unfold is_claimable. change (of_host_named _ host0 r) with (of_host_named d host0 r). by rewrite Hh, andb_false_r.
  - unfold AppendTaskOutput. repeat case_match; try done. cbn. apply row_stays; [done|]. by apply (not_going host).
  - unfold FinishTaskRun. repeat case_match; try done. cbn. apply row_stays; [done|]. by apply (not_going host).
  - destruct (Ht now Hop) as [He Hl]. cbn. by apply row_stays; [apply row_stays|].
  - cbn. apply elem_of_delete_where. by rewrite Ha, andb_false_r.
Qed.

Lemma host_kept id host op d deadline run : (id, host) ∈ map host_key (hosts d) → spares_run host run deadline op →
  (id, host) ∈ map host_key (hosts (apply_op op d)).
Proof.
  intros Hk Hop. destruct (on_runs op) eqn:Er.
  2:{ destruct (on_sessions op) eqn:Es; [|by apply (bs_hosts _ _ (apply_op_beside op Es Er d))].
      destruct op; try done; cbn [apply_op]; unfold SetPassword, RemoveUser, StoreUsers.Login, Store_ChangePassword; repeat case_match;
        simplify_eq; done. }
  destruct op; try done; cbn [apply_op spares_run] in *;
    unfold RequestTaskRun, AppendTaskOutput, FinishTaskRun, next_id; try (repeat case_match; simplify_eq; done).
  unfold RemoveHost. destruct (host_by_name d name) as [row|]; [|done]. cbn.
  apply list_elem_of_fmap in Hk as (h & [= -> ->] & Hh). apply list_elem_of_fmap. exists h. split; [done|].
  apply elem_of_delete_where. split; [done|]. unfold host_named. apply not_true_iff_false. rewrite str_eq_spec. congruence.
Qed.

Lemma stored_kept host r d op deadline : stored host r d → is_active r = true → in_time r deadline →
  spares_run host (tr_id r) deadline op → stored host r (apply_op op d).
Proof.
  intros Hs Ha Ht Hop. split; [by apply apply_op_schema, Hs|by eapply row_kept|]. eapply host_kept; [by apply Hs|done].
Qed.

(** *** Asking, claiming, reporting *)

Lemma request_stored now host task by_ d h t : schema d → host_by_name d host = Some h →
  List.filter (λ x, str_eq (task_Name x) task) (h_tasks h) = [t] →
  (∀ r, r ∈ task_runs d → tr_host_id r = h_id h → is_active r = false) →
  let row := new_run now (seq d) (h_id h) t by_ in
  ∃ d', RequestTaskRun now host task by_ d = (Ok (requested host row), d') ∧ stored host row d'.
Proof.
  intros Hd Hh Ht Hfree row. pose proof (apply_op_schema (op_RequestTaskRun now host task by_) d Hd) as Hs. cbn [apply_op] in Hs.
  revert Hs. unfold RequestTaskRun. rewrite Hh, Ht. cbn. rewrite ?orb_false_r.
  rewrite (proj2 (exists_where_false _ _)).
  - intros Hs. eexists. split; [done|]. split; [exact Hs|apply elem_of_app; right; by left|]. cbn.
    apply host_by_name_some in Hh as [Hin <-]. by apply (list_elem_of_fmap_2 host_key).
  - intros r Hr. destruct (Z.eqb_spec (tr_host_id r) (h_id h)) as [E|E]; [|done]. by rewrite Hfree.
Qed.

Lemma claim_stored now host r d : stored host r d → tr_status r = TaskQueued → now < tr_requested_at r + taskPickupWindow →
  ∃ d', ClaimTaskRun now host d = (Ok (Some (claimed host r)), d') ∧ stored host (start_run now r) d'.
Proof.
  intros Hs Hq Ht. assert (Ha : is_active r = true) by (unfold is_active; by rewrite Hq).
  pose proof (apply_op_schema (op_ClaimTaskRun now host) d (st_schema _ _ _ Hs)) as Hd. cbn [apply_op] in Hd. revert Hd.
  unfold ClaimTaskRun. set (d1 := StoreTasks.update_runs (is_lost_claim d host) _ d). destruct (stored_host host r d Hs) as [Hh _].
  assert (Hr1 : r ∈ task_runs d1).
  { apply row_stays; [apply Hs|]. unfold is_lost_claim. by rewrite Hq. }
  assert (Hp : is_claimable now d1 host r = true).
  { unfold is_claimable, time_add. change (of_host_named d1 host r) with (of_host_named d host r). rewrite Hq, Hh, str_eq_refl.
    unfold time, duration in *. cbn [andb]. lia. }
  rewrite (find_unique _ (task_runs d1) r Hr1 Hp).
  - intros Hd. eexists. split; [done|]. split; [exact Hd| |exact (st_host _ _ _ Hs)].
    cbn. apply elem_of_update_where. exists r. by rewrite Hp.
  - intros y Hy Hyp. unfold is_claimable in Hyp. rewrite !andb_true_iff, str_eq_spec in Hyp. destruct Hyp as [[Hyq Hyh] _].
    apply elem_of_update_where in Hy as (x & Hx & ->). destruct (is_lost_claim d host x); [by cbn in Hyq|].
    apply (stored_active host r d); [done..|unfold is_active; by rewrite Hyq|].
    change (of_host_named d1 host x) with (of_host_named d host x) in Hyh. unfold of_host_named in Hyh, Hh.
    destruct (host_by_name d host); [lia|done].
Qed.

(** A report that fits is taken as it is. *)
Lemma going_found host r d : stored host r d → tr_status r = TaskRunning → is_going d host (tr_id r) r = true
  ∧ (rows_affected (is_going d host (tr_id r)) (task_runs d) =? 0) = false.
Proof.
  intros Hs Hr. destruct (stored_host host r d Hs) as [Hh _].
  assert (Hg : is_going d host (tr_id r) r = true) by (unfold is_going; by rewrite Z.eqb_refl, Hr, Hh).
  split; [done|]. apply Z.eqb_neq. intros E. rewrite rows_affected_zero in E. specialize (E r (st_row _ _ _ Hs)). congruence.
Qed.
Lemma stored_update host r d p f : schema (StoreTasks.update_runs p f d) → stored host r d → p r = true →
  tr_host_id (f r) = tr_host_id r → stored host (f r) (StoreTasks.update_runs p f d).
Proof.
  intros Hd Hs Hp Hf. split; [done| |rewrite Hf; exact (st_host _ _ _ Hs)].
  apply elem_of_update_where. exists r. split; [apply Hs|by rewrite Hp].
Qed.
Lemma output_fits r text : utf8_valid (tr_output r) = true → utf8_valid text = true → tr_truncated r = false →
  rune_count (tr_output r) + rune_count text ≤ TaskOutputLimit →
  add_output (tr_output r) text = tr_output r +:+ text ∧ add_truncated r text false = false.
Proof.
  intros Hv Ht Htr Hle. split.
  - apply add_output_spec; try done. unfold rune_count in *. lia.
  - unfold add_truncated. rewrite Htr. cbn. lia.
Qed.

(** What a report leaves of a running row *)
Definition reported (now : time) (p : TaskProgress) (r : RunRow) : RunRow :=
  if tp_Done p
  then run_set (TaskResult_status {| res_Output := tp_Output p; res_Truncated := tp_Truncated p; res_ExitCode := tp_ExitCode p;
                                     res_TimedOut := tp_TimedOut p; res_Error := tp_Error p |})
         (tr_started_at r) (Some now) (Some (tp_ExitCode p)) (task_error (tp_Error p)) (tr_output r +:+ tp_Output p) (tr_truncated r) r
  else run_set (tr_status r) (tr_started_at r) (tr_finished_at r) (tr_exit_code r) (tr_error r) (tr_output r +:+ tp_Output p)
         (tr_truncated r) r.

Lemma ReportTask_stored host now i r srv : stored host r (sv_db srv) → tr_status r = TaskRunning → rp_Id i = tr_id r →
  let p := rp_Progress i in
  utf8_valid (tr_output r) = true → utf8_valid (tp_Output p) = true → cleanText (tp_Output p) = tp_Output p →
  tr_truncated r = false → tp_Truncated p = false → rune_count (tr_output r) + rune_count (tp_Output p) ≤ TaskOutputLimit →
  ∃ srv', ReportTask (Some host) now i srv = (Ok "ok", srv') ∧ stored host (reported now p r) (sv_db srv').
Proof.
  intros Hs Hr Hi p Hv Hvp Hc Htr Htp Hle. destruct (going_found host r _ Hs Hr) as [Hg Ha].
  destruct (output_fits r (tp_Output p) Hv Hvp Htr Hle) as [Ho Hn].
  unfold ReportTask. change (host_of (Some host) _) with host. fold p. rewrite Hi. unfold reported. destruct (tp_Done p).
  - pose proof (apply_op_schema (op_FinishTaskRun now host (tr_id r) {| res_Output := tp_Output p; res_Truncated := tp_Truncated p;
      res_ExitCode := tp_ExitCode p; res_TimedOut := tp_TimedOut p; res_Error := tp_Error p |}) _ (st_schema _ _ _ Hs)) as Hd.
    cbn [apply_op] in Hd. revert Hd. unfold mbind, SM_bind, sbind, store, FinishTaskRun. cbn [res_Output res_Truncated res_ExitCode res_Error].
    rewrite Hc, Hvp, Ha. cbn [negb snd]. intros Hd. eexists. split; [reflexivity|]. cbn [sv_db set_db].
    pose proof (stored_update host r _ _ _ Hd Hs Hg eq_refl) as Hst. cbn beta in Hst. rewrite Ho, Htp, Hn in Hst. by rewrite Htr, ?Htp.
  - pose proof (apply_op_schema (op_AppendTaskOutput host (tr_id r) (tp_Output p) (tp_Truncated p)) _ (st_schema _ _ _ Hs)) as Hd.
    cbn [apply_op] in Hd. revert Hd. unfold mbind, SM_bind, sbind, store, AppendTaskOutput.
    rewrite Hc, Hvp, Ha. cbn [negb snd]. intros Hd. eexists. split; [reflexivity|]. cbn [sv_db set_db].
    pose proof (stored_update host r _ _ _ Hd Hs Hg eq_refl) as Hst. cbn beta in Hst. rewrite Ho, Htp, Hn in Hst. by rewrite Htr, ?Htp.
Qed.

(** Reading it back *)
Lemma TaskRun_stored host r srv : stored host r (sv_db srv) → Server_TaskRun (tr_id r) srv =
  (Ok (taskRunInfo {| run_ID := tr_id r; run_Host := host; run_Task := tr_task r; run_Command := tr_command r;
    run_Status := tr_status r; run_RequestedBy := tr_requested_by r; run_RequestedAt := tr_requested_at r;
    run_StartedAt := opt_time (tr_started_at r); run_FinishedAt := opt_time (tr_finished_at r);
    run_ExitCode := default 0 (tr_exit_code r); run_Error := tr_error r; run_Output := tr_output r;
    run_Truncated := tr_truncated r |}), srv).
Proof.
  intros Hs. unfold Server_TaskRun, query, store, dread, mbind, SM_bind, sbind, Store_TaskRun.
  rewrite (find_unique _ _ r (st_row _ _ _ Hs)); [|apply Z.eqb_refl|intros y Hy Ey%Z.eqb_eq; by apply (stored_id host r (sv_db srv))].
  destruct (host_by_key _ host _ (st_schema _ _ _ Hs) (st_host _ _ _ Hs)) as (h & _ & Eh & _ & En).
  unfold mbind, option_bind, scanTaskRun, mbind. rewrite Eh. cbn. rewrite En. by destruct srv.
Qed.
End Row.

(** ** The agent reports to the collector *)

Section Reports.
Context `{Crypto} `{ParseFloat} `{SnapshotJSON} `{UrlParse}.

(** While a task runs: it prints, its ticker fires and the report, if one is
    due, is lost or reaches the collector, or the collector's store does
    something else. *)
Inductive Line := Prints (data : string) | Ticks (arrives : option time) | Stores (op : StoreOp).
Definition text (lines : list Line) : string := foldr (λ l acc, match l with Prints data => data +:+ acc | _ => acc end) "" lines.

Definition stores (op : StoreOp) (srv : Server) : Server := set_db (apply_op op (sv_db srv)) srv.

(** One try of [report], and the collector's answer to it *)
Definition report_to (host : string) (id : Z) (p : TaskProgress) (arrives : option time) (srv : Server) : Answer * Server :=
  match arrives with
  | None => (AnswerFailed, srv)
  | Some now =>
      match ReportTask (Some host) now {| rp_ServerName := host; rp_Id := id; rp_Progress := p |} srv with
      | (Ok _, srv) => (AnswerOK, srv)
      | (Err e, srv) => (if status_code e =? codes_NotFound then AnswerNotFound else AnswerFailed, srv)
      end
  end.

(** The report a tick makes, if there is anything to report *)
Definition tick_report (s : Running) : option TaskProgress :=
  let '(taken, truncated, _) := take_output false (rg_output s) in
  let p := set_output (tp_Output (rg_progress s) +:+ taken) truncated (rg_progress s) in
  if rg_reporting s && negb (str_eq (tp_Output p) "") then Some p else None.

Record While := Whiles { wh_events : list RunEvent; wh_server : Server }.
Definition running_of (w : While) : Running := foldl on_event start_running (wh_events w).
(** A tick with nothing to report has no answer to look at. *)
Definition on_line (host : string) (id : Z) (w : While) (l : Line) : While :=
  match l with
  | Prints data => Whiles (wh_events w ++ [Printed data]) (wh_server w)
  | Stores op => Whiles (wh_events w) (stores op (wh_server w))
  | Ticks arrives =>
      match tick_report (running_of w) with
      | None => Whiles (wh_events w ++ [Tick AnswerFailed]) (wh_server w)
      | Some p => let '(answer, srv) := report_to host id p arrives (wh_server w) in Whiles (wh_events w ++ [Tick answer]) srv
      end
  end.

(** [report] with several tries, and what the store does between them *)
Fixpoint last_reports (tries : nat) (host : string) (id : Z) (p : TaskProgress) (l : list (option time + StoreOp)) (srv : Server)
    : list Answer * Server :=
  match tries, l with
  | S tries', inl arrives :: l =>
      let '(answer, srv) := report_to host id p arrives srv in
      match answer with
      | AnswerFailed => let '(answers, srv) := last_reports tries' host id p l srv in (answer :: answers, srv)
      | _ => ([answer], srv)
      end
  | S _, inr op :: l => last_reports tries host id p l (stores op srv)
  | _, _ => ([], srv)
  end.

(** [run] with this collector at the other end *)
Definition run_online (host : string) (file : list Task) (a : TaskAssignment) (lines : list Line) (e : Exit)
    (last : list (option time + StoreOp)) (srv : Server) : option string * list (TaskProgress * Answer) * Server :=
  match may_run file a with
  | Err why =>
      let '(answers, srv) := last_reports taskEndTries host (ta_Id a) (refused why) last srv in (run file a None [] e answers, srv)
  | Ok _ =>
      let w := foldl (on_line host (ta_Id a)) (Whiles [] srv) lines in
      let '(answers, srv) :=
        if rg_reporting (running_of w)
        then last_reports taskEndTries host (ta_Id a) (rg_progress (on_end (running_of w) e [])) last (wh_server w)
        else ([], wh_server w) in
      (run file a None (wh_events w) e answers, srv)
  end.

(** When the first try that arrives does *)
Fixpoint arrives_within (tries : nat) (last : list (option time + StoreOp)) : option time :=
  match tries, last with
  | S _, inl (Some now) :: _ => Some now
  | S tries', inl None :: last => arrives_within tries' last
  | S _, inr _ :: last => arrives_within tries last
  | _, _ => None
  end.

(** *** The row follows the reports *)

Definition with_output (output : string) (r : RunRow) : RunRow :=
  run_set (tr_status r) (tr_started_at r) (tr_finished_at r) (tr_exit_code r) (tr_error r) output (tr_truncated r) r.
(** A progress on its way: nothing in it but text *)
Record plain (p : TaskProgress) : Prop := {
  pl_done : tp_Done p = false; pl_timed : tp_TimedOut p = false; pl_error : tp_Error p = "";
  pl_clean : no_nul (tp_Output p) = tp_Output p }.

Record synced (host : string) (r : RunRow) (w : While) : Prop := {
  sy_going : going (printed (wh_events w)) (running_of w);
  sy_bounded : bounded (running_of w);
  sy_plain : plain (rg_progress (running_of w));
  sy_known : Forall (λ ev, ev ≠ Tick AnswerNotFound) (wh_events w);
  sy_row : stored host (with_output (delivered (rg_reports (running_of w))) r) (sv_db (wh_server w)) }.
Lemma tick_reported s a : rg_reports (on_event s (Tick a)) = rg_reports s ++ match tick_report s with Some p => [(p, a)] | None => [] end.
Proof.
  unfold on_event, tick_report. destruct (take_output false (rg_output s)) as [[taken truncated] output].
  destruct (rg_reporting s && _); [done|]. cbn. by rewrite app_nil_r.
Qed.
Lemma tick_delivered s a : delivered (rg_reports (on_event s (Tick a)))
  = delivered (rg_reports s) +:+ match a, tick_report s with AnswerOK, Some p => tp_Output p | _, _ => "" end.
Proof. rewrite tick_reported, delivered_app. destruct (tick_report s), a; cbn; by rewrite ?append_nil_r. Qed.
Lemma tick_progress s p : tick_report s = Some p →
  rg_progress (on_event s (Tick AnswerFailed)) = p ∧ tp_Truncated p = to_dropped (rg_output s).
Proof.
  unfold on_event, tick_report. destruct (take_output false (rg_output s)) as [[taken truncated] output] eqn:E.
  destruct (rg_reporting s && _); [|done]. intros [= <-]. split; [done|]. unfold take_output in E. by injection E as _ <- _.
Qed.
Lemma plain_event s ev : plain (rg_progress s) → plain (rg_progress (on_event s ev)).
Proof.
  intros [Hd Ht He Hc]. destruct ev as [data|a]; [by split|]. unfold on_event, take_output. cbv beta iota.
  assert (Hn : ∀ n, no_nul (tp_Output (rg_progress s) +:+ storable (stake n (to_pending (rg_output s))))
    = tp_Output (rg_progress s) +:+ storable (stake n (to_pending (rg_output s)))).
  { intros n. by rewrite no_nul_append, storable_clean, Hc. }
  destruct (rg_reporting s && _); [destruct a|]; split; cbn; (done || apply Hn).
Qed.

(** A report to the collector that has the row: lost, or taken *)
Lemma report_to_stored host p r arrives srv : stored host r (sv_db srv) → tr_status r = TaskRunning → utf8_valid (tr_output r) = true →
  utf8_valid (tp_Output p) = true → no_nul (tp_Output p) = tp_Output p → tr_truncated r = false → tp_Truncated p = false →
  rune_count (tr_output r) + rune_count (tp_Output p) ≤ TaskOutputLimit →
  match arrives with
  | None => report_to host (tr_id r) p arrives srv = (AnswerFailed, srv)
  | Some now => ∃ srv', report_to host (tr_id r) p arrives srv = (AnswerOK, srv') ∧ stored host (reported now p r) (sv_db srv')
  end.
Proof.
  intros Hs Hr Hv Hvp Hc Htr Htp Hle. destruct arrives as [now|]; [|done]. unfold report_to.
  destruct (ReportTask_stored host now {| rp_ServerName := host; rp_Id := tr_id r; rp_Progress := p |} r srv Hs Hr eq_refl Hv Hvp Hc Htr Htp Hle)
    as (srv' & -> & Hs'). by exists srv'.
Qed.

(** The row that has just been claimed *)
Record claimed_row (r : RunRow) : Prop := { cw_status : tr_status r = TaskRunning; cw_truncated : tr_truncated r = false }.

Lemma synced_running w ev : running_of (Whiles (wh_events w ++ [ev]) (wh_server w)) = on_event (running_of w) ev.
Proof. unfold running_of. cbn. by rewrite foldl_app. Qed.

Lemma synced_tick host r w arrives rest : claimed_row r → utf8_valid (printed (wh_events w) +:+ rest) = true → synced host r w →
  synced host r (on_line host (tr_id r) w (Ticks arrives)).
Proof.
  intros [Hr Htr] Hv [Hg Hb Hp Hk Hs].
  assert (Hnext : ∀ a srv, a ≠ AnswerNotFound →
    stored host (with_output (delivered (rg_reports (on_event (running_of w) (Tick a)))) r) (sv_db srv) →
    synced host r (Whiles (wh_events w ++ [Tick a]) srv)).
  { intros a srv Ha Hrow. pose proof (synced_running w (Tick a)) as E. unfold running_of in E at 1. cbn [wh_events] in E.
    split; unfold running_of; cbn [wh_events wh_server]; rewrite ?E, ?printed_app; cbn [printed foldr]; rewrite ?append_nil_r.
    - by apply (going_tick _ _ _ rest).
    - by apply bounded_event.
    - by apply plain_event.
    - apply Forall_app. split; [done|]. apply Forall_singleton. congruence.
    - done. }
  unfold on_line. destruct (tick_report (running_of w)) as [p|] eqn:E.
  2:{ apply Hnext; [done|]. by rewrite tick_delivered, append_nil_r. }
  destruct (tick_progress _ p E) as [Ep Etr]. rewrite (go_dropped _ _ Hg) in Etr.
  pose proof (bounded_event _ (Tick AnswerFailed) Hb) as [Hbk Hbo Hbd Hbc]. rewrite Ep in Hbo, Hbc.
  pose proof (plain_event _ (Tick AnswerFailed) Hp) as [Hpd _ _ Hpc]. rewrite Ep in Hpd, Hpc.
  rewrite tick_delivered, append_nil_r in Hbd, Hbc.
  pose proof (report_to_stored host p (with_output (delivered (rg_reports (running_of w))) r) arrives (wh_server w) Hs Hr Hbd Hbo Hpc Htr Etr) as Hrep.
  cbn [tr_output with_output run_set tr_id] in Hrep.
  assert (Hle : rune_count (delivered (rg_reports (running_of w))) + rune_count (tp_Output p) ≤ TaskOutputLimit).
  { change TaskOutputLimit with taskOutputLimit. assert (0 ≤ slen (to_pending (rg_output (on_event (running_of w) (Tick AnswerFailed))))) by (unfold slen; lia). lia. }
  specialize (Hrep Hle). destruct arrives as [now|]; [destruct Hrep as (srv' & -> & Hs')|rewrite Hrep]; (apply Hnext; [done|]).
  - rewrite tick_delivered, E. unfold reported in Hs'. by rewrite Hpd in Hs'.
  - by rewrite tick_delivered, append_nil_r.
Qed.
Definition line_spares (host : string) (id : Z) (deadline : time) (l : Line) : Prop :=
  match l with Stores op => spares_run host id deadline op | _ => True end.
Definition try_spares (host : string) (id : Z) (deadline : time) (l : option time + StoreOp) : Prop :=
  match l with inr op => spares_run host id deadline op | _ => True end.

Lemma synced_lines host r deadline full lines : claimed_row r → in_time r deadline → utf8_valid full = true → slen full ≤ taskOutputLimit →
  Forall (line_spares host (tr_id r) deadline) lines → ∀ w, full = printed (wh_events w) +:+ text lines → synced host r w →
  let w' := foldl (on_line host (tr_id r)) w lines in synced host r w' ∧ printed (wh_events w') = full.
Proof.
  intros Hr Ht Hv Hle. induction 1 as [|l lines Hl _ IH]; intros w Ef Hs.
  { cbn in Ef |- *. by rewrite append_nil_r in Ef. }
  cbn [foldl]. destruct l as [data|arrives|op].
  - cbn [text foldr] in Ef. assert (Ep : printed (wh_events (on_line host (tr_id r) w (Prints data))) = printed (wh_events w) +:+ data).
    { cbn. rewrite printed_app. cbn. by rewrite append_nil_r. }
    apply IH; [by rewrite Ep, append_assoc|]. destruct Hs as [Hg Hb Hp Hk Hrow].
    pose proof (synced_running w (Printed data)) as E. unfold on_line in Ep |- *. split; rewrite ?Ep; unfold running_of in E at 1; unfold running_of; cbn [wh_events wh_server] in *;
      rewrite ?E.
    + apply going_printed; [|done]. revert Hle. rewrite Ef, <- append_assoc, slen_append. unfold slen. lia.
    + by apply bounded_event.
    + by apply plain_event.
    + apply Forall_app. split; [done|]. by apply Forall_singleton.
    + done.
  - assert (Ep : printed (wh_events (on_line host (tr_id r) w (Ticks arrives))) = printed (wh_events w)).
    { unfold on_line. destruct (tick_report _); [destruct (report_to _ _ _ _ _)|]; cbn [wh_events]; rewrite printed_app; cbn; by rewrite append_nil_r. }
    apply IH; [by rewrite Ep|]. apply (synced_tick _ _ _ _ (text lines)); [done| |done]. rewrite Ef in Hv. exact Hv.
  - apply IH; [done|]. destruct Hs as [Hg Hb Hp Hk Hrow]. split; try done. cbn [on_line wh_server]. unfold stores. cbn [sv_db set_db].
    eapply stored_kept; [exact Hrow| |exact Ht|exact Hl]. unfold is_active. cbn. by rewrite (cw_status _ Hr).
Qed.

Lemma last_reports_stored host p r deadline at_ l : tr_status r = TaskRunning → in_time r deadline → utf8_valid (tr_output r) = true →
  utf8_valid (tp_Output p) = true → no_nul (tp_Output p) = tp_Output p → tr_truncated r = false → tp_Truncated p = false →
  rune_count (tr_output r) + rune_count (tp_Output p) ≤ TaskOutputLimit → Forall (try_spares host (tr_id r) deadline) l →
  ∀ tries srv, stored host r (sv_db srv) → arrives_within tries l = Some at_ →
  ∃ k srv', (k < tries)%nat ∧ last_reports tries host (tr_id r) p l srv = (repeat AnswerFailed k ++ [AnswerOK], srv')
    ∧ stored host (reported at_ p r) (sv_db srv').
Proof.
  intros Hr Ht Hv Hvp Hc Htr Htp Hle. induction 1 as [|x l Hx _ IH]; intros tries srv Hs Ha; [by destruct tries|].
  destruct tries as [|tries]; [done|]. destruct x as [arrives|op].
  - pose proof (report_to_stored host p r arrives srv Hs Hr Hv Hvp Hc Htr Htp Hle) as Hrep. cbn [last_reports].
    destruct arrives as [now|]; cbn in Ha.
    + injection Ha as <-. destruct Hrep as (srv' & -> & Hs'). exists 0%nat, srv'. split_and!; [lia|done|done].
    + rewrite Hrep. destruct (IH tries srv Hs Ha) as (k & srv' & Hk & -> & Hs'). exists (S k), srv'. split_and!; [lia|done|done].
  - apply (IH (S tries) (stores op srv)); [|done]. unfold stores. cbn [sv_db set_db].
    eapply stored_kept; [exact Hs| |exact Ht|exact Hx]. unfold is_active. by rewrite Hr.
Qed.
(** How a run is shown to have ended *)
Definition outcome (e : Exit) : string :=
  match e with
  | DeadlineExceeded _ => TaskTimedOut
  | Died _ _ => TaskFailed
  | Exited code => if code =? 0 then TaskSucceeded else TaskFailed
  end.
Definition died (e : Exit) : string := match e with Died _ err => err | _ => "" end.

(** The last report of a run that was reporting *)
Lemma end_progress s e : plain (rg_progress s) → to_dropped (rg_output s) = false → let p := rg_progress (on_end s e []) in
  tp_Done p = true ∧ tp_Truncated p = false ∧ tp_ExitCode p = exit_code e ∧ no_nul (tp_Output p) = tp_Output p
  ∧ tp_Error p = died e ∧ tp_TimedOut p = match e with DeadlineExceeded _ => true | _ => false end.
Proof.
  intros [_ _ He Hc] Hd. unfold on_end, take_output. cbn. split_and!; try done; [by rewrite no_nul_append, storable_clean, Hc|].
  by destruct e.
Qed.

Lemma run_online_stored host r file a t lines e last srv deadline at_ : claimed_row r → tr_output r = "" → ta_Id a = tr_id r →
  in_time r deadline → stored host r (sv_db srv) → may_run file a = Ok t →
  utf8_valid (text lines) = true → slen (text lines) ≤ taskOutputLimit →
  Forall (line_spares host (tr_id r) deadline) lines → Forall (try_spares host (tr_id r) deadline) last →
  arrives_within taskEndTries last = Some at_ →
  ∃ reports srv' output p, run_online host file a lines e last srv = (Some (task_Command t), reports, srv')
    ∧ stored host (reported at_ p (with_output output r)) (sv_db srv') ∧ output +:+ tp_Output p = no_nul (text lines)
    ∧ tp_Done p = true ∧ tp_Truncated p = false ∧ tp_ExitCode p = exit_code e ∧ tp_Error p = died e
    ∧ tp_TimedOut p = match e with DeadlineExceeded _ => true | _ => false end.
Proof.
  intros Hr Ho Hid Ht Hs Hrun Hv Hle Hlines Hlast Hat. unfold run_online. rewrite Hrun, Hid.
  assert (Hstart : synced host r (Whiles [] srv)).
  { split; [by constructor; try done; exists []|by constructor|by constructor|done|]. cbn.
    replace (with_output "" r) with r; [done|]. destruct r. cbn in Ho. by subst. }
  destruct (synced_lines host r deadline (text lines) lines Hr Ht Hv Hle Hlines (Whiles [] srv) eq_refl Hstart) as [Hw Ep].
  revert Hw Ep. generalize (foldl (on_line host (tr_id r)) (Whiles [] srv) lines). intros w [Hg Hb Hp Hk Hrow] Ep.
  rewrite (go_reporting _ _ Hg). set (p := rg_progress (on_end (running_of w) e [])).
  destruct (end_progress _ e Hp (go_dropped _ _ Hg)) as (Pd & Pt & Pc & Pn & Pe & Pm). fold p in Pd, Pt, Pc, Pn, Pe, Pm.
  destruct (end_fits _ e Hb) as [Hpv Hpc]. fold p in Hpv, Hpc.
  destruct (last_reports_stored host p (with_output (delivered (rg_reports (running_of w))) r) deadline at_ last (cw_status _ Hr) Ht
    (bd_delivered _ Hb) Hpv Pn (cw_truncated _ Hr) Pt Hpc Hlast taskEndTries (wh_server w) Hrow Hat) as (k & srv' & Hk' & El & Hs').
  cbn [tr_id with_output run_set] in El. rewrite El.
  exists (rg_reports (on_end (running_of w) e (repeat AnswerFailed k ++ [AnswerOK]))), srv', (delivered (rg_reports (running_of w))), p.
  split_and!; try done; [unfold run; by rewrite Hrun|]. rewrite <- Ep in Hv, Hle |- *.
  destruct (output_arrives_whole (wh_events w) e k [] Hv Hle Hk Hk') as [<- _]. fold (running_of w).
  by rewrite end_delivered, report_tries_ok, delivered_app, delivered_failed, delivered_one by (done || apply Hg).
Qed.
Definition stores_all (ops : list StoreOp) (srv : Server) : Server := foldl (λ srv op, stores op srv) srv ops.
Lemma stored_all host r deadline ops : is_active r = true → in_time r deadline → Forall (spares_run host (tr_id r) deadline) ops →
  ∀ srv, stored host r (sv_db srv) → stored host r (sv_db (stores_all ops srv)).
Proof.
  intros Ha Ht. induction 1 as [|op ops Hop _ IH]; intros srv Hs; [done|]. apply IH. unfold stores. cbn [sv_db set_db]. by eapply stored_kept.
Qed.

Lemma nonempty_str s : s ≠ "" → str_eq s "" = false.
Proof. intros Hs. apply not_true_iff_false. by rewrite str_eq_spec. Qed.
Lemma request_run now host by_ srv h t : schema (sv_db srv) → host_by_name (sv_db srv) host = Some h →
  List.filter (λ x, str_eq (task_Name x) (task_Name t)) (h_tasks h) = [t] →
  (∀ r, r ∈ task_runs (sv_db srv) → tr_host_id r = h_id h → is_active r = false) → host ≠ "" → task_Name t ≠ "" → by_ ≠ "" →
  let row := new_run now (seq (sv_db srv)) (h_id h) t by_ in
  ∃ srv', Server_RequestTaskRun now {| trq_Host := host; trq_Task := task_Name t; trq_By := by_ |} srv
    = (Ok (taskRunInfo (requested host row)), srv') ∧ stored host row (sv_db srv').
Proof.
  intros Hd Hh Ht Hfree Nh Nt Nb row. destruct (request_stored now host (task_Name t) by_ _ h t Hd Hh Ht Hfree) as (d' & E & Hs).
  unfold Server_RequestTaskRun, RequestTaskRun_insert. cbn [trq_Host trq_Task trq_By].
  rewrite !nonempty_str by done. cbn [orb]. unfold mbind, SM_bind, sbind, store. rewrite E. eexists. split; [reflexivity|exact Hs].
Qed.
Lemma next_run now later ended host r srv : stored host r (sv_db srv) → tr_status r = TaskQueued →
  now < tr_requested_at r + taskPickupWindow →
  ∃ srv', Server_NextTask (Some host) now later ended "" srv
    = (Ok {| ta_Id := tr_id r; ta_Task := tr_task r; ta_Command := tr_command r |}, srv') ∧ stored host (start_run now r) (sv_db srv').
Proof.
  intros Hs Hq Ht. unfold Server_NextTask, NextTask_look, NextTask_wait, NextTask_claim, mbind, SM_bind, sbind. change (host_of (Some host) "") with host.
  destruct (wait host (sv_tasks srv)) as [woken w] eqn:Ew. unfold store. cbn [sv_db set_waiters].
  destruct (claim_stored now host r (sv_db srv) Hs Hq Ht) as (d' & E & Hs'). rewrite E. eexists. split; [reflexivity|exact Hs'].
Qed.

(** C13: a run an admin asks for is run, and read back, whole.  The host lists
    the task and has no run going; the agent's file has it with the command
    the admin saw, and the agent asks within the two minutes.  Then, whatever
    the store does meanwhile that is not about this run, and whatever becomes
    of the reports on the way (a report may be lost, the last one arrives
    within its tries): the agent is given this run, its step takes it up, the
    shell is given the command and nothing else, and the collector answers for
    the run the end that it had, and exactly the text the task printed (valid
    text within the limit, however its pieces are cut) without its NUL
    characters. *)
Theorem task_end_to_end (srv : Server) (file : list Task) (host by_ : string) (h : HostRow) (t mine : Task) (now t1 later at_ : time)
  (retryAfter : duration) (ended : WaitEnd) (before : list StoreOp) (lines : list Line) (e : Exit) (last : list (option time + StoreOp))
  (Hschema : schema (sv_db srv)) (Hid : seq (sv_db srv) ≠ 0) (Hhost : host_by_name (sv_db srv) host = Some h)
  (Htask : List.filter (λ x, str_eq (task_Name x) (task_Name t)) (h_tasks h) = [t])
  (Hfree : ∀ r, r ∈ task_runs (sv_db srv) → tr_host_id r = h_id h → is_active r = false)
  (Nhost : host ≠ "") (Ntask : task_Name t ≠ "") (Nby : by_ ≠ "")
  (Hfile : Find file (task_Name t) = Some mine) (Hcommand : task_Command mine = task_Command t)
  (Hpickup : t1 < now + taskPickupWindow)
  (Hbefore : Forall (spares_run host (seq (sv_db srv)) (now + taskPickupWindow)) before)
  (Hlines : Forall (line_spares host (seq (sv_db srv)) (t1 + (task_TimeoutSeconds t + 60) * second)) lines)
  (Hlast : Forall (try_spares host (seq (sv_db srv)) (t1 + (task_TimeoutSeconds t + 60) * second)) last)
  (Hvalid : utf8_valid (text lines) = true) (Hlimit : slen (text lines) ≤ taskOutputLimit)
  (Harrives : arrives_within taskEndTries last = Some at_) (Hdied : match e with Died _ err => err ≠ "" | _ => True end) :
  let id := seq (sv_db srv) in
  let '(asked, srv1) := Server_RequestTaskRun now {| trq_Host := host; trq_Task := task_Name t; trq_By := by_ |} srv in
  let '(given, srv2) := Server_NextTask (Some host) t1 later ended "" (stores_all before srv1) in
  let a := {| ta_Id := id; ta_Task := task_Name t; ta_Command := task_Command t |} in
  let '(command, reports, srv3) := run_online host file a lines e last srv2 in
  (∃ info, asked = Ok info ∧ tri_Id info = id) ∧ given = Ok a ∧ step_wait retryAfter file (Assigned a) = (0, Some a) ∧
  command = Some (task_Command t) ∧
  Server_TaskRun id srv3 = (Ok {| tri_Id := id; tri_Host := host; tri_Task := task_Name t; tri_Command := task_Command t;
    tri_Status := outcome e; tri_RequestedBy := by_; tri_RequestedAt := unix now; tri_StartedAt := unix t1; tri_FinishedAt := unix at_;
    tri_ExitCode := wrap32 (exit_code e); tri_Error := task_error (died e); tri_Output := no_nul (text lines);
    tri_Truncated := false |}, srv3).
Proof.
  intros id. destruct (request_run now host by_ srv h t Hschema Hhost Htask Hfree Nhost Ntask Nby) as (srv1 & -> & Hs1).
  set (row := new_run now _ _ _ _) in *.
  assert (Hq : in_time row (now + taskPickupWindow)).
  { intros t0 Ht0. unfold is_expired, is_silent, row, time_add. cbn -[taskPickupWindow]. unfold time, duration in *. split; [lia|done]. }
  pose proof (stored_all host row _ before eq_refl Hq Hbefore srv1 Hs1) as Hs2.
  destruct (next_run t1 later ended host row _ Hs2 eq_refl Hpickup) as (srv2 & -> & Hs3). cbn [tr_id tr_task tr_command row new_run].
  set (running := start_run t1 row) in *. fold id. set (a := {| ta_Id := id; ta_Task := task_Name t; ta_Command := task_Command t |}).
  assert (Hrun : may_run file a = Ok mine) by (unfold may_run; cbn [ta_Task ta_Command a]; by rewrite Hfile, Hcommand, str_eq_refl).
  assert (Ht : in_time running (t1 + (task_TimeoutSeconds t + 60) * second)).
  { intros t0 Ht0. change 60 with (taskLostAfter / second) in Ht0. unfold is_expired, is_silent, running, row, time_add.
    cbn -[taskLostAfter second Z.div]. unfold time, duration in *. split; [done|lia]. }
  destruct (run_online_stored host running file a mine lines e last srv2 _ at_ ltac:(done) eq_refl eq_refl Ht Hs3 Hrun Hvalid Hlimit Hlines Hlast Harrives)
    as (reports & srv3 & output & p & -> & Hs4 & Eout & Pd & Pt & Pc & Pe & Pm).
  split_and!; [by eexists|done| |by rewrite Hcommand|].
  - unfold step_wait. destruct file; [done|]. cbn [ta_Id a]. by rewrite (proj2 (Z.eqb_neq id 0) Hid).
  - pose proof (TaskRun_stored host _ srv3 Hs4) as E. unfold reported in E. rewrite Pd in E. cbn [tr_id run_set with_output running start_run row new_run] in E.
    fold id in E. rewrite E. unfold taskRunInfo. cbn.
    rewrite Eout, Pc, Pe. f_equal. f_equal. f_equal. unfold TaskResult_status. cbn. rewrite Pm.
    destruct e as [c|c|c err]; cbn; try done; [by destruct (c =? 0)|]. by rewrite nonempty_str.
Qed.
End Reports.

(** ** An example *)

Definition old_host : HostRow := {|
  h_id := 1; h_name := "web1"; h_timezone := ""; h_last_seen := None; h_agent_version := "v1"; h_agent_arch := "amd64";
  h_update_version := None; h_update_url := None; h_update_requested_at := None; h_update_error := ""; h_tasks := [] |}.
Definition example_server : Server := start_server (set_hosts [old_host] empty_db).
Definition example_env : UpdateEnv := {|
  ue_Executable := Ok "/usr/bin/agent"; ue_GOARCH := "amd64";
  ue_http url := Ok {| dl_Status := 200; dl_StatusText := "200 OK"; dl_Ended := None;
                       dl_Body := if has_suffix url ".sig" then @Sign mirror seed_example "BUILD" else "BUILD" |};
  ue_write_fails := None; ue_chmod_fails := None; ue_version_output _ := Ok ("SyMon agent v2" +:+ str1 10);
  ue_rename_fails := None; ue_exec_fails := None |}.
Definition example_machine : Machine := {| mc_files := {[ "/usr/bin/agent" := "OLD" ]}; mc_running := "OLD" |}.
Definition example_config : Agent_config := @GetAgent (λ _, Ok []) (λ _, Ok "") "web1" ∅.

Lemma example_installs :
  (@selfUpdate mirror (@PublicKeyOf mirror seed_example) example_env
     {| wu_Version := "v2"; wu_DownloadUrl := "http://symon:8080"; wu_RequestedAt := unix (5 * second) |} example_machine).1 = Ok ().
Proof. vm_compute. reflexivity. Qed.

Lemma update_end_to_end_witness :
  let s1 := (Server_RequestAgentUpdate (5 * second)
    {| aur_Hosts := ["web1"]; aur_Version := "v2"; aur_DownloadUrl := "http://symon:8080"; aur_By := "" |} example_server).2 in
  let '(fate, m2, s2) := @ping_round mirror (@PublicKeyOf mirror seed_example) "v1" example_config example_env [] "web1" (6 * second) newUpdater example_machine s1 in
  fate = Restarted.
Proof.
  pose proof (@update_end_to_end mirror (@PublicKeyOf mirror seed_example) example_server example_machine example_config
    example_env example_env [] [] "web1" "v1" "v2" "http://symon:8080" old_host (5 * second) (6 * second) (7 * second)) as W.
  specialize (W eq_refl ltac:(done) ltac:(done) ltac:(done) ltac:(done) eq_refl ltac:(done) example_installs).
  cbv zeta in W |- *. destruct (ping_round _ _ _ _ _ _ _ _ _ _) as [[fate m2] s2].
  destruct (ping_round _ _ _ _ _ _ _ _ _ _) as [[fate' m3] s3]. apply W.
Defined.

(** A host with one task; while its run goes on a sample comes in late, a
    sweep runs, the first report is lost, and so is the first try of the last
    one; a character is printed in two pieces. *)
#[local] Instance example_hashes : Crypto := {| pbkdf2_Key := λ p s _, p +:+ s; sha256_Sum256 := λ s, "#" +:+ s |}.
#[local] Instance example_floats : ParseFloat := λ _, None.
#[local] Instance example_json : SnapshotJSON := {|
  marshal_data := λ _, Ok ""; marshal_processes := λ _, Ok ""; unmarshal_data := λ _, Err (ErrOther "");
  unmarshal_metric := λ _, Err (ErrOther "") |}.
#[local] Instance example_urls : UrlParse := λ _, None.
Definition listed : list StoreOp := [op_AddHost "web1" ""; op_SaveHostTasks "web1" [backup_task]].
Definition listed_server : Server := start_server (fold_left (λ d op, apply_op op d) listed empty_db).
Definition backup_lines : list Line :=
  [Prints (str1 195); Ticks None; Prints (str1 169 +:+ "t"); Ticks None; Stores (op_SweepTaskRuns (90 * second)); Ticks (Some (91 * second));
   Stores (op_Heartbeat "web1" (92 * second)); Prints "e"].
Definition backup_last : list (option time + StoreOp) := [inl None; inr (op_SweepTaskRuns (94 * second)); inl (Some (95 * second))].

Lemma listed_schema : schema (sv_db listed_server).
Proof. apply (apply_op_schema (op_SaveHostTasks _ _)), (apply_op_schema (op_AddHost _ _)), schema_empty. Qed.

Lemma task_end_to_end_witness :
  let '(asked, srv1) := Server_RequestTaskRun (30 * second) {| trq_Host := "web1"; trq_Task := "backup"; trq_By := "ann" |} listed_server in
  let '(given, srv2) := Server_NextTask (Some "web1") (60 * second) (60 * second) Woken "" (stores_all [op_SweepTaskRuns (40 * second)] srv1) in
  let '(command, reports, srv3) := run_online "web1" [backup_task] {| ta_Id := seq (sv_db listed_server); ta_Task := "backup"; ta_Command := "/bin/backup" |}
    backup_lines (Exited 0) backup_last srv2 in
  command = Some "/bin/backup" ∧ ∃ info, (Server_TaskRun (seq (sv_db listed_server)) srv3).1 = Ok info
    ∧ tri_Status info = TaskSucceeded ∧ tri_Output info = encode_rune 233 +:+ "te".
Proof.
  pose proof (task_end_to_end listed_server [backup_task] "web1" "ann"
    (default (new_host 0 "" "") (host_by_name (sv_db listed_server) "web1")) backup_task backup_task (30 * second) (60 * second) (60 * second)
    (95 * second) second Woken [op_SweepTaskRuns (40 * second)] backup_lines (Exited 0) backup_last listed_schema ltac:(done) ltac:(done)
    ltac:(done) ltac:(intros r Hr; cbn in Hr; by apply not_elem_of_nil in Hr) ltac:(done) ltac:(done) ltac:(done) ltac:(done) ltac:(done) ltac:(done)
    ltac:(repeat constructor) ltac:(repeat constructor; vm_compute; auto) ltac:(repeat constructor; vm_compute; auto)
    ltac:(by vm_compute) ltac:(by vm_compute) ltac:(by vm_compute) I) as W.
  cbv zeta in W. cbn [task_Name task_Command backup_task] in W.
  destruct (Server_RequestTaskRun _ _ _) as [asked srv1]. destruct (Server_NextTask _ _ _ _ _ _) as [given srv2].
  destruct (run_online _ _ _ _ _ _ _) as [[command reports] srv3]. destruct W as (_ & _ & _ & Hc & Hr).
  split; [exact Hc|]. rewrite Hr. eexists. split; [reflexivity|]. split; [reflexivity|]. by vm_compute.
Defined.
