(* ===== verification/AgentRun.v ===== *)
(** * The agent's program: [main] of src/agent/main.go, and its goroutines.

    [main] chooses what to do from the flags and the settings.  The agent that
    runs is a step relation: the loop that waits for tasks and runs them, the
    pings with their updates, the samples and the cluster reader take steps in
    any order; the mutex [working] is what keeps tasks and updates apart, and
    that they are is proved for every order. *)
From S2P Require Import Prelude GoStrings GoTime Errors Monitor Alerts Kube KubeClient Tasks Database Snapshot Login Config AgentTasks Api AgentUpdate AgentMain.
From S2P Require Import AgentMainProps AgentUpdateProps.
Local Open Scope Z_scope.

(** ** main *)

Record AgentFlags := {
  af_init : bool; af_custom : bool; af_enroll : bool; af_version : bool; af_name : string; af_unit : string;
  af_value : string; af_token : string; af_host : string; af_env : string }.

Inductive AgentStart :=
  | PrintsVersion (line : string)
  | Fatal (message : string)
  | EnrollsHost (config : Agent_config) (token : string)
  | InitsHost (config : Agent_config)
  | SendsMetric (config : Agent_config) (name unit value : string)
  | WantsMore (line : string)
  | RunsFor (config : Agent_config) (logged : list string).

Definition with_server_id (host : string) (c : Agent_config) : Agent_config := {|
  ag_MonitorIntervalSeconds := ag_MonitorIntervalSeconds c; ag_LogFileEnabled := ag_LogFileEnabled c;
  ag_CollectorEndpoint := ag_CollectorEndpoint c; ag_CollectorEndpointCACertPath := ag_CollectorEndpointCACertPath c;
  ag_LogFilePath := ag_LogFilePath c; ag_DisksToIgnore := ag_DisksToIgnore c; ag_ServerId := host; ag_Services := ag_Services c;
  ag_DisabledCollectors := ag_DisabledCollectors c; ag_ContainerAware := ag_ContainerAware c; ag_AgentKeyPath := ag_AgentKeyPath c;
  ag_ContainerSocket := ag_ContainerSocket c; ag_ContainerLayerSize := ag_ContainerLayerSize c; ag_CRISocket := ag_CRISocket c;
  ag_KubeCluster := ag_KubeCluster c; ag_KubeAPIURL := ag_KubeAPIURL c; ag_KubeCAPath := ag_KubeCAPath c;
  ag_KubeTokenPath := ag_KubeTokenPath c; ag_TasksPath := ag_TasksPath c |}.

(** [open_log] and [dial] are the errors of opening the log file and of
    making the client with the agent's credentials; [get_config] is
    [config.GetAgent]. *)
Definition agent_main (get_config : environ → Agent_config) (flags : AgentFlags) (file : SettingsFile)
    (open_log : string → option error) (key : string → result error string)
    (dial : Agent_config → Credentials → option error) (version : string) (e : environ) : AgentStart :=
  if af_version flags then PrintsVersion ("SyMon agent " +:+ version)
  else match LoadEnvFile (af_env flags) file e with
  | (Err err, _) => Fatal (error_text err)
  | (Ok _, e) =>
    let config := get_config e in
    match (if ag_LogFileEnabled config then open_log (ag_LogFilePath config) else None) with
    | Some err => Fatal (error_text err)
    | None =>
      match agent_mode (af_enroll flags) (af_init flags) (af_custom flags) (af_name flags) (af_unit flags) (af_value flags) with
      | Enrolls => EnrollsHost (if str_eq (af_host flags) "" then config else with_server_id (af_host flags) config) (af_token flags)
      | mode =>
        match dial config (credentials (key (ag_AgentKeyPath config))) with
        | Some err => Fatal ("cannot create collector client: " +:+ error_text err)
        | None =>
          match mode with
          | Inits => InitsHost config
          | SendsCustom => SendsMetric config (af_name flags) (af_unit flags) (af_value flags)
          | NeedsCustom => WantsMore "Metric name, unit, and value all required"
          | _ => RunsFor config ["agent " +:+ version +:+ " started for " +:+ ag_ServerId config]
          end
        end
      end
    end
  end.

(** [newClusterReader], only with a cluster to read; what it fails with is
    logged. *)
Definition newClusterReader (config : Agent_config) (client : result error KubeClient) : option clusterReader * list string :=
  if str_eq (ag_KubeCluster config) "" then (None, [])
  else match client with
       | Err err => (None, ["cannot read the kubernetes cluster " +:+ ag_KubeCluster config +:+ ": " +:+ error_text err])
       | Ok _ => (Some {| rd_cluster := ag_KubeCluster config; rd_host := ag_ServerId config; rd_lastError := "" |},
                  ["reading the kubernetes cluster " +:+ ag_KubeCluster config])
       end.

(** ** Samples and custom metrics *)

(** [sendMonitorData] and the end of [sendCustomMetric]: what is logged about
    the collector's answer.  A custom metric that was not taken ends the
    program with the exit code 1. *)
Definition sendMonitorData (Error : error → string) (answer : result error string) : list string :=
  match answer with Ok _ => [] | Err err => ["error sending data: " +:+ Error err] end.
Definition sendCustomMetric (Error : error → string) (marshal : CustomMetric → result error string)
    (collector : string → result error string) (metric : CustomMetric) : Ending :=
  match marshal metric with
  | Err err => Done (error_text err)
  | Ok data => match collector data with Ok _ => Done "" | Err err => ExitsWith ("error sending custom data: " +:+ Error err) end
  end.
(** A tick of the samples: the collection has three quarters of the interval. *)
Definition sample (Error : error → string) (config : Agent_config) (collect : duration → string)
    (collector : string → result error string) : list string :=
  sendMonitorData Error (collector (collect (collect_timeout config))).

(** ** The goroutines *)

(** Where the task loop is: before or in [step], with a run it was given and
    has not the mutex for, or in a run *)
Inductive RunnerPhase := Waiting | Claimed (a : TaskAssignment) | Working (a : TaskAssignment).
(** Where the pings are: between two, or with the mutex in [updates.handle] *)
Inductive PingPhase := Idle | Handling (request : option WireUpdate).
Inductive Holder := ByTask | ByUpdate.

(** What happened, in order *)
Inductive AgentEvent :=
  | EvClaimed (a : TaskAssignment) | EvStarted (a : TaskAssignment) | EvFinished (a : TaskAssignment)
  | EvHandling (request : option WireUpdate) | EvHandled | EvRestarted.

Record Agent := {
  ar_version : string; ar_working : option Holder; ar_runner : RunnerPhase; ar_ping : PingPhase; ar_state : taskRunner;
  ar_updates : updater; ar_reader : option clusterReader; ar_machine : Machine; ar_log : list AgentEvent }.

(** A process of a version that just started *)
Definition fresh (version : string) (reader : option clusterReader) (m : Machine) (log : list AgentEvent) : Agent := {|
  ar_version := version; ar_working := None; ar_runner := Waiting; ar_ping := Idle; ar_state := newTaskRunner; ar_updates := newUpdater;
  ar_reader := reader; ar_machine := m; ar_log := log |}.

Definition set_runner (holder : option Holder) (phase : RunnerPhase) (event : AgentEvent) (s : Agent) : Agent := {|
  ar_version := ar_version s; ar_working := holder; ar_runner := phase; ar_ping := ar_ping s; ar_state := ar_state s; ar_updates := ar_updates s;
  ar_reader := ar_reader s; ar_machine := ar_machine s; ar_log := ar_log s ++ [event] |}.
Definition set_ping (holder : option Holder) (phase : PingPhase) (event : AgentEvent) (u : updater) (m : Machine) (s : Agent) : Agent := {|
  ar_version := ar_version s; ar_working := holder; ar_runner := ar_runner s; ar_ping := phase; ar_state := ar_state s; ar_updates := u;
  ar_reader := ar_reader s; ar_machine := m; ar_log := ar_log s ++ [event] |}.
Definition set_state (r : taskRunner) (s : Agent) : Agent := {|
  ar_version := ar_version s; ar_working := ar_working s; ar_runner := ar_runner s; ar_ping := ar_ping s; ar_state := r; ar_updates := ar_updates s;
  ar_reader := ar_reader s; ar_machine := ar_machine s; ar_log := ar_log s |}.
Definition set_reader (r : clusterReader) (s : Agent) : Agent := {|
  ar_version := ar_version s; ar_working := ar_working s; ar_runner := ar_runner s; ar_ping := ar_ping s; ar_state := ar_state s; ar_updates := ar_updates s;
  ar_reader := Some r; ar_machine := ar_machine s; ar_log := ar_log s |}.

Section Running.
Context `{Ed25519, ClusterJSON} (PublicKey : string) (config : Agent_config) (Error : error → string)
        (retryAfter : duration).

(** The task loop: what [step] read and was answered *)
Definition after_step (file : result error (list Task)) (next : result error TaskAssignment) (s : Agent) : Agent :=
  let '(_, given, r, _) := runner_step Error retryAfter file next (ar_state s) in
  match given with
  | Some a => set_runner (ar_working s) (Claimed a) (EvClaimed a) (set_state r s)
  | None => set_state r s
  end.

(** A ping: [TryLock] decides at once whether its answer is handled. *)
Definition after_ping (collector : ServerInfo → result error PingResponse) (arch : string) (tasks : list Task) (s : Agent) : Agent :=
  match collector (server_info config (ar_version s) arch (ar_updates s) tasks) with
  | Err _ => s
  | Ok response =>
      whenIdle (match ar_working s with Some _ => true | None => false end) s
        (set_ping (Some ByUpdate) (Handling (ping_Update response)) (EvHandling (ping_Update response)) (ar_updates s) (ar_machine s) s)
  end.

(** The update is handled: the agent goes on, or a process of the new version
    starts, built with the same key. *)
Definition after_update (env : UpdateEnv) (request : option WireUpdate) (s : Agent) : Agent :=
  match handle PublicKey (ar_version s) env request (ar_updates s) (ar_machine s) with
  | (GoesOn u, m) => set_ping None Idle EvHandled u m s
  | (Restarted, m) =>
      fresh (match request with Some r => wu_Version r | None => ar_version s end)
        (option_map (λ r, {| rd_cluster := rd_cluster r; rd_host := rd_host r; rd_lastError := "" |}) (ar_reader s))
        m (ar_log s ++ [EvRestarted])
  end.

Inductive agent_step : Agent → Agent → Prop :=
  (** the task loop; the tasks of a ping are read between its steps too *)
  | step_next file next s : ar_runner s = Waiting → agent_step s (after_step file next s)
  | step_lock a s : ar_runner s = Claimed a → ar_working s = None →
      agent_step s (set_runner (Some ByTask) (Working a) (EvStarted a) s)
  | step_finish a s : ar_runner s = Working a → agent_step s (set_runner None Waiting (EvFinished a) s)
  (** pings *)
  | step_list file s : agent_step s (set_state (list_tasks file (ar_state s)).1.2 s)
  | step_ping collector arch tasks s : ar_ping s = Idle → agent_step s (after_ping collector arch tasks s)
  | step_handle env request s : ar_ping s = Handling request → agent_step s (after_update env request s)
  (** the cluster reader *)
  | step_reader state collector r s : ar_reader s = Some r →
      agent_step s (set_reader (reader_step Error state collector r).2 s).

Definition agent_runs (version : string) (reader : option clusterReader) (m : Machine) (s : Agent) : Prop :=
  rtc agent_step (fresh version reader m []) s.
End Running.

(** ** Reading the log *)

(** The run in progress, the one that was given and not started, and whether
    an update is being handled, after these events *)
Definition now_running (before : option TaskAssignment) (e : AgentEvent) : option TaskAssignment :=
  match e with EvStarted a => Some a | EvFinished _ | EvRestarted => None | _ => before end.
Definition running (log : list AgentEvent) : option TaskAssignment := foldl now_running None log.
Definition now_given (before : option TaskAssignment) (e : AgentEvent) : option TaskAssignment :=
  match e with EvClaimed a => Some a | EvStarted _ | EvRestarted => None | _ => before end.
Definition given (log : list AgentEvent) : option TaskAssignment := foldl now_given None log.
Definition now_updating (before : bool) (e : AgentEvent) : bool :=
  match e with EvHandling _ => true | EvHandled | EvRestarted => false | _ => before end.
Definition updating (log : list AgentEvent) : bool := foldl now_updating false log.

(** ** Tasks and updates of a running agent do not overlap, in whatever order
    its goroutines take their steps *)

(** What an event needs of the ones before it *)
Definition event_ok (before : list AgentEvent) (e : AgentEvent) : Prop :=
  match e with
  | EvClaimed _ => running before = None ∧ given before = None
  | EvStarted a => given before = Some a ∧ running before = None ∧ updating before = false
  | EvFinished a => running before = Some a ∧ updating before = false
  | EvHandling _ => running before = None ∧ updating before = false
  | EvHandled | EvRestarted => running before = None ∧ updating before = true
  end.
Definition orderly (log : list AgentEvent) : Prop := ∀ l1 e l2, log = l1 ++ e :: l2 → event_ok l1 e.

Lemma orderly_snoc log e : orderly log → event_ok log e → orderly (log ++ [e]).
Proof.
  intros Hlog He l1 x l2 E. destruct l2 as [|y l2 _] using rev_ind.
  - apply app_inj_tail in E as [-> ->]. done.
  - rewrite app_comm_cons, app_assoc in E. apply app_inj_tail in E as [-> _]. by eapply Hlog.
Qed.

Lemma running_snoc log e : running (log ++ [e]) = now_running (running log) e.
Proof. apply foldl_snoc. Qed.
Lemma given_snoc log e : given (log ++ [e]) = now_given (given log) e.
Proof. apply foldl_snoc. Qed.
Lemma updating_snoc log e : updating (log ++ [e]) = now_updating (updating log) e.
Proof. apply foldl_snoc. Qed.

(** The phases say what the log says, and who has the mutex. *)
Record agent_inv (s : Agent) : Prop := {
  ai_orderly : orderly (ar_log s);
  ai_runner : match ar_runner s with
              | Waiting => running (ar_log s) = None ∧ given (ar_log s) = None
              | Claimed a => running (ar_log s) = None ∧ given (ar_log s) = Some a
              | Working a => running (ar_log s) = Some a ∧ given (ar_log s) = None
              end;
  ai_ping : updating (ar_log s) = match ar_ping s with Idle => false | Handling _ => true end;
  ai_mutex : match ar_working s with
             | None => running (ar_log s) = None ∧ updating (ar_log s) = false
             | Some ByTask => running (ar_log s) ≠ None ∧ updating (ar_log s) = false
             | Some ByUpdate => running (ar_log s) = None ∧ updating (ar_log s) = true
             end }.

Section Proofs.
Context `{Ed25519, ClusterJSON} (PublicKey : string) (config : Agent_config) (Error : error → string) (retryAfter : duration).

Lemma fresh_inv version reader m log : orderly log → running log = None → given log = None → updating log = false →
  agent_inv (fresh version reader m log).
Proof. intros. by split; cbn. Qed.

#[local] Hint Rewrite running_snoc given_snoc updating_snoc : events.

(** The parts of the state the invariant does not read *)
Lemma inv_state r s : agent_inv s → agent_inv (set_state r s).
Proof. by intros [? ? ? ?]; split. Qed.
Lemma inv_reader r s : agent_inv s → agent_inv (set_reader r s).
Proof. by intros [? ? ? ?]; split. Qed.

Lemma inv_next file next s : ar_runner s = Waiting → agent_inv s → agent_inv (after_step Error retryAfter file next s).
Proof.
  intros Hr [Ho Hrun Hp Hm]. unfold after_step. destruct (runner_step _ _ _ _ _) as [[[w given'] r] l].
  rewrite Hr in Hrun. destruct Hrun as [Hrun Hg].
  destruct given' as [a|]; [|apply inv_state; split; try done; by rewrite Hr].
  split; cbn; autorewrite with events; cbn; [by apply orderly_snoc|done|done|].
  by rewrite Hrun in *.
Qed.

Lemma inv_ping collector arch tasks s : ar_ping s = Idle → agent_inv s → agent_inv (after_ping config collector arch tasks s).
Proof.
  intros Hi Hs. unfold after_ping. destruct (collector _) as [response|e]; [|done].
  destruct (ar_working s) eqn:Ew; [done|]. destruct Hs as [Ho Hrun Hp Hm]. rewrite Ew in Hm. destruct Hm as [Hm1 Hm2].
  split; cbn; autorewrite with events; cbn; [by apply orderly_snoc|done|done|done].
Qed.

(** While an update is handled the mutex is its own. *)
Lemma handling_alone request s : ar_ping s = Handling request → agent_inv s →
  running (ar_log s) = None ∧ updating (ar_log s) = true.
Proof.
  intros Hh [Ho Hrun Hp Hm]. rewrite Hh in Hp. split; [|done]. destruct (ar_working s) as [[]|]; [|apply Hm|apply Hm].
  destruct Hm as [_ Hu]. congruence.
Qed.

Lemma inv_update env request s : ar_ping s = Handling request → agent_inv s → agent_inv (after_update PublicKey env request s).
Proof.
  intros Hh Hs. pose proof (handling_alone request s Hh Hs) as [Hr Hu]. destruct Hs as [Ho Hrun Hp Hm]. unfold after_update.
  destruct (handle _ _ _ _ _ _) as [[u|] m].
  - split; cbn; autorewrite with events; cbn; [by apply orderly_snoc|done|done|done].
  - apply fresh_inv; autorewrite with events; [by apply orderly_snoc|done..].
Qed.

Lemma agent_step_inv s s' : agent_step PublicKey config Error retryAfter s s' → agent_inv s → agent_inv s'.
Proof.
  intros Hstep Hs. destruct Hstep as [file next s Hr|a s Hr Hw|a s Hr|file s|collector arch tasks s Hi|env request s Hh|state collector r s Hr].
  - by apply inv_next.
  - destruct Hs as [Ho Hrun Hp Hm]. rewrite Hr in Hrun. rewrite Hw in Hm. destruct Hrun as [H1 H2], Hm as [_ H3].
    split; cbn; autorewrite with events; cbn; [by apply orderly_snoc|done|done|by split].
  - destruct Hs as [Ho Hrun Hp Hm]. rewrite Hr in Hrun. destruct Hrun as [H1 H2].
    assert (Hu : updating (ar_log s) = false) by (destruct (ar_working s) as [[]|]; destruct Hm as [Hm1 Hm2]; [done|congruence|done]).
    split; cbn; autorewrite with events; cbn; [by apply orderly_snoc|done|done|done].
  - by apply inv_state.
  - by apply inv_ping.
  - by apply inv_update.
  - by apply inv_reader.
Qed.

Lemma agent_runs_inv version reader m s : agent_runs PublicKey config Error retryAfter version reader m s → agent_inv s.
Proof.
  intros Hr. unfold agent_runs in Hr. remember (fresh version reader m []) as s0 eqn:E.
  assert (H0' : agent_inv s0). { subst. apply fresh_inv; try done. by intros [|] ? ?. }
  clear E. induction Hr as [|s0 s1 s2 Hstep _ IH]; [done|]. apply IH. by eapply agent_step_inv.
Qed.

(** C9: tasks and updates keep apart, whatever the order in which the
    goroutines of the agent, and of the processes its updates start, take
    their steps: every run that starts was given to this process, starts alone
    and not during an update; no update begins, ends or restarts the agent
    during a run; and the files of the machine change only while an update is
    handled and no task runs. *)
Theorem tasks_and_updates_apart (version : string) (reader : option clusterReader) (m : Machine) (s : Agent)
    (Hruns : agent_runs PublicKey config Error retryAfter version reader m s) :
  orderly (ar_log s) ∧
  ∀ s', agent_step PublicKey config Error retryAfter s s' → ar_machine s' ≠ ar_machine s →
    running (ar_log s) = None ∧ updating (ar_log s) = true.
Proof.
  pose proof (agent_runs_inv _ _ _ _ Hruns) as Hs. split; [apply Hs|]. intros s' Hstep Hne.
  destruct Hstep as [file next s Hr|a s Hr Hw|a s Hr|file s|collector arch tasks s Hi|env request s Hh|state collector r s Hr]; try done.
  - exfalso. apply Hne. unfold after_step. destruct (runner_step _ _ _ _ _) as [[[w [a|]] r] l]; done.
  - exfalso. apply Hne. unfold after_ping. destruct (collector _); [|done]. by destruct (ar_working s).
  - by eapply handling_alone.
Qed.
End Proofs.

(** ** A run given while an update is handled *)

#[local] Instance ex_state_json : ClusterJSON := λ _, Ok "".
Definition example_update : WireUpdate :=
  {| wu_Version := "v2"; wu_DownloadUrl := "http://symon:8080"; wu_RequestedAt := unix (5 * second) |}.
Definition example_run : TaskAssignment := {| ta_Id := 7; ta_Task := "backup"; ta_Command := "/opt/backup" |}.
Definition example_file : list Task :=
  [{| task_Name := "backup"; task_Description := ""; task_Command := "/opt/backup"; task_TimeoutSeconds := 60 |}].

Definition example_step : Agent → Agent → Prop :=
  @agent_step mirror _ (@PublicKeyOf mirror seed_example) example_config error_text (5 * second).
Definition updating_agent : Agent := Eval vm_compute in
  after_step error_text (5 * second) (Ok example_file) (Ok example_run)
    (after_ping example_config (λ _, Ok {| ping_Body := "pong"; ping_Update := Some example_update |}) "amd64" [] (fresh "v1" None example_machine [])).

Lemma updating_agent_runs : rtc example_step (fresh "v1" None example_machine []) updating_agent.
Proof.
  eapply rtc_l; [exact (@step_ping mirror _ (@PublicKeyOf mirror seed_example) example_config error_text (5 * second)
    (λ _, Ok {| ping_Body := "pong"; ping_Update := Some example_update |}) "amd64" [] (fresh "v1" None example_machine []) eq_refl)|].
  eapply rtc_l; [exact (@step_next mirror _ (@PublicKeyOf mirror seed_example) example_config error_text (5 * second)
    (Ok example_file) (Ok example_run) (after_ping example_config (λ _, Ok {| ping_Body := "pong"; ping_Update := Some example_update |})
      "amd64" [] (fresh "v1" None example_machine [])) eq_refl)|].
  vm_compute. apply rtc_refl.
Qed.

(** The restart waits for the task that runs, not for the one that was just
    given: the collector thinks the run is on its way, and the new process
    does not know of it. *)
Lemma update_drops_a_run : ∃ s, rtc example_step (fresh "v1" None example_machine []) s ∧ ar_runner s = Waiting
  ∧ ar_log s = [EvHandling (Some example_update); EvClaimed example_run; EvRestarted].
Proof.
  eexists. split; [|split].
  - eapply rtc_r; [apply updating_agent_runs|].
    exact (@step_handle mirror _ (@PublicKeyOf mirror seed_example) example_config error_text (5 * second) example_env (Some example_update) updating_agent eq_refl).
  - vm_compute. reflexivity.
  - vm_compute. reflexivity.
Qed.

Lemma tasks_and_updates_apart_witness :
  orderly (ar_log updating_agent) ∧ running (ar_log updating_agent) = None ∧ updating (ar_log updating_agent) = true.
Proof.
  destruct (@tasks_and_updates_apart mirror _ (@PublicKeyOf mirror seed_example) example_config error_text (5 * second) "v1" None
    example_machine updating_agent updating_agent_runs) as [Ho Hm].
  split; [exact Ho|]. apply (Hm _ (@step_handle mirror _ (@PublicKeyOf mirror seed_example) example_config error_text (5 * second)
    example_env (Some example_update) updating_agent eq_refl)). vm_compute. discriminate.
Defined.
