(* ===== verification/ApiChannels.v ===== *)
(** * Rules and notification channels at the collector's server:
    src/internal/api/rules.go and notifications.go.

    The JSON decoder and encoder are parameters ([ApiJSON]); a decoder that
    refuses unknown fields reads a rule, settings are objects. *)
From S2P Require Import Prelude GoStrings GoFloat GoTime Errors Monitor Alerts Json Kube Tasks Database StoreHosts StoreRules StoreNotifications Notify Snapshot Login Api.
Local Open Scope Z_scope.

Class ApiJSON := {
  decode_rule : string → result error AlertConfig;
  encode_rule : AlertConfig → result error string;
  decode_settings : string → result error object;
  decode_state : string → result error ClusterState;
  encode_state : ClusterState → result error string;
  decode_containers : string → result error (list HostContainer) }.

Definition maxChannelName : Z := 64.
Definition testTimeout : duration := 20 * second.

(** Settings with their secrets blanked *)
Record ChannelInfo := {
  ci_Id : Z; ci_Name : string; ci_Kind : string; ci_Settings : object; ci_SecretsSet : list string;
  ci_IsDefault : bool; ci_SkipWarnings : bool; ci_Enabled : bool; ci_UpdatedAt : Z; ci_UpdatedBy : string;
  ci_LastStatus : string; ci_LastAt : Z; ci_LastError : string }.
Definition channelInfo (c : Channel) : ChannelInfo :=
  let '(settings, set) := Redact (channel_Kind c) (channel_Settings c) in {|
  ci_Id := channel_ID c; ci_Name := channel_Name c; ci_Kind := channel_Kind c; ci_Settings := settings;
  ci_SecretsSet := set; ci_IsDefault := channel_IsDefault c; ci_SkipWarnings := channel_SkipWarnings c;
  ci_Enabled := channel_Enabled c; ci_UpdatedAt := unix (channel_UpdatedAt c); ci_UpdatedBy := channel_UpdatedBy c;
  ci_LastStatus := channel_LastStatus c; ci_LastAt := unix (channel_LastAt c); ci_LastError := channel_LastError c |}.

Definition NotificationChannels : SrvM (list ChannelInfo) :=
  channels ← query toStatus (λ d, Ok (Channels d)); mret (map channelInfo channels).

Definition checkChannelName (name : string) : result error unit :=
  if str_eq name "" then Err (ErrText "a channel needs a name")
  else if maxChannelName <? rune_count name then Err (ErrText "a channel name can be at most 64 characters")
  else if contains_func name is_control then Err (ErrText "a channel name is one line of text")
  else Ok ().

(** A check whose text becomes an InvalidArgument *)
Definition check {A} (before : string) (r : result error A) : SrvM A :=
  match r with Ok a => mret a | Err e => invalid_argument (before +:+ error_text e) end.

Record SaveChannelRequest := {
  scr_Id : Z; scr_Name : string; scr_Kind : string; scr_SettingsJson : string; scr_IsDefault : bool;
  scr_SkipWarnings : bool; scr_Enabled : bool; scr_By : string }.

Section Channels.
Context `{ApiJSON} `{UrlParse} `{ParseAddress}.

Definition sent_channel (i : SaveChannelRequest) (name kind : string) (settings : object) : Channel := {|
  channel_ID := scr_Id i; channel_Name := name; channel_Kind := kind; channel_Settings := settings;
  channel_IsDefault := scr_IsDefault i; channel_SkipWarnings := scr_SkipWarnings i; channel_Enabled := scr_Enabled i;
  channel_UpdatedAt := zero_time; channel_UpdatedBy := ""; channel_LastStatus := ""; channel_LastAt := zero_time;
  channel_LastError := "" |}.

(** The channel to save, with how its settings read: a new one as it was
    sent, an old one under its own name and kind with the secrets that were
    left blank.  An unknown kind is refused before settings are read. *)
Definition channel_to_save (i : SaveChannelRequest) : SrvM (Channel * result error unit) :=
  if scr_Id i =? 0 then
    let channel := sent_channel i (trim_space (scr_Name i)) (scr_Kind i) in
    mret (match decode_settings (scr_SettingsJson i) with
          | Ok settings => (channel settings, Ok ())
          | Err e => (channel ∅, if contains Kinds (scr_Kind i) then Err e else Ok ())
          end)
  else
    current ← query toStatus (λ d, Store_Channel d (scr_Id i));
    next ← check "cannot read the settings: " (decode_settings (scr_SettingsJson i));
    mret (sent_channel i (channel_Name current) (channel_Kind current)
            (KeepSecrets (channel_Kind current) (channel_Settings current) next), Ok ()).

Definition SaveChannel (now : time) (i : SaveChannelRequest) : SrvM ChannelInfo :=
  '(channel, read) ← channel_to_save i;
  check "" (checkChannelName (channel_Name channel));;
  check "" read;;
  check "" (Parse (channel_Kind channel) (channel_Settings channel));;
  id ← (if channel_ID channel =? 0 then store toStatus (CreateChannel now channel (scr_By i))
        else store toStatus (UpdateChannel now channel (scr_By i));; mret (channel_ID channel));
  saved ← query toStatus (λ d, Store_Channel d id);
  mret (channelInfo saved).

(** The rules that pick a channel, quoted *)
Definition rules_using (d : DB) (name : string) : list string :=
  map (λ r, quote (rule_Name (ar_Rule r))) (List.filter (λ r, contains (rule_Channels (ar_Rule r)) name) (AlertRules d)).

Definition DeleteChannel (id : Z) : SrvM string :=
  channel ← query toStatus (λ d, Store_Channel d id);
  picking ← query toStatus (λ d, Ok (rules_using d (channel_Name channel)));
  match picking with
  | [] => store toStatus (Store_DeleteChannel id);; mret "ok"
  | _ => sfail (ErrStatus codes_FailedPrecondition
           ("rules send to this channel: " +:+ join ", " picking +:+ ". Take it out of them first"))
  end.

(** [TestResult] is what went wrong, [None] when it was sent *)
Definition test_message (now : time) (by_ : string) : Message := {|
  msg_Event := Test; msg_Severity := 0; msg_Subject := "Test message from SyMon";
  msg_Body := "This is a test sent by " +:+ by_ +:+ " from the Notifications page. Alerts arrive here like this.";
  msg_Host := ""; msg_Rule := "Test"; msg_Metric := ""; msg_Target := ""; msg_Value := f0; msg_AlertID := 0;
  msg_StartedAt := now; msg_At := now; msg_Link := "" |}.
Definition TestChannel `{Outside} (now : time) (id : Z) (by_ : string) : SrvM (option string) :=
  channel ← query toStatus (λ d, Store_Channel d id);
  mret (match Parse (channel_Kind channel) (channel_Settings channel) with
        | Err e => Some ("the settings are broken: " +:+ error_text e)
        | Ok sender => match (Send sender (test_message now by_) "" []).1 with
                       | Err e => Some (error_text e)
                       | Ok _ => None
                       end
        end).

(** ** Rules *)

(** The name a rule picks is trimmed before it is looked up. *)
Definition unknown_channel (channels : list Channel) (name : string) : bool :=
  negb (existsb (λ c, str_eq (channel_Name c) (trim_space name)) channels).
Definition checkRuleChannels (picked : list string) : SrvM unit :=
  match picked with
  | [] => mret ()
  | _ =>
      channels ← query toStatus (λ d, Ok (Channels d));
      match List.find (unknown_channel channels) picked with
      | Some name => invalid_argument ("there is no notification channel named " +:+ quote name)
      | None => mret ()
      end
  end.

Record SaveRuleRequest := { srr_Id : Z; srr_Enabled : bool; srr_RuleJson : string; srr_By : string }.
Record AlertRuleInfo := { ari_Id : Z; ari_Enabled : bool; ari_RuleJson : string; ari_UpdatedAt : Z; ari_UpdatedBy : string }.

Definition rule_info (r : AlertRule) : result error AlertRuleInfo :=
  rbind (encode_rule (ar_Rule r)) (λ data,
  Ok {| ari_Id := ar_ID r; ari_Enabled := ar_Enabled r; ari_RuleJson := data; ari_UpdatedAt := to_unix (ar_UpdatedAt r);
        ari_UpdatedBy := ar_UpdatedBy r |}).
Fixpoint rule_infos (rules : list AlertRule) : result error (list AlertRuleInfo) :=
  match rules with
  | [] => Ok []
  | r :: rules => rbind (rule_info r) (λ i, rbind (rule_infos rules) (λ l, Ok (i :: l)))
  end.
Definition Server_AlertRules : SrvM (list AlertRuleInfo) := query toStatus (λ d, rule_infos (AlertRules d)).

Definition SaveRule (now : time) (i : SaveRuleRequest) : SrvM AlertRuleInfo :=
  rule ← check "cannot read the rule: " (decode_rule (srr_RuleJson i));
  checkRuleChannels (rule_Channels rule);;
  id ← (if srr_Id i =? 0 then store toStatus (CreateRule now rule (srr_Enabled i) (srr_By i))
        else store toStatus (UpdateRule now (srr_Id i) rule (srr_Enabled i) (srr_By i));; mret (srr_Id i));
  mret {| ari_Id := id; ari_Enabled := srr_Enabled i; ari_RuleJson := ""; ari_UpdatedAt := 0; ari_UpdatedBy := srr_By i |}.

Definition Server_DeleteRule (now : time) (id : Z) : SrvM string :=
  store toStatus (DeleteRule now id);; mret "ok".
End Channels.

(** ** What was sent *)

Record NotificationInfo := {
  ni_Id : Z; ni_AlertId : Z; ni_Channel : string; ni_Kind : string; ni_Event : string; ni_Severity : Z;
  ni_Subject : string; ni_Status : string; ni_Attempts : Z; ni_LastError : string; ni_CreatedAt : Z; ni_SentAt : Z;
  ni_Host : string; ni_Rule : string }.
Definition notification_info (n : Notification) : NotificationInfo := {|
  ni_Id := note_ID n; ni_AlertId := note_AlertID n; ni_Channel := note_ChannelName n; ni_Kind := note_ChannelKind n;
  ni_Event := note_Event n; ni_Severity := wrap32 (note_Severity n); ni_Subject := note_Subject n;
  ni_Status := note_Status n; ni_Attempts := wrap32 (note_Attempts n); ni_LastError := note_LastError n;
  ni_CreatedAt := unix (note_CreatedAt n); ni_SentAt := unix (note_SentAt n); ni_Host := note_Host n;
  ni_Rule := note_Rule n |}.
Definition Server_RecentNotifications (limit : Z) : SrvM (list NotificationInfo) :=
  recent ← query toStatus (λ d, Ok (RecentNotifications d limit)); mret (map notification_info recent).
