(* ===== verification/ApiLogin.v ===== *)
(** * Users at the collector's server: the calls of src/internal/api/login.go
    and the clusters' of src/internal/api/kube.go.

    [slot] is how waiting for a hash slot went, [token] and [salt] what the
    store draws (see StoreUsers.v). *)
From S2P Require Import Prelude GoStrings GoFloat GoTime Errors Monitor Alerts Json Kube Tasks Database StoreHosts StoreUsers StoreKube Snapshot StoreIngest StoreQuery Login Api ApiChannels.
Local Open Scope Z_scope.

Definition errTooManyLogins : error := ErrStatus codes_ResourceExhausted "too many failed logins, try again later".

(** What the store's answer means for the count of wrong passwords *)
Definition outcome {A} (r : result error A) : Outcome :=
  match r with
  | Ok _ => Right
  | Err e => if bool_decide (cause_of e = ErrBadLogin) then Wrong else Broken
  end.

(** [checkLogin] around a call of the store *)
Definition checkLogin {A} (now : time) (name : string) (check : DBM A) : SrvM A := λ s,
  if blocked now name (sv_logins s) then (Err errTooManyLogins, s)
  else let '(r, d) := check (sv_db s) in
       let s := set_logins (finish now name (outcome r) (sv_logins s)) (set_db d s) in
       (match r with Ok a => Ok a | Err e => Err (toStatus e) end, s).

(** ** Sessions *)

Record SessionInfo := { sei_Token : string; sei_User : string; sei_Role : string; sei_Expires : Z }.

Section Login.
Context `{Crypto}.

Definition Server_Login (now : time) (slot : option error) (token user password : string) : SrvM SessionInfo :=
  session ← checkLogin now user (StoreUsers.Login now slot token user password);
  mret {| sei_Token := session_Token session; sei_User := session_User session; sei_Role := session_Role session;
          sei_Expires := to_unix (session_Expires session) |}.

Definition Server_CheckPassword (now : time) (slot : option error) (user password : string) : SrvM string :=
  checkLogin now user (dread (λ d, CheckPassword slot d user password));; mret "ok".

Definition CheckSession (now : time) (token : string) : SrvM SessionInfo :=
  session ← query toStatus (λ d, Store_Session now d token);
  mret {| sei_Token := ""; sei_User := session_User session; sei_Role := session_Role session;
          sei_Expires := to_unix (session_Expires session) |}.

(** A wrong current password counts like a failed login. *)
Definition ChangePassword (now : time) (slot slot' : option error) (salt token current next : string) : SrvM string :=
  session ← query toStatus (λ d, Store_Session now d token);
  checkLogin now (session_User session) (Store_ChangePassword now slot slot' salt token current next);;
  mret "ok".

Definition Logout (token : string) : SrvM string := store toStatus (Store_Logout token);; mret "ok".
End Login.

Definition Server_HasUsers : SrvM bool := query toStatus (λ d, Ok (HasUsers d)).

(** ** Clusters *)

Definition clusterRestartsShown : duration := 24 * hour.

Record ClusterSummary := {
  csm_Name : string; csm_Host : string; csm_StateTime : Z; csm_ReportedAt : Z; csm_Error : string; csm_Stale : bool;
  csm_Counts : Counts; csm_RestartsLastHour : Z }.
Definition counts32 (c : Counts) : Counts := {|
  n_Nodes := wrap32 (n_Nodes c); n_NodesReady := wrap32 (n_NodesReady c); n_Pods := wrap32 (n_Pods c);
  n_PodsRunning := wrap32 (n_PodsRunning c); n_PodsPending := wrap32 (n_PodsPending c);
  n_PodsNotReady := wrap32 (n_PodsNotReady c); n_PodsFailed := wrap32 (n_PodsFailed c);
  n_Workloads := wrap32 (n_Workloads c); n_WorkloadsReady := wrap32 (n_WorkloadsReady c) |}.

Definition clusterSummary (now : time) (d : DB) (c : KCluster) : ClusterSummary :=
  let restarts := RestartsSince d (kc_Name c) (time_add now (- hour)) in {|
  csm_Name := kc_Name c; csm_Host := kc_Host c; csm_StateTime := cs_Time (kc_State c);
  csm_ReportedAt := to_unix (kc_ReportedAt c); csm_Error := kc_Error c; csm_Stale := Stale c now;
  csm_Counts := counts32 (State_Counts (kc_State c));
  csm_RestartsLastHour := wrap32 (map_fold (λ _ count total, total + count) 0 restarts) |}.

Definition Server_Clusters (now : time) : SrvM (list ClusterSummary) :=
  query toStatus (λ d, Ok (map (clusterSummary now d) (Clusters d))).

Record WireRestart := {
  wr_Time : Z; wr_Namespace : string; wr_Workload : string; wr_Pod : string; wr_Container : string; wr_Count : Z;
  wr_Reason : string }.
Definition wire_restart (r : KubeRestart) : WireRestart :=
  let x := kres_Restart r in {|
  wr_Time := to_unix (kres_Time r); wr_Namespace := rs_Namespace x; wr_Workload := rs_Workload x; wr_Pod := rs_Pod x;
  wr_Container := rs_Container x; wr_Count := wrap32 (rs_Count x); wr_Reason := rs_Reason x |}.

Record ContainerUsage := {
  cu_Id : string; cu_Host : string; cu_CpuPercent : float64; cu_CpuCores : float64; cu_MemoryBytes : float64;
  cu_MemoryLimit : float64 }.

(** The ids the cluster's pods name *)
Definition container_ids (s : ClusterState) : list string :=
  List.filter (λ id, negb (str_eq id "")) (concat (map (λ p, map ctr_ID (pod_Containers p)) (cs_Pods s))).

Definition container_usage (host : string) (c : HostContainer) : ContainerUsage := {|
  cu_Id := hc_ID c; cu_Host := host; cu_CpuPercent := hcc_PercentOfHost (hc_CPU c);
  cu_CpuCores := hcc_CoresUsed (hc_CPU c); cu_MemoryBytes := hcm_Used (hc_Memory c);
  cu_MemoryLimit := if hcm_Limited (hc_Memory c) then hcm_Limit (hc_Memory c) else f0 |}.

Section Clusters.
Context `{ApiJSON}.

(** The containers in [ids] out of a host's snapshot; one that cannot be
    read counts as none. *)
Definition containerUsage (snapshot : LatestSnapshot) (ids : list string) : list ContainerUsage :=
  if str_eq (ls_Snapshot snapshot) "" || bool_decide (ids = []) then []
  else match decode_containers (ls_Snapshot snapshot) with
       | Err _ => []
       | Ok containers => map (container_usage (ls_Host snapshot)) (List.filter (λ c, contains ids (hc_ID c)) containers)
       end.

Record ClusterInfo := {
  cin_Summary : ClusterSummary; cin_StateJson : string; cin_Restarts : list WireRestart; cin_Hosts : list string;
  cin_Usage : list ContainerUsage }.

Definition cluster_info (now : time) (name : string) (d : DB) : result error ClusterInfo :=
  rbind (Store_Cluster d name) (λ cluster,
  rbind (encode_state (kc_State cluster)) (λ state,
  let snapshots := LatestSnapshots d in
  Ok {| cin_Summary := clusterSummary now d cluster; cin_StateJson := state;
        cin_Restarts := map wire_restart (RecentRestarts d (kc_Name cluster) (time_add now (- clusterRestartsShown)) 200);
        cin_Hosts := map ls_Host snapshots;
        cin_Usage := concat (map (λ s, containerUsage s (container_ids (kc_State cluster))) snapshots) |})).
Definition Server_Cluster (now : time) (name : string) : SrvM ClusterInfo := query toStatus (cluster_info now name).

(** A report of an agent with a key is about the clusters its host reads. *)
Definition ReportCluster (ctx : option string) (named text : string) : SrvM string :=
  match decode_state text with
  | Err e => invalid_argument ("cannot parse the cluster state: " +:+ error_text e)
  | Ok state =>
      let host := host_of ctx named in
      store (agentStatus host) (SaveClusterReport host state);; mret "ok"
  end.
End Clusters.

Definition Server_RemoveCluster (name : string) : SrvM string :=
  store toStatus (RemoveCluster name);; mret "ok".
