(* ===== verification/ApiAuth.v ===== *)
(** * Who may call what: src/internal/api/auth.go and the jwt check of
    src/internal/transport/transport.go, with every call of the service.

    [serve] is the dispatch of the generated code: a call, the method it is
    and the handler it runs.  [auth.ValidToken] (the jwt library and
    SYMON_KEY) is a parameter. *)
From S2P Require Import Prelude GoStrings GoFloat GoTime Errors Monitor Alerts Json Kube Tasks Database StoreHosts StoreUsers StoreEnrollment StoreKube StoreTasks Snapshot StoreIngest StoreSeries StoreAlerts StoreQuery StoreForecast StoreRules StoreNotifications Notify AgentTasks Login Api ApiTasks ApiChannels ApiLogin.
Local Open Scope Z_scope.

(** A call with its request *)
Inductive Call :=
  | CEnroll (i : EnrollRequest) | CInitAgent (i : ServerInfo) | CHandlePing (i : ServerInfo)
  | CHandleMonitorData (text : string) | CHandleCustomMonitorData (text : string)
  | CNextTask (ended : WaitEnd) (serverName : string) | CReportTask (i : TaskReport)
  | CReportCluster (host text : string)
  | CFleet | CSnapshot (host : string) | CSnapshots | CQuerySeries (i : SeriesRequest)
  | CProcesses (host : string) (at_ : Z) | CProcessUsage (host : string) (from to : Z)
  | CCustomMetricNames (host : string) | CAlerts (i : AlertsRequest) | CDiskForecasts (host : string)
  | CEndpoints (from to : Z) | CEndpointSeries (i : EndpointSeriesRequest) | CVersion
  | CLogin (user password : string) | CCheckSession (token : string) | CLogout (token : string)
  | CChangePassword (token current next : string) | CCheckPassword (user password : string) | CHasUsers
  | CAlertRules | CSaveRule (i : SaveRuleRequest) | CDeleteRule (id : Z)
  | CRequestAgentUpdate (i : AgentUpdateRequest)
  | CHostTasks (host : string) | CRequestTaskRun (i : TaskRunRequest) | CTaskRuns (host : string) (limit : Z)
  | CTaskRun (id : Z)
  | CNotificationChannels | CSaveChannel (i : SaveChannelRequest) | CDeleteChannel (id : Z)
  | CTestChannel (id : Z) (by_ : string) | CRecentNotifications (limit : Z)
  | CClusters | CCluster (name : string) | CClusterSeries (i : EndpointSeriesRequest) | CRemoveCluster (name : string).

Definition method_name (c : Call) : string :=
  match c with
  | CEnroll _ => "Enroll" | CInitAgent _ => "InitAgent" | CHandlePing _ => "HandlePing"
  | CHandleMonitorData _ => "HandleMonitorData" | CHandleCustomMonitorData _ => "HandleCustomMonitorData"
  | CNextTask _ _ => "NextTask" | CReportTask _ => "ReportTask" | CReportCluster _ _ => "ReportCluster"
  | CFleet => "Fleet" | CSnapshot _ => "Snapshot" | CSnapshots => "Snapshots" | CQuerySeries _ => "QuerySeries"
  | CProcesses _ _ => "Processes" | CProcessUsage _ _ _ => "ProcessUsage" | CCustomMetricNames _ => "CustomMetricNames"
  | CAlerts _ => "Alerts" | CDiskForecasts _ => "DiskForecasts" | CEndpoints _ _ => "Endpoints"
  | CEndpointSeries _ => "EndpointSeries" | CVersion => "Version" | CLogin _ _ => "Login"
  | CCheckSession _ => "CheckSession" | CLogout _ => "Logout" | CChangePassword _ _ _ => "ChangePassword"
  | CCheckPassword _ _ => "CheckPassword" | CHasUsers => "HasUsers" | CAlertRules => "AlertRules"
  | CSaveRule _ => "SaveRule" | CDeleteRule _ => "DeleteRule" | CRequestAgentUpdate _ => "RequestAgentUpdate"
  | CHostTasks _ => "HostTasks" | CRequestTaskRun _ => "RequestTaskRun" | CTaskRuns _ _ => "TaskRuns"
  | CTaskRun _ => "TaskRun" | CNotificationChannels => "NotificationChannels" | CSaveChannel _ => "SaveChannel"
  | CDeleteChannel _ => "DeleteChannel" | CTestChannel _ _ => "TestChannel"
  | CRecentNotifications _ => "RecentNotifications" | CClusters => "Clusters" | CCluster _ => "Cluster"
  | CClusterSeries _ => "ClusterSeries" | CRemoveCluster _ => "RemoveCluster"
  end.
Definition FullMethod (c : Call) : string := "/api.MonitorDataService/" +:+ method_name c.

(** The calls an enrolled agent may make with its own key *)
Definition agentMethods : list string := map (λ m, "/api.MonitorDataService/" +:+ m)
  ["HandlePing"; "HandleMonitorData"; "HandleCustomMonitorData"; "NextTask"; "ReportTask"; "ReportCluster"].

(** ** Interceptors *)

(** The incoming metadata of a call; [None] when there is none *)
Record Metadata := { md_agent_key : list string; md_jwt : list string }.

Class Tokens := ValidToken : string → bool.

(** [transport.AuthInterceptor]: a valid jwt, the shared key *)
Definition transport_AuthInterceptor `{Tokens} {A} (meta : option Metadata) (handler : SrvM A) : SrvM A :=
  match meta with
  | None => sfail (ErrStatus codes_Unauthenticated "INTERNAL_SERVER_ERROR")
  | Some meta =>
      match md_jwt meta with
      | [jwt] => if ValidToken jwt then handler else sfail (ErrStatus codes_PermissionDenied "invalid auth token")
      | _ => sfail (ErrStatus codes_Unauthenticated "token empty")
      end
  end.

Definition credential_status (e : error) : error :=
  if bool_decide (cause_of e = ErrNotFound)
  then ErrStatus codes_Unauthenticated "unknown agent key, enroll this host again" else toStatus e.

(** [handler] takes the host the key belongs to. *)
Definition AuthInterceptor `{Tokens} {A} (lookup : DB → string → result error string) (fullMethod : string)
    (meta : option Metadata) (handler : option string → SrvM A) : SrvM A :=
  if str_eq fullMethod "/api.MonitorDataService/Enroll" then handler None
  else match match meta with Some m => md_agent_key m | None => [] end with
  | [] => transport_AuthInterceptor meta (handler None)
  | key :: more =>
      if negb (bool_decide (more = [])) || negb (contains agentMethods fullMethod)
      then sfail (ErrStatus codes_PermissionDenied "agents may only send data")
      else host ← query credential_status (λ d, lookup d key);
           handler (Some host)
  end.

(** ** Dispatch *)

Definition reply_of (c : Call) : Type :=
  match c with
  | CEnroll _ => EnrollResponse | CHandlePing _ => PingResponse | CNextTask _ _ => TaskAssignment
  | CInitAgent _ | CHandleMonitorData _ | CHandleCustomMonitorData _ | CReportTask _ | CReportCluster _ _
  | CVersion | CLogout _ | CChangePassword _ _ _ | CCheckPassword _ _ | CDeleteRule _ | CDeleteChannel _
  | CRemoveCluster _ => string
  | CFleet => list FleetHost | CSnapshot _ => HostSnapshot | CSnapshots => SnapshotList
  | CQuerySeries _ | CEndpointSeries _ | CClusterSeries _ => SeriesResponse
  | CProcesses _ _ => Z * string | CProcessUsage _ _ _ => ProcessUsageList | CCustomMetricNames _ => list string
  | CAlerts _ => list AlertRecord | CDiskForecasts _ => list DiskForecast | CEndpoints _ _ => list EndpointStatus
  | CLogin _ _ | CCheckSession _ => SessionInfo | CHasUsers => bool
  | CAlertRules => list AlertRuleInfo | CSaveRule _ => AlertRuleInfo | CRequestAgentUpdate _ => Z
  | CHostTasks _ => list TaskInfo | CRequestTaskRun _ | CTaskRun _ => TaskRunInfo | CTaskRuns _ _ => list TaskRunInfo
  | CNotificationChannels => list ChannelInfo | CSaveChannel _ => ChannelInfo | CTestChannel _ _ => option string
  | CRecentNotifications _ => list NotificationInfo
  | CClusters => list ClusterSummary | CCluster _ => ClusterInfo
  end.

(** The world of one call: its time and, where it waits, the time after;
    how the waits for hash slots went; the secret and the salt it draws *)
Record World := {
  w_now : time; w_later : time; w_slot : option error; w_slot' : option error; w_secret : string; w_salt : string;
  w_version : string; w_build : option (list (string * string)); w_retention : Retention }.

Section Serve.
Context `{Crypto} `{ParseFloat} `{SnapshotJSON} `{QueryRows} {Hforecasts : ForecastRows} `{SeriesRows} `{EndpointAverages}
        `{ApiJSON} `{UrlParse} `{ParseAddress} `{Outside} `{Tokens}.

Definition serve (w : World) (ctx : option string) (c : Call) : SrvM (reply_of c) :=
  match c with
  | CEnroll i => Enroll (w_now w) (w_secret w) i
  | CInitAgent i => InitAgent i
  | CHandlePing i => HandlePing ctx (w_now w) i
  | CHandleMonitorData text => HandleMonitorData ctx (w_now w) text
  | CHandleCustomMonitorData text => HandleCustomMonitorData ctx (w_now w) text
  | CNextTask ended serverName => Server_NextTask ctx (w_now w) (w_later w) ended serverName
  | CReportTask i => ReportTask ctx (w_now w) i
  | CReportCluster host text => ReportCluster ctx host text
  | CFleet => Fleet (w_now w)
  | CSnapshot host => Server_Snapshot (w_now w) host
  | CSnapshots => Snapshots (w_now w)
  | CQuerySeries i => Server_QuerySeries (w_retention w) (w_now w) i
  | CProcesses host at_ => Server_Processes (w_now w) host at_
  | CProcessUsage host from to => Server_ProcessUsage host from to
  | CCustomMetricNames host => CustomMetricNames host
  | CAlerts i => Server_Alerts i
  | CDiskForecasts host => Server_DiskForecasts (w_now w) host
  | CEndpoints from to => Endpoints from to
  | CEndpointSeries i => Server_EndpointSeries i
  | CVersion => Server_Version (w_version w) (w_build w)
  | CLogin user password => Server_Login (w_now w) (w_slot w) (w_secret w) user password
  | CCheckSession token => CheckSession (w_now w) token
  | CLogout token => Logout token
  | CChangePassword token current next =>
      ChangePassword (w_now w) (w_slot w) (w_slot' w) (w_salt w) token current next
  | CCheckPassword user password => Server_CheckPassword (w_now w) (w_slot w) user password
  | CHasUsers => Server_HasUsers
  | CAlertRules => Server_AlertRules
  | CSaveRule i => SaveRule (w_now w) i
  | CDeleteRule id => Server_DeleteRule (w_now w) id
  | CRequestAgentUpdate i => Server_RequestAgentUpdate (w_now w) i
  | CHostTasks host => Server_HostTasks host
  | CRequestTaskRun i => Server_RequestTaskRun (w_now w) i
  | CTaskRuns host limit => Server_TaskRuns host limit
  | CTaskRun id => Server_TaskRun id
  | CNotificationChannels => NotificationChannels
  | CSaveChannel i => SaveChannel (w_now w) i
  | CDeleteChannel id => DeleteChannel id
  | CTestChannel id by_ => TestChannel (w_now w) id by_
  | CRecentNotifications limit => Server_RecentNotifications limit
  | CClusters => Server_Clusters (w_now w)
  | CCluster name => Server_Cluster (w_now w) name
  | CClusterSeries i => Server_ClusterSeries i
  | CRemoveCluster name => Server_RemoveCluster name
  end.

(** A call from the network *)
Definition rpc (w : World) (meta : option Metadata) (c : Call) : SrvM (reply_of c) :=
  AuthInterceptor HostForCredential (FullMethod c) meta (λ ctx, serve w ctx c).
End Serve.
