(* ===== verification/ApiAuthProps.v ===== *)
(** * What an agent's key can do: the calls of ApiAuth.v on the rows of other
    hosts. *)
From S2P Require Import Prelude GoStrings GoFloat GoTime Errors Monitor Alerts Json Smtp Kube Tasks Database StoreHosts StoreUsers StoreEnrollment StoreEnrollmentProps StoreKube StoreTasks Snapshot StoreIngest StoreSeries StoreAlerts StoreQuery StoreForecast StoreRules StoreNotifications Notify AgentTasks Login Api ApiTasks ApiChannels ApiLogin ApiAuth.
Local Open Scope Z_scope.

#[local] Arguments update_where : simpl never.
#[local] Arguments delete_where : simpl never.
#[local] Arguments select_where : simpl never.

(** ** Rows that are not a host's *)

Lemma delete_where_update {A} (p q : A → bool) f l : (∀ x, x ∈ l → q x = true → p x = true ∧ p (f x) = true) →
  delete_where p (update_where q f l) = delete_where p l.
Proof.
  unfold delete_where, update_where. induction l as [|x l IH]; intros H; [done|]. cbn.
  rewrite IH by (intros y Hy; apply H; by right). destruct (q x) eqn:E; [|done].
  destruct (H x) as [-> ->]; [by left|done|done].
Qed.

Lemma delete_where_app {A} (p : A → bool) l new : (∀ x, x ∈ new → p x = true) →
  delete_where p (l ++ new) = delete_where p l.
Proof.
  intros H. unfold delete_where. rewrite List.filter_app. replace (List.filter _ new) with (@nil A); [by rewrite app_nil_r|].
  symmetry. induction new as [|x new IH]; [done|]. cbn. rewrite H by left. apply IH. intros y Hy. apply H. by right.
Qed.

(** The cluster belongs to another host. *)
Definition foreign (h : Z) (c : ClusterRow) : bool :=
  match cl_host_id c with Some owner => negb (owner =? h) | None => false end.
Definition foreign_id (d : DB) (h : Z) (id : Z) : bool :=
  exists_where (λ c, (cl_id c =? id) && foreign h c) (kube_clusters d).

(** The tables rows are only added to, but for those of the host *)
Definition metrics_of_others (h : Z) (d : DB) :=
  (delete_where (λ r, hm_host_id r =? h) (host_metrics d), delete_where (λ r, dm_host_id r =? h) (disk_metrics d),
   delete_where (λ r, cm_host_id r =? h) (custom_metrics d), delete_where (λ r, ss_host_id r =? h) (service_status d),
   delete_where (λ r, lr_host_id r =? h) (cpu_core_metrics d), delete_where (λ r, lr_host_id r =? h) (disk_io_metrics d),
   delete_where (λ r, lr_host_id r =? h) (net_metrics d), delete_where (λ r, lr_host_id r =? h) (temp_metrics d),
   delete_where (λ r, lr_host_id r =? h) (container_metrics d),
   delete_where (λ r, lt_host_id r =? h) (process_snapshots d)).

(** What no call of an agent touches *)
Definition shared_tables (d : DB) :=
  (alerts d, alert_rules d, rule_setup d, endpoint_checks d, channels d, notifications d, users d, user_sessions d,
   enrollment_tokens d, agent_credentials d).

(** Nothing changed but rows of the host with the id [h], the clusters it
    reads and those no host reads. *)
Record confined (h : Z) (d d' : DB) : Prop := {
  cf_names : map (λ x, (h_id x, h_name x)) (hosts d') = map (λ x, (h_id x, h_name x)) (hosts d);
  cf_hosts : delete_where (λ x, h_id x =? h) (hosts d') = delete_where (λ x, h_id x =? h) (hosts d);
  cf_runs : delete_where (λ r, tr_host_id r =? h) (task_runs d') = delete_where (λ r, tr_host_id r =? h) (task_runs d);
  cf_latest : delete_where (λ r, lt_host_id r =? h) (host_latest d') = delete_where (λ r, lt_host_id r =? h) (host_latest d);
  cf_metrics : metrics_of_others h d' = metrics_of_others h d;
  cf_clusters : select_where (foreign h) (kube_clusters d') = select_where (foreign h) (kube_clusters d);
  cf_counts : select_where (λ m, foreign_id d h (km_cluster_id m)) (kube_metrics d')
              = select_where (λ m, foreign_id d h (km_cluster_id m)) (kube_metrics d);
  cf_restarts : select_where (λ r, foreign_id d h (kr_cluster_id r)) (kube_restarts d')
                = select_where (λ r, foreign_id d h (kr_cluster_id r)) (kube_restarts d);
  cf_shared : shared_tables d' = shared_tables d }.

Lemma foreign_id_select d h id : foreign_id d h id = existsb (λ c, cl_id c =? id) (select_where (foreign h) (kube_clusters d)).
Proof.
  unfold foreign_id, exists_where, select_where. induction (kube_clusters d) as [|c l IH]; [done|]. cbn. rewrite IH.
  destruct (foreign h c); cbn; by rewrite ?andb_true_r, ?andb_false_r.
Qed.

Lemma foreign_id_same d d' h : select_where (foreign h) (kube_clusters d') = select_where (foreign h) (kube_clusters d) →
  ∀ id, foreign_id d' h id = foreign_id d h id.
Proof. intros E id. by rewrite !foreign_id_select, E. Qed.

Lemma select_where_ext {A} (p q : A → bool) l : (∀ x, p x = q x) → select_where p l = select_where q l.
Proof. intros E. exact (List.filter_ext p q E l). Qed.

#[global] Instance confined_preorder h : PreOrder (confined h).
Proof.
  split; [by split|]. intros d1 d2 d3 [A1 A2 A3 A4 A5 A6 A7 A8 A9] [B1 B2 B3 B4 B5 B6 B7 B8 B9]. split; try congruence.
  all: pose proof (foreign_id_same d1 d2 h A6) as E.
  - rewrite <- A7, !(select_where_ext (λ m, foreign_id d1 h _) (λ m, foreign_id d2 h (km_cluster_id m))); [done|by intros m; rewrite E..].
  - rewrite <- A8, !(select_where_ext (λ r, foreign_id d1 h _) (λ r, foreign_id d2 h (kr_cluster_id r))); [done|by intros m; rewrite E..].
Qed.

(** ** The host a name stands for *)

Record is_host (d : DB) (name : string) (h : Z) : Prop := {
  ih_found : hostID d name = Ok h;
  ih_only : ∀ x, x ∈ hosts d → h_name x = name → h_id x = h }.

Lemma find_map {A B} (g : A → B) (p : A → bool) (q : B → bool) l : (∀ x, p x = q (g x)) →
  option_map g (List.find p l) = List.find q (map g l).
Proof. intros E. induction l as [|x l IH]; [done|]. cbn. rewrite E. by destruct (q (g x)). Qed.

Lemma hostID_names d name : hostID d name =
  match List.find (λ x, str_eq x.2 name) (map (λ x, (h_id x, h_name x)) (hosts d)) with
  | Some x => Ok x.1
  | None => Err ErrNotFound
  end.
Proof.
  rewrite <- (find_map (λ x, (h_id x, h_name x)) (host_named name)) by done. unfold hostID, host_by_name.
  by destruct (List.find _ _).
Qed.

Lemma is_host_same d d' name h : map (λ x, (h_id x, h_name x)) (hosts d') = map (λ x, (h_id x, h_name x)) (hosts d) →
  is_host d name h → is_host d' name h.
Proof.
  intros E [Hf Ho]. split.
  - by rewrite hostID_names, E, <- hostID_names.
  - intros x Hx Hn. assert ((h_id x, h_name x) ∈ map (λ x, (h_id x, h_name x)) (hosts d)) as (y & [= Ei En] & Hy)%list_elem_of_fmap.
    { rewrite <- E. apply list_elem_of_fmap. by exists x. }
    rewrite Ei. apply Ho; [done|congruence].
Qed.

Lemma of_host_named_id d name h r : is_host d name h → of_host_named d name r = true → tr_host_id r = h.
Proof.
  intros [Hf _]. unfold of_host_named, hostID in *. destruct (host_by_name d name); [|done]. injection Hf as <-. lia.
Qed.

(** ** The store's operations *)

Lemma update_hosts_confined p f d h : (∀ x, h_id (f x) = h_id x) → (∀ x, h_name (f x) = h_name x) →
  (∀ x, x ∈ hosts d → p x = true → h_id x = h) → confined h d (update_hosts p f d).
Proof.
  intros Hi Hn Hp. split; try done; cbn.
  - unfold update_where. rewrite map_map. apply map_ext. intros x. destruct (p x); by rewrite ?Hi, ?Hn.
  - apply delete_where_update. intros x Hx Hpx. rewrite Hi. specialize (Hp x Hx Hpx). lia.
Qed.

Lemma named_confined f d name h : is_host d name h → (∀ x, h_id (f x) = h_id x) → (∀ x, h_name (f x) = h_name x) →
  confined h d (update_hosts (host_named name) f d).
Proof.
  intros Hh Hi Hn. apply update_hosts_confined; [done..|]. intros x Hx E%str_eq_spec. by apply Hh.
Qed.

Lemma update_runs_confined p f d h : (∀ r, tr_host_id (f r) = tr_host_id r) →
  (∀ r, r ∈ task_runs d → p r = true → tr_host_id r = h) → confined h d (update_runs p f d).
Proof.
  intros Hf Hp. split; try done. cbn. apply delete_where_update. intros r Hr Hpr. rewrite Hf. specialize (Hp r Hr Hpr). lia.
Qed.

Lemma AgentCheckIn_confined d name h at_ version arch err : is_host d name h →
  confined h d (AgentCheckIn name at_ version arch err d).2.
Proof.
  intros Hh. unfold AgentCheckIn. destruct (host_by_name d name); [|reflexivity]. by apply named_confined.
Qed.

Lemma ClaimTaskRun_confined d name h now : is_host d name h → confined h d (ClaimTaskRun now name d).2.
Proof.
  intros Hh. unfold ClaimTaskRun. set (d1 := update_runs _ _ d). cbn. transitivity d1.
  - apply update_runs_confined; [done|]. intros r _ E. unfold is_lost_claim in E. apply andb_true_iff in E as [_ E].
    by eapply of_host_named_id.
  - apply update_runs_confined; [done|]. intros r _ E. unfold is_claimable in E. rewrite !andb_true_iff in E.
    destruct E as [[_ E] _]. by apply (of_host_named_id d name).
Qed.

Lemma going_confined d name h id f : is_host d name h → (∀ r, tr_host_id (f r) = tr_host_id r) →
  confined h d (update_runs (is_going d name id) f d).
Proof.
  intros Hh Hf. apply update_runs_confined; [done|]. intros r _ E. unfold is_going in E. rewrite !andb_true_iff in E.
  destruct E as [_ E]. by eapply of_host_named_id.
Qed.

Lemma AppendTaskOutput_confined d name h id output truncated : is_host d name h →
  confined h d (AppendTaskOutput name id output truncated d).2.
Proof. intros Hh. unfold AppendTaskOutput. do 2 (case_match; [reflexivity|]). by apply going_confined. Qed.

Lemma FinishTaskRun_confined d name h now id result : is_host d name h →
  confined h d (FinishTaskRun now name id result d).2.
Proof. intros Hh. unfold FinishTaskRun. do 2 (case_match; [reflexivity|]). by apply going_confined. Qed.

Lemma seen_now_confined d now h : confined h d (seen_now now h d).
Proof. apply update_hosts_confined; [done..|]. intros x _ E. lia. Qed.

Lemma save_latest_confined d h row : lt_host_id row = h → confined h d (save_latest row d).
Proof.
  intros <-. unfold save_latest. case_match; split; try done; cbn.
  - apply delete_where_update. intros x _ E. apply andb_true_iff in E as [E _]. split; [done|]. lia.
  - apply delete_where_app. intros x ->%list_elem_of_singleton. lia.
Qed.

Section Data.
Context `{ParseFloat} `{SnapshotJSON}.

Lemma snapshot_rows_confined d now at_ h data snapshot processes :
  confined h d (snapshot_rows now at_ h data snapshot processes d).
Proof.
  assert (Hmap : ∀ A (f : A → LabelRow) l x, (∀ a, lr_host_id (f a) = h) → x ∈ map f l → (lr_host_id x =? h) = true).
  { intros A f l x Hf (a & -> & _)%list_elem_of_fmap. rewrite Hf. lia. }
  unfold snapshot_rows. set (d1 := set_process_snapshots _ _). transitivity d1.
  - subst d1. split; try done. unfold metrics_of_others, queueHostMetrics. cbn.
    rewrite !delete_where_app; [done|intros x Hx..].
    all: try (eapply Hmap; [|exact Hx]; done).
    all: first [apply list_elem_of_singleton in Hx as ->; cbn; lia
               |apply list_elem_of_fmap in Hx as (a & -> & _); cbn; lia
               |apply elem_of_lookup_imap in Hx as (i & a & -> & _); cbn; lia].
  - etrans; [|apply seen_now_confined]. by apply save_latest_confined.
Qed.

Lemma SaveSnapshot_confined d h now data : is_host d (md_ServerId data) h → confined h d (SaveSnapshot now data d).2.
Proof.
  intros [Hf _]. unfold SaveSnapshot. destruct (parseUnixTime _); [|reflexivity]. rewrite Hf. cbn.
  destruct (marshal_data data); [|reflexivity]. cbn. destruct (marshal_processes _); [|reflexivity]. cbn -[snapshot_rows].
  apply snapshot_rows_confined.
Qed.

Lemma SaveCustomMetric_confined d h now m : is_host d (cmv_ServerId m) h → confined h d (SaveCustomMetric now m d).2.
Proof.
  intros [Hf _]. unfold SaveCustomMetric. destruct (parse_float _); [|reflexivity]. destruct (parseUnixTime _); [|reflexivity].
  cbn -[hostID]. rewrite Hf. cbn -[seen_now]. etrans; [|apply seen_now_confined]. split; try done.
  unfold metrics_of_others. cbn. rewrite delete_where_app; [done|]. intros x ->%list_elem_of_singleton. cbn. lia.
Qed.
End Data.

(** ** Clusters *)

Definition cluster_ids_ok (d : DB) : Prop :=
  NoDup (map cl_id (kube_clusters d)) ∧ ∀ c, c ∈ kube_clusters d → cl_id c < seq d.

Lemma select_where_update_none {A} (p q : A → bool) f l : (∀ x, x ∈ l → q x = true → p x = false ∧ p (f x) = false) →
  select_where p (update_where q f l) = select_where p l.
Proof.
  unfold select_where, update_where. induction l as [|x l IH]; intros H; [done|]. cbn.
  rewrite IH by (intros y Hy; apply H; by right). destruct (q x) eqn:E; [|done].
  destruct (H x) as [-> ->]; [by left|done|done].
Qed.

Lemma select_where_app_none {A} (p : A → bool) l new : (∀ x, x ∈ new → p x = false) →
  select_where p (l ++ new) = select_where p l.
Proof.
  intros H. unfold select_where. rewrite List.filter_app. replace (List.filter p new) with (@nil A); [by rewrite app_nil_r|].
  symmetry. induction new as [|x new IH]; [done|]. cbn. rewrite H by left. apply IH. intros y Hy. apply H. by right.
Qed.

Lemma not_foreign d h id : (∀ c, c ∈ kube_clusters d → cl_id c = id → foreign h c = false) → foreign_id d h id = false.
Proof.
  intros H. apply exists_where_false. intros c Hc. destruct (cl_id c =? id) eqn:E; [|done]. apply H; [done|lia].
Qed.

(** Rows of a cluster that is not another host's *)
Lemma saveClusterMetrics_confined d h id state restarts : foreign_id d h id = false →
  confined h d (saveClusterMetrics id state restarts d).
Proof.
  intros Hid. split; try done; cbn; apply select_where_app_none.
  - by intros m ->%list_elem_of_singleton.
  - by intros r (x & -> & _)%list_elem_of_fmap.
Qed.

Lemma update_cluster_confined d h c f : cluster_ids_ok d → c ∈ kube_clusters d → foreign h c = false → foreign h (f c) = false →
  confined h d (update_cluster (cl_id c) f d).
Proof.
  intros [Hnd _] Hc Hno Hf. split; try done. cbn. apply select_where_update_none. intros x Hx E.
  assert (x = c) as -> by (apply (NoDup_map_inj cl_id (kube_clusters d)); [done..|lia]). done.
Qed.

Lemma SaveClusterReport_confined d name h state : cluster_ids_ok d → is_host d name h →
  confined h d (SaveClusterReport name state d).2.
Proof.
  intros Hd [Hf _]. unfold SaveClusterReport. destruct (_ || _); [reflexivity|]. rewrite Hf.
  destruct (cluster_by_name d _) as [c|] eqn:Ec.
  - apply cluster_by_name_some in Ec as [Hc _].
    destruct (match cl_host_id c with Some owner => _ | None => _ end) eqn:Ho; [reflexivity|].
    assert (Hno : foreign h c = false) by done.
    assert (Hme : ∀ f, cl_host_id (f c) = Some h → foreign h (f c) = false) by (intros f E; unfold foreign; rewrite E; lia).
    destruct (negb _); [by apply update_cluster_confined; try apply Hme|]. destruct (_ <=? _); [reflexivity|]. cbn [snd].
    assert (Hup : confined h d (update_cluster (cl_id c) (cluster_state h state (unix_time (cs_Time state))) d))
      by (apply update_cluster_confined; [done..|by apply Hme]).
    etrans; [exact Hup|]. apply saveClusterMetrics_confined. rewrite (foreign_id_same d) by apply (cf_clusters _ _ _ Hup).
    apply not_foreign. intros x Hx E. assert (x = c) as -> by (by apply (NoDup_map_inj cl_id (kube_clusters d)); [apply Hd|..]).
    done.
  - destruct Hd as [_ Hfresh]. unfold next_id. set (new := {| cl_id := seq d |}).
    set (d1 := set_kube_clusters _ _).
    assert (Hfor : foreign h new = false) by (unfold foreign; cbn; lia).
    assert (Hnew : confined h d d1).
    { split; try done. subst d1. cbn. apply select_where_app_none. by intros x ->%list_elem_of_singleton. }
    case_match; [|done]. etrans; [exact Hnew|]. apply saveClusterMetrics_confined.
    rewrite (foreign_id_same d) by apply (cf_clusters _ _ _ Hnew). apply not_foreign. intros x Hx%Hfresh E. lia.
Qed.

(** ** Calls *)

(** The same for the server: only the channel agents of the host wait on may change. *)
Record confined_server (h : Z) (name : string) (s s' : Server) : Prop := {
  cn_db : confined h (sv_db s) (sv_db s');
  cn_logins : sv_logins s' = sv_logins s;
  cn_forecasts : (sv_forecastAt s', sv_diskFull s') = (sv_forecastAt s, sv_diskFull s);
  cn_closed : tw_closed (sv_tasks s') = tw_closed (sv_tasks s);
  cn_waiting : ∀ other, other ≠ name → tw_waiting (sv_tasks s') !! other = tw_waiting (sv_tasks s) !! other }.

#[global] Instance confined_server_preorder h name : PreOrder (confined_server h name).
Proof.
  split; [by split|]. intros s1 s2 s3 [A1 A2 A3 A4 A5] [B1 B2 B3 B4 B5].
  split; [by etrans|congruence..|]. intros other Hn. by rewrite B5, A5.
Qed.

Definition stays {A} (h : Z) (name : string) (m : SrvM A) : Prop :=
  ∀ s, is_host (sv_db s) name h → cluster_ids_ok (sv_db s) → confined_server h name s (m s).2.

Lemma store_stays {A} h name f (m : DBM A) : (∀ d, is_host d name h → cluster_ids_ok d → confined h d (m d).2) →
  stays h name (store f m).
Proof.
  intros Hm s Hh Hc. unfold store. specialize (Hm _ Hh Hc). by destruct (m (sv_db s)) as [[a|e] d'].
Qed.

Lemma pure_stays {A} h name (r : result error A) : stays h name (λ s, (r, s)).
Proof. by intros s _ _. Qed.

(** The clusters keep the ids an agent's call leaves them. *)
Lemma bind_stays {A B} h name (m : SrvM A) (k : A → SrvM B) : stays h name m → (∀ a, stays h name (k a)) →
  (∀ s, cluster_ids_ok (sv_db s) → cluster_ids_ok (sv_db (m s).2)) → stays h name (m ≫= k).
Proof.
  intros Hm Hk Hids s Hh Hc. unfold mbind, SM_bind, sbind. cbv beta. specialize (Hm s Hh Hc). specialize (Hids s Hc).
  destruct (m s) as [[a|e] s']; [|done]. etrans; [exact Hm|]. apply Hk; [|done].
  apply (is_host_same (sv_db s)); [|done]. apply Hm.
Qed.

Lemma store_ids {A} f (m : DBM A) s : (∀ d, kube_clusters (m d).2 = kube_clusters d ∧ seq d ≤ seq (m d).2) →
  cluster_ids_ok (sv_db s) → cluster_ids_ok (sv_db (store f m s).2).
Proof.
  intros Hm [A1 A2]. destruct (Hm (sv_db s)) as [E Hs]. unfold store. destruct (m (sv_db s)) as [[a|e] d']; cbn in *.
  all: split; [by rewrite E|]; intros c; rewrite E; intros Hc%A2; lia.
Qed.

(** A bind after a call of the store that ends there *)
Lemma store_then_stays {A B} h name f (m : DBM A) (g : A → B) :
  (∀ d, is_host d name h → cluster_ids_ok d → confined h d (m d).2) → stays h name (x ← store f m; mret (g x)).
Proof.
  intros Hm s Hh Hc. pose proof (store_stays h name f m Hm s Hh Hc) as H. unfold mbind, SM_bind, sbind. cbv beta.
  by destruct (store f m s) as [[a|e] s'].
Qed.

Lemma saveTasks_stays h name sent : stays h name (saveTasks name sent).
Proof.
  intros s Hh Hc. unfold saveTasks, stry, mbind, SM_bind, sbind. cbv beta.
  assert (Hm : ∀ d, is_host d name h → cluster_ids_ok d → confined h d (SaveHostTasks name (accepted_tasks sent) d).2)
    by (intros d Hd _; by apply named_confined).
  pose proof (store_stays h name toStatus _ Hm s Hh Hc) as H. by destruct (store _ _ s) as [r s'].
Qed.

Section Serve.
Context `{Crypto} `{ParseFloat} `{SnapshotJSON} `{QueryRows} {Hforecasts : ForecastRows} `{SeriesRows} `{EndpointAverages}
        `{ApiJSON} `{UrlParse} `{ParseAddress} `{Outside} `{Tokens}.

Lemma HandlePing_stays h name now i : stays h name (HandlePing (Some name) now i).
Proof.
  unfold HandlePing. change (host_of (Some name) (si_ServerName i)) with name. apply bind_stays.
  - apply store_stays. intros d Hd _. by apply AgentCheckIn_confined.
  - intros update s Hh Hc. unfold mbind, SM_bind, sbind. cbv beta. pose proof (saveTasks_stays h name (si_Tasks i) s Hh Hc) as Hs.
    by destruct (saveTasks name (si_Tasks i) s) as [[[]|e] s'].
  - intros s. apply store_ids. intros d. unfold AgentCheckIn. by destruct (host_by_name d name).
Qed.

Lemma NextTask_stays h name now later ended named : stays h name (Server_NextTask (Some name) now later ended named).
Proof.
  assert (Hclaim : ∀ t, stays h name (NextTask_claim t name)).
  { intros t. apply store_then_stays. intros d Hd _. by apply ClaimTaskRun_confined. }
  assert (Hids : ∀ t s, cluster_ids_ok (sv_db s) → cluster_ids_ok (sv_db (NextTask_claim t name s).2)).
  { intros t s Hs. unfold NextTask_claim, mbind, SM_bind, sbind. cbv beta.
    pose proof (store_ids toStatus (ClaimTaskRun t name) s (λ d, conj eq_refl (Z.le_refl _)) Hs) as Hx.
    by destruct (store _ _ s) as [[r|e] s']. }
  apply bind_stays; [apply bind_stays|..].
  - intros s Hh Hc. unfold NextTask_wait, wait, host_of. cbn. destruct (tw_waiting (sv_tasks s) !! name) eqn:E; [done|].
    split; try done. intros other Hn. cbn. by rewrite lookup_insert_ne.
  - intros woken. apply bind_stays; [apply Hclaim|intros; apply pure_stays|apply Hids].
  - intros s Hs. unfold NextTask_wait. by destruct (wait _ _).
  - intros [woken [a|]]; [apply pure_stays|]. destruct ended; [|apply pure_stays..]. cbn.
    apply bind_stays; [apply Hclaim|intros; apply pure_stays|apply Hids].
  - intros s Hs. unfold NextTask_look, mbind, SM_bind, sbind. cbv beta. unfold NextTask_wait, host_of. cbn.
    destruct (wait name (sv_tasks s)) as [woken w]. pose proof (Hids now (set_waiters w s) Hs) as Hx.
    by destruct (NextTask_claim now name _) as [[r|e] s'].
Qed.

(** Every call an agent's key opens stays with the agent's host. *)
Lemma serve_stays w h name c : contains agentMethods (FullMethod c) = true → stays h name (serve w (Some name) c).
Proof.
  intros Hc. destruct c; vm_compute in Hc; try discriminate Hc; clear Hc; cbn [serve].
  - apply HandlePing_stays.
  - unfold HandleMonitorData. destruct (unmarshal_data text); [|apply pure_stays]. apply store_then_stays.
    intros d Hd _. by apply SaveSnapshot_confined.
  - unfold HandleCustomMonitorData. destruct (unmarshal_metric text); [|apply pure_stays]. apply store_then_stays.
    intros d Hd _. by apply SaveCustomMetric_confined.
  - apply NextTask_stays.
  - unfold ReportTask. apply store_then_stays. intros d Hd _. destruct (tp_Done _);
      [by apply FinishTaskRun_confined|by apply AppendTaskOutput_confined].
  - unfold ReportCluster. destruct (decode_state text); [|apply pure_stays]. apply store_then_stays.
    intros d Hd Hc. by apply SaveClusterReport_confined.
Qed.

(** ** Properties *)

(** C7: An agent's key only reaches its own host.  A call that comes with an
    agent key, whatever it is and whatever its payload says, either is one of
    the six agent methods, made with the one key of a host, and then changes
    no row, waiting channel or cluster of another host and nothing that is
    shared; or it is refused with PermissionDenied or Unauthenticated and
    changes nothing.  (Enroll takes a token instead of a key.) *)
Theorem agent_confined (w : World) (key : string) (more jwt : list string) (c : Call) (s : Server) :
  enroll_wf (sv_db s) → cluster_ids_ok (sv_db s) → method_name c ≠ "Enroll" →
  match rpc w (Some {| md_agent_key := key :: more; md_jwt := jwt |}) c s with
  | (r, s') =>
      (∃ h, h ∈ hosts (sv_db s) ∧ belongs (sv_db s) key (h_name h) ∧ more = [] ∧ FullMethod c ∈ agentMethods
         ∧ confined_server (h_id h) (h_name h) s s')
      ∨ (s' = s ∧ ∃ e, r = Err e ∧ status_code e ∈ [codes_PermissionDenied; codes_Unauthenticated])
  end.
Proof.
  intros Hwf Hids Hm. unfold rpc, AuthInterceptor.
  replace (str_eq _ _) with false by (symmetry; apply not_true_iff_false; rewrite str_eq_spec; intros E; apply Hm; by destruct c).
  cbn [md_agent_key]. destruct (negb _ || negb _) eqn:E.
  { right. split; [done|]. eexists. split; [done|by left]. }
  apply orb_false_iff in E as [E1%negb_false_iff%bool_decide_eq_true E2%negb_false_iff].
  unfold query, store, dread, mbind, SM_bind, sbind. cbv beta.
  pose proof (HostForCredential_spec (sv_db s) key Hwf) as Hk.
  destruct (HostForCredential (sv_db s) key) as [name|e] eqn:Eh.
  - pose proof Hk as (cr & h & _ & Hh & _ & _ & <-).
    assert (is_host (sv_db s) (h_name h) (h_id h)) as Hi.
    { assert (Hone : ∀ x, x ∈ hosts (sv_db s) → h_name x = h_name h → x = h)
        by (intros x Hx En; by apply (NoDup_map_inj h_name (hosts (sv_db s))); [apply Hwf|..]).
      split; [|intros x Hx En; by rewrite (Hone x)]. unfold hostID, host_by_name. rewrite (find_unique _ _ h); [done..| |].
      - apply str_eq_refl.
      - intros y Hy Ey%str_eq_spec. by apply Hone. }
    pose proof (serve_stays w (h_id h) (h_name h) c E2 (set_db (sv_db s) s) Hi Hids) as Hs.
    destruct (serve _ _ _ _) as [r s']. left. exists h. split_and!; [done..|by apply contains_spec|]. by destruct s.
  - right. destruct Hk as [-> _]. split; [by destruct s|]. eexists. split; [done|right; left].
Qed.
End Serve.

(** ** web1's agent reports a run as web2's *)

#[local] Instance ex_crypto : Crypto := {| pbkdf2_Key := λ p s _, p +:+ s; sha256_Sum256 := λ s, s |}.
#[local] Instance ex_parse : ParseFloat := λ _, None.
#[local] Instance ex_json : SnapshotJSON := {|
  marshal_data := λ _, Ok ""; marshal_processes := λ _, Ok ""; unmarshal_data := λ _, Err (ErrText "");
  unmarshal_metric := λ _, Err (ErrText "") |}.
#[local] Instance ex_rows : QueryRows := {| usage_rows := λ _ _ _ _ _, []; custom_metrics_1h := λ _, [] |}.
#[local] Instance ex_forecasts : ForecastRows := λ _ _, [].
#[local] Instance ex_series : SeriesRows := {| series_rows := λ _ _ _, []; chart_rows := λ _ _ _, [] |}.
#[local] Instance ex_averages : EndpointAverages := λ _, (f0, None).
#[local] Instance ex_api_json : ApiJSON := {|
  decode_rule := λ _, Err (ErrText ""); encode_rule := λ _, Ok ""; decode_settings := λ _, Ok ∅;
  decode_state := λ _, Err (ErrText ""); encode_state := λ _, Ok ""; decode_containers := λ _, Ok [] |}.
#[local] Instance ex_urls : UrlParse := λ _, None.
#[local] Instance ex_addresses : ParseAddress := λ _, None.
#[local] Instance ex_outside : Outside := {|
  net_answer := λ _ _, Err (ErrText ""); json_parse := λ _, None; json_float := λ _, None; now_Time := 0;
  now_UnixNano := 0; mail_server := {| ms_conn := unit; ms_dial _ := Ok (); ms_handshake _ c := Ok c;
    ms_greet c := (Ok (220, []), c); ms_send _ c := (Ok (250, []), c) |};
  rfc1123z := λ _, "" |}.
#[local] Instance ex_tokens : Tokens := λ _, false.

Definition two_hosts : DB :=
  set_agent_credentials [{| cr_host_id := 1; cr_secret_hash := "key1" |}]
    (set_seq 5 (set_hosts [new_host 1 "web1" ""; new_host 2 "web2" ""] empty_db)).
Definition ping_as_web2 : Call := CHandlePing {|
  si_ServerName := "web2"; si_Timezone := ""; si_AgentVersion := "v2"; si_Arch := ""; si_UpdateError := ""; si_Tasks := [] |}.
Definition ex_world : World := {|
  w_now := 100; w_later := 200; w_slot := None; w_slot' := None; w_secret := ""; w_salt := ""; w_version := "v3";
  w_build := None; w_retention := DefaultRetention |}.
Definition with_key1 : option Metadata := Some {| md_agent_key := ["key1"]; md_jwt := [] |}.

Lemma two_hosts_wf : enroll_wf two_hosts ∧ cluster_ids_ok two_hosts.
Proof.
  assert (Hnd : ∀ A (x y : A), x ≠ y → NoDup [x; y]).
  { intros A x y Hn. apply NoDup_cons. split; [by intros ->%list_elem_of_singleton|apply NoDup_singleton]. }
  split; [split|split]; cbn; try (by apply Hnd); try apply NoDup_nil_2; try apply NoDup_singleton.
  - intros h [->|[->|[]%not_elem_of_nil]%elem_of_cons]%elem_of_cons; cbn; lia.
  - intros c ->%list_elem_of_singleton. exists (new_host 1 "web1" ""). split; [by left|done].
  - by intros c ?%not_elem_of_nil.
Qed.

Lemma agent_confined_witness :
  delete_where (λ x, h_id x =? 1) (hosts (sv_db (rpc ex_world with_key1 ping_as_web2 (start_server two_hosts)).2))
  = [new_host 2 "web2" ""].
Proof.
  pose proof (agent_confined ex_world "key1" [] [] ping_as_web2 (start_server two_hosts) (proj1 two_hosts_wf)
    (proj2 two_hosts_wf) ltac:(done)) as H.
  change (Some {| md_agent_key := ["key1"]; md_jwt := [] |}) with with_key1 in H.
  destruct (rpc ex_world with_key1 ping_as_web2 (start_server two_hosts)) as [r s'] eqn:E.
  destruct H as [(h & Hh & (c & h' & Hc & Hh' & Hs & Hid & Hn) & _ & _ & Hcf)|[_ (e & -> & _)]].
  - assert (h_id h = 1) as Hi.
    { apply list_elem_of_singleton in Hc as ->. cbn in Hid.
      apply elem_of_cons in Hh as [->|Hh]; [done|]. apply list_elem_of_singleton in Hh as ->.
      apply elem_of_cons in Hh' as [->|Hh']; [done|]. apply list_elem_of_singleton in Hh' as ->. done. }
    destruct Hcf as [[_ Hcf _ _ _ _ _ _ _] _ _ _ _]. rewrite Hi in Hcf. exact Hcf.
  - vm_compute in E. discriminate E.
Defined.
