(* ===== verification/Transport.v ===== *)
(** * Credentials on the wire: src/internal/transport/transport.go and
    src/internal/auth/auth.go.

    The JWT library signs an expiry with a key and says of a token whether it
    is valid at a time; loading certificates is the caller's.  The check of
    the shared key on the collector is in ApiAuth.v, which takes [ValidToken]. *)
From S2P Require Import Prelude GoStrings GoTime Errors Monitor Base64 Config Kube Tasks Database StoreHosts StoreUsers StoreEnrollment.
From S2P Require Import StoreEnrollmentProps AgentTasks Login Api ApiAuth AgentUpdate AgentMain.
Local Open Scope Z_scope.

(** ** auth.go *)

(** HS256 and a required expiry are what the code asks of [jwt.Parse]; the
    other claims are constants. *)
Class JWT := {
  jwt_sign : string → Z → result error string;
  jwt_valid : string → time → string → bool }.
(** A token is valid, for the key it was signed with, until it expires. *)
Class JWTLaws `{JWT} : Prop := {
  jwt_signed key exp token now : jwt_sign key exp = Ok token → now < unix_time exp → jwt_valid key now token = true }.

Definition keyGen (random : string) : string := b64_encode random.
(** [random] is the 64 bytes [keyGen] draws; a [Setenv] that fails is logged. *)
Definition GetKey (generateIfNotFound : bool) (random : string) (e : environ) : string * environ :=
  let key := getenv e "SYMON_KEY" in
  if 0 <? slen key then (key, e)
  else if negb generateIfNotFound then ("", e)
  else (keyGen random, (setenv "SYMON_KEY" (keyGen random) e).2).

Definition shared_key (e : environ) : string := (GetKey false "" e).1.
(** The checks of the calls of one moment *)
#[export] Instance token_check `{JWT} (e : environ) (now : time) : Tokens | 10 := λ token, jwt_valid (shared_key e) now token.
Definition GenerateJWT `{JWT} (e : environ) (now : time) : result error string := jwt_sign (shared_key e) (to_unix (now + minute)).

(** ** transport.go *)

Definition RequestTimeout : duration := 10 * second.
Definition AgentKeyHeader : string := "agent-key".

(** [ServerCreds] and [NewServer]: the certificate the server shows, none in
    plaintext.  [load] is [tls.LoadX509KeyPair]. *)
Definition ServerCreds {Cert} (load : string → string → result error Cert) (certPath keyPath : string) : result error Cert :=
  load certPath keyPath.
Definition NewServer {Cert} (load : string → string → result error Cert) (tlsEnabled : bool) (certPath keyPath : string)
    : result error (option Cert) :=
  if tlsEnabled then
    match ServerCreds load certPath keyPath with
    | Err err => Err (ErrWrap ("cannot load TLS cert " +:+ certPath +:+ ", key " +:+ keyPath) err)
    | Ok cert => Ok (Some cert)
    end
  else Ok None.

(** [ClientCreds]: the CA trusted, none in plaintext *)
Definition ClientCreds (read : string → result error string) (has_certs : string → bool) (caPath : string) : result error (option string) :=
  if str_eq caPath "" then Ok None
  else match read caPath with
  | Err err => Err err
  | Ok ca => if has_certs ca then Ok (Some ca) else Err (ErrText ("failed to add server CA cert " +:+ caPath))
  end.

(** [Dial]: an endpoint with its CA, and what is sent with every call;
    [connect] is [grpc.NewClient]. *)
Definition Dial {Conn} (connect : string → option string → option Credentials → result error Conn)
    (read : string → result error string) (has_certs : string → bool) (endpoint caPath : string) (auth : option Credentials)
    : result error Conn :=
  match ClientCreds read has_certs caPath with
  | Err err => Err (ErrWrap "cannot load TLS credentials" err)
  | Ok ca => connect endpoint ca auth
  end.

(** [GetRequestMetadata], as the collector receives it *)
Definition request_metadata `{JWT} (e : environ) (now : time) (c : Credentials) : result error Metadata :=
  match c with
  | AgentKey key => Ok {| md_agent_key := [key]; md_jwt := [] |}
  | SharedKey =>
      match GenerateJWT e now with
      | Err err => Err (ErrWrap "cannot generate token" err)
      | Ok token => Ok {| md_agent_key := []; md_jwt := [token] |}
      end
  end.

(** ** Who is let in *)

(** The clock of the token counts whole seconds. *)
Lemma expiry_after now later : later + second ≤ now + minute → later < unix_time (to_unix (now + minute)).
Proof.
  intros Hl. cbv [unix_time to_unix second minute time duration] in *.
  pose proof (Z.mod_pos_bound (now + 60 * 1000000000) 1000000000 ltac:(lia)) as Hm.
  pose proof (Z.div_mod (now + 60 * 1000000000) 1000000000 ltac:(lia)) as Hd. lia.
Qed.

Section LetIn.
Context `{Crypto} `{JWT}.

(** A call with the shared key is let in for the better part of a minute, as
    nobody in particular. *)
Lemma shared_key_let_in `{!JWTLaws} (e : environ) (now later : time) (meta : Metadata) {A} (method : string) (handler : option string → SrvM A) :
  request_metadata e now SharedKey = Ok meta → later + second ≤ now + minute →
  AuthInterceptor (H := token_check e later) HostForCredential method (Some meta) handler = handler None.
Proof.
  unfold request_metadata, GenerateJWT. destruct (jwt_sign _ _) as [token|] eqn:E; [|done]. intros [= <-] Hl.
  unfold AuthInterceptor. destruct (str_eq _ _); [done|]. cbn.
  unfold ValidToken, token_check. by rewrite (jwt_signed _ _ _ _ E (expiry_after now later Hl)).
Qed.

Definition enroll_method : string := "/api.MonitorDataService/Enroll".

(** C22: an agent that enrolled is let in as the host it enrolled for.  When
    its -enroll command ends well, the key it saved is the one it reads back
    and sends; the collector lets it call the agent methods as that host,
    whatever name it goes by, and no other method but Enroll. *)
Theorem enrolled_let_in {A} (config : Agent_config) (token timezone message file secret method : string) (env : EnrollEnv)
    (e : environ) (now later : time) (s : Server) (handler : option string → SrvM A) (Htokens : Tokens) :
  enroll_wf (sv_db s) → secret ≠ "" → (∀ c, c ∈ chars secret → in_alphabet c = true) →
  enroll config token timezone (Ok (λ request, (Enroll now secret request s).1)) env = (Done message, Some file) →
  let s1 := (Enroll now secret {| enr_Token := token; enr_HostName := ag_ServerId config; enr_Timezone := timezone |} s).2 in
  credentials (Ok file) = AgentKey secret ∧
  ∃ meta, request_metadata e later (credentials (Ok file)) = Ok meta ∧
    AuthInterceptor HostForCredential method (Some meta) handler s1 =
      if str_eq method enroll_method then handler None s1
      else if contains agentMethods method then handler (Some (ag_ServerId config)) s1
      else (Err (ErrStatus codes_PermissionDenied "agents may only send data"), s1).
Proof.
  intros Hwf Hne Hsecret Hrun s1. unfold enroll in Hrun. destruct (str_eq token ""); [done|]. subst s1.
  set (request := {| enr_Token := token; enr_HostName := ag_ServerId config; enr_Timezone := timezone |}) in *.
  assert (Hkey : ∀ r, (Enroll now secret request s).1 = Ok r →
    enr_AgentKey r = secret ∧ HostForCredential (sv_db (Enroll now secret request s).2) secret = Ok (ag_ServerId config)).
  { intros r. unfold Enroll, mbind, SM_bind, sbind, store. destruct (negb _); [done|].
    destruct (Store_Enroll now _ secret _ _ (sv_db s)) as [[key|err] d'] eqn:E; [|done]. intros [= <-].
    by destruct (Store_Enroll_key _ _ _ _ _ _ _ _ Hwf E) as [-> Hh]. }
  destruct (Enroll now secret request s) as [[r|err] s1]; [|done]. cbn in Hrun. destruct (Hkey r eq_refl) as [Er Hhost].
  destruct (en_mkdir_fails env), (en_write_fails env); try done. injection Hrun as _ <-. cbn [snd] in *. rewrite Er.
  assert (Hc : credentials (Ok (secret +:+ str1 10)) = AgentKey secret).
  { unfold credentials. rewrite trim_line by done. destruct secret; [done|]. done. }
  split; [done|]. rewrite Hc. eexists. split; [reflexivity|].
  unfold AuthInterceptor. change (str_eq method "/api.MonitorDataService/Enroll") with (str_eq method enroll_method).
  destruct (str_eq method enroll_method); [done|]. cbn [md_agent_key].
  rewrite bool_decide_true by done. destruct (contains agentMethods method); [|done].
  unfold mbind, SM_bind, sbind, query, store, dread. cbn [negb orb]. rewrite Hhost. by destruct s1.
Qed.
End LetIn.

(** ** Witness *)

#[local] Existing Instance toy_hashes.
#[local] Instance toy_jwt : JWT := {|
  jwt_sign := λ key exp, Ok (key +:+ "." +:+ itoa exp); jwt_valid := λ key now token, true |}.
#[local] Instance toy_jwt_laws : JWTLaws.
Proof. by constructor. Qed.

Definition web1_config : Agent_config :=
  @GetAgent (λ _, Ok []) (λ _, Ok "[]") "web1" {[ "SYMON_AGENT_KEY_PATH" := "/etc/symon/agent.key" ]}.
Definition enroll_server : Server := start_server enroll_db.
Definition echo : option string → SrvM (option string) := λ ctx s, (Ok ctx, s).

Lemma enrolled_let_in_witness :
  let s1 := (Enroll 50 "new" {| enr_Token := "tok"; enr_HostName := "web1"; enr_Timezone := "UTC" |} enroll_server).2 in
  credentials (Ok ("new" +:+ str1 10)) = AgentKey "new" ∧
  ∃ meta, request_metadata ∅ 70 (credentials (Ok ("new" +:+ str1 10))) = Ok meta ∧
    AuthInterceptor (H := λ _, false) HostForCredential "/api.MonitorDataService/HandlePing" (Some meta) echo s1 = (Ok (Some "web1"), s1).
Proof.
  exact (enrolled_let_in web1_config "tok" "UTC" "Enrolled as web1, key saved to /etc/symon/agent.key" ("new" +:+ str1 10) "new"
    "/api.MonitorDataService/HandlePing" {| en_mkdir_fails := None; en_write_fails := None |} ∅ 50 70 enroll_server echo (λ _, false)
    enroll_db_wf ltac:(done) ltac:(intros c Hc; repeat (apply elem_of_cons in Hc as [->|Hc]; [by vm_compute|]); by apply not_elem_of_nil in Hc)
    ltac:(vm_compute; reflexivity)).
Defined.
