(* ===== verification/CollectorRun.v ===== *)
(** * The collector's program as a whole: [main] of src/collector/main.go with
    the commands of users.go and rules.go, from the settings to a command's
    end or the server that listens.

    The database is the tables with TimescaleDB's retention policies and the
    list of migrations that ran.  What the operating system, the random source
    and the network answer is a record.  What a collector that serves made
    sure of, and that starting it again does nothing, is proved at the end. *)
From S2P Require Import Prelude GoStrings GoTime Errors Monitor Alerts Json Kube Tasks Base64 Config Database StoreHosts StoreUsers StoreEnrollment.
From S2P Require Import StoreSeries StoreTasks StoreAlerts StoreRules StoreForecast Migrations Texts CollectorMain AgentTasks Login Api ApiAuth AgentUpdate AgentMain Transport.
Local Open Scope Z_scope.

(** The tables, and the interval of each table's retention policy *)
Record Timescale := { ts_tables : DB; ts_policies : gmap string string }.
Notation database := (Migrated Timescale).
Definition tables (d : database) : DB := ts_tables (mg_tables d).
Definition policies (d : database) : gmap string string := ts_policies (mg_tables d).
Definition with_tables (t : DB) (d : database) : database :=
  {| mg_versions := mg_versions d; mg_tables := {| ts_tables := t; ts_policies := policies d |} |}.
Definition with_policies (p : gmap string string) (d : database) : database :=
  {| mg_versions := mg_versions d; mg_tables := {| ts_tables := tables d; ts_policies := p |} |}.

Record CollectorArgs := {
  ar_flags : CollectorFlags; ar_env : string; ar_token_host : string; ar_token_uses : Z; ar_token_ttl : duration;
  ar_role : string; ar_password_stdin : bool }.

Section Program.
Context `{Crypto, UrlParse} {Cert : Type}.

Record CollectorEnv := {
  ce_now : time;
  ce_open_log : string → option error;
  (** making the pool, and the first ping *)
  ce_new_pool : string → option error; ce_ping : option error;
  ce_sql : SQL Timescale; ce_created : option error; ce_files : list string;
  (** whether removing and adding a table's retention policy fails *)
  ce_remove_policy : string → option error; ce_add_policy : string * string → option error;
  ce_random : nat → result error string; ce_stdin : string * option error;
  ce_slot : option error; ce_salt : string;
  ce_hostname : result error string;
  ce_rules_file : string → result error string;
  ce_decode_rules : string → result error (list AlertConfig);
  ce_encode_rules : list AlertConfig → result error string;
  ce_local : time → string; ce_day : time → string; ce_moment : time → string; ce_table : list (list string) → string;
  ce_listen : string → option error;
  ce_load_cert : string → string → result error Cert }.

Record ServingCollector := {
  sg_port : string; sg_retention : Retention; sg_history : duration; sg_certificate : option Cert; sg_logged : string }.
Inductive Outcome := Ended (c : Command) | Serving (s : ServingCollector).

(** [Open] of store.go *)
Definition Open (env : CollectorEnv) (url : string) (r : Retention) : result error Retention :=
  match ce_new_pool env url with
  | Some err => Err (ErrWrap "cannot open database" err)
  | None => match ce_ping env with Some err => Err (ErrWrap "cannot reach database" err) | None => Ok r end
  end.

Definition migrate (env : CollectorEnv) : database → result error unit * database :=
  Migrate (ce_sql env) (ce_created env) (ce_files env).
(** A command after the migrations *)
Definition migrated_first {A} (env : CollectorEnv) (message : string) (fails : string → A) (k : database → A * database) (d : database) : A * database :=
  match migrate env d with
  | (Err err, d) => (fails (message +:+ error_text err), d)
  | (Ok _, d) => k d
  end.
Definition on_tables {A} (c : command A) (d : database) : A * database :=
  let '(a, t) := c (tables d) in (a, with_tables t d).
Definition migrateOrExit (env : CollectorEnv) (c : command Command) : database → Command * database :=
  migrated_first env "cannot update database schema: " Exits (on_tables c).

(** remove_retention_policy with if_exists, and add_retention_policy, which
    refuses a table that has one *)
Definition remove_policy (env : CollectorEnv) (table : string) (d : database) : result error unit * database :=
  match ce_remove_policy env table with
  | Some err => (Err err, d)
  | None => (Ok (), with_policies (delete table (policies d)) d)
  end.
Definition add_policy (env : CollectorEnv) (table keep : string) (d : database) : result error unit * database :=
  match ce_add_policy env (table, keep) with
  | Some err => (Err err, d)
  | None =>
      match policies d !! table with
      | Some _ => (Err (ErrOther "retention policy already exists"), d)
      | None => (Ok (), with_policies (<[table := keep]> (policies d)) d)
      end
  end.

(** [ApplyRetention]: each policy is removed and added again, table by table;
    an error leaves the ones before it. *)
Fixpoint apply_policies (env : CollectorEnv) (l : list (string * string)) (d : database) : result error unit * database :=
  match l with
  | [] => (Ok (), d)
  | (table, keep) :: rest =>
      match remove_policy env table d with
      | (Err err, d) => (Err (ErrWrap ("cannot remove retention on " +:+ table) err), d)
      | (Ok _, d) =>
          match add_policy env table keep d with
          | (Err err, d) => (Err (ErrWrap ("cannot add retention on " +:+ table) err), d)
          | (Ok _, d) => apply_policies env rest d
          end
      end
  end.
Definition ApplyRetention (env : CollectorEnv) (r : Retention) : database → result error unit * database :=
  apply_policies env (retention_policies r).

Definition initCollector (env : CollectorEnv) (e : environ) (d : database) : Command * database :=
  migrated_first env "cannot create database schema: " Exits
    (λ d, match (if 0 <? slen (getenv e "SYMON_KEY") then Ok "" else ce_random env 64) with
          | Ok random => (Prints ("---" +:+ str1 10 +:+ "SYMON_KEY: " +:+ (GetKey true random e).1 +:+ str1 10 +:+ "---" +:+ str1 10), d)
          | Err err => (Exits (error_text err), d)
          end) d.

(** [newPassword] *)
Definition newPassword (env : CollectorEnv) (fromStdin : bool) : result string string :=
  if fromStdin then
    match stdin_password (ce_stdin env).1 (ce_stdin env).2 with Ok p => Ok p | Err err => Err (error_text err) end
  else match NewPassword (ce_random env) with Ok p => Ok p | Err err => Err ("cannot make a password: " +:+ error_text err) end.
Definition with_password (env : CollectorEnv) (fromStdin : bool) (c : string → command Command) : command Command := λ d,
  match newPassword env fromStdin with Ok password => c password d | Err message => (Exits message, d) end.
Definition enrollment_token (env : CollectorEnv) (config : Collector_config) (a : CollectorArgs) : command Command := λ d,
  match newSecret (ce_random env) with
  | Err err => (Exits ("cannot create token: " +:+ error_text err), d)
  | Ok token => printEnrollmentToken (ce_now env) token (dashboardURL config (ce_hostname env)) (ar_token_host a) (ar_token_uses a)
                  (ar_token_ttl a) (ce_local env) d
  end.

(** What [main] does with an open store *)
Definition serve_collector (env : CollectorEnv) (config : Collector_config) (retention : Retention) (d : database) : Outcome * database :=
  migrated_first env "cannot update database schema: " (λ m, Ended (Exits m)) (λ d,
    match ApplyRetention env retention d with
    | (Err err, d) => (Ended (Exits ("cannot set retention: " +:+ error_text err)), d)
    | (Ok _, d) =>
        match on_tables (setupRules (ce_decode_rules env) (ce_now env) (cc_AlertsFilePath config) (ce_rules_file env (cc_AlertsFilePath config))) d with
        | (Exits message, d) => (Ended (Exits message), d)
        | (Prints logged, d) =>
            match ce_listen env (":" +:+ cc_Port config) with
            | Some err => (Ended (Exits ("failed to listen: " +:+ error_text err)), d)
            | None =>
                match NewServer (ce_load_cert env) (cc_TLSEnabled config) (cc_CertPath config) (cc_KeyPath config) with
                | Err err => (Ended (Exits (error_text err)), d)
                | Ok certificate =>
                    (Serving {| sg_port := cc_Port config; sg_retention := retention; sg_history := taskHistory config;
                                sg_certificate := certificate; sg_logged := logged |}, d)
                end
            end
        end
    end) d.

Definition run_command (env : CollectorEnv) (e : environ) (config : Collector_config) (retention : Retention) (a : CollectorArgs)
    (version : string) (d : database) : Outcome * database :=
  let ended (p : Command * database) : Outcome * database := (Ended p.1, p.2) in
  let url := dashboardURL config (ce_hostname env) in
  match collector_command (ar_flags a) with
  | PrintVersion => (Ended (Prints ("SyMon collector " +:+ version)), d)
  | InitCollector => ended (initCollector env e d)
  | RemoveAgent name => ended (on_tables (removeAgent name) d)
  | PrintEnrollmentToken => ended (migrateOrExit env (enrollment_token env config a) d)
  | AddUserNamed name => ended (migrateOrExit env (with_password env (ar_password_stdin a)
      (addUser (ce_now env) (ce_slot env) (ce_salt env) url name (ar_role a) (ar_password_stdin a))) d)
  | SetRoleOf name => ended (migrateOrExit env (setRole name (ar_role a)) d)
  | ResetPasswordOf name => ended (migrateOrExit env (with_password env (ar_password_stdin a)
      (resetPassword (ce_slot env) (ce_salt env) name (ar_password_stdin a))) d)
  | RemoveUserNamed name => ended (migrateOrExit env (removeUser name) d)
  | ListUsers => ended (migrateOrExit env (λ t, (listUsers (ce_day env) (ce_moment env) (ce_table env) t, t)) d)
  | ImportRulesFrom path => ended (migrateOrExit env (importRules (ce_decode_rules env) (ce_now env) path (ce_rules_file env path)) d)
  | ExportRules => ended (migrateOrExit env (λ t, (exportRules (ce_encode_rules env) t, t)) d)
  | Serve => serve_collector env config retention d
  end.

Definition collector_main (env : CollectorEnv) (a : CollectorArgs) (file : SettingsFile) (version : string) (e : environ)
    (d : database) : Outcome * database :=
  if fl_version (ar_flags a) then (Ended (Prints ("SyMon collector " +:+ version)), d)
  else match LoadEnvFile (ar_env a) file e with
  | (Err err, _) => (Ended (Exits (error_text err)), d)
  | (Ok _, e) =>
      let config := GetCollector e in
      match (if cc_LogFileEnabled config then ce_open_log env (cc_LogFilePath config) else None) with
      | Some err => (Ended (Exits (error_text err)), d)
      | None =>
          match rbind (openStore config) (Open env (cc_DatabaseURL config)) with
          | Err err => (Ended (Exits (error_text err)), d)
          | Ok retention => run_command env e config retention a version d
          end
      end
  end.

(** The same world at another time *)
Definition at_time (now : time) (env : CollectorEnv) : CollectorEnv := {|
  ce_now := now; ce_open_log := ce_open_log env; ce_new_pool := ce_new_pool env; ce_ping := ce_ping env; ce_sql := ce_sql env;
  ce_created := ce_created env; ce_files := ce_files env; ce_remove_policy := ce_remove_policy env;
  ce_add_policy := ce_add_policy env; ce_random := ce_random env; ce_stdin := ce_stdin env; ce_slot := ce_slot env;
  ce_salt := ce_salt env; ce_hostname := ce_hostname env; ce_rules_file := ce_rules_file env;
  ce_decode_rules := ce_decode_rules env; ce_encode_rules := ce_encode_rules env; ce_local := ce_local env; ce_day := ce_day env;
  ce_moment := ce_moment env; ce_table := ce_table env; ce_listen := ce_listen env; ce_load_cert := ce_load_cert env |}.
End Program.

(** ** A collector that serves: what it made sure of, and that starting it
    again does nothing *)

Section Starts.
Context `{Crypto, UrlParse} {Cert : Type}.
Implicit Types env : CollectorEnv (Cert := Cert).

(** *** The rules *)

(** The rules of a file in the form the checks leave them, and whether a
    heartbeat is among them that makes the default one unnecessary *)
Definition checked_rules (rules checked : list AlertConfig) : Prop :=
  Forall2 (λ rule r, checkRule rule = Ok r) rules checked.
Definition has_heartbeat (rules : list AlertConfig) : Prop :=
  ∃ r, r ∈ rules ∧ (rule_Name r = rule_Name DefaultHeartbeat ∨ (rule_MetricName r = PING ∧ AllHosts ∈ rule_Servers r)).
#[local] Instance has_heartbeat_dec rules : Decision (has_heartbeat rules).
Proof.
  refine (cast_if (decide (Exists (λ r, rule_Name r = rule_Name DefaultHeartbeat ∨ (rule_MetricName r = PING ∧ AllHosts ∈ rule_Servers r)) rules)));
    abstract (unfold has_heartbeat; by rewrite <- Exists_exists).
Defined.

(** Enabled rows of these rules were added. *)
Definition rules_added (rules : list AlertConfig) (t t' : DB) : Prop :=
  ∃ rows, alert_rules t' = alert_rules t ++ rows ∧ map ru_rule rows = rules
    ∧ Forall (λ r, ru_enabled r = true ∧ ru_name r = rule_Name (ru_rule r)) rows.

Lemma rules_added_trans r1 r2 t1 t2 t3 : rules_added r1 t1 t2 → rules_added r2 t2 t3 → rules_added (r1 ++ r2) t1 t3.
Proof.
  intros (rows1 & E1 & M1 & F1) (rows2 & E2 & M2 & F2). exists (rows1 ++ rows2).
  rewrite E2, E1, app_assoc, map_app, M1, M2. split_and!; [done..|]. by apply Forall_app.
Qed.

Lemma insert_rule_adds now rule d id d' : insert_rule now rule true "" d = (Ok id, d') → rules_added [rule] d d'.
Proof.
  unfold insert_rule, next_id. destruct (name_taken _ _); [done|]. intros [= _ <-].
  eexists [_]. split_and!; [reflexivity|reflexivity|by repeat constructor].
Qed.

Lemma setup_rules_adds now rules : ∀ names ah imp d names' ah' imp' d',
  setup_rules now names ah imp rules d = (Ok (names', ah', imp'), d') →
  ∃ checked, checked_rules rules checked ∧ rules_added checked d d'
    ∧ (∀ n, n ∈ names' ↔ n ∈ names ∨ n ∈ map rule_Name checked)
    ∧ (ah' = true ↔ ah = true ∨ ∃ r, r ∈ checked ∧ rule_MetricName r = PING ∧ AllHosts ∈ rule_Servers r).
Proof.
  induction rules as [|rule rules IH]; intros names ah imp d names' ah' imp' d'.
  { intros [= <- <- _ <-]. exists []. split_and!; [constructor|exists []; rewrite app_nil_r; split_and!; [done..|constructor]|..].
    - intros n. pose proof (not_elem_of_nil n). tauto.
    - split; [by left|]. intros [?|(r & Hr & _)]; [done|]. by apply not_elem_of_nil in Hr. }
  cbn -[insert_rule]. destruct (checkRule rule) as [r|e] eqn:Ec; [|done]. unfold mbind, SM_bind, sbind, stry.
  destruct (insert_rule now r true "" d) as [[id|e] d1] eqn:Ei; [|done]. intros Hs.
  apply IH in Hs as (checked & Hch & Hadd & Hnames & Hah). apply insert_rule_adds in Ei.
  exists (r :: checked). split_and!; [by constructor|by apply (rules_added_trans [r] checked d d1 d')|..].
  - intros n. rewrite Hnames. cbn. rewrite !elem_of_cons. tauto.
  - rewrite Hah, orb_true_iff, andb_true_iff, str_eq_spec, contains_spec. setoid_rewrite elem_of_cons. naive_solver.
Qed.

(** What [SetupRules] makes of the rules of a file *)
Definition set_up (rules : list AlertConfig) (t t' : DB) : Prop :=
  ∃ checked, checked_rules rules checked
    ∧ rules_added (checked ++ if decide (has_heartbeat checked) then [] else [DefaultHeartbeat]) t t'.

Lemma SetupRules_sets_up now rules source d setup d' : SetupRules now rules source d = (Ok setup, d') →
  RulesSetUp d' = true ∧ if RulesSetUp d then d' = d else set_up rules d d'.
Proof.
  unfold SetupRules. destruct (RulesSetUp d) eqn:Es; [by intros [= <- <-]|]. rewrite transaction_ok.
  unfold mbind, SM_bind, sbind. cbv beta. destruct (setup_rules now [] false 0 rules d) as [[[[names all] imported]|e] d1] eqn:Er; [|done].
  apply setup_rules_adds in Er as (checked & Hch & Hadd & Hnames & Hall).
  assert (Hh : negb all && negb (contains names (rule_Name DefaultHeartbeat)) = bool_decide (¬ has_heartbeat checked)).
  { apply eq_true_iff_eq. rewrite bool_decide_eq_true, andb_true_iff, !negb_true_iff, <- !not_true_iff_false, contains_spec, Hall, Hnames.
    unfold has_heartbeat. setoid_rewrite list_elem_of_fmap. pose proof (not_elem_of_nil (rule_Name DefaultHeartbeat)). naive_solver. }
  assert (Hend : ∀ d2, RulesSetUp (set_rule_setup (rule_setup d2 ++ [(source, imported)]) d2) = true)
    by (intros d2; unfold RulesSetUp; cbn; by destruct (rule_setup d2)).
  rewrite Hh. case_bool_decide as Hd.
  - destruct (insert_rule now DefaultHeartbeat true "" d1) as [[u|e] d2] eqn:Ei; [|done]. intros [= _ <-]. split; [apply Hend|].
    exists checked. split; [done|]. rewrite decide_False by done.
    apply (rules_added_trans checked [DefaultHeartbeat] d d1); [done|]. exact (insert_rule_adds _ _ _ _ _ Ei).
  - intros [= _ <-]. split; [apply Hend|]. exists checked. split; [done|].
    destruct (decide (has_heartbeat checked)); [rewrite app_nil_r; exact Hadd|exfalso; tauto].
Qed.

(** The rules of the settings' file *)
Definition file_rules (decode : string → result error (list AlertConfig)) (path : string) (file : result error string)
    : result error (list AlertConfig) :=
  if str_eq path "" then Ok [] else LoadRules decode path file.

Lemma setupRules_prints decode now path file d text d' : setupRules decode now path file d = (Prints text, d') →
  RulesSetUp d' = true
  ∧ (if RulesSetUp d then d' = d else ∃ rules, file_rules decode path file = Ok rules ∧ set_up rules d d')
  ∧ ∀ now', ∃ text', setupRules decode now' path file d' = (Prints text', d').
Proof.
  intros Hs. assert (Hd : RulesSetUp d' = true
    ∧ if RulesSetUp d then d' = d else ∃ rules, file_rules decode path file = Ok rules ∧ set_up rules d d').
  { unfold setupRules in Hs. destruct (RulesSetUp d) eqn:Es; [by injection Hs as _ <-|].
    fold (file_rules decode path file) in Hs. destruct (file_rules decode path file) as [rules|]; [|done].
    destruct (SetupRules now rules path d) as [[setup|e] d1] eqn:E1; [|done]. injection Hs as _ <-.
    apply SetupRules_sets_up in E1 as [? E1]. rewrite Es in E1. eauto. }
  destruct Hd as [Hd Hrules]. split_and!; [done..|]. intros now'. unfold setupRules. rewrite Hd. by eexists.
Qed.

(** *** The migrations and the policies *)

Lemma migrate_again env d u d' : migrate env d = (Ok u, d') →
  (∀ file, file ∈ ce_files env → file ∈ mg_versions d') ∧ migrate env d' = (Ok (), d').
Proof.
  destruct u. unfold migrate. intros Hm. destruct (ce_created env); [done|]. by eapply Migrate_done.
Qed.

(** Migrating reads the list of what ran only, when everything has. *)
Lemma migrate_ran env d : (∀ file, file ∈ ce_files env → file ∈ mg_versions d) → ce_created env = None →
  migrate env d = (Ok (), d).
Proof.
  unfold migrate, Migrate. intros Hfiles ->. revert Hfiles.
  setoid_rewrite <- (elem_of_stable_sort string_leb _ (ce_files env)). generalize (stable_sort string_leb (ce_files env)).
  intros l Hl. induction l as [|file l IH]; [done|]. cbn.
  rewrite applyMigration_done by (apply Hl; left). apply IH. intros x Hx. apply Hl. by right.
Qed.

Lemma database_eta (d : database) : with_policies (policies d) d = d.
Proof. by destruct d as [v [t p]]. Qed.

Lemma apply_policies_ok env l : ∀ d u d', apply_policies env l d = (Ok u, d') →
  (∀ kv, kv ∈ l → ce_remove_policy env kv.1 = None ∧ ce_add_policy env kv = None)
  ∧ d' = with_policies (fold_left (λ p kv, <[kv.1 := kv.2]> p) l (policies d)) d.
Proof.
  induction l as [|[table keep] l IH]; intros d u d'; cbn [apply_policies fold_left].
  { intros [= _ <-]. rewrite database_eta. split; [|done]. intros kv Hkv. by apply not_elem_of_nil in Hkv. }
  unfold remove_policy. destruct (ce_remove_policy env table) eqn:Er; [done|].
  unfold add_policy. destruct (ce_add_policy env (table, keep)) eqn:Ea; [done|].
  change (policies (with_policies ?p ?d)) with p. rewrite lookup_delete_eq. intros Hrun.
  apply IH in Hrun as [Hl ->]. change (policies (with_policies ?p ?d)) with p. rewrite insert_delete_eq. split; [|done].
  intros kv [->|Hkv]%elem_of_cons; [done|by apply Hl].
Qed.

Lemma apply_policies_run env l : (∀ kv, kv ∈ l → ce_remove_policy env kv.1 = None ∧ ce_add_policy env kv = None) →
  ∀ d, (∀ kv, kv ∈ l → policies d !! kv.1 = Some kv.2) → apply_policies env l d = (Ok (), d).
Proof.
  induction l as [|[table keep] l IH]; intros Hok d Hd; [done|]. cbn [apply_policies].
  destruct (Hok (table, keep) ltac:(by left)) as [Er Ea]. pose proof (Hd (table, keep) ltac:(by left)) as Ep. cbn in Er, Ep.
  unfold remove_policy, add_policy. rewrite Er, Ea. change (policies (with_policies ?p ?d)) with p. rewrite lookup_delete_eq, insert_delete_eq.
  change (with_policies ?p (with_policies ?q ?d)) with (with_policies p d). rewrite insert_id, database_eta by done.
  apply IH; [intros kv Hkv; apply Hok; by right|intros kv Hkv; apply Hd; by right].
Qed.

Lemma fold_insert_other (l : list (string * string)) : ∀ (p : gmap string string) k, k ∉ map fst l →
  fold_left (λ p kv, <[kv.1 := kv.2]> p) l p !! k = p !! k.
Proof.
  induction l as [|kv l IH]; intros p k Hk; [done|]. cbn in *. apply not_elem_of_cons in Hk as [Hne Hk].
  rewrite IH by done. by rewrite lookup_insert_ne.
Qed.

Lemma fold_insert_lookup (l : list (string * string)) : ∀ (p : gmap string string) kv, NoDup (map fst l) → kv ∈ l →
  fold_left (λ p kv, <[kv.1 := kv.2]> p) l p !! kv.1 = Some kv.2.
Proof.
  induction l as [|kv' l IH]; intros p kv Hnd Hkv; [by apply not_elem_of_nil in Hkv|]. cbn in *.
  apply NoDup_cons in Hnd as [Hn Hnd]. apply elem_of_cons in Hkv as [->|Hkv]; [|by apply IH].
  rewrite fold_insert_other by done. apply lookup_insert_eq.
Qed.

(** The tables of measurements, and those TimescaleDB rolls up by the minute
    and the hour *)
Definition measured : list string :=
  ["host_metrics"; "cpu_core_metrics"; "disk_metrics"; "disk_io_metrics"; "net_metrics"; "temp_metrics"; "custom_metrics";
   "service_status"; "process_snapshots"; "container_metrics"; "kube_restarts"].
Definition rolled_up : list string :=
  ["host_metrics"; "disk_metrics"; "disk_io_metrics"; "net_metrics"; "temp_metrics"; "custom_metrics"; "container_metrics"].
Definition not_rolled_up : list string := ["endpoint_checks"; "kube_metrics"].

(** Each kind of data is dropped after what the settings keep of its kind. *)
Record retained (r : Retention) (p : gmap string string) : Prop := {
  rt_raw t : t ∈ measured → p !! t = Some (itoa (keep_Raw r ÷ second) +:+ " seconds");
  rt_minute t : t ∈ rolled_up → p !! (t +:+ "_1m") = Some (itoa (keep_Minute r ÷ second) +:+ " seconds");
  rt_hour t : t ∈ rolled_up → p !! (t +:+ "_1h") = Some (itoa (keep_Hour r ÷ second) +:+ " seconds");
  rt_long t : t ∈ not_rolled_up → p !! t = Some (itoa (keep_Hour r ÷ second) +:+ " seconds") }.

Lemma policies_nodup r : NoDup (map fst (retention_policies r)).
Proof. apply (bool_decide_eq_true_1 _). vm_compute. reflexivity. Qed.

Lemma retained_policies r p : (∀ kv, kv ∈ retention_policies r → p !! kv.1 = Some kv.2) → retained r p.
Proof.
  intros Hall.
  constructor; intros t Ht; repeat (apply elem_of_cons in Ht as [->|Ht]); try (by apply not_elem_of_nil in Ht);
    (eapply (Hall (_, _))); unfold retention_policies, retention_groups, keep_text, rawTables, minuteTables, hourTables, longTables;
    cbn [flat_map map app fst snd]; repeat (first [apply list_elem_of_here|apply list_elem_of_further]).
Qed.

Lemma ApplyRetention_applies env r d u d' : ApplyRetention env r d = (Ok u, d') →
  tables d' = tables d ∧ mg_versions d' = mg_versions d ∧ retained r (policies d') ∧ ApplyRetention env r d' = (Ok (), d').
Proof.
  intros Ha. apply apply_policies_ok in Ha as [Hok ->].
  assert (Hall : ∀ kv, kv ∈ retention_policies r → policies (with_policies (fold_left (λ p kv, <[kv.1 := kv.2]> p) (retention_policies r) (policies d)) d) !! kv.1 = Some kv.2)
    by (intros kv Hkv; apply fold_insert_lookup; [apply policies_nodup|done]).
  split_and!; [done|done|by apply retained_policies|by apply apply_policies_run].
Qed.

Lemma apply_policies_at env now l : ∀ d, apply_policies (at_time now env) l d = apply_policies env l d.
Proof.
  induction l as [|[table keep] l IH]; intros d; [done|]. cbn [apply_policies]. unfold remove_policy, add_policy.
  cbn [at_time ce_remove_policy ce_add_policy]. destruct (ce_remove_policy env table); [done|].
  destruct (ce_add_policy env (table, keep)); [done|]. destruct (_ !! _); [done|apply IH].
Qed.

(** What the start of a collector has made of the database *)
Record started_on env (config : Collector_config) (retention : Retention) (d d' : database) : Prop := {
  so_migrated file : file ∈ ce_files env → file ∈ mg_versions d';
  so_retained : retained retention (policies d');
  so_set_up : RulesSetUp (tables d') = true;
  so_rules : ∃ d1, migrate env d = (Ok (), d1) ∧
    if RulesSetUp (tables d1) then tables d' = tables d1
    else ∃ rules, file_rules (ce_decode_rules env) (cc_AlertsFilePath config) (ce_rules_file env (cc_AlertsFilePath config)) = Ok rules
           ∧ set_up rules (tables d1) (tables d') }.

Lemma serve_again env config retention d s d' : serve_collector env config retention d = (Serving s, d') →
  started_on env config retention d d' ∧ sg_retention s = retention
  ∧ ∀ now, ∃ s', serve_collector (at_time now env) config retention d' = (Serving s', d')
      ∧ sg_port s' = sg_port s ∧ sg_retention s' = retention ∧ sg_history s' = sg_history s ∧ sg_certificate s' = sg_certificate s.
Proof.
  unfold serve_collector, migrated_first. intros Hs. destruct (migrate env d) as [[u|e] d1] eqn:Em; [|done].
  destruct (migrate_again env d u d1 Em) as [Hfiles Hm].
  destruct (ApplyRetention env retention d1) as [[u2|e] d2] eqn:Er; [|done].
  destruct (ApplyRetention_applies env retention d1 u2 d2 Er) as (Et2 & Ev2 & Hret & Hagain2). unfold on_tables in Hs.
  destruct (setupRules _ _ _ _ (tables d2)) as [[text|m] t] eqn:Et; [|done].
  destruct (ce_listen env _) eqn:El; [done|]. destruct (NewServer _ _ _ _) as [cert|] eqn:En; [|done]. injection Hs as <- <-.
  apply setupRules_prints in Et as (Hset & Hrules & Hagain). rewrite Et2 in Hrules.
  assert (Hfiles' : ∀ file, file ∈ ce_files env → file ∈ mg_versions (with_tables t d2))
    by (intros file Hf; cbn; rewrite Ev2; by apply Hfiles).
  assert (Hcreated : ce_created env = None) by (revert Em; unfold migrate, Migrate; by destruct (ce_created env)).
  split_and!; [|done|].
  { destruct u. constructor; [done|done|done|]. exists d1. split; [done|].
    change (tables (with_tables t d2)) with t. by destruct (RulesSetUp (tables d1)). }
  intros now. destruct (Hagain now) as [text' Ht'].
  change (migrate (at_time now env)) with (migrate env). rewrite (migrate_ran env) by done.
  assert (E2 : ApplyRetention (at_time now env) retention (with_tables t d2) = (Ok (), with_tables t d2)).
  { unfold ApplyRetention. rewrite apply_policies_at. apply apply_policies_ok in Hagain2 as [Hok Hd2].
    apply apply_policies_run; [done|]. change (policies (with_tables t d2)) with (policies d2). intros kv Hkv. rewrite Hd2.
    apply fold_insert_lookup; [apply policies_nodup|done]. }
  rewrite E2. unfold on_tables. change (tables (with_tables t d2)) with t.
  cbn [at_time ce_decode_rules ce_now ce_rules_file ce_listen ce_load_cert]. rewrite Ht', El, En. by eexists.
Qed.
End Starts.

(** C17: when the collector serves, its settings were in order (a database, the
    minute rollups kept three days at least); every migration it carries has
    run; every table of measurements, every rollup by the minute and by the
    hour and every table without rollups has the retention policy of its
    kind in the settings; and the alert rules have been set up: unless they
    were before, exactly the rules of the file, each in the form the checks
    leave it and enabled, have been added, with the default heartbeat when
    none of them makes it unnecessary.  To start it again, at any later time,
    with the same settings serves the same and leaves the database as it
    was. *)
Theorem collector_restarts `{Crypto, UrlParse} {Cert} (env : CollectorEnv (Cert := Cert)) (a : CollectorArgs) (file : SettingsFile)
    (version : string) (e : environ) (d : database) (s : ServingCollector) (d' : database)
    (Hserves : collector_main env a file version e d = (Serving s, d')) :
  (∃ e', LoadEnvFile (ar_env a) file e = (Ok (), e') ∧ openStore (GetCollector e') = Ok (sg_retention s)
     ∧ started_on env (GetCollector e') (sg_retention s) d d') ∧
  3 * 24 * hour ≤ keep_Minute (sg_retention s) ∧
  ∀ now, ∃ s', collector_main (at_time now env) a file version e d' = (Serving s', d') ∧
    sg_port s' = sg_port s ∧ sg_retention s' = sg_retention s ∧ sg_history s' = sg_history s ∧ sg_certificate s' = sg_certificate s.
Proof.
  unfold collector_main in *. destruct (fl_version (ar_flags a)); [done|].
  destruct (LoadEnvFile (ar_env a) file e) as [[[]|err] e']; [|done].
  destruct (if cc_LogFileEnabled (GetCollector e') then _ else _) eqn:Elog; [done|].
  destruct (openStore (GetCollector e')) as [r|err] eqn:Eo; [|done]. cbn [rbind] in *.
  destruct (Open env _ r) as [retention|err] eqn:Eopen; [|done].
  assert (retention = r) as ->.
  { unfold Open in Eopen. destruct (ce_new_pool _ _); [done|]. destruct (ce_ping env); [done|]. by injection Eopen as ->. }
  unfold run_command in *. destruct (collector_command (ar_flags a)) eqn:Ecmd; try done.
  apply serve_again in Hserves as (Hstarted & -> & Hagain). split; [by exists e'|]. split.
  { unfold openStore in Eo. destruct (str_eq _ ""); [done|]. cbv zeta in Eo. destruct (keep_Minute _ <? days 3) eqn:E3; [done|].
    injection Eo as <-. apply Z.ltb_ge in E3. exact E3. }
  intros now. destruct (Hagain now) as (s' & Hs' & Hrest). exists s'. split; [|done].
  change (Open (at_time now env)) with (Open env). change (ce_open_log (at_time now env)) with (ce_open_log env).
  by rewrite Elog, Eopen.
Qed.

(** ** A new database *)

#[local] Instance ex_crypto : Crypto := {| pbkdf2_Key := λ p s _, p +:+ s; sha256_Sum256 := λ s, s |}.
#[local] Instance ex_urls : UrlParse := λ _, None.
Definition ex_collector_env : CollectorEnv (Cert := unit) := {|
  ce_now := 0; ce_open_log := λ _, None; ce_new_pool := λ _, None; ce_ping := None;
  ce_sql := {| sql_read := λ file, Ok file; sql_exec := λ _ t, Ok t |}; ce_created := None;
  ce_files := ["migrations/002_users.sql"; "migrations/001_init.sql"]; ce_remove_policy := λ _, None; ce_add_policy := λ _, None;
  ce_random := λ _, Ok ""; ce_stdin := ("", None); ce_slot := None; ce_salt := ""; ce_hostname := Ok "symon";
  ce_rules_file := λ _, Ok ""; ce_decode_rules := λ _, Ok []; ce_encode_rules := λ _, Ok "[]"; ce_local := λ _, "";
  ce_day := λ _, ""; ce_moment := λ _, ""; ce_table := λ _, ""; ce_listen := λ _, None; ce_load_cert := λ _ _, Ok () |}.
Definition ex_args : CollectorArgs := {|
  ar_flags := {| fl_init := false; fl_removeAgentVal := ""; fl_enrollToken := false; fl_addUserName := ""; fl_setRoleName := "";
    fl_resetPasswordName := ""; fl_removeUserName := ""; fl_listUsers := false; fl_importRulesPath := ""; fl_exportRules := false;
    fl_version := false |};
  ar_env := "collector.env"; ar_token_host := ""; ar_token_uses := 1; ar_token_ttl := hour; ar_role := "admin"; ar_password_stdin := false |}.
Definition ex_environ : environ := {[ "SYMON_DATABASE_URL" := "postgres://"; "SYMON_PORT" := "8099" ]}.
Definition new_database : database := {| mg_versions := []; mg_tables := {| ts_tables := empty_db; ts_policies := ∅ |} |}.
Definition started : database := Eval vm_compute in (collector_main ex_collector_env ex_args NoFile "v1" ex_environ new_database).2.

Lemma collector_restarts_witness :
  mg_versions started = ["migrations/001_init.sql"; "migrations/002_users.sql"]
  ∧ map ru_rule (alert_rules (tables started)) = [DefaultHeartbeat]
  ∧ policies started !! "disk_metrics_1h" = Some "31536000 seconds" ∧ RulesSetUp (tables started) = true ∧
  ∃ s, collector_main (at_time hour ex_collector_env) ex_args NoFile "v1" ex_environ started = (Serving s, started).
Proof.
  assert (E : ∃ s, collector_main ex_collector_env ex_args NoFile "v1" ex_environ new_database = (Serving s, started))
    by (eexists; vm_compute; reflexivity).
  destruct E as [s E]. destruct (collector_restarts ex_collector_env ex_args NoFile "v1" ex_environ new_database s started E)
    as ((e' & _ & _ & Hstarted) & _ & Hagain).
  split; [reflexivity|]. split; [reflexivity|]. split; [vm_compute; reflexivity|]. split; [exact (so_set_up _ _ _ _ _ Hstarted)|].
  destruct (Hagain hour) as (s' & Hs' & _). by exists s'.
Defined.
