(* ===== verification/Dashboard.v ===== *)
(** * The dashboard's server: src/client/internal/server/auth.go and the
    requests of server.go, agents.go, tasks.go, rules.go, notifications.go
    and kube.go.

    The collector is an interface ([Collector]): a state and the answer to
    each call, which may be an error of the network.  A request is handled at
    one instant; what it asked the collector is kept in a log, which no code
    reads.  JSON bodies are the decoder's business ([HttpLib]); the JSON of an
    answer is in DashboardJson.v, the routes are in DashboardRoutes.v. *)
From S2P Require Import Prelude GoStrings GoFloat GoTime Errors Monitor Alerts Json Kube Tasks Database StoreAlerts StoreForecast StoreQuery StoreUsers Notify AgentTasks Login Api ApiTasks ApiChannels ApiLogin ApiAuth.
From Stdlib Require Import Ascii.
Local Open Scope Z_scope.

(** What the dashboard needs of the collector *)
Class Collector (W : Type) := collector_call : ∀ c : Call, W → result error (reply_of c) * W.

Record HttpRequest := {
  hr_method : string; hr_path : list string; hr_query : list (string * string); hr_cookie : option string;
  hr_content_type : string; hr_body : string; hr_host : string; hr_tls : bool; hr_forwarded_proto : string;
  hr_basic : option (string * string) }.

(** A body that says channel settings *)
Record ChannelBody := {
  cb_Name : string; cb_Kind : string; cb_Settings : string; cb_IsDefault : bool; cb_SkipWarnings : bool;
  cb_Enabled : bool }.

(** mime, and encoding/json's decoder on at most so many bytes of a body *)
Class HttpLib := {
  ParseMediaType : string → option string;
  dec_credentials : Z → string → option (string * string);
  dec_passwords : Z → string → option (string * string);
  dec_hosts : Z → string → option (list string);
  dec_task : Z → string → option string;
  dec_rule : Z → string → option (bool * string);
  dec_channel : Z → string → option ChannelBody }.

(** ** The cache of checked sessions *)

Definition sessionCacheTTL : duration := minute.
Definition passwordCacheTTL : duration := 5 * minute.

Record userSession := { us_user : string; us_userRole : string }.
Record cachedSession := { cd_session : userSession; cd_until : time }.
Record authCache := { ac_sessions : gmap string cachedSession; ac_passwords : gmap string time }.
Definition empty_cache : authCache := {| ac_sessions := ∅; ac_passwords := ∅ |}.

Definition cache_session (now : time) (key : string) (c : authCache) : option userSession :=
  match ac_sessions c !! key with
  | Some cached => if after now (cd_until cached) then None else Some (cd_session cached)
  | None => None
  end.
Definition keepSession (now : time) (key : string) (session : userSession) (expires : time) (c : authCache) : authCache :=
  let until := time_add now sessionCacheTTL in
  let until := if before expires until then expires else until in
  {| ac_sessions := <[key := {| cd_session := session; cd_until := until |}]> (ac_sessions c);
     ac_passwords := ac_passwords c |}.
Definition forgetSession (key : string) (c : authCache) : authCache :=
  {| ac_sessions := delete key (ac_sessions c); ac_passwords := ac_passwords c |}.
(** All of a user's sessions but one *)
Definition forgetUser (user keep : string) (c : authCache) : authCache :=
  {| ac_sessions := filter (λ kv, us_user (cd_session kv.2) ≠ user ∨ kv.1 = keep) (ac_sessions c);
     ac_passwords := ac_passwords c |}.
Definition cache_password (now : time) (key : string) (c : authCache) : bool :=
  match ac_passwords c !! key with Some checked => time_sub now checked <? passwordCacheTTL | None => false end.
Definition keepPassword (now : time) (key : string) (c : authCache) : authCache :=
  {| ac_sessions := ac_sessions c; ac_passwords := <[key := now]> (ac_passwords c) |}.

(** ** The server *)

(** A call made for a request, a session the collector vouched for, and a
    password it accepted *)
Inductive LogEntry :=
  | Asked (now : time) (r : HttpRequest) (c : Call)
  | Vouched (now : time) (token : string) (info : SessionInfo)
  | Accepted (now : time) (user password : string).

Record Dashboard (W : Type) := Dash { da_cache : authCache; da_world : W; da_log : list LogEntry }.
Arguments Dash {_} _ _ _.
Arguments da_cache {_} _.
Arguments da_world {_} _.
Arguments da_log {_} _.

(** What an answer's JSON holds *)
Record HostTask := { htk_Name : string; htk_Description : string; htk_Command : string; htk_TimeoutSeconds : Z }.
(** A channel as it is shown: viewers get no settings at all. *)
Record channel := {
  ch_Info : ChannelInfo; ch_Settings : option object; ch_SecretsSet : list string; ch_LastError : string }.
Inductive Payload :=
  | PError (message : string) | PNothing | PText (text : string) | PPage (html : string)
  | PConfig (refreshSeconds : Z) (version collectorVersion : string)
  | PSession (user role : string) | PNotLoggedIn (hasUsers : bool)
  | PFleet (hosts : list FleetHost) | PHost (snapshot : HostSnapshot) | PSeries (response : SeriesResponse)
  | PProcesses (at_ : Z) (processes : string) | PProcessUsage (usage : ProcessUsageList) | PNames (names : list string)
  | PEndpoints (endpoints : list EndpointStatus) | PForecasts (disks : list DiskForecast)
  | PAlerts (alerts : list AlertRecord) | PRules (rules : list AlertRuleInfo) | PId (id : Z)
  | PUpdate (requested : Z) (version : string) | PTasks (tasks : list HostTask) | PRuns (runs : list TaskRunInfo)
  | PRun (run : TaskRunInfo) | PChannels (channels : list channel) | PChannel (shown : channel)
  | PTest (failed : option string) | PNotifications (notifications : list NotificationInfo)
  | PClusters (clusters : list ClusterSummary) | PCluster (info : ClusterInfo) | PName (name : string).

(** An answer, with the cookie it sets, a token and when it expires, and its
    Cache-Control *)
Record HttpReply := { re_status : Z; re_payload : Payload; re_cookie : option (string * Z); re_cache_control : string }.
Definition reply (status : Z) (p : Payload) : HttpReply :=
  {| re_status := status; re_payload := p; re_cookie := None; re_cache_control := "" |}.
Definition with_cache_control (value : string) (a : HttpReply) : HttpReply :=
  {| re_status := re_status a; re_payload := re_payload a; re_cookie := re_cookie a; re_cache_control := value |}.
Definition StatusOK : Z := 200.
Definition StatusCreated : Z := 201.
Definition StatusBadRequest : Z := 400.
Definition StatusUnauthorized : Z := 401.
Definition StatusForbidden : Z := 403.
Definition StatusNotFound : Z := 404.
Definition StatusConflict : Z := 409.
Definition StatusUnsupportedMediaType : Z := 415.
Definition StatusTooManyRequests : Z := 429.
Definition StatusInternalServerError : Z := 500.
Definition StatusBadGateway : Z := 502.

Definition writeError (code : Z) (message : string) : HttpReply := reply code (PError message).
Definition writeJSON (p : Payload) : HttpReply := reply StatusOK p.

(** [status.Convert(err).Message()] *)
Definition status_message (e : error) : string := match e with ErrStatus _ m => m | _ => error_text e end.
Definition writeGRPCError (e : error) : HttpReply :=
  let code := status_code e in
  if code =? codes_Canceled then writeError 499 "canceled"
  else if code =? codes_NotFound then writeError StatusNotFound (status_message e)
  else if code =? codes_Unauthenticated then writeError StatusUnauthorized (status_message e)
  else if (code =? codes_AlreadyExists) || (code =? codes_FailedPrecondition) then writeError StatusConflict (status_message e)
  else if code =? codes_ResourceExhausted then writeError StatusTooManyRequests (status_message e)
  else if code =? codes_InvalidArgument then writeError StatusBadRequest (status_message e)
  else if (code =? codes_Unavailable) || (code =? codes_DeadlineExceeded)
  then writeError StatusBadGateway "the collector is not reachable"
  else writeError StatusInternalServerError "internal error".

Definition errNotLoggedIn : error := ErrText "log in first".

(** ** Values of a request *)

(** [url.Values.Get] *)
Definition query_get (r : HttpRequest) (key : string) : string :=
  match List.find (λ kv, str_eq kv.1 key) (hr_query r) with Some kv => kv.2 | None => "" end.

(** What [strconv.Atoi] returns next to its error: 0 for a text that is no
    number, the nearest [int64] for one out of range *)
Definition number_or_zero (s : string) : Z :=
  match parse_int s with
  | Some z => z
  | None =>
      match s with
      | "" => 0
      | String c s' =>
          let body := if (byte_of c =? 45) || (byte_of c =? 43) then s' else s in
          match body, digits_val 0 body with
          | String _ _, Some _ => if byte_of c =? 45 then int64_min else int64_max
          | _, _ => 0
          end
      end
  end.

(** An empty [to] means now, an empty [from] an hour before [to]. *)
Definition timeRange (now : time) (fromValue toValue : string) : result error (Z * Z) :=
  rbind (if str_eq toValue "" then Ok (to_unix now)
         else match parse_int toValue with Some t => Ok t | None => Err (ErrText "to must be unix seconds") end) (λ to,
  rbind (if str_eq fromValue "" then Ok (wrap64 (to - 3600))
         else match parse_int fromValue with Some t => Ok t | None => Err (ErrText "from must be unix seconds") end) (λ from,
  Ok (from, to))).

(** [strconv.ParseInt(r.PathValue("id"), 10, 64)], and only above 0 *)
Definition path_id (s : string) : option Z :=
  match parse_int s with Some id => if 0 <? id then Some id else None | None => None end.

(** The browser came over HTTPS, directly or through a reverse proxy. *)
Definition isHTTPS (r : HttpRequest) : bool :=
  hr_tls r || str_eq (fold_name (hr_forwarded_proto r)) (fold_name "https").

Definition all_of (p : ascii → bool) (s : string) : bool := forallb p (chars s).
Definition digits_only (s : string) : bool := negb (str_eq s "") && all_of (λ c, (48 <=? byte_of c) && (byte_of c <=? 57)) s.
Definition port_or_none (s : string) : bool :=
  match s with "" => true | String c s' => (byte_of c =? 58) && digits_only s' end.
(** A pattern [[class]+(:[0-9]+)?$]: the class without a colon is cut at the first one *)
Definition safe_name (s : string) : bool :=
  match cut ":" s with
  | Some (name, port) => negb (str_eq name "") && all_of (λ c, alnum c || char_in c ".-") name && digits_only port
  | None => negb (str_eq s "") && all_of (λ c, alnum c || char_in c ".-") s
  end.
Definition hex_or_dots (c : ascii) : bool :=
  let b := byte_of c in
  ((48 <=? b) && (b <=? 57)) || ((65 <=? b) && (b <=? 70)) || ((97 <=? b) && (b <=? 102)) || char_in c ":.".
Definition safe_address (s : string) : bool :=
  match cut_prefix "[" s with
  | None => false
  | Some rest =>
      match cut "]" rest with
      | Some (address, port) => negb (str_eq address "") && all_of hex_or_dots address && port_or_none port
      | None => false
      end
  end.
(** [safeHost] *)
Definition safeHost (s : string) : bool := safe_name s || safe_address s.

(** ** Handlers *)

(** A handler ends with an answer, [Ok] or [Err] being where it returned. *)
Definition DashM (W : Type) := SM (Dashboard W) HttpReply.

(** The settings of the server ([config] and the build) *)
Record DashConfig := {
  dc_refreshSeconds : Z; dc_collectorEndpoint : string; dc_agentCollector : string; dc_metricsEnabled : bool;
  dc_metricsAuth : bool; dc_version : string;
  (* the signatures the downloads folder has *)
  dc_signed : list string }.

Section Handlers.
Context {W : Type} `{Collector W} `{HttpLib} `{Crypto} (config : DashConfig) (now : time) (r : HttpRequest).

Definition with_cache (f : authCache → authCache) : DashM W unit :=
  smodify (λ s, Dash (f (da_cache s)) (da_world s) (da_log s)).

(** One call of the collector *)
Definition ask (c : Call) : DashM W (result error (reply_of c)) := λ s,
  let '(a, w) := collector_call c (da_world s) in
  (Ok a, Dash (da_cache s) w (da_log s ++ [Asked now r c])).
Definition vouched (token : string) (info : SessionInfo) : DashM W unit :=
  smodify (λ s, Dash (da_cache s) (da_world s) (da_log s ++ [Vouched now token info])).
Definition accepted (user password : string) : DashM W unit :=
  smodify (λ s, Dash (da_cache s) (da_world s) (da_log s ++ [Accepted now user password])).

(** A call whose error is the answer *)
Definition get (c : Call) : DashM W (reply_of c) :=
  a ← ask c; match a with Ok x => mret x | Err e => sfail (writeGRPCError e) end.

(** *** Sessions *)

Definition sessionOf : DashM W (result error userSession) :=
  match hr_cookie r with
  | None | Some "" => mret (Err errNotLoggedIn)
  | Some token =>
      let key := sha256_Sum256 token in
      s ← sget;
      match cache_session now key (da_cache s) with
      | Some session => mret (Ok session)
      | None =>
          a ← ask (CCheckSession token);
          match a with
          | Ok info =>
              vouched token info;;
              let session := {| us_user := sei_User info; us_userRole := sei_Role info |} in
              with_cache (keepSession now key session (unix_time (sei_Expires info)));;
              mret (Ok session)
          | Err e => mret (Err (if status_code e =? codes_Unauthenticated then errNotLoggedIn else e))
          end
      end
  end.

Definition requireLogin (next : DashM W HttpReply) : DashM W HttpReply :=
  session ← sessionOf;
  match session with
  | Ok _ => next
  | Err e => sfail (if bool_decide (e = errNotLoggedIn) then writeError StatusUnauthorized (error_text e)
                    else writeGRPCError e)
  end.

Definition requireAdmin (next : DashM W HttpReply) : DashM W HttpReply :=
  session ← sessionOf;
  match session with
  | Err _ => sfail (writeError StatusUnauthorized (error_text errNotLoggedIn))
  | Ok session => if str_eq (us_userRole session) "admin" then next
                  else sfail (writeError StatusForbidden "only admins can do this")
  end.

Definition isAdmin : DashM W bool :=
  session ← sessionOf;
  mret (match session with Ok session => str_eq (us_userRole session) "admin" | Err _ => false end).
(** [session.user], empty when the session is gone by now *)
Definition session_name : DashM W string :=
  session ← sessionOf; mret (match session with Ok session => us_user session | Err _ => "" end).

Definition jsonBody : bool :=
  match ParseMediaType (hr_content_type r) with Some mediaType => str_eq mediaType "application/json" | None => false end.
Definition require_json (what : string) : DashM W unit :=
  if jsonBody then mret () else sfail (writeError StatusUnsupportedMediaType ("send the " +:+ what +:+ " as JSON")).
Definition decoded {A} (body : option A) (message : string) : DashM W A :=
  match body with Some a => mret a | None => sfail (writeError StatusBadRequest message) end.

Definition getSession : DashM W HttpReply :=
  session ← sessionOf;
  match session with
  | Ok session => mret (writeJSON (PSession (us_user session) (us_userRole session)))
  | Err e =>
      if negb (bool_decide (e = errNotLoggedIn)) then mret (writeGRPCError e)
      else users ← get CHasUsers; mret (reply StatusUnauthorized (PNotLoggedIn users))
  end.

Definition postLogin : DashM W HttpReply :=
  require_json "login";;
  '(user, password) ← decoded (dec_credentials 4096 (hr_body r)) "send user and password";
  session ← get (CLogin user password);
  mret {| re_status := StatusOK; re_payload := PSession (sei_User session) (sei_Role session);
          re_cookie := Some (sei_Token session, sei_Expires session); re_cache_control := "" |}.

Definition postPassword : DashM W HttpReply :=
  require_json "passwords";;
  '(current, next) ← decoded (dec_passwords 4096 (hr_body r)) "send current and new";
  session ← sessionOf;
  match session with
  | Err _ => sfail (writeError StatusUnauthorized (error_text errNotLoggedIn))
  | Ok session =>
      let token := default "" (hr_cookie r) in
      a ← ask (CChangePassword token current next);
      match a with
      | Err e => sfail (if status_code e =? codes_Unauthenticated
                        then writeError StatusForbidden "the current password is wrong" else writeGRPCError e)
      | Ok _ => with_cache (forgetUser (us_user session) (sha256_Sum256 token));; mret (writeJSON PNothing)
      end
  end.

(** The cookie is taken back in any case but an error of the collector. *)
Definition logged_out : HttpReply := 
  {| re_status := StatusOK; re_payload := PNothing; re_cookie := Some ("", -1); re_cache_control := "" |}.
Definition postLogout : DashM W HttpReply :=
  require_json "logout";;
  match hr_cookie r with
  | None | Some "" => mret logged_out
  | Some token =>
      with_cache (forgetSession (sha256_Sum256 token));;
      get (CLogout token);;
      mret logged_out
  end.

Definition checkPassword (user password : string) : DashM W (result error unit) :=
  let key := sha256_Sum256 (user +:+ str1 0 +:+ password) in
  s ← sget;
  if cache_password now key (da_cache s) then mret (Ok ())
  else a ← ask (CCheckPassword user password);
       match a with
       | Err e => mret (Err e)
       | Ok _ => accepted user password;; with_cache (keepPassword now key);; mret (Ok ())
       end.

Definition metricsAllowed : DashM W unit :=
  let refused := reply StatusUnauthorized (PText "log in with a SyMon user") in
  if negb (dc_metricsAuth config) then mret ()
  else
    session ← sessionOf;
    match session, hr_basic r with
    | Ok _, _ => mret ()
    | Err _, None => sfail refused
    | Err _, Some (user, password) =>
        checked ← checkPassword user password;
        match checked with Ok _ => mret () | Err _ => sfail refused end
    end.

(** *** Reading *)

Definition getConfig : DashM W HttpReply :=
  version ← ask CVersion;
  mret (writeJSON (PConfig (dc_refreshSeconds config) (dc_version config)
                     (match version with Ok v => v | Err _ => "" end))).
Definition getFleet : DashM W HttpReply := fleet ← get CFleet; mret (writeJSON (PFleet fleet)).
Definition getHost (host : string) : DashM W HttpReply :=
  snapshot ← get (CSnapshot host); mret (writeJSON (PHost snapshot)).

Definition range : DashM W (Z * Z) :=
  match timeRange now (query_get r "from") (query_get r "to") with
  | Ok p => mret p
  | Err e => sfail (writeError StatusBadRequest (error_text e))
  end.
Definition max_points : Z := wrap32 (number_or_zero (query_get r "maxPoints")).

Definition getSeries (host : string) : DashM W HttpReply :=
  '(from, to) ← range;
  response ← get (CQuerySeries {| sr_Host := host; sr_Metric := query_get r "metric"; sr_Label := query_get r "label";
                                  sr_From := from; sr_To := to; sr_MaxPoints := max_points;
                                  sr_Max := str_eq (query_get r "max") "1" |});
  mret (writeJSON (PSeries response)).
Definition named_series (name : string) (from to : Z) : EndpointSeriesRequest :=
  {| esr_Name := name; esr_Metric := query_get r "metric"; esr_From := from; esr_To := to; esr_MaxPoints := max_points |}.
Definition getEndpointSeries : DashM W HttpReply :=
  '(from, to) ← range;
  response ← get (CEndpointSeries (named_series (query_get r "name") from to)); mret (writeJSON (PSeries response)).
Definition getClusterSeries (name : string) : DashM W HttpReply :=
  '(from, to) ← range;
  response ← get (CClusterSeries (named_series name from to)); mret (writeJSON (PSeries response)).

Definition getProcesses (host : string) : DashM W HttpReply :=
  p ← get (CProcesses host (number_or_zero (query_get r "at"))); mret (writeJSON (PProcesses p.1 p.2)).
Definition getProcessUsage (host : string) : DashM W HttpReply :=
  '(from, to) ← range; usage ← get (CProcessUsage host from to); mret (writeJSON (PProcessUsage usage)).
Definition getCustomMetrics (host : string) : DashM W HttpReply :=
  names ← get (CCustomMetricNames host); mret (writeJSON (PNames names)).
Definition getEndpoints : DashM W HttpReply :=
  '(from, to) ← range; endpoints ← get (CEndpoints from to); mret (writeJSON (PEndpoints endpoints)).
Definition getDiskForecasts (host : string) : DashM W HttpReply :=
  disks ← get (CDiskForecasts host); mret (writeJSON (PForecasts disks)).

Definition getAlerts : DashM W HttpReply :=
  '(from, to) ← (if str_eq (query_get r "from") "" && str_eq (query_get r "to") "" then mret (0, 0) else range);
  alerts ← get (CAlerts {| arq_Host := query_get r "host"; arq_OpenOnly := str_eq (query_get r "open") "1";
                           arq_From := from; arq_To := to |});
  mret (writeJSON (PAlerts alerts)).

(** *** Rules *)

Definition getRules : DashM W HttpReply := rules ← get CAlertRules; mret (writeJSON (PRules rules)).
Definition saved_status (id : Z) : Z := if id =? 0 then StatusCreated else StatusOK.
Definition saveRule (id : Z) : DashM W HttpReply :=
  require_json "rule";;
  '(enabled, rule) ← decoded (b ← dec_rule 65536 (hr_body r); if str_eq b.2 "" then None else Some b) "send enabled and rule";
  user ← session_name;
  saved ← get (CSaveRule {| srr_Id := id; srr_Enabled := enabled; srr_RuleJson := rule; srr_By := user |});
  mret (reply (saved_status id) (PId (ari_Id saved))).
Definition with_id (what value : string) (k : Z → DashM W HttpReply) : DashM W HttpReply :=
  match path_id value with Some id => k id | None => sfail (writeError StatusNotFound ("no such " +:+ what)) end.
Definition postRule : DashM W HttpReply := saveRule 0.
Definition putRule (id : string) : DashM W HttpReply := with_id "rule" id saveRule.
Definition deleteRule (id : string) : DashM W HttpReply :=
  with_id "rule" id (λ id, session_name;; get (CDeleteRule id);; mret (writeJSON (PId id))).

(** *** Agents *)

Definition agentArchs : list string := ["amd64"; "arm64"; "arm"].
Definition postAgentUpdate : DashM W HttpReply :=
  require_json "hosts";;
  hosts ← decoded (b ← dec_hosts 65536 (hr_body r); if bool_decide (b = []) then None else Some b) "send the hosts to update";
  if negb (safeHost (hr_host r)) then mret (writeError StatusBadRequest "unexpected Host header")
  else if negb (forallb (λ arch, contains (dc_signed config) ("agent-linux-" +:+ arch +:+ ".sig")) agentArchs)
  then mret (writeError StatusConflict
         "the agent downloads are not signed, so agents would refuse them. Build them with make pack-client")
  else
    user ← session_name;
    result ← get (CRequestAgentUpdate {| aur_Hosts := hosts; aur_Version := dc_version config;
                    aur_DownloadUrl := (if isHTTPS r then "https" else "http") +:+ "://" +:+ hr_host r; aur_By := user |});
    mret (writeJSON (PUpdate result (dc_version config))).

(** *** Tasks: what viewers see leaves out commands and output *)

Definition toTaskRun (admin : bool) (run : TaskRunInfo) : TaskRunInfo := {|
  tri_Id := tri_Id run; tri_Host := tri_Host run; tri_Task := tri_Task run;
  tri_Command := if admin then tri_Command run else ""; tri_Status := tri_Status run;
  tri_RequestedBy := tri_RequestedBy run; tri_RequestedAt := tri_RequestedAt run; tri_StartedAt := tri_StartedAt run;
  tri_FinishedAt := tri_FinishedAt run; tri_ExitCode := tri_ExitCode run; tri_Error := tri_Error run;
  tri_Output := if admin then tri_Output run else ""; tri_Truncated := tri_Truncated run |}.
Definition host_task (admin : bool) (t : TaskInfo) : HostTask := {|
  htk_Name := ti_Name t; htk_Description := ti_Description t; htk_Command := if admin then ti_Command t else "";
  htk_TimeoutSeconds := ti_TimeoutSeconds t |}.

Definition getHostTasks (host : string) : DashM W HttpReply :=
  tasks ← get (CHostTasks host); admin ← isAdmin; mret (writeJSON (PTasks (map (host_task admin) tasks))).
Definition getTaskRuns (host : string) : DashM W HttpReply :=
  runs ← get (CTaskRuns host (wrap32 (number_or_zero (query_get r "limit"))));
  admin ← isAdmin; mret (writeJSON (PRuns (map (toTaskRun admin) runs))).
Definition getTaskRun (id : string) : DashM W HttpReply :=
  with_id "run" id (λ id, run ← get (CTaskRun id); mret (writeJSON (PRun (toTaskRun true run)))).
Definition postTaskRun (host : string) : DashM W HttpReply :=
  require_json "task";;
  task ← decoded (b ← dec_task 65536 (hr_body r); if str_eq b "" then None else Some b) "send the task to run";
  user ← session_name;
  run ← get (CRequestTaskRun {| trq_Host := host; trq_Task := task; trq_By := user |});
  mret (reply StatusCreated (PRun (toTaskRun true run))).

(** *** Channels: what viewers see leaves out settings and error messages *)

Definition toChannel (admin : bool) (c : ChannelInfo) : channel := {|
  ch_Info := {| ci_Id := ci_Id c; ci_Name := ci_Name c; ci_Kind := ci_Kind c; ci_Settings := ∅; ci_SecretsSet := [];
                ci_IsDefault := ci_IsDefault c; ci_SkipWarnings := ci_SkipWarnings c; ci_Enabled := ci_Enabled c;
                ci_UpdatedAt := ci_UpdatedAt c; ci_UpdatedBy := ci_UpdatedBy c; ci_LastStatus := ci_LastStatus c;
                ci_LastAt := ci_LastAt c; ci_LastError := "" |};
  ch_Settings := if admin then Some (ci_Settings c) else None;
  ch_SecretsSet := if admin then ci_SecretsSet c else [];
  ch_LastError := if admin then ci_LastError c else "" |}.
Definition shown_notification (admin : bool) (n : NotificationInfo) : NotificationInfo := {|
  ni_Id := ni_Id n; ni_AlertId := ni_AlertId n; ni_Channel := ni_Channel n; ni_Kind := ni_Kind n; ni_Event := ni_Event n;
  ni_Severity := ni_Severity n; ni_Subject := ni_Subject n; ni_Status := ni_Status n; ni_Attempts := ni_Attempts n;
  ni_LastError := if admin then ni_LastError n else ""; ni_CreatedAt := ni_CreatedAt n; ni_SentAt := ni_SentAt n;
  ni_Host := ni_Host n; ni_Rule := ni_Rule n |}.

Definition getChannels : DashM W HttpReply :=
  channels ← get CNotificationChannels; admin ← isAdmin; mret (writeJSON (PChannels (map (toChannel admin) channels))).
Definition saveChannel (id : Z) : DashM W HttpReply :=
  require_json "channel";;
  body ← decoded (b ← dec_channel 65536 (hr_body r); if str_eq (cb_Settings b) "" then None else Some b)
           "send the channel's name, kind and settings";
  user ← session_name;
  saved ← get (CSaveChannel {| scr_Id := id; scr_Name := cb_Name body; scr_Kind := cb_Kind body;
                               scr_SettingsJson := cb_Settings body; scr_IsDefault := cb_IsDefault body;
                               scr_SkipWarnings := cb_SkipWarnings body; scr_Enabled := cb_Enabled body; scr_By := user |});
  mret (reply (saved_status id) (PChannel (toChannel true saved))).
Definition postChannel : DashM W HttpReply := saveChannel 0.
Definition putChannel (id : string) : DashM W HttpReply := with_id "channel" id saveChannel.
Definition deleteChannel (id : string) : DashM W HttpReply :=
  with_id "channel" id (λ id, session_name;; get (CDeleteChannel id);; mret (writeJSON (PId id))).
Definition testChannel (id : string) : DashM W HttpReply :=
  with_id "channel" id (λ id,
    require_json "test";; user ← session_name; result ← get (CTestChannel id user); mret (writeJSON (PTest result))).
Definition getNotifications : DashM W HttpReply :=
  list ← get (CRecentNotifications (wrap32 (number_or_zero (query_get r "limit"))));
  admin ← isAdmin; mret (writeJSON (PNotifications (map (shown_notification admin) list))).

(** *** Clusters *)

Definition getClusters : DashM W HttpReply := clusters ← get CClusters; mret (writeJSON (PClusters clusters)).
Definition getCluster (name : string) : DashM W HttpReply :=
  info ← get (CCluster name); mret (writeJSON (PCluster info)).
Definition deleteCluster (name : string) : DashM W HttpReply :=
  get (CRemoveCluster name);; mret (writeJSON (PName name)).
End Handlers.
