(* ===== verification/DashboardRoutes.v ===== *)
(** * The dashboard's routes and what needs no login: [routes] of
    src/client/internal/server/server.go, install.go, the answer of /metrics
    and src/client/main.go.

    The patterns are those of net/http's ServeMux: the most specific one
    wins, GET is HEAD too, and a wildcard is one segment that is not empty.
    The path comes as its unescaped segments, after the mux cleaned it or
    sent the browser on to the clean one.
    The built web pages, net/http's file server, the script's template and the
    downloads folder are arguments. *)
From S2P Require Import Prelude GoStrings GoFloat GoTime Errors Monitor Alerts Json Kube Tasks Config Database StoreAlerts StoreUsers Notify AgentTasks Login Api ApiTasks ApiChannels ApiLogin ApiAuth Dashboard.
Local Open Scope Z_scope.

Inductive Route :=
  | RLogin | RLogout | RSession | RMetrics | RInstallScript | RDownload (file : string) | RApp
  | RConfig | RFleet | RHost (host : string) | RSeries (host : string) | RProcesses (host : string)
  | RProcessUsage (host : string) | RCustomMetrics (host : string) | RDiskForecasts (host : string)
  | RAlerts | REndpoints | REndpointSeries | RPassword | RRules | RPostRule | RPutRule (id : string)
  | RDeleteRule (id : string) | RAgentUpdate | RHostTasks (host : string) | RTaskRuns (host : string)
  | RTaskRun (id : string) | RPostTaskRun (host : string) | RChannels | RPostChannel | RPutChannel (id : string)
  | RDeleteChannel (id : string) | RTestChannel (id : string) | RNotifications | RClusters | RCluster (name : string)
  | RClusterSeries (name : string) | RDeleteCluster (name : string)
  | RNoEndpoint.

(** The routes of [data], the segments being those after /api/v1 *)
Definition data_route (get post put delete : bool) (path : list string) : Route :=
  match path with
  | ["config"] => if get then RConfig else RNoEndpoint
  | ["fleet"] => if get then RFleet else RNoEndpoint
  | ["hosts"; ""] => RNoEndpoint
  | ["hosts"; host] => if get then RHost host else RNoEndpoint
  | ["hosts"; host; "series"] => if get then RSeries host else RNoEndpoint
  | ["hosts"; host; "processes"] => if get then RProcesses host else RNoEndpoint
  | ["hosts"; host; "process-usage"] => if get then RProcessUsage host else RNoEndpoint
  | ["hosts"; host; "custom-metrics"] => if get then RCustomMetrics host else RNoEndpoint
  | ["hosts"; host; "disk-forecasts"] => if get then RDiskForecasts host else RNoEndpoint
  | ["alerts"] => if get then RAlerts else RNoEndpoint
  | ["endpoints"] => if get then REndpoints else RNoEndpoint
  | ["endpoints"; "series"] => if get then REndpointSeries else RNoEndpoint
  | ["password"] => if post then RPassword else RNoEndpoint
  | ["rules"] => if get then RRules else if post then RPostRule else RNoEndpoint
  | ["rules"; ""] => RNoEndpoint
  | ["rules"; id] => if put then RPutRule id else if delete then RDeleteRule id else RNoEndpoint
  | ["agents"; "update"] => if post then RAgentUpdate else RNoEndpoint
  | ["hosts"; host; "tasks"] => if get then RHostTasks host else RNoEndpoint
  | ["hosts"; host; "task-runs"] => if get then RTaskRuns host else RNoEndpoint
  | ["hosts"; host; "tasks"; "run"] => if post then RPostTaskRun host else RNoEndpoint
  | ["task-runs"; ""] => RNoEndpoint
  | ["task-runs"; id] => if get then RTaskRun id else RNoEndpoint
  | ["notifications"; "channels"] => if get then RChannels else if post then RPostChannel else RNoEndpoint
  | ["notifications"; "channels"; ""] => RNoEndpoint
  | ["notifications"; "channels"; id] => if put then RPutChannel id else if delete then RDeleteChannel id else RNoEndpoint
  | ["notifications"; "channels"; id; "test"] => if post then RTestChannel id else RNoEndpoint
  | ["notifications"] => if get then RNotifications else RNoEndpoint
  | ["clusters"] => if get then RClusters else RNoEndpoint
  | ["clusters"; ""] => RNoEndpoint
  | ["clusters"; name] => if get then RCluster name else if delete then RDeleteCluster name else RNoEndpoint
  | ["clusters"; name; "series"] => if get then RClusterSeries name else RNoEndpoint
  | _ => RNoEndpoint
  end.

Definition route (r : HttpRequest) : Route :=
  let get := str_eq (hr_method r) "GET" || str_eq (hr_method r) "HEAD" in
  let post := str_eq (hr_method r) "POST" in
  match hr_path r with
  | ["api"; "v1"; "login"] => if post then RLogin else RNoEndpoint
  | ["api"; "v1"; "logout"] => if post then RLogout else RNoEndpoint
  | ["api"; "v1"; "session"] => if get then RSession else RNoEndpoint
  | "api" :: "v1" :: path => data_route get post (str_eq (hr_method r) "PUT") (str_eq (hr_method r) "DELETE") path
  | "api" :: _ :: _ => RNoEndpoint
  | ["metrics"] => if get then RMetrics else RApp
  | ["install.sh"] => if get then RInstallScript else RApp
  | ["downloads"; file] => if get && negb (str_eq file "") then RDownload file else RApp
  | _ => RApp
  end.

(** The built pages, what net/http's file server answers for one, the
    script's template and the downloads folder *)
Class Files := {
  fs_stat : string → bool;
  index_html : option string;
  file_server : string → HttpReply;
  install_script : string → string → string;
  download : string → option string }.

(** [path.Clean] of a path that starts with a slash, without that slash *)
Definition clean_step (stack : list string) (segment : string) : list string :=
  if str_eq segment "" || str_eq segment "." then stack
  else if str_eq segment ".." then tl stack
  else segment :: stack.
Definition clean_name (path : string) : string := join "/" (rev (fold_left clean_step (split_byte (chr 47) path) [])).

Definition StatusServiceUnavailable : Z := 503.
(** [app]: a path that is no file gets the index. *)
Definition app `{Files} (path : string) : HttpReply :=
  let name := clean_name path in
  if negb (str_eq name "") && negb (str_eq name "index.html") && fs_stat name
  then with_cache_control (if has_prefix name "assets/" then "public, max-age=31536000, immutable" else "") (file_server path)
  else match index_html with
       | None => reply StatusServiceUnavailable (PText "the dashboard is not built, run make web")
       | Some index => with_cache_control "no-cache" (reply StatusOK (PPage index))
       end.

Definition agent_file (name : string) : bool :=
  contains ["agent-linux-amd64"; "agent-linux-arm64"; "agent-linux-arm"; "agent-linux-amd64.sig";
            "agent-linux-arm64.sig"; "agent-linux-arm.sig"] name.

(** net's SplitHostPort, ParseIP's loopback test and JoinHostPort *)
Class Net := {
  SplitHostPort : string → option (string * string);
  IsLoopback : string → bool;
  JoinHostPort : string → string → string }.

(** A collector on localhost is reached through the dashboard's host name. *)
Definition agentCollectorEndpoint `{Net} (config : DashConfig) (dashboardHost : string) : string :=
  if negb (str_eq (dc_agentCollector config) "") then dc_agentCollector config
  else match SplitHostPort (dc_collectorEndpoint config) with
       | None => dc_collectorEndpoint config
       | Some (host, port) =>
           if str_eq host "" || str_eq host "localhost" || IsLoopback host
           then JoinHostPort (match SplitHostPort dashboardHost with Some (name, _) => name | None => dashboardHost end) port
           else dc_collectorEndpoint config
       end.

Section Routes.
Context {W : Type} `{Collector W} `{HttpLib} `{Crypto} `{Files} `{Net} (config : DashConfig) (render : SnapshotList → string)
        (now : time) (r : HttpRequest).

Definition getInstallScript : DashM W HttpReply :=
  let collector := agentCollectorEndpoint config (hr_host r) in
  if negb (safeHost (hr_host r)) then mret (reply StatusBadRequest (PText "unexpected Host header"))
  else if negb (safeHost collector)
  then mret (reply StatusInternalServerError (PText "the agent collector endpoint is not a host:port"))
  else
    let scheme := if hr_tls r || str_eq (hr_forwarded_proto r) "https" then "https" else "http" in
    mret (with_cache_control "no-cache" (reply StatusOK (PText (install_script (scheme +:+ "://" +:+ hr_host r) collector)))).

Definition getDownload (name : string) : DashM W HttpReply :=
  if negb (agent_file name) then mret (reply StatusNotFound (PText "404 page not found"))
  else match download name with
       | None => mret (reply StatusNotFound
           (PText ("there is no " +:+ name +:+ " in the downloads folder, build it with make pack-client")))
       | Some data => mret (reply StatusOK (PText data))
       end.

(** [render] is the Prometheus text of the answer. *)
Definition getMetrics : DashM W HttpReply :=
  if negb (dc_metricsEnabled config)
  then mret (reply StatusNotFound (PText "metrics are switched off with SYMON_CLIENT_METRICS_ENABLED=false"))
  else
    metricsAllowed config now r;;
    response ← get now r CSnapshots;
    mret (reply StatusOK (PText (render response))).

(** A handler of [data] *)
Definition serve_data (route : Route) : DashM W HttpReply :=
  let admin := requireAdmin now r in
  match route with
  | RConfig => getConfig config now r | RFleet => getFleet now r | RHost host => getHost now r host
  | RSeries host => getSeries now r host | RProcesses host => getProcesses now r host
  | RProcessUsage host => getProcessUsage now r host | RCustomMetrics host => getCustomMetrics now r host
  | RDiskForecasts host => getDiskForecasts now r host | RAlerts => getAlerts now r | REndpoints => getEndpoints now r
  | REndpointSeries => getEndpointSeries now r | RPassword => postPassword now r | RRules => getRules now r
  | RPostRule => admin (postRule now r) | RPutRule id => admin (putRule now r id)
  | RDeleteRule id => admin (deleteRule now r id) | RAgentUpdate => admin (postAgentUpdate config now r)
  | RHostTasks host => getHostTasks now r host | RTaskRuns host => getTaskRuns now r host
  | RTaskRun id => admin (getTaskRun now r id) | RPostTaskRun host => admin (postTaskRun now r host)
  | RChannels => getChannels now r | RPostChannel => admin (postChannel now r)
  | RPutChannel id => admin (putChannel now r id) | RDeleteChannel id => admin (deleteChannel now r id)
  | RTestChannel id => admin (testChannel now r id) | RNotifications => getNotifications now r
  | RClusters => getClusters now r | RCluster name => getCluster now r name
  | RClusterSeries name => getClusterSeries now r name | RDeleteCluster name => admin (deleteCluster now r name)
  | _ => mret (writeError StatusNotFound "no such endpoint")
  end.

Definition serve_route (route : Route) : DashM W HttpReply :=
  match route with
  | RLogin => postLogin now r | RLogout => postLogout now r | RSession => getSession now r
  | RMetrics => getMetrics | RInstallScript => getInstallScript | RDownload file => getDownload file
  | RApp => mret (app ("/" +:+ join "/" (hr_path r)))
  | _ => requireLogin now r (serve_data route)
  end.

Definition handle : DashM W HttpReply := serve_route (route r).
End Routes.

(** [Run]: the settings the server keeps *)
Definition Run (c : Client_config) (version : string) (signed : list string) : DashConfig := {|
  dc_refreshSeconds := cl_RefreshSeconds c; dc_collectorEndpoint := cl_CollectorEndpoint c;
  dc_agentCollector := cl_AgentCollectorEndpoint c; dc_metricsEnabled := cl_MetricsEnabled c;
  dc_metricsAuth := cl_MetricsAuth c; dc_version := version; dc_signed := signed |}.

(** The program: src/client/main.go *)
Inductive ClientStart := ShowsVersion (line : string) | FailsWith (e : error) | Serves (address : string) (config : DashConfig).
Definition client_main (versionPtr : bool) (envFile : string) (file : SettingsFile) (version : string) (signed : list string)
    (e : environ) : ClientStart :=
  if versionPtr then ShowsVersion ("SyMon client " +:+ version)
  else match LoadEnvFile envFile file e with
       | (Err err, _) => FailsWith err
       | (Ok _, e) => let config := GetClient e in Serves (":" +:+ cl_Port config) (Run config version signed)
       end.

(** The answer of a request, wherever its handler returned *)
Definition answer {W} (m : DashM W HttpReply) (s : Dashboard W) : HttpReply * Dashboard W :=
  match m s with (Ok a, s') => (a, s') | (Err a, s') => (a, s') end.
