(* ===== verification/DashboardJson.v ===== *)
(** * The bodies of the dashboard's answers: the structs with json tags of
    src/client/internal/server and [writeJSON].

    encoding/json writes a struct's fields in their order and a map's members
    by their names, leaves out an empty field with omitempty, checks a
    [json.RawMessage] and refuses a number JSON has not.  The encoder writes
    all of a body or nothing.  The digits of a number and the parser of a raw
    message are parameters; a JSON text is modelled by its value. *)
From S2P Require Import Prelude GoStrings GoFloat GoTime Errors Monitor Alerts Json Kube Tasks Database StoreAlerts StoreForecast StoreQuery StoreUsers Notify AgentTasks Login Api ApiTasks ApiChannels ApiLogin ApiAuth Dashboard DashboardRoutes.
Local Open Scope Z_scope.

Class JsonText := {
  number_text : float64 → string;
  raw_message : string → option json }.

(** ** Values *)

Definition finite (x : float64) : bool :=
  match x with S754_nan | S754_infinity _ => false | _ => true end.

(** What a struct or a map writes: its members, or nothing when one of them
    cannot be written *)
Definition struct := option (list (string * json)).
Definition struct_json (s : struct) : option json := option_map JObject s.
Definition json_field (key : string) (v : option json) : struct := option_map (λ v, [(key, v)]) v.
Fixpoint json_struct (fields : list struct) : struct :=
  match fields with
  | [] => Some []
  | f :: fields => l ← f; rest ← json_struct fields; Some (l ++ rest)
  end.
Definition struct_of (fields : list struct) : option json := struct_json (json_struct fields).

Definition str_field (key : string) (v : string) : struct := json_field key (Some (JString v)).
Definition num_field (key : string) (v : Z) : struct := json_field key (Some (JNumber (itoa v))).
Definition bool_field (key : string) (v : bool) : struct := json_field key (Some (JBool v)).
(** omitempty *)
Definition str_field_omit (key : string) (v : string) : struct := if str_eq v "" then Some [] else str_field key v.

Fixpoint json_list {A} (item : A → option json) (l : list A) : option (list json) :=
  match l with
  | [] => Some []
  | a :: l => v ← item a; rest ← json_list item l; Some (v :: rest)
  end.
Definition array_field {A} (key : string) (item : A → option json) (l : list A) : struct :=
  json_field key (option_map JArray (json_list item l)).
Definition strings_of (l : list string) : option json := Some (JArray (map JString l)).

(** A text made of a map has its members by their names. *)
Definition map_json (o : object) : json := JObject (stable_sort (λ a b, String.leb a.1 b.1) (map_to_list o)).

Section Json.
Context `{JsonText}.

Definition float_json (v : float64) : option json := if finite v then Some (JNumber (number_text v)) else None.
Definition float_field (key : string) (v : float64) : struct := json_field key (float_json v).
(** A pointer, null for nil *)
Definition opt_float_field (key : string) (v : option float64) : struct :=
  json_field key (match v with Some v => float_json v | None => Some JNull end).
Definition raw_field (key text : string) : struct := json_field key (raw_message text).

(** ** The structs *)

Definition hostSummary (h : FleetHost) : option json := struct_of
  [str_field "name" (fh_Name h); bool_field "up" (fh_Up h); num_field "lastSeen" (fh_LastSeen h); num_field "time" (fh_Time h);
   str_field "os" (fh_Os h); float_field "uptimeSeconds" (fh_UptimeSeconds h); float_field "cpuPct" (fh_CpuPct h);
   float_field "memUsedPct" (fh_MemUsedPct h); float_field "swapUsedPct" (fh_SwapUsedPct h);
   float_field "diskUsedPct" (fh_DiskUsedPct h); float_field "rxBps" (fh_RxBps h); float_field "txBps" (fh_TxBps h);
   num_field "activeAlerts" (fh_ActiveAlerts h); num_field "worstSeverity" (fh_WorstSeverity h);
   num_field "containers" (fh_Containers h); opt_float_field "diskFullDays" (fh_DiskFullDays h);
   str_field "agentVersion" (fh_AgentVersion h); bool_field "canUpdate" (fh_CanUpdate h);
   str_field "updateVersion" (fh_UpdateVersion h); num_field "updateRequestedAt" (fh_UpdateRequestedAt h);
   str_field "updateError" (fh_UpdateError h)].

(** A point is a pair of numbers, its time one of them. *)
Definition point_json (p : Z * float64) : option json :=
  t ← float_json (of_int p.1); v ← float_json p.2; Some (JArray [t; v]).
Definition series (s : WireSeries) : option json :=
  struct_of [str_field "label" (ws_Label s); array_field "points" point_json (ws_Points s)].
Definition writeSeries (response : SeriesResponse) : option json := struct_of
  [str_field "metric" (sres_Metric response); array_field "series" series (sres_Series response);
   str_field "source" (sres_Source response); num_field "stepSeconds" (sres_StepSeconds response)].

Definition processUsage (p : ProcessShare) : option json := struct_of
  [str_field "name" (pu_Name p); float_field "cpuAvg" (pu_CPUAvg p); float_field "cpuPeak" (pu_CPUPeak p);
   float_field "memAvg" (pu_MemAvg p); float_field "memPeak" (pu_MemPeak p); float_field "seenPct" (pu_SeenPct p)].

Definition endpointStatus (e : EndpointStatus) : option json := struct_of
  [str_field "name" (est_Name e); str_field "url" (est_Url e); str_field "method" (est_Method e); num_field "time" (est_Time e);
   bool_field "ok" (est_Ok e); num_field "statusCode" (est_StatusCode e); float_field "latencyMs" (est_LatencyMs e);
   str_field "error" (est_Error e); num_field "checks" (est_Checks e); float_field "uptimePct" (est_UptimePct e);
   float_field "avgLatencyMs" (est_AvgLatencyMs e); num_field "certExpires" (est_CertExpires e)].

Definition diskForecast (d : DiskForecast) : option json := struct_of
  [str_field "device" (df_Device d); str_field "mount" (df_Mount d); float_field "usedPct" (df_UsedPct d);
   float_field "pctPerDay" (df_PctPerDay d); float_field "bytesPerDay" (df_BytesPerDay d);
   opt_float_field "daysToFull" (df_DaysToFull d); str_field "noForecast" (df_NoForecast d); num_field "samples" (df_Samples d)].

Definition alert (a : AlertRecord) : option json := struct_of
  [num_field "id" (arec_Id a); str_field "host" (arec_Host a); str_field "rule" (arec_Rule a); str_field "metric" (arec_Metric a);
   str_field "target" (arec_Target a); num_field "severity" (arec_Severity a); float_field "value" (arec_Value a);
   num_field "startedAt" (arec_StartedAt a); num_field "updatedAt" (arec_UpdatedAt a); num_field "resolvedAt" (arec_ResolvedAt a)].

Definition alertRule (x : AlertRuleInfo) : option json := struct_of
  [num_field "id" (ari_Id x); bool_field "enabled" (ari_Enabled x); raw_field "rule" (ari_RuleJson x);
   num_field "updatedAt" (ari_UpdatedAt x); str_field "updatedBy" (ari_UpdatedBy x)].

Definition hostTask (t : HostTask) : option json := struct_of
  [str_field "name" (htk_Name t); str_field "description" (htk_Description t); str_field_omit "command" (htk_Command t);
   num_field "timeoutSeconds" (htk_TimeoutSeconds t)].
Definition taskRun (run : TaskRunInfo) : option json := struct_of
  [num_field "id" (tri_Id run); str_field "host" (tri_Host run); str_field "task" (tri_Task run);
   str_field_omit "command" (tri_Command run); str_field "status" (tri_Status run); str_field "requestedBy" (tri_RequestedBy run);
   num_field "requestedAt" (tri_RequestedAt run); num_field "startedAt" (tri_StartedAt run);
   num_field "finishedAt" (tri_FinishedAt run); num_field "exitCode" (tri_ExitCode run); str_field "error" (tri_Error run);
   str_field_omit "output" (tri_Output run); bool_field "truncated" (tri_Truncated run)].

Definition channel_json (c : channel) : option json := 
  let info := ch_Info c in struct_of
  [num_field "id" (ci_Id info); str_field "name" (ci_Name info); str_field "kind" (ci_Kind info);
   match ch_Settings c with Some settings => json_field "settings" (Some (map_json settings)) | None => Some [] end;
   match ch_SecretsSet c with [] => Some [] | l => json_field "secretsSet" (strings_of l) end;
   bool_field "isDefault" (ci_IsDefault info); bool_field "skipWarnings" (ci_SkipWarnings info);
   bool_field "enabled" (ci_Enabled info); num_field "updatedAt" (ci_UpdatedAt info); str_field "updatedBy" (ci_UpdatedBy info);
   str_field "lastStatus" (ci_LastStatus info); num_field "lastAt" (ci_LastAt info); str_field_omit "lastError" (ch_LastError c)].
Definition notification (n : NotificationInfo) : option json := struct_of
  [num_field "id" (ni_Id n); num_field "alertId" (ni_AlertId n); str_field "channel" (ni_Channel n); str_field "kind" (ni_Kind n);
   str_field "event" (ni_Event n); num_field "severity" (ni_Severity n); str_field "subject" (ni_Subject n);
   str_field "status" (ni_Status n); num_field "attempts" (ni_Attempts n); str_field_omit "lastError" (ni_LastError n);
   num_field "createdAt" (ni_CreatedAt n); num_field "sentAt" (ni_SentAt n); str_field "host" (ni_Host n); str_field "rule" (ni_Rule n)].

Definition summaryOf (c : ClusterSummary) : option json :=
  let n := csm_Counts c in struct_of
  [str_field "name" (csm_Name c); str_field "host" (csm_Host c); num_field "stateTime" (csm_StateTime c);
   num_field "reportedAt" (csm_ReportedAt c); str_field "error" (csm_Error c); bool_field "stale" (csm_Stale c);
   num_field "nodes" (n_Nodes n); num_field "nodesReady" (n_NodesReady n); num_field "pods" (n_Pods n);
   num_field "podsRunning" (n_PodsRunning n); num_field "podsPending" (n_PodsPending n);
   num_field "podsNotReady" (n_PodsNotReady n); num_field "podsFailed" (n_PodsFailed n); num_field "workloads" (n_Workloads n);
   num_field "workloadsReady" (n_WorkloadsReady n); num_field "restartsLastHour" (csm_RestartsLastHour c)].
Definition containerUsage (u : ContainerUsage) : option json := struct_of
  [str_field "id" (cu_Id u); str_field "host" (cu_Host u); float_field "cpuPercent" (cu_CpuPercent u);
   float_field "cpuCores" (cu_CpuCores u); float_field "memoryBytes" (cu_MemoryBytes u); float_field "memoryLimit" (cu_MemoryLimit u)].
Definition kubeRestart (k : WireRestart) : option json := struct_of
  [num_field "time" (wr_Time k); str_field "namespace" (wr_Namespace k); str_field "workload" (wr_Workload k);
   str_field "pod" (wr_Pod k); str_field "container" (wr_Container k); num_field "count" (wr_Count k); str_field "reason" (wr_Reason k)].

(** ** Bodies *)

(** What is handed to the encoder *)
Definition payload_json (p : Payload) : option json :=
  match p with
  | PError message => struct_of [str_field "error" message]
  | PNothing => struct_of []
  | PText text | PPage text => Some (JString text)
  | PConfig refreshSeconds version collectorVersion =>
      struct_of [str_field "collectorVersion" collectorVersion; num_field "refreshSeconds" refreshSeconds; str_field "version" version]
  | PSession user role => struct_of [str_field "role" role; str_field "user" user]
  | PNotLoggedIn hasUsers => struct_of [str_field "error" (error_text errNotLoggedIn); bool_field "hasUsers" hasUsers]
  | PFleet hosts => struct_of [array_field "hosts" hostSummary hosts]
  | PHost snapshot =>
      struct_of [str_field "host" (snap_Host snapshot); num_field "lastSeen" (snap_LastSeen snapshot);
                 raw_field "snapshot" (snap_SnapshotJson snapshot); num_field "time" (snap_Time snapshot);
                 bool_field "up" (snap_Up snapshot)]
  | PSeries response => writeSeries response
  | PProcesses at_ processes => struct_of [raw_field "processes" processes; num_field "time" at_]
  | PProcessUsage usage =>
      struct_of [num_field "firstTime" (pul_FirstTime usage); array_field "processes" processUsage (pul_Processes usage);
                 num_field "snapshots" (pul_Snapshots usage)]
  | PNames names => struct_of [json_field "names" (strings_of names)]
  | PEndpoints endpoints => struct_of [array_field "endpoints" endpointStatus endpoints]
  | PForecasts disks => struct_of [array_field "disks" diskForecast disks]
  | PAlerts alerts => struct_of [array_field "alerts" alert alerts]
  | PRules rules => struct_of [array_field "rules" alertRule rules]
  | PId id => struct_of [num_field "id" id]
  | PUpdate requested version => struct_of [num_field "requested" requested; str_field "version" version]
  | PTasks tasks => struct_of [array_field "tasks" hostTask tasks]
  | PRuns runs => struct_of [array_field "runs" taskRun runs]
  | PRun run => taskRun run
  | PChannels channels => struct_of [array_field "channels" channel_json channels]
  | PChannel shown => channel_json shown
  | PTest failed => struct_of [str_field "error" (default "" failed); bool_field "ok" (bool_decide (failed = None))]
  | PNotifications notifications => struct_of [array_field "notifications" notification notifications]
  | PClusters clusters => struct_of [array_field "clusters" summaryOf clusters]
  | PCluster info =>
      struct_of [json_field "hosts" (strings_of (cin_Hosts info)); array_field "restarts" kubeRestart (cin_Restarts info);
                 raw_field "state" (cin_StateJson info); json_field "summary" (summaryOf (cin_Summary info));
                 array_field "usage" containerUsage (cin_Usage info)]
  | PName name => struct_of [str_field "name" name]
  end.

Inductive Body := TextBody (text : string) | JsonBody (v : json) | EmptyBody.
(** The status line and the body.  The status is sent before the body is
    encoded, or is 200 by default. *)
Definition written (a : HttpReply) : Z * Body :=
  (re_status a,
   match re_payload a with
   | PText text | PPage text => TextBody text
   | p => match payload_json p with Some v => JsonBody v | None => EmptyBody end
   end).
End Json.
