(* ===== verification/DashboardProps.v ===== *)
(** * Who gets what from the dashboard: every call it makes and every answer it
    gives, traced back to what the collector vouched for. *)
From S2P Require Import Prelude GoStrings GoFloat GoTime Errors Monitor Alerts Json Kube Tasks Database StoreAlerts StoreUsers Notify AgentTasks Login Api ApiTasks ApiChannels ApiLogin ApiAuth Dashboard DashboardRoutes.
Local Open Scope Z_scope.

(** What a call or an answer needs: nothing, what /metrics asks for, a
    session, or an admin's *)
Inductive Need := Public | Metrics | LoggedIn | Admin.
Definition need (c : Call) : Need :=
  match c with
  | CLogin _ _ | CLogout _ | CHasUsers | CCheckSession _ | CCheckPassword _ _ => Public
  | CSnapshots => Metrics
  | CSaveRule _ | CDeleteRule _ | CRequestAgentUpdate _ | CRequestTaskRun _ | CTaskRun _ | CSaveChannel _
  | CDeleteChannel _ | CTestChannel _ _ | CRemoveCluster _ => Admin
  | _ => LoggedIn
  end.

(** Error messages, the pages, the install script and the agent builds are
    for everybody, and so is the answer of a login; what else an answer shows
    comes from the collector. *)
Definition answer_need (rt : Route) (a : HttpReply) : Need :=
  match rt, re_payload a with
  | (RApp | RInstallScript | RDownload _), _ => Public
  | _, (PError _ | PNothing | PNotLoggedIn _) => Public
  | RLogin, PSession _ _ => Public
  | RMetrics, PText _ => if re_status a =? StatusOK then Metrics else Public
  | _, (PRun _ | PId _ | PUpdate _ _ | PChannel _ | PTest _ | PName _) => Admin
  | _, PText _ => if re_status a =? StatusOK then LoggedIn else Public
  | _, _ => LoggedIn
  end.

(** What an admin may a viewer need not; /metrics has rules of its own. *)
Definition enough (have want : Need) : bool :=
  match want, have with
  | Public, _ => true
  | Metrics, Metrics => true
  | LoggedIn, (LoggedIn | Admin) => true
  | Admin, Admin => true
  | _, _ => false
  end.

Section Guard.
Context {W : Type} `{Collector W} `{HttpLib} `{Crypto} `{Files} `{Net} (config : DashConfig) (render : SnapshotList → string).

(** The log holds the collector's word, at most a minute old, for the
    session of the request's cookie (the cache compares its hash). *)
Definition session_vouched (log : list LogEntry) (t : time) (r : HttpRequest) (admin : bool) : Prop :=
  ∃ token t' token' info, hr_cookie r = Some token ∧ Vouched t' token' info ∈ log
    ∧ sha256_Sum256 token' = sha256_Sum256 token ∧ t ≤ t' + sessionCacheTTL
    ∧ (admin = true → sei_Role info = "admin").
(** The log holds a password the collector accepted less than five minutes
    ago, and its hash with the user's name is that of the request's. *)
Definition password_accepted (log : list LogEntry) (t : time) (r : HttpRequest) : Prop :=
  ∃ user password t' user' password', hr_basic r = Some (user, password) ∧ Accepted t' user' password' ∈ log
    ∧ sha256_Sum256 (user' +:+ str1 0 +:+ password') = sha256_Sum256 (user +:+ str1 0 +:+ password) ∧ t < t' + passwordCacheTTL.

Definition vouched_for (log : list LogEntry) (t : time) (r : HttpRequest) (n : Need) : Prop :=
  match n with
  | Public => True
  | Metrics => dc_metricsEnabled config = true
      ∧ (dc_metricsAuth config = false ∨ session_vouched log t r false ∨ password_accepted log t r)
  | LoggedIn => session_vouched log t r false
  | Admin => session_vouched log t r true
  end.

Lemma session_vouched_mono log log' t r admin : log `prefix_of` log' → session_vouched log t r admin → session_vouched log' t r admin.
Proof.
  intros [l ->] (token & t' & token' & info & Hc & Hin & Hrest). exists token, t', token', info.
  split_and!; try apply Hrest; [done|apply elem_of_app; by left].
Qed.

Lemma vouched_for_mono log log' t r n : log `prefix_of` log' → vouched_for log t r n → vouched_for log' t r n.
Proof.
  intros Hp. destruct n; cbn; [done| |by apply session_vouched_mono..].
  intros (He & [?|[?|(user & password & t' & user' & password' & Hb & Hin & Hrest)]]); (split; [done|]); [by left|right; left; by eapply session_vouched_mono|].
  right; right. exists user, password, t', user', password'. destruct Hp as [l ->]. split_and!; try apply Hrest; [done|apply elem_of_app; by left].
Qed.

Lemma vouched_for_enough log t r have want : enough have want = true → vouched_for log t r have → vouched_for log t r want.
Proof. destruct want, have; cbn; try done; intros _ (token & t' & token' & info & Hrest); exists token, t', token', info; destruct_and! Hrest; by split_and!. Qed.

(** Every call of the log had what it needs before it was made. *)
Definition guarded (log : list LogEntry) : Prop :=
  ∀ i t r c, log !! i = Some (Asked t r c) → vouched_for (take i log) t r (need c).

(** A cached session is one the collector vouched for, and ends a minute
    later; a cached password is one it accepted. *)
Definition cache_ok (s : Dashboard W) : Prop :=
  (∀ key cached, ac_sessions (da_cache s) !! key = Some cached → ∃ t token info,
    Vouched t token info ∈ da_log s ∧ sha256_Sum256 token = key ∧ cd_until cached ≤ t + sessionCacheTTL
    ∧ us_userRole (cd_session cached) = sei_Role info)
  ∧ ∀ key t, ac_passwords (da_cache s) !! key = Some t → ∃ user password,
      Accepted t user password ∈ da_log s ∧ sha256_Sum256 (user +:+ str1 0 +:+ password) = key.

Definition inv (s : Dashboard W) : Prop := guarded (da_log s) ∧ cache_ok s.

Lemma guarded_snoc log e : guarded log →
  match e with Asked t r c => vouched_for log t r (need c) | _ => True end → guarded (log ++ [e]).
Proof.
  intros Hg He i t r c Hi. apply lookup_app_Some in Hi as [Hi|[Hle Hi]].
  - rewrite take_app_le by (apply lookup_lt_Some in Hi; lia). by apply Hg.
  - apply list_lookup_singleton_Some in Hi as [Hz ->]. rewrite take_app_length' by lia. exact He.
Qed.

(** The log grows, with the cache as it is. *)
Lemma inv_snoc s w e : inv s → match e with Asked t r c => vouched_for (da_log s) t r (need c) | _ => True end →
  inv (Dash (da_cache s) w (da_log s ++ [e])).
Proof.
  intros [Hg [Hc Hp]] He. split; [by apply guarded_snoc|]. split.
  - intros key cached (t & token & info & Hin & Hrest)%Hc. exists t, token, info. split; [apply elem_of_app; by left|done].
  - intros key t (user & password & Hin & Hrest)%Hp. exists user, password. split; [apply elem_of_app; by left|done].
Qed.

(** ** A small logic of handlers *)

Section Handler.
Context (now : time) (r : HttpRequest) (rt : Route).

(** With what [n] needs in the log, the handler keeps the invariant, the log
    only grows, and then holds what the handler's result needs by [P], or its
    answer when it ends early. *)
Definition runs {A} (n : Need) (P : A → Need) (m : DashM W A) : Prop := ∀ s, inv s → vouched_for (da_log s) now r n →
  inv (m s).2 ∧ da_log s `prefix_of` da_log (m s).2
  ∧ vouched_for (da_log (m s).2) now r (match (m s).1 with Ok a => P a | Err e => answer_need rt e end).

Lemma runs_ret {A} n P (a : A) : enough n (P a) = true → runs n P (mret a).
Proof. intros Hn s Hs Hv. split_and!; [done..|]. by eapply vouched_for_enough. Qed.
Lemma runs_keep {A} n (a : A) : runs n (λ _, n) (mret a).
Proof. apply runs_ret. by destruct n. Qed.
Lemma runs_fail {A} n (P : A → Need) e : enough n (answer_need rt e) = true → runs n P (sfail e).
Proof. intros Hn s Hs Hv. split_and!; [done..|]. by eapply vouched_for_enough. Qed.

Lemma runs_bind {A B} n P Q (m : DashM W A) (k : A → DashM W B) : runs n P m → (∀ a, runs (P a) Q (k a)) → runs n Q (m ≫= k).
Proof.
  intros Hm Hk s Hs Hn. unfold mbind, SM_bind, sbind. cbv beta. destruct (Hm s Hs Hn) as (Hs' & Hp & Hv).
  destruct (m s) as [[a|e] s']; [|done]. cbn in *. destruct (Hk a s' Hs' Hv) as (H' & Hp' & Hv').
  split_and!; [done|by etrans|done].
Qed.

Lemma error_public code message : answer_need rt (writeError code message) = Public.
Proof. by destruct rt. Qed.
Lemma grpc_error_public e : answer_need rt (writeGRPCError e) = Public.
Proof. unfold writeGRPCError. repeat case_match; apply error_public. Qed.

Lemma runs_ask n c : enough n (need c) = true → runs n (λ _, n) (ask now r c).
Proof.
  intros Hn s Hs Hv. unfold ask. destruct (collector_call c (da_world s)) as [a w]. cbn.
  assert (Hp : da_log s `prefix_of` da_log s ++ [Asked now r c]) by by eexists.
  split_and!; [|done|by eapply vouched_for_mono]. apply inv_snoc; [done|by eapply vouched_for_enough].
Qed.

Lemma runs_get n c : enough n (need c) = true → runs n (λ _, n) (get now r c).
Proof.
  intros Hn. eapply runs_bind; [by apply runs_ask|]. intros [a|e]; [apply runs_ret; by destruct n|].
  apply runs_fail. by rewrite grpc_error_public.
Qed.

Lemma runs_cache n f :
  (∀ c key cached, ac_sessions (f c) !! key = Some cached → ac_sessions c !! key = Some cached) →
  (∀ c, ac_passwords (f c) = ac_passwords c) → runs n (λ _, n) (with_cache f).
Proof.
  intros Hf Hfp s [Hg [Hc Hp]] Hv. cbn. split_and!; [|done|done]. split; [done|]. split.
  - intros key cached Hk%Hf. by apply Hc.
  - intros key t. cbn. rewrite Hfp. apply Hp.
Qed.

(** What [sessionOf] says is in the log. *)
Definition of_session (n : Need) (x : result error userSession) : Need :=
  match x with Ok session => if str_eq (us_userRole session) "admin" then Admin else LoggedIn | Err _ => n end.

Lemma session_in_log log session token t' token' info :
  hr_cookie r = Some token → Vouched t' token' info ∈ log → sha256_Sum256 token' = sha256_Sum256 token →
  now ≤ t' + sessionCacheTTL → us_userRole session = sei_Role info →
  ∀ n, vouched_for log now r (of_session n (Ok session)).
Proof.
  intros Hc Hin Hs Ht Hr n. cbn. destruct (str_eq _ "admin") eqn:E; exists token, t', token', info; split_and!; try done.
  intros _. rewrite <- Hr. by apply str_eq_spec.
Qed.

Lemma sessionOf_runs n : runs n (of_session n) (sessionOf now r).
Proof.
  intros s Hs Hn. unfold sessionOf. destruct (hr_cookie r) as [[|x token]|] eqn:Ec; [by split_and!| |by split_and!].
  set (key := sha256_Sum256 _). unfold mbind, SM_bind, sbind, sget. cbv beta iota.
  destruct (cache_session now key (da_cache s)) as [session|] eqn:Ek.
  - split; [done|]. split; [done|]. unfold cache_session in Ek. destruct (_ !! key) as [cached|] eqn:El; [|done].
    destruct (after now (cd_until cached)) eqn:Ea; [done|]. injection Ek as <-.
    destruct (proj1 (proj2 Hs) _ _ El) as (t & token' & info & Hin & Hkey & Ht & Hr). unfold after, time in *.
    eapply (session_in_log _ (cd_session cached) _ t token' info Ec); try done. lia.
  - pose proof (runs_ask n (CCheckSession (String x token)) ltac:(by destruct n) s Hs Hn) as Hr.
    destruct (ask now r _ s) as [[[info|e]|e] s1]; destruct Hr as (Hs1 & Hp & Hv); [|by split_and!..]. cbn in Hs1, Hp, Hv |- *.
    pose proof (inv_snoc s1 (da_world s1) (Vouched now (String x token) info) Hs1 I) as [Hg [Hc Hpw]].
    assert (Hnew : Vouched now (String x token) info ∈ da_log s1 ++ [Vouched now (String x token) info])
      by (apply elem_of_app; right; by left).
    split; [|split].
    + split; [done|]. split; [|exact Hpw]. intros key' cached. cbn. rewrite lookup_insert_Some. intros [[<- <-]|[_ Hk]]; [|by apply Hc].
      exists now, (String x token), info. (split_and!; [done..| |done]). cbn. unfold time_add, before, time in *. case_match; lia.
    + etrans; [exact Hp|by eexists].
    + refine (session_in_log _ {| us_user := sei_User info; us_userRole := sei_Role info |} _ now (String x token) info Ec Hnew eq_refl _ eq_refl n).
      unfold sessionCacheTTL, minute, second, time. lia.
Qed.

Lemma runs_session {A} n P (k : result error userSession → DashM W A) :
  (∀ x, runs (of_session n x) P (k x)) → runs n P (x ← sessionOf now r; k x).
Proof. apply runs_bind, sessionOf_runs. Qed.

Lemma runs_weaken {A} n n' P (m : DashM W A) : enough n n' = true → runs n' P m → runs n P m.
Proof. intros He Hm s Hs Hv. apply Hm; [done|]. by eapply vouched_for_enough. Qed.

Lemma requireLogin_runs next : runs LoggedIn (answer_need rt) next → runs Public (answer_need rt) (requireLogin now r next).
Proof.
  intros Hk. apply runs_session. intros [x|e].
  - apply (runs_weaken _ LoggedIn); [cbn; by destruct (str_eq _ _)|done].
  - apply runs_fail. case_match; by rewrite ?error_public, ?grpc_error_public.
Qed.

Lemma requireAdmin_runs next : runs Admin (answer_need rt) next → runs LoggedIn (answer_need rt) (requireAdmin now r next).
Proof.
  intros Hk. apply runs_session. intros [x|e]; [cbn; destruct (str_eq _ _); [done|]|]; apply runs_fail; by rewrite error_public.
Qed.

(** A handler that looks who asks, and needs no more for it *)
Lemma looks n {A} (f : result error userSession → A) :
  (n = LoggedIn ∨ n = Admin) → runs n (λ _, n) (x ← sessionOf now r; mret (f x)).
Proof.
  intros Hn s Hs Hv. destruct (sessionOf_runs n s Hs Hv) as (Hs' & Hp & Hv'). unfold mbind, SM_bind, sbind. cbv beta.
  destruct (sessionOf now r s) as [[x|e] s']; [|done]. split_and!; [done..|]. by eapply vouched_for_mono.
Qed.

Lemma require_json_runs n what : runs n (λ _, n) (require_json (W := W) r what).
Proof. unfold require_json. destruct (jsonBody r); [apply runs_ret; by destruct n|apply runs_fail; by rewrite error_public]. Qed.
Lemma decoded_runs {A} n (body : option A) message : runs n (λ _, n) (decoded (W := W) body message).
Proof. destruct body; [apply runs_ret; by destruct n|apply runs_fail; by rewrite error_public]. Qed.
Lemma range_runs n : runs n (λ _, n) (range (W := W) now r).
Proof. unfold range. destruct (timeRange _ _ _); [apply runs_ret; by destruct n|apply runs_fail; by rewrite error_public]. Qed.
Lemma with_id_runs n P what value k : (∀ id, runs n P (k id)) → runs n P (with_id (W := W) what value k).
Proof. intros Hk. unfold with_id. destruct (path_id value); [apply Hk|apply runs_fail; by rewrite error_public]. Qed.

(** *** Passwords of /metrics *)

Lemma checkPassword_runs user password s : inv s → ∃ checked s',
  checkPassword now r user password s = (Ok checked, s') ∧ inv s' ∧ da_log s `prefix_of` da_log s'
  ∧ (checked = Ok () → ∃ t' user' password', Accepted t' user' password' ∈ da_log s'
       ∧ sha256_Sum256 (user' +:+ str1 0 +:+ password') = sha256_Sum256 (user +:+ str1 0 +:+ password) ∧ now < t' + passwordCacheTTL).
Proof.
  intros Hs. unfold checkPassword. cbv zeta. set (key := sha256_Sum256 _). unfold mbind, SM_bind, sbind, sget. cbv beta iota.
  destruct (cache_password now key (da_cache s)) eqn:Ek.
  - exists (Ok ()), s. split_and!; [done..|]. intros _. unfold cache_password in Ek. destruct (_ !! key) as [t|] eqn:El; [|done].
    destruct (proj2 (proj2 Hs) _ _ El) as (user' & password' & Hin & Hkey). exists t, user', password'. split_and!; [done..|].
    apply Z.ltb_lt in Ek. revert Ek. unfold time_sub, passwordCacheTTL, minute, second, int64_min, int64_max, time. lia.
  - pose proof (runs_ask Public (CCheckPassword user password) eq_refl s Hs I) as (Hs1 & Hp & _). revert Hs1 Hp.
    unfold ask. destruct (collector_call _ (da_world s)) as [[reply|e] w]; cbn; intros Hs1 Hp; [|by exists (Err e); eexists].
    set (s1 := Dash _ _ _) in Hs1, Hp. exists (Ok ()); eexists. split; [reflexivity|]. cbn.
    pose proof (inv_snoc s1 w (Accepted now user password) Hs1 I) as [Hg [Hc Hpw]]. subst s1. cbn in Hg, Hc, Hpw.
    assert (Hnew : Accepted now user password ∈ (da_log s ++ [Asked now r (CCheckPassword user password)]) ++ [Accepted now user password])
      by (apply elem_of_app; right; by left).
    split_and!.
    + split; [done|]. split; [exact Hc|]. intros key' t. cbn. rewrite lookup_insert_Some.
      intros [[<- <-]|[_ Hk]]; [by exists user, password|by apply Hpw].
    + etrans; [exact Hp|by eexists].
    + intros _. exists now, user, password. split_and!; [done..|]. unfold passwordCacheTTL, minute, second, time. lia.
Qed.
End Handler.

Lemma metricsAllowed_runs now r : dc_metricsEnabled config = true → runs now r RMetrics Public (λ _, Metrics) (metricsAllowed config now r).
Proof.
  intros He. unfold metricsAllowed. destruct (dc_metricsAuth config) eqn:Ea; cbn [negb].
  2:{ intros s Hs _. split; [done|]. split; [done|]. split; [done|]. by left. }
  intros s Hs Hn. destruct (sessionOf_runs now r RMetrics Public s Hs Hn) as (Hs' & Hp & Hv). unfold mbind, SM_bind, sbind. cbv beta.
  destruct (sessionOf now r s) as [[[x|e]|a] s']; [| |done].
  - split; [done|]. split; [done|]. split; [done|]. right; left. cbn in Hv.
    apply (vouched_for_enough _ _ _ (if str_eq (us_userRole x) "admin" then Admin else LoggedIn) LoggedIn); [by destruct (str_eq _ _)|exact Hv].
  - destruct (hr_basic r) as [[user password]|] eqn:Eb; [|done].
    destruct (checkPassword_runs now r RMetrics user password s' Hs') as (checked & s2 & -> & Hs2 & Hp2 & Hacc).
    split; [|split]; [by destruct checked as [[]|e']|by destruct checked as [[]|e']; etrans|].
    destruct checked as [[]|e']; [|done]. split; [done|]. right; right.
    destruct (Hacc eq_refl) as (t' & user' & password' & ?). by exists user, password, t', user', password'.
Qed.

(** Handlers are proved by following their binds. *)
Ltac handlers := repeat (cbv beta; first
  [ apply runs_keep | apply runs_ret; first [reflexivity|by rewrite grpc_error_public] | apply runs_fail; first [reflexivity|by rewrite grpc_error_public]
  | eapply looks; by auto | apply require_json_runs | apply decoded_runs | apply range_runs
  | apply with_id_runs; intros ? 
  | match goal with |- @runs ?t ?q ?rt _ ?n _ ?m => match m with get _ _ ?c => exact (runs_get t q rt n c eq_refl) end end
  | match goal with |- @runs ?t ?q ?rt _ ?n _ ?m => match m with ask _ _ ?c => exact (runs_ask t q rt n c eq_refl) end end
  | eapply runs_bind; [|intros ?]
  | match goal with |- context [match ?x with _ => _ end] => destruct x end ]).

Lemma session_name_runs now r rt n : n = LoggedIn ∨ n = Admin → runs now r rt n (λ _, n) (session_name now r).
Proof. apply looks. Qed.
Lemma isAdmin_runs now r rt n : n = LoggedIn ∨ n = Admin → runs now r rt n (λ _, n) (isAdmin now r).
Proof. apply looks. Qed.

Lemma postPassword_runs now r : runs now r RPassword LoggedIn (answer_need RPassword) (postPassword now r).
Proof.
  unfold postPassword. eapply runs_bind; [apply require_json_runs|]. intros []. eapply runs_bind; [apply decoded_runs|].
  intros [current next]. cbv beta. apply runs_session. intros [session|e].
  - apply (runs_weaken _ _ _ _ LoggedIn); [cbn; by destruct (str_eq _ _)|]. handlers.
    apply runs_cache; [|done]. intros c key cached. cbn. rewrite map_lookup_filter_Some. tauto.
  - handlers.
Qed.

Lemma postLogout_runs now r : runs now r RLogout Public (answer_need RLogout) (postLogout now r).
Proof.
  unfold postLogout. handlers. apply runs_cache; [|done]. intros c key cached. cbn. rewrite lookup_delete_Some. tauto.
Qed.

Lemma getSession_runs now r : runs now r RSession Public (answer_need RSession) (getSession now r).
Proof.
  unfold getSession. apply runs_session. intros [session|e].
  - apply runs_ret. cbn. by destruct (str_eq _ _).
  - apply (runs_weaken _ _ _ _ Public); [done|]. handlers.
Qed.

Lemma getMetrics_runs now r : runs now r RMetrics Public (answer_need RMetrics) (getMetrics config render now r).
Proof.
  unfold getMetrics. destruct (dc_metricsEnabled config) eqn:He; cbn [negb]; [|handlers].
  eapply runs_bind; [by apply metricsAllowed_runs|intros []]. handlers.
Qed.

(** A handler that only admins reach needs no more than a login to start. *)
Lemma serve_data_runs now r rt :
  match rt with RLogin | RLogout | RSession | RMetrics | RInstallScript | RDownload _ | RApp => True
  | _ => runs now r rt LoggedIn (answer_need rt) (serve_data config now r rt) end.
Proof.
  destruct rt; try exact I; unfold serve_data; cbv zeta; try apply requireAdmin_runs; try apply postPassword_runs.
  all: unfold getConfig, getFleet, getHost, getSeries, getProcesses, getProcessUsage, getCustomMetrics, getDiskForecasts,
    getAlerts, getEndpoints, getEndpointSeries, getRules, postRule, putRule, deleteRule, saveRule, postAgentUpdate, getHostTasks,
    getTaskRuns, getTaskRun, postTaskRun, getChannels, postChannel, putChannel, saveChannel, deleteChannel, testChannel,
    getNotifications, getClusters, getCluster, getClusterSeries, deleteCluster, session_name, isAdmin.
  all: handlers.
Qed.

Lemma handle_runs now r : runs now r (route r) Public (answer_need (route r)) (handle config render now r).
Proof.
  unfold handle. pose proof (serve_data_runs now r (route r)) as Hd. destruct (route r); unfold serve_route;
    try (by apply requireLogin_runs); try apply getMetrics_runs; try apply postLogout_runs; try apply getSession_runs.
  all: unfold postLogin, getInstallScript, getDownload; handlers.
Qed.

(** ** Properties *)

(** The requests of a run of the dashboard, each with its time *)
Definition serve_all (l : list (time * HttpRequest)) (s : Dashboard W) : Dashboard W :=
  fold_left (λ s tr, (answer (handle config render tr.1 tr.2) s).2) l s.

Lemma answer_runs now r rt (m : DashM W HttpReply) s : runs now r rt Public (answer_need rt) m → inv s →
  inv (answer m s).2 ∧ vouched_for (da_log (answer m s).2) now r (answer_need rt (answer m s).1).
Proof. intros Hm Hs. destruct (Hm s Hs I) as (Hs' & _ & Hv). unfold answer. by destruct (m s) as [[a|a] s']. Qed.

Lemma serve_all_inv l s : inv s → inv (serve_all l s).
Proof.
  revert s. induction l as [|[t r] l IH]; intros s Hs; [done|]. cbn. apply IH.
  by apply (answer_runs _ _ _ _ _ (handle_runs t r)).
Qed.

Lemma new_dashboard_inv w : inv (Dash empty_cache w []).
Proof. split; [by intros j ? ? ?|]. split; intros key ?; cbn; by rewrite lookup_empty. Qed.

(** C10: The dashboard asks the collector nothing for a browser, and shows a
    browser nothing, that it may not.  Whatever requests come, in whatever
    order, every call in the log had before it in the log what it needs
    ([need]), and the answer of every request, errors and early answers
    included, has in the log what it shows needs ([answer_need]).  What reads
    the hosts' data needs a session: the collector vouched for the token of
    the request's cookie (for one with its hash, as the cache compares) at
    most a minute before.  What changes rules, channels, clusters or agents,
    starts a task or shows a run's output needs the collector to have said
    that session is an admin's.  The hosts' values on /metrics need it to be
    switched on, and where it is protected a session or the name and the
    password of a user whom the collector accepted less than five minutes
    before.  The rest is public: the pages, the install script and the agent
    builds, error messages, the answer of a login, and the calls that log in,
    log out and check who asks. *)
Theorem dashboard_guarded (l : list (time * HttpRequest)) (w : W) :
  let s := serve_all l (Dash empty_cache w []) in
  (∀ i t r c, da_log s !! i = Some (Asked t r c) → vouched_for (take i (da_log s)) t r (need c))
  ∧ ∀ t r, let '(a, s') := answer (handle config render t r) s in vouched_for (da_log s') t r (answer_need (route r) a).
Proof.
  intros s. pose proof (serve_all_inv l _ (new_dashboard_inv w)) as Hs. fold s in Hs. split; [apply Hs|]. intros t r.
  pose proof (proj2 (answer_runs _ _ _ _ _ (handle_runs t r) Hs)) as Hv. by destruct (answer _ s).
Qed.
End Guard.

(** ** Ann, an admin, deletes a rule with a session the collector knows *)

#[local] Instance ex_collector : Collector unit := λ c w,
  (match c return result error (reply_of c) with
   | CCheckSession _ => Ok {| sei_Token := ""; sei_User := "ann"; sei_Role := "admin"; sei_Expires := 1000 |}
   | CDeleteRule _ => Ok "ok"
   | _ => Err (ErrStatus codes_Unavailable "")
   end, w).
#[local] Instance ex_http : HttpLib := {|
  ParseMediaType := λ _, None; dec_credentials := λ _ _, None; dec_passwords := λ _ _, None; dec_hosts := λ _ _, None;
  dec_task := λ _ _, None; dec_rule := λ _ _, None; dec_channel := λ _ _, None |}.
#[local] Instance ex_crypto : Crypto := {| pbkdf2_Key := λ p s _, p +:+ s; sha256_Sum256 := λ s, s |}.
#[local] Instance ex_files : Files := {|
  fs_stat := λ _, false; index_html := None; file_server := λ _, reply StatusOK PNothing; install_script := λ a b, a +:+ b; download := λ _, None |}.
#[local] Instance ex_net : Net := {| SplitHostPort := λ _, None; IsLoopback := λ _, false; JoinHostPort := λ a b, a +:+ b |}.
Definition ex_config : DashConfig := {|
  dc_refreshSeconds := 15; dc_collectorEndpoint := ""; dc_agentCollector := ""; dc_metricsEnabled := true;
  dc_metricsAuth := false; dc_version := "v3"; dc_signed := [] |}.
Definition delete_rule_7 : HttpRequest := {|
  hr_method := "DELETE"; hr_path := ["api"; "v1"; "rules"; "7"]; hr_query := []; hr_cookie := Some "secret";
  hr_content_type := ""; hr_body := ""; hr_host := ""; hr_tls := false; hr_forwarded_proto := ""; hr_basic := None |}.

Definition after_delete : Dashboard unit := serve_all ex_config (λ _, "") [(0, delete_rule_7)] (Dash empty_cache () []).
Definition same_again : HttpReply := (answer (handle ex_config (λ _, "") 30 delete_rule_7) after_delete).1.

Lemma dashboard_guarded_witness :
  da_log after_delete !! 2%nat = Some (Asked 0 delete_rule_7 (CDeleteRule 7))
  ∧ (∃ t' info, Vouched t' "secret" info ∈ take 2 (da_log after_delete) ∧ sei_Role info = "admin")
  ∧ re_payload same_again = PId 7
  ∧ vouched_for ex_config (da_log (answer (handle ex_config (λ _, "") 30 delete_rule_7) after_delete).2) 30 delete_rule_7
      (answer_need (RDeleteRule "7") same_again).
Proof.
  pose proof (dashboard_guarded ex_config (λ _, "") [(0, delete_rule_7)] ()) as [Hcalls Hanswers].
  assert (E : da_log after_delete !! 2%nat = Some (Asked 0 delete_rule_7 (CDeleteRule 7))) by (vm_compute; reflexivity).
  split; [exact E|]. split; [|split; [vm_compute; reflexivity|]].
  - destruct (Hcalls 2%nat 0 delete_rule_7 (CDeleteRule 7) E) as (token & t' & token' & info & [= <-] & Hin & Hs & _ & Hr).
    cbn in Hs. subst token'. exists t', info. split; [exact Hin|by apply Hr].
  - pose proof (Hanswers 30 delete_rule_7) as Ha. unfold same_again, after_delete. by destruct (answer _ _).
Defined.

(** A scraper without a password gets nothing where /metrics is protected. *)
Definition scrape : HttpRequest := {|
  hr_method := "GET"; hr_path := ["metrics"]; hr_query := []; hr_cookie := None;
  hr_content_type := ""; hr_body := ""; hr_host := ""; hr_tls := false; hr_forwarded_proto := ""; hr_basic := None |}.
Definition protected : DashConfig := {|
  dc_refreshSeconds := 15; dc_collectorEndpoint := ""; dc_agentCollector := ""; dc_metricsEnabled := true;
  dc_metricsAuth := true; dc_version := "v3"; dc_signed := [] |}.
Example scrape_refused :
  let '(a, s) := answer (handle protected (λ _, "the values") 0 scrape) (Dash empty_cache () []) in
  a = reply StatusUnauthorized (PText "log in with a SyMon user") ∧ da_log s = [].
Proof. vm_compute. by split. Qed.
