(* ===== verification/DashboardSessions.v ===== *)
(** * How long a session lasts: the cache of src/client/internal/server/auth.go
    beside the collector, with requests that overlap.

    A request looks its cookie up in the cache, asks the collector, and keeps
    the answer; in between, other requests, logouts and whatever the collector
    does come through.  A session that ended at the collector lets nobody in
    after the minute the cache keeps it and the time an answer is on its way. *)
From S2P Require Import Prelude GoStrings GoFloat GoTime Errors Monitor Alerts Json Kube Tasks Database StoreHosts StoreUsers StoreEnrollment StoreKube StoreTasks Snapshot StoreIngest StoreAlerts StoreRules StoreNotifications StoreSchema Notify AgentTasks Login Api ApiTasks ApiChannels ApiLogin ApiAuth Dashboard.
Local Open Scope Z_scope.

(** ** Who makes and ends sessions *)

Section Sessions.
Context `{Crypto} `{ParseFloat} `{SnapshotJSON} `{UrlParse}.

Lemma apply_op_other op d : on_sessions op = false → user_sessions (apply_op op d) = user_sessions d.
Proof.
  intros Hs. destruct (on_runs op) eqn:Hr; [|by apply bs_sessions, apply_op_beside].
  destruct op; try done; cbn [apply_op]; unfold RemoveHost, RequestTaskRun, AppendTaskOutput, FinishTaskRun, next_id;
    repeat case_match; simplify_eq; done.
Qed.

Lemma elem_of_delete_sessions p d s : s ∈ user_sessions (delete_sessions p d) ↔ s ∈ user_sessions d ∧ p s = false.
Proof. apply elem_of_delete_where. Qed.

(** The sessions an operation leaves were there before, but for the one a
    login opens. *)
Lemma apply_op_sessions op d s : s ∈ user_sessions (apply_op op d) → s ∈ user_sessions d
  ∨ match op with op_Login _ _ token _ _ => se_token_hash s = hashSecret token | _ => False end.
Proof.
  destruct (on_sessions op) eqn:Eop; [|rewrite apply_op_other by done; by left].
  destruct op; try done; cbn [apply_op].
  - unfold SetPassword. destruct (newPasswordHash _ _ _) as [[hash salt']|]; [|by left].
    destruct (user_by_name d _); [|by left]. intros [Hs _]%elem_of_delete_sessions. by left.
  - unfold RemoveUser. destruct (user_by_name d _); [|by left]. intros [Hs _]%elem_of_delete_sessions. by left.
  - unfold StoreUsers.Login. destruct (StoreUsers.checkPassword _ _ _ _) as [[id role]|]; [|by left]. destruct (exists_where _ _); [by left|].
    cbn. intros [Hs| ->%list_elem_of_singleton]%elem_of_app; [by left|by right].
  - intros [Hs _]%elem_of_delete_sessions. by left.
  - unfold Store_ChangePassword. destruct (Store_Session _ d _); [|by left]. destruct (CheckPassword _ _ _ _); [|by left].
    destruct (newPasswordHash _ _ _) as [[hash salt']|]; [|by left]. intros [Hs _]%elem_of_delete_sessions. by left.
  - intros [Hs _]%elem_of_delete_sessions. by left.
Qed.

(** *** What ends a session *)

(** No session of this hash is left. *)
Definition ended (key : string) (d : DB) : Prop := ∀ s, s ∈ user_sessions d → se_token_hash s ≠ key.
(** The operation does not happen to log in with a token of this hash. *)
Definition spares (key : string) (op : StoreOp) : Prop :=
  match op with op_Login _ _ token _ _ => hashSecret token ≠ key | _ => True end.

Lemma stays_ended key op d : spares key op → ended key d → ended key (apply_op op d).
Proof. intros Hop Hd s [Hs|Hs]%apply_op_sessions; [by apply Hd|]. destruct op; try done. cbn in Hop. congruence. Qed.

Lemma session_found now d token session : Store_Session now d token = Ok session → ¬ ended (hashSecret token) d.
Proof.
  unfold Store_Session. destruct (omap _ _) as [|[u s] l] eqn:E; [done|]. intros _ Hd.
  assert (Hin : (u, s) ∈ omap (λ s, u ← session_user d s; Some (u, s)) (select_where (valid_session now token) (user_sessions d)))
    by (rewrite E; left).
  apply list_elem_of_omap in Hin as (s' & Hs' & Es). apply elem_of_select_where in Hs' as [Hs' Hv].
  destruct (session_user d s'); [|done]. injection Es as -> ->. apply (Hd s Hs').
  apply andb_true_iff in Hv as [Hv _]. by apply str_eq_spec.
Qed.

Lemma logout_ends token d : ended (hashSecret token) (Store_Logout token d).2.
Proof. intros s [_ Hs]%elem_of_delete_sessions E. unfold session_hash in Hs. by rewrite E, str_eq_refl in Hs. Qed.
(** A user who is removed, or whose password an admin sets, is logged out
    everywhere. *)
Lemma removal_ends name u key d : user_by_name d name = Some u →
  (∀ s, s ∈ user_sessions d → se_token_hash s = key → se_user_id s = us_id u) → ended key (RemoveUser name d).2.
Proof.
  intros E Hu. unfold RemoveUser. rewrite E. intros s [Hs Hn]%elem_of_delete_sessions Ek. specialize (Hu s Hs Ek). lia.
Qed.
Lemma reset_ends slot salt name password u key d d' : user_by_name d name = Some u →
  (∀ s, s ∈ user_sessions d → se_token_hash s = key → se_user_id s = us_id u) →
  SetPassword slot salt name password d = (Ok (), d') → ended key d'.
Proof.
  intros E Hu. unfold SetPassword. destruct (newPasswordHash _ _ _) as [[hash salt']|]; [|done]. rewrite E. intros [= <-].
  intros s [Hs Hn]%elem_of_delete_sessions Ek. specialize (Hu s Hs Ek). lia.
Qed.
End Sessions.

(** ** Requests that overlap *)

(** What happened: the collector said whose session a token is, a request was
    let in as somebody, or it was turned away. *)
Inductive DoorEvent :=
  | Told (at_ : time) (token : string) (info : SessionInfo)
  | LetIn (at_ : time) (token : string) (session : userSession)
  | TurnedAway (at_ : time) (token : string).

(** The collector, the clock, the dashboard's cache, and its requests: those
    whose CheckSession is on its way, with the token, and those with the
    answer, when the collector gave it and what it was, not yet kept *)
Record Door := Opens {
  do_server : Server; do_clock : time; do_cache : authCache; do_asking : gmap nat string;
  do_told : gmap nat (string * time * SessionInfo); do_log : list DoorEvent }.

Definition session_of (info : SessionInfo) : userSession := {| us_user := sei_User info; us_userRole := sei_Role info |}.

Section Door.
Context `{Crypto} `{ParseFloat} `{SnapshotJSON} `{UrlParse}.

(** The first half of [sessionOf]: the cache, or a call *)
Definition looks_up (i : nat) (token : string) (s : Door) : Door :=
  match cache_session (do_clock s) (sha256_Sum256 token) (do_cache s) with
  | Some session => Opens (do_server s) (do_clock s) (do_cache s) (do_asking s) (do_told s)
                      (do_log s ++ [LetIn (do_clock s) token session])
  | None => Opens (do_server s) (do_clock s) (do_cache s) (<[i := token]> (do_asking s)) (do_told s) (do_log s)
  end.
(** The collector's [CheckSession] *)
Definition is_told (i : nat) (token : string) (s : Door) : Door :=
  match CheckSession (do_clock s) token (do_server s) with
  | (Ok info, srv) => Opens srv (do_clock s) (do_cache s) (delete i (do_asking s)) (<[i := (token, do_clock s, info)]> (do_told s))
                        (do_log s ++ [Told (do_clock s) token info])
  | (Err _, srv) => Opens srv (do_clock s) (do_cache s) (delete i (do_asking s)) (do_told s)
                      (do_log s ++ [TurnedAway (do_clock s) token])
  end.
(** The call that fails *)
Definition is_lost (i : nat) (token : string) (s : Door) : Door :=
  Opens (do_server s) (do_clock s) (do_cache s) (delete i (do_asking s)) (do_told s) (do_log s ++ [TurnedAway (do_clock s) token]).
(** The second half: the answer is kept, and the request goes on. *)
Definition keeps (i : nat) (token : string) (info : SessionInfo) (s : Door) : Door :=
  Opens (do_server s) (do_clock s)
    (keepSession (do_clock s) (sha256_Sum256 token) (session_of info) (unix_time (sei_Expires info)) (do_cache s))
    (do_asking s) (delete i (do_told s)) (do_log s ++ [LetIn (do_clock s) token (session_of info)]).

(** An answer of the collector is kept at most [late] after it was given;
    the collector's store runs the operations that are [allowed]; the cache
    forgets what [postLogout] and [postPassword] tell it to. *)
Inductive door_step (late : duration) (allowed : StoreOp → Prop) : relation Door :=
  | dp_time t s : do_clock s ≤ t →
      door_step late allowed s (Opens (do_server s) t (do_cache s) (do_asking s) (do_told s) (do_log s))
  | dp_store op s : allowed op →
      door_step late allowed s (Opens (set_db (apply_op op (sv_db (do_server s))) (do_server s)) (do_clock s) (do_cache s)
                                  (do_asking s) (do_told s) (do_log s))
  | dp_looks i token s : token ≠ "" → door_step late allowed s (looks_up i token s)
  | dp_told i token s : do_asking s !! i = Some token → door_step late allowed s (is_told i token s)
  | dp_lost i token s : do_asking s !! i = Some token → door_step late allowed s (is_lost i token s)
  | dp_keeps i token t info s : do_told s !! i = Some (token, t, info) → do_clock s ≤ t + late →
      door_step late allowed s (keeps i token info s)
  | dp_logout key s : door_step late allowed s
      (Opens (do_server s) (do_clock s) (forgetSession key (do_cache s)) (do_asking s) (do_told s) (do_log s))
  | dp_password user keep s : door_step late allowed s
      (Opens (do_server s) (do_clock s) (forgetUser user keep (do_cache s)) (do_asking s) (do_told s) (do_log s)).

(** The dashboard just started. *)
Definition new_door (srv : Server) (now : time) : Door := Opens srv now empty_cache ∅ ∅ [].

(** *** The invariant *)

(** The log holds the collector's word for what the cache holds, what is to
    be kept, and whoever was let in. *)
Definition told_before (late : duration) (log : list DoorEvent) (key : string) (t : time) (session : userSession) : Prop :=
  ∃ t' token info, Told t' token info ∈ log ∧ sha256_Sum256 token = key ∧ t ≤ t' + late + sessionCacheTTL
    ∧ session = session_of info.
Record door_wf (late : duration) (s : Door) : Prop := {
  dw_cache : ∀ key c, ac_sessions (do_cache s) !! key = Some c → told_before late (do_log s) key (cd_until c) (cd_session c);
  dw_told : ∀ i token t info, do_told s !! i = Some (token, t, info) → Told t token info ∈ do_log s;
  dw_let_in : ∀ i t token session, do_log s !! i = Some (LetIn t token session) →
    told_before late (take i (do_log s)) (sha256_Sum256 token) t session;
  dw_past : ∀ t token info, Told t token info ∈ do_log s → t ≤ do_clock s }.

Lemma told_before_more late log l key t session : told_before late log key t session → told_before late (log ++ l) key t session.
Proof. intros (t' & token & info & Hin & Hrest). exists t', token, info. split; [apply elem_of_app; by left|done]. Qed.

(** One event more in the log *)
Lemma log_more late log e i t token session : (∀ i t token session, log !! i = Some (LetIn t token session) →
    told_before late (take i log) (sha256_Sum256 token) t session) →
  (∀ t token session, e = LetIn t token session → told_before late log (sha256_Sum256 token) t session) →
  (log ++ [e]) !! i = Some (LetIn t token session) → told_before late (take i (log ++ [e])) (sha256_Sum256 token) t session.
Proof.
  intros Hlog He Hi. apply lookup_app_Some in Hi as [Hi|[Hle Hi]].
  - rewrite take_app_le by (apply lookup_lt_Some in Hi; lia). by apply Hlog.
  - apply list_lookup_singleton_Some in Hi as [Hz Ee]. rewrite take_app_length' by lia. by apply He.
Qed.
(** Steps that add an event about nobody who was let in, or none *)
Lemma wf_event late srv t cache asking told s e : door_wf late s → do_clock s ≤ t →
  (∀ key c, ac_sessions cache !! key = Some c → ac_sessions (do_cache s) !! key = Some c) →
  (∀ i token t info, told !! i = Some (token, t, info) → do_told s !! i = Some (token, t, info) ∨ Told t token info ∈ [e]) →
  (∀ t token session, e = LetIn t token session → told_before late (do_log s) (sha256_Sum256 token) t session) →
  (∀ t' token info, e = Told t' token info → t' ≤ t) →
  door_wf late (Opens srv t cache asking told (do_log s ++ [e])).
Proof.
  intros [Hc Ht Hl Hp] Hle Hcache Htold He Hpast. split; cbn.
  - intros key c Hk. by apply told_before_more, Hc, Hcache.
  - intros i token t' info Hi. apply elem_of_app. destruct (Htold i token t' info Hi) as [Hi'|Hi']; [left; by eapply Ht|by right].
  - intros i t' token session. by apply log_more.
  - intros t' token info [Hin|Hin%list_elem_of_singleton]%elem_of_app; [specialize (Hp _ _ _ Hin); lia|]. by eapply Hpast.
Qed.
Lemma wf_quiet late srv t cache asking s : door_wf late s → do_clock s ≤ t →
  (∀ key c, ac_sessions cache !! key = Some c → ac_sessions (do_cache s) !! key = Some c) →
  door_wf late (Opens srv t cache asking (do_told s) (do_log s)).
Proof.
  intros [Hc Ht Hl Hp] Hle Hcache. split; cbn; try done; [intros key c Hk; by apply Hc, Hcache|].
  intros t' token info Hin. specialize (Hp _ _ _ Hin). lia.
Qed.

Lemma cached_told late s key session : door_wf late s → cache_session (do_clock s) key (do_cache s) = Some session →
  told_before late (do_log s) key (do_clock s) session.
Proof.
  intros Hwf. unfold cache_session. destruct (ac_sessions (do_cache s) !! key) as [c|] eqn:E; [|done].
  destruct (after (do_clock s) (cd_until c)) eqn:Ea; [done|]. intros [= <-].
  destruct (dw_cache _ _ Hwf key c E) as (t & token & info & Hin & Hk & Ht & Hs). exists t, token, info.
  split_and!; try done. unfold after in Ea. unfold time in *. lia.
Qed.

Lemma keeps_wf late i token t info s : 0 ≤ late → door_wf late s → do_told s !! i = Some (token, t, info) → do_clock s ≤ t + late →
  door_wf late (keeps i token info s).
Proof.
  intros Hlate Hwf Hi Hle. pose proof (dw_told _ _ Hwf i token t info Hi) as Hin. destruct Hwf as [Hc Ht Hl Hp].
  assert (Hdur : 0 ≤ sessionCacheTTL) by done. unfold keeps. split; cbn.
  - intros key c. rewrite lookup_insert_Some. intros [[<- <-]|[_ Hk]]; [|by apply told_before_more, Hc].
    exists t, token, info. split_and!; [apply elem_of_app; by left|done| |done]. cbn. unfold time_add, before, time in *. case_match; lia.
  - intros j token' t' info' [_ Hj]%lookup_delete_Some. apply elem_of_app. left. by eapply Ht.
  - intros j t' token' session. apply log_more; [done|]. intros t1 token1 session1 [= <- <- <-].
    exists t, token, info. split_and!; try done. unfold time in *. lia.
  - intros t' token' info' [Hin'|Hin'%list_elem_of_singleton]%elem_of_app; [by eapply Hp|done].
Qed.

Lemma door_step_wf late allowed s s' : 0 ≤ late → door_step late allowed s s' → door_wf late s → door_wf late s'.
Proof.
  intros Hlate Hstep Hwf. destruct Hstep as [t s Ht|op s Hop|i token s Hne|i token s Hi|i token s Hi|i token t info s Hi Hle|key s|user keep s].
  - by apply wf_quiet.
  - by apply wf_quiet.
  - unfold looks_up. destruct (cache_session _ _ _) as [session|] eqn:E; [|by apply wf_quiet].
    apply wf_event; try done; [by left|]. intros ? ? ? [= <- <- <-]. by apply cached_told.
  - unfold is_told. destruct (CheckSession _ _ _) as [[info|e] srv]; apply wf_event; try done; [| |by left].
    + intros j token' t' info'. rewrite lookup_insert_Some. intros [[_ [= <- <- <-]]|[_ Hj]]; [right; by left|by left].
    + by intros ? ? ? [= <- _ _].
  - apply wf_event; try done. by left.
  - by eapply keeps_wf.
  - apply wf_quiet; try done. intros k c. cbn. rewrite lookup_delete_Some. tauto.
  - apply wf_quiet; try done. intros k c. cbn. rewrite map_lookup_filter_Some. tauto.
Qed.

Lemma reached_door late allowed srv now s : 0 ≤ late → rtc (door_step late allowed) (new_door srv now) s → door_wf late s.
Proof.
  intros Hlate Hs. refine (rtc_invariant _ (door_wf late) _ _ (λ x y, door_step_wf late allowed x y Hlate) Hs _).
  split; cbn; intros *; [by rewrite lookup_empty..|done|by intros ?%not_elem_of_nil].
Qed.

(** *** A session that ended *)

Lemma CheckSession_db now token srv : (CheckSession now token srv).2 = srv.
Proof.
  unfold CheckSession, query, store, dread, mbind, SM_bind, sbind.
  destruct (Store_Session now (sv_db srv) token); by destruct srv.
Qed.
Lemma CheckSession_ended now token srv : ended (hashSecret token) (sv_db srv) → ∃ e, (CheckSession now token srv).1 = Err e.
Proof.
  intros Hd. unfold CheckSession, query, store, dread, mbind, SM_bind, sbind.
  destruct (Store_Session now (sv_db srv) token) as [session|e] eqn:E; [|by eexists]. by apply session_found in E.
Qed.

(** After the end the collector says no more whose session it is. *)
Definition silent_since (key : string) (n : nat) (s : Door) : Prop :=
  ended key (sv_db (do_server s)) ∧ (n ≤ length (do_log s))%nat ∧
  ∀ i t token info, do_log s !! i = Some (Told t token info) → (n ≤ i)%nat → sha256_Sum256 token ≠ key.

Lemma silent_event key n e s srv t cache asking told : silent_since key n s → ended key (sv_db srv) →
  (∀ t token info, e = Told t token info → sha256_Sum256 token ≠ key) →
  silent_since key n (Opens srv t cache asking told (do_log s ++ [e])).
Proof.
  intros (Hd & Hn & Hs) Hd' He. split_and!; [done|cbn; rewrite length_app; lia|]. cbn. intros i t' token info Hi Hle.
  apply lookup_app_Some in Hi as [Hi|[_ Hi]]; [by eapply Hs|].
  apply list_lookup_singleton_Some in Hi as [_ Hi]. by eapply He.
Qed.

Lemma door_step_silent late key n s s' : door_step late (spares key) s s' → silent_since key n s → silent_since key n s'.
Proof.
  intros Hstep Hs. pose proof Hs as (Hd & Hn & Hlog).
  destruct Hstep as [t s Ht|op s Hop|i token s Hne|i token s Hi|i token s Hi|i token t info s Hi Hle|k s|user keep s]; try done.
  - split_and!; [|done..]. by apply stays_ended.
  - unfold looks_up. case_match; [|done]. by apply silent_event.
  - unfold is_told. pose proof (CheckSession_db (do_clock s) token (do_server s)) as Edb.
    destruct (CheckSession _ _ _) as [[info|e] srv] eqn:E; cbn in Edb; subst srv; apply silent_event; try done.
    intros t' token' info' [= _ <- _] Ek. destruct (CheckSession_ended (do_clock s) token (do_server s)) as [e He].
    { unfold hashSecret. by rewrite Ek. }
    by rewrite E in He.
  - by apply silent_event.
  - by apply silent_event.
Qed.

Lemma door_step_log late allowed s s' : door_step late allowed s s' → do_log s `prefix_of` do_log s' ∧ do_clock s ≤ do_clock s'.
Proof.
  intros Hstep. destruct Hstep as [t s Ht|op s Hop|i token s Hne|i token s Hi|i token s Hi|i token t info s Hi Hle|k s|user keep s];
    unfold looks_up, is_told, is_lost, keeps; repeat case_match; cbn; split; try done; by apply prefix_app_r.
Qed.
Lemma doors_log late allowed s s' : rtc (door_step late allowed) s s' → do_log s `prefix_of` do_log s' ∧ do_clock s ≤ do_clock s'.
Proof.
  induction 1 as [|s s1 s2 Hstep _ [IH1 IH2]]; [done|]. apply door_step_log in Hstep as [H1' H2']. split; [by etrans|lia].
Qed.

(** C11: a session that ended lets nobody in for long.  Once the collector has
    no session of a token's hash left (its user logged out, was removed or got
    a new password, or it was purged), then whatever requests, logouts and
    operations of the store come in whatever order, unless a login draws that
    token again, every request that is still let in with it is let in within a
    minute and the time an answer may be on its way.  And whoever is let in is
    let in as a user and with a role the collector gave for that token at most
    that long before, so one it gave up (a role that was changed, say) is gone
    after that time; within it requests that overlap may leave the older of
    two answers in the cache, and the older role is then used. *)
Theorem revoked_within_a_minute (late : duration) (srv : Server) (now : time) (allowed : StoreOp → Prop) (s1 s2 : Door) (key : string)
    (Hlate : 0 ≤ late) (Hreached : rtc (door_step late allowed) (new_door srv now) s1)
    (Hended : ended key (sv_db (do_server s1))) (Hsince : rtc (door_step late (spares key)) s1 s2) :
  (∀ i t token session, do_log s2 !! i = Some (LetIn t token session) → (length (do_log s1) ≤ i)%nat →
     sha256_Sum256 token = key → t ≤ do_clock s1 + late + sessionCacheTTL) ∧
  (∀ i t token session, do_log s2 !! i = Some (LetIn t token session) → ∃ j t' token' info, (j < i)%nat ∧
     do_log s2 !! j = Some (Told t' token' info) ∧ sha256_Sum256 token' = sha256_Sum256 token
     ∧ t ≤ t' + late + sessionCacheTTL ∧ session = session_of info).
Proof.
  pose proof (reached_door late allowed srv now s1 Hlate Hreached) as H1wf.
  assert (H2wf : door_wf late s2) by (refine (rtc_invariant _ (door_wf late) _ _ (λ x y, door_step_wf late _ x y Hlate) Hsince H1wf)).
  assert (Hs : silent_since key (length (do_log s1)) s2).
  { refine (rtc_invariant _ (silent_since key _) _ _ (door_step_silent late key _) Hsince _). split_and!; [done..|].
    intros i t token info Hi%lookup_lt_Some. lia. }
  destruct (doors_log _ _ _ _ Hsince) as [Hprefix _].
  assert (Htold : ∀ i t token session, do_log s2 !! i = Some (LetIn t token session) → ∃ j t' token' info, (j < i)%nat ∧
     do_log s2 !! j = Some (Told t' token' info) ∧ sha256_Sum256 token' = sha256_Sum256 token
     ∧ t ≤ t' + late + sessionCacheTTL ∧ session = session_of info).
  { intros i t token session Hi. destruct (dw_let_in _ _ H2wf i t token session Hi) as (t' & token' & info & Hin & Hk & Ht & Hse).
    apply list_elem_of_lookup in Hin as [j Hj]. apply lookup_take_Some in Hj as [Hj Hlt]. by exists j, t', token', info. }
  split; [|done]. intros i t token session Hi Hle Hkey. destruct (Htold i t token session Hi) as (j & t' & token' & info & Hlt & Hj & Hk & Ht & _).
  destruct (decide (length (do_log s1) ≤ j)%nat) as [Hge|Hbefore].
  { destruct Hs as (_ & _ & Hs). destruct (Hs j t' token' info Hj Hge). congruence. }
  destruct Hprefix as [l El]. rewrite El, lookup_app_l in Hj by lia.
  pose proof (dw_past _ _ H1wf t' token' info (list_elem_of_lookup_2 _ _ _ Hj)). unfold time in *. lia.
Qed.
End Door.

(** ** [sessionOf] is such steps *)

Section Refines.
Context `{Crypto} `{ParseFloat} `{SnapshotJSON} `{UrlParse} `{Collector Server} `{HttpLib} (now : time) (r : HttpRequest).
(** The collector that is called answers as the API's handler does. *)
Hypothesis collector_checks : ∀ token srv, collector_call (CCheckSession token) srv = CheckSession now token srv.

(** A request that nothing comes between takes its steps one after the other:
    the same cache, and let in as the same user or turned away. *)
Lemma sessionOf_refines late allowed i token cache srv log asking told events : 0 ≤ late →
  hr_cookie r = Some token → token ≠ "" → asking !! i = None → told !! i = None →
  let '(res, s') := sessionOf now r (Dash cache srv log) in
  ∃ more, rtc (door_step late allowed) (Opens srv now cache asking told events)
      (Opens (da_world s') now (da_cache s') asking told (events ++ more)) ∧
    last more = Some (match res with Ok (Ok session) => LetIn now token session | _ => TurnedAway now token end).
Proof.
  intros Hlate Hc Hne Ha Ht. unfold sessionOf. rewrite Hc. destruct token as [|x token]; [done|]. clear Hne. set (tok := String x token) in *.
  unfold mbind, SM_bind, sbind at 1, sget. cbv beta iota. cbn [da_cache].
  pose proof (dp_looks late allowed i tok (Opens srv now cache asking told events) ltac:(done)) as Hlook. unfold looks_up in Hlook. cbn in Hlook.
  destruct (cache_session now (sha256_Sum256 tok) cache) as [session|].
  { cbn. eexists [_]. split; [by apply rtc_once|done]. }
  unfold sbind, ask. cbn [da_world]. rewrite collector_checks.
  pose proof (dp_told late allowed i tok (Opens srv now cache (<[i:=tok]> asking) told events) (lookup_insert_eq _ _ _)) as Htold.
  unfold is_told in Htold. cbn in Htold. rewrite delete_insert_id in Htold by done.
  destruct (CheckSession now tok srv) as [[info|e] srv'].
  2:{ cbn. eexists [_]. split; [by eapply rtc_l, rtc_once|done]. }
  cbn. exists [Told now tok info; LetIn now tok (session_of info)]. split; [|done].
  eapply rtc_l; [exact Hlook|]. eapply rtc_l; [exact Htold|]. apply rtc_once.
  pose proof (dp_keeps late allowed i tok now info (Opens srv' now cache asking (<[i:=(tok, now, info)]> told) (events ++ [Told now tok info]))
    (lookup_insert_eq _ _ _) ltac:(cbn; unfold time in *; lia)) as Hkeep.
  unfold keeps in Hkeep. cbn in Hkeep. rewrite delete_insert_id, <- app_assoc in Hkeep by done. exact Hkeep.
Qed.
End Refines.

(** ** The minute is used up *)

#[local] Instance door_hashes : Crypto := {| pbkdf2_Key := λ p s _, p +:+ s; sha256_Sum256 := λ s, "#" +:+ s |}.
#[local] Instance door_parse : ParseFloat := λ _, None.
#[local] Instance door_json : SnapshotJSON := {|
  marshal_data := λ _, Ok ""; marshal_processes := λ _, Ok ""; unmarshal_data := λ _, Err (ErrOther "");
  unmarshal_metric := λ _, Err (ErrOther "") |}.
#[local] Instance door_urls : UrlParse := λ _, None.

Definition ann : UserRow := {|
  us_id := 1; us_name := "ann"; us_hash := "password"; us_salt := ""; us_iterations := 1; us_role := "admin"; us_created_at := 0;
  us_last_login_at := None |}.
Definition ann_server : Server := start_server (set_users [ann]
  (set_user_sessions [{| se_token_hash := "#t"; se_user_id := 1; se_expires_at := day |}] empty_db)).

(** Request 1 has its answer when Ann logs out. *)
Definition logged_out_door : Door :=
  let s := is_told 1 "t" (looks_up 1 "t" (new_door ann_server 0)) in
  Opens (set_db (apply_op (op_Logout "t") (sv_db (do_server s))) (do_server s)) (do_clock s)
    (forgetSession "#t" (do_cache s)) (do_asking s) (do_told s) (do_log s).
(** Request 1 keeps it after that, and request 2 comes a minute later. *)
Definition late_door : Door :=
  let s := keeps 1 "t" {| sei_Token := ""; sei_User := "ann"; sei_Role := "admin"; sei_Expires := to_unix day |} logged_out_door in
  looks_up 2 "t" (Opens (do_server s) minute (do_cache s) (do_asking s) (do_told s) (do_log s)).

Lemma logged_out_door_reached : rtc (door_step 0 (λ _, True)) (new_door ann_server 0) logged_out_door.
Proof.
  eapply rtc_l; [apply (dp_looks _ _ 1 "t"); done|]. eapply rtc_l; [apply (dp_told _ _ 1 "t"); by vm_compute|].
  eapply rtc_l; [apply (dp_logout _ _ "#t")|]. apply rtc_once. exact (dp_store _ _ (op_Logout "t") _ I).
Qed.
Lemma late_door_reached : rtc (door_step 0 (spares "#t")) logged_out_door late_door.
Proof.
  eapply rtc_l; [eapply (dp_keeps _ _ 1 "t" 0); [vm_compute; reflexivity|by vm_compute]|].
  eapply rtc_l; [apply (dp_time _ _ minute); by vm_compute|]. apply rtc_once. apply (dp_looks _ _ 2 "t"). done.
Qed.

(** An answer that was on its way at the logout brings the session back: the
    cache has forgotten it and the collector has none, and a minute later the
    cookie still lets in as Ann. *)
Lemma logout_undone : ended "#t" (sv_db (do_server logged_out_door)) ∧ ac_sessions (do_cache logged_out_door) !! "#t" = None
  ∧ last (do_log late_door) = Some (LetIn minute "t" {| us_user := "ann"; us_userRole := "admin" |}).
Proof. split_and!; [exact (logout_ends "t" (sv_db ann_server))|by vm_compute..]. Qed.

Lemma revoked_within_a_minute_witness :
  do_log late_door !! 2%nat = Some (LetIn minute "t" {| us_user := "ann"; us_userRole := "admin" |})
  ∧ minute ≤ do_clock logged_out_door + 0 + sessionCacheTTL.
Proof.
  assert (E : do_log late_door !! 2%nat = Some (LetIn minute "t" {| us_user := "ann"; us_userRole := "admin" |})) by (vm_compute; reflexivity).
  split; [exact E|]. destruct (revoked_within_a_minute 0 ann_server 0 (λ _, True) logged_out_door late_door "#t" ltac:(done)
    logged_out_door_reached (proj1 logout_undone) late_door_reached) as [Hend _].
  apply (Hend 2%nat minute "t" _ E); [|reflexivity]. vm_compute. repeat constructor.
Defined.
