(* ===== verification/DashboardViewers.v ===== *)
(** * What viewers of the dashboard can learn.

    Two collectors that differ only in what is for admins, the commands and
    the output of tasks, the settings and the errors of channels, are the same
    to every browser without an admin's session: request after request it gets
    the same bytes.  The proof relates two runs of the server step by step. *)
From S2P Require Import Prelude GoStrings GoFloat GoTime Errors Monitor Alerts Json Kube Tasks Database StoreAlerts StoreUsers Notify AgentTasks Login Api ApiTasks ApiChannels ApiLogin ApiAuth Dashboard DashboardRoutes DashboardJson DashboardProps.
Local Open Scope Z_scope.

(** ** What is for everyone *)

Definition public_task (t : TaskInfo) := (ti_Name t, ti_Description t, ti_TimeoutSeconds t).
Definition public_run (x : TaskRunInfo) :=
  (tri_Id x, tri_Host x, tri_Task x, tri_Status x, (tri_RequestedBy x, tri_RequestedAt x, tri_StartedAt x, tri_FinishedAt x),
   (tri_ExitCode x, tri_Error x, tri_Truncated x)).
Definition public_channel (c : ChannelInfo) :=
  (ci_Id c, ci_Name c, ci_Kind c, (ci_IsDefault c, ci_SkipWarnings c, ci_Enabled c),
   (ci_UpdatedAt c, ci_UpdatedBy c, ci_LastStatus c, ci_LastAt c)).
Definition public_notification (n : NotificationInfo) :=
  (ni_Id n, ni_AlertId n, ni_Channel n, (ni_Kind n, ni_Event n, ni_Severity n, ni_Subject n, ni_Status n),
   (ni_Attempts n, ni_CreatedAt n, ni_SentAt n, ni_Host n, ni_Rule n)).

(** Two answers to a call, the same but for what is for admins *)
Definition alike (c : Call) : reply_of c → reply_of c → Prop :=
  match c with
  | CHostTasks _ => λ l1 l2, map public_task l1 = map public_task l2
  | CTaskRuns _ _ => λ l1 l2, map public_run l1 = map public_run l2
  | CNotificationChannels => λ l1 l2, map public_channel l1 = map public_channel l2
  | CRecentNotifications _ => λ l1 l2, map public_notification l1 = map public_notification l2
  | _ => λ a1 a2, a1 = a2
  end.
Definition outcome {E A} (Q : A → A → Prop) (r1 r2 : result E A) : Prop :=
  match r1, r2 with Ok a, Ok b => Q a b | Err x, Err y => x = y | _, _ => False end.

Section Viewers.
Context {W : Type} `{Collector W} `{HttpLib} `{Crypto} `{Files} `{Net} (config : DashConfig) (render : SnapshotList → string).

(** The worlds of the two collectors, and the hashes of the tokens whose
    sessions are admins' *)
Context (R : W → W → Prop) (admin : string → bool).

(** Related worlds answer alike and stay related; the collector calls no
    other session an admin's. *)
Record indistinct : Prop := {
  ind_call c w1 w2 : R w1 w2 → R (collector_call c w1).2 (collector_call c w2).2
    ∧ (need c ≠ Admin → outcome (alike c) (collector_call c w1).1 (collector_call c w2).1);
  ind_admin token w info : (collector_call (CCheckSession token) w).1 = Ok info → sei_Role info = "admin" →
    admin (sha256_Sum256 token) = true }.
Context (HI : indistinct).

Definition cache_wf (c : authCache) : Prop := ∀ key cached, ac_sessions c !! key = Some cached →
  us_userRole (cd_session cached) = "admin" → admin key = true.
Definition srel (s1 s2 : Dashboard W) : Prop :=
  da_cache s1 = da_cache s2 ∧ R (da_world s1) (da_world s2) ∧ cache_wf (da_cache s1).

(** ** A small logic of two runs *)

Definition rel {A} (Q : A → A → Prop) (m1 m2 : DashM W A) : Prop := ∀ s1 s2, srel s1 s2 →
  srel (m1 s1).2 (m2 s2).2 ∧ outcome Q (m1 s1).1 (m2 s2).1.

Lemma rel_ret {A} (Q : A → A → Prop) a b : Q a b → rel Q (mret a) (mret b).
Proof. by intros HQ s1 s2 Hs. Qed.
Lemma rel_fail {A} (Q : A → A → Prop) e : rel Q (sfail e) (sfail e).
Proof. by intros s1 s2 Hs. Qed.
Lemma rel_bind {A B} (P : A → A → Prop) (Q : B → B → Prop) m1 m2 k1 k2 :
  rel P m1 m2 → (∀ a b, P a b → rel Q (k1 a) (k2 b)) → rel Q (m1 ≫= k1) (m2 ≫= k2).
Proof.
  intros Hm Hk s1 s2 Hs. destruct (Hm s1 s2 Hs) as [Hs' Ho]. unfold mbind, SM_bind, sbind.
  destruct (m1 s1) as [[a|x] s1'], (m2 s2) as [[b|y] s2']; cbn in *; try done. by apply Hk.
Qed.
Lemma rel_bind_eq {A B} (Q : B → B → Prop) (m1 m2 : DashM W A) k1 k2 :
  rel (=) m1 m2 → (∀ a, rel Q (k1 a) (k2 a)) → rel Q (m1 ≫= k1) (m2 ≫= k2).
Proof. intros Hm Hk. eapply rel_bind; [exact Hm|]. intros a b <-. apply Hk. Qed.
Lemma rel_weaken {A} (P Q : A → A → Prop) m1 m2 : rel P m1 m2 → (∀ a b, P a b → Q a b) → rel Q m1 m2.
Proof.
  intros Hm HPQ s1 s2 Hs. destruct (Hm s1 s2 Hs) as [Hs' Ho]. split; [done|]. unfold outcome in *.
  destruct (m1 s1).1, (m2 s2).1; auto.
Qed.

Lemma rel_cache f : (∀ c, cache_wf c → cache_wf (f c)) → rel (=) (with_cache f) (with_cache f).
Proof. intros Hf s1 s2 (Hc & Hw & Hwf). cbn. split; [|done]. split_and!; cbn; [by rewrite Hc|done|by apply Hf]. Qed.

Section Request.
Context (now : time) (r : HttpRequest).

Definition from_admin : bool := match hr_cookie r with Some token => admin (sha256_Sum256 token) | None => false end.

Lemma rel_ask c : need c ≠ Admin → rel (outcome (alike c)) (ask now r c) (ask now r c).
Proof.
  intros Hn s1 s2 (Hc & Hw & Hwf). destruct (ind_call HI c _ _ Hw) as [Hw' Ho]. specialize (Ho Hn). unfold ask.
  destruct (collector_call c (da_world s1)) as [a1 w1], (collector_call c (da_world s2)) as [a2 w2]. by cbn in *.
Qed.
Lemma rel_get c : need c ≠ Admin → rel (alike c) (get now r c) (get now r c).
Proof.
  intros Hn. eapply rel_bind; [by apply rel_ask|]. intros [a|x] [b|y] Ho; cbn in Ho; try done.
  subst y. apply rel_fail.
Qed.
(** A call whose answers have nothing for admins only *)
Lemma rel_get_eq c : need c ≠ Admin → (∀ a b, alike c a b → a = b) → rel (=) (get now r c) (get now r c).
Proof. intros Hn He. eapply rel_weaken; [by apply rel_get|done]. Qed.
Lemma rel_ask_eq c : need c ≠ Admin → (∀ a b, alike c a b → a = b) → rel (=) (ask now r c) (ask now r c).
Proof.
  intros Hn He. eapply rel_weaken; [by apply rel_ask|]. intros [a|x] [b|y] Ho; cbn in Ho; try done; f_equal; auto.
Qed.

(** The session is the same in both runs, and an admin's only with an
    admin's cookie. *)
Definition session_ok (a b : result error userSession) : Prop :=
  a = b ∧ ∀ session, a = Ok session → us_userRole session = "admin" → from_admin = true.

Lemma rel_session : rel session_ok (sessionOf now r) (sessionOf now r).
Proof.
  unfold sessionOf, session_ok, from_admin. destruct (hr_cookie r) as [[|x token]|]; [by apply rel_ret|..|by apply rel_ret].
  set (key := sha256_Sum256 _). intros s1 s2 (Hc & Hw & Hwf).
  unfold mbind, SM_bind, sbind, sget. cbv beta iota. rewrite <- Hc.
  destruct (cache_session now key (da_cache s1)) as [session|] eqn:Ek.
  - split; [done|]. cbn. split; [done|]. intros session' [= <-] Hr. unfold cache_session in Ek.
    destruct (ac_sessions _ !! key) as [cached|] eqn:El; [|done]. destruct (after _ _); [done|]. injection Ek as <-. by apply (Hwf key cached).
  - pose proof (rel_ask (CCheckSession (String x token)) ltac:(done) s1 s2 (conj Hc (conj Hw Hwf))) as [Hs Ho].
    pose proof (ind_admin HI (String x token) (da_world s1)) as Ha.
    unfold ask in *. destruct (collector_call _ (da_world s1)) as [a1 w1], (collector_call _ (da_world s2)) as [a2 w2].
    cbn in Ho, Hs, Ha. destruct a1 as [info|e], a2 as [info'|e']; cbn in Ho; try done; subst.
    2:{ split; [exact Hs|]. split; [done|by intros session]. }
    destruct Hs as (Hc' & Hw' & Hwf'). cbn. split; [|split; [done|]].
    + split_and!; cbn; [by rewrite Hc|done|]. intros k cached. cbn. rewrite lookup_insert_Some.
      intros [[<- <-]|[_ Hk]]; [|by apply Hwf']. cbn. by apply Ha.
    + intros session [= <-]. cbn. by apply Ha.
Qed.

Lemma rel_name : rel (=) (session_name now r) (session_name now r).
Proof. eapply rel_bind; [apply rel_session|]. intros a b [<- _]. by apply rel_ret. Qed.
Lemma rel_isAdmin : rel (λ a b, a = b ∧ (a = true → from_admin = true)) (isAdmin now r) (isAdmin now r).
Proof.
  eapply rel_bind; [apply rel_session|]. intros a b [<- Ha]. apply rel_ret. split; [done|].
  destruct a as [session|]; [|done]. intros Hr%str_eq_spec. by eapply Ha.
Qed.

(** ** Handlers *)

(** The browser gets the same, unless it is an admin's. *)
Definition agree (a b : HttpReply) : Prop := from_admin = true ∨ a = b.
Definition handles (m : DashM W HttpReply) : Prop := ∀ s1 s2, srel s1 s2 →
  srel (answer m s1).2 (answer m s2).2 ∧ agree (answer m s1).1 (answer m s2).1.

Lemma handles_rel m : rel agree m m → handles m.
Proof.
  intros Hm s1 s2 Hs. destruct (Hm s1 s2 Hs) as [Hs' Ho]. unfold answer, outcome, agree in *.
  destruct (m s1) as [[a|x] s1'], (m s2) as [[b|y] s2']; cbn in *; try done. subst. auto.
Qed.
Lemma handles_eq m : rel (=) m m → handles m.
Proof. intros Hm. apply handles_rel. eapply rel_weaken; [exact Hm|]. intros a b ->. by right. Qed.
Lemma handles_bind {A} (P : A → A → Prop) m k : rel P m m → (∀ a b, P a b → a = b) → (∀ a, handles (k a)) → handles (m ≫= k).
Proof.
  intros Hm HP Hk s1 s2 Hs. destruct (Hm s1 s2 Hs) as [Hs' Ho]. unfold answer, mbind, SM_bind, sbind in *.
  destruct (m s1) as [[a|x] s1'], (m s2) as [[b|y] s2']; cbn in *; try done.
  - apply HP in Ho as ->. exact (Hk b s1' s2' Hs').
  - subst. split; [done|by right].
Qed.

(** What only admins get to ends in a call that may answer anything. *)
Definition moves {A} (m : DashM W A) : Prop := ∀ s1 s2, srel s1 s2 → srel (m s1).2 (m s2).2.
Lemma moves_rel {A} (m : DashM W A) : rel (=) m m → moves m.
Proof. intros Hm s1 s2 Hs. by destruct (Hm s1 s2 Hs). Qed.
Lemma moves_bind {A B} (m : DashM W A) (k : A → DashM W B) : rel (=) m m → (∀ a, moves (k a)) → moves (m ≫= k).
Proof.
  intros Hm Hk s1 s2 Hs. destruct (Hm s1 s2 Hs) as [Hs' Ho]. unfold mbind, SM_bind, sbind.
  destruct (m s1) as [[a|x] s1'], (m s2) as [[b|y] s2']; cbn in *; try done. subst b. by apply Hk.
Qed.
Lemma moves_get {B} c (k : reply_of c → DashM W B) : (∀ a s, (k a s).2 = s) → moves (get now r c ≫= k).
Proof.
  intros Hk s1 s2 (Hc & Hw & Hwf). destruct (ind_call HI c _ _ Hw) as [Hw' _]. unfold get, ask, mbind, SM_bind, sbind.
  destruct (collector_call c (da_world s1)) as [a1 w1], (collector_call c (da_world s2)) as [a2 w2]. cbn in Hw'.
  assert (Hs : ∀ a s, ((match (match a with Ok x => mret x | Err e => sfail (writeGRPCError e) end : DashM W _) s with
    | (Ok x, s') => k x s' | (Err e, s') => (Err e, s') end)).2 = s).
  { intros [x|e] s; cbn; [apply Hk|done]. }
  cbv beta iota. rewrite !Hs. by split_and!.
Qed.

Lemma handles_admin next : moves next → handles (requireAdmin now r next).
Proof.
  intros Hn s1 s2 Hs. destruct (rel_session s1 s2 Hs) as [Hs' Ho]. unfold answer, requireAdmin, mbind, SM_bind, sbind in *.
  destruct (sessionOf now r s1) as [[a|x] s1'], (sessionOf now r s2) as [[b|y] s2']; cbn in *; try done.
  2:{ subst. split; [done|by right]. }
  destruct Ho as [-> Ha]. destruct b as [session|e]; [|by split; [|right]].
  destruct (str_eq (us_userRole session) "admin") eqn:Er; [|by split; [|right]]. apply str_eq_spec in Er.
  specialize (Hn s1' s2' Hs'). destruct (next s1') as [[?|?] ?], (next s2') as [[?|?] ?]; cbn in *;
    (split; [done|left; by eapply Ha]).
Qed.

Lemma handles_login next : handles next → handles (requireLogin now r next).
Proof.
  intros Hn. eapply (handles_bind session_ok); [apply rel_session|by intros a b [-> _]|]. intros [session|e]; [done|].
  apply handles_eq, rel_fail.
Qed.

Lemma rel_refl {A} (m : DashM W A) : (∀ s, (m s).2 = s) → (∀ s s', (m s).1 = (m s').1) → rel (=) m m.
Proof. 
  intros Hst Ho s1 s2 Hs. rewrite !Hst, (Ho s1 s2). split; [done|]. by destruct (m s2).1.
Qed.
Lemma rel_json what : rel (=) (require_json (W := W) r what) (require_json r what).
Proof. unfold require_json. by destruct (jsonBody r); apply rel_refl. Qed.
Lemma rel_decoded {A} (body : option A) message : rel (=) (decoded (W := W) body message) (decoded body message).
Proof. by destruct body; apply rel_refl. Qed.
Lemma rel_range : rel (=) (range (W := W) now r) (range now r).
Proof. unfold range. by destruct (timeRange _ _ _); apply rel_refl. Qed.
Lemma moves_id what value k : (∀ id, moves (k id)) → moves (with_id (W := W) what value k).
Proof. intros Hk. unfold with_id. destruct (path_id value); [apply Hk|by apply moves_rel, rel_refl]. Qed.

(** A list that is shown to viewers without what is for admins *)
Lemma handles_list {A B} (f : bool → A → B) (m : DashM W (list A)) (payload : list B → Payload)
    {K} (public : A → K) :
  rel (λ l1 l2, map public l1 = map public l2) m m → (∀ a b, public a = public b → f false a = f false b) →
  handles (l ← m; admin ← isAdmin now r; mret (writeJSON (payload (map (f admin) l)))).
Proof.
  intros Hm Hf. apply handles_rel. eapply rel_bind; [exact Hm|]. intros l1 l2 Hl.
  eapply rel_bind; [apply rel_isAdmin|]. intros a b [<- Ha]. apply rel_ret. destruct a; [left; auto|right].
  f_equal. f_equal. clear Ha. revert l2 Hl. induction l1 as [|x l1 IH]; intros [|y l2] Hl; try done. injection Hl as Hx Hl.
  cbn. by rewrite (Hf x y Hx), (IH l2 Hl).
Qed.

Lemma handles_bind_eq {A} (m : DashM W A) k : rel (=) m m → (∀ a, handles (k a)) → handles (m ≫= k).
Proof. intros Hm Hk. by eapply handles_bind. Qed.
Lemma handles_session k : (∀ a, handles (k a)) → handles (sessionOf now r ≫= k).
Proof. intros Hk. eapply (handles_bind session_ok); [apply rel_session|by intros a b [-> _]|done]. Qed.
Lemma handles_pure a : handles (λ s, (a, s)).
Proof. intros s1 s2 Hs. unfold answer. destruct a; by split; [|right]. Qed.
End Request.

(** Handlers are proved by following their binds. *)
Ltac same_call := match goal with
  | |- @rel _ _ (get ?t ?q ?c) _ => exact (rel_get_eq t q c ltac:(done) (λ a b E, E))
  | |- @rel _ _ (ask ?t ?q ?c) _ => exact (rel_ask_eq t q c ltac:(done) (λ a b E, E))
  end.
Ltac two_runs := repeat first
  [ apply rel_name | apply rel_json | apply rel_decoded | apply rel_range | apply handles_pure | same_call | apply handles_session; intros ?
  | match goal with |- rel _ (mret _) _ => by apply rel_refl end
  | apply handles_bind_eq; [|intros ?]
  | match goal with |- context [match ?x with _ => _ end] => destruct x end ].

(** Changes of the cache that keep its admins admins *)
Lemma cache_wf_sub f : (∀ c key cached, ac_sessions (f c) !! key = Some cached → ac_sessions c !! key = Some cached) →
  rel (=) (with_cache f) (with_cache f).
Proof. intros Hf. apply rel_cache. intros c Hc key cached Hk. apply (Hc key cached). by apply Hf. Qed.

Lemma postPassword_two now r : handles r (postPassword now r).
Proof.
  unfold postPassword. two_runs. apply cache_wf_sub. intros c key cached. cbn. rewrite map_lookup_filter_Some. tauto.
Qed.
Lemma postLogout_two now r : handles r (postLogout now r).
Proof.
  unfold postLogout. two_runs. apply cache_wf_sub. intros c key cached. cbn. rewrite lookup_delete_Some. tauto.
Qed.
Lemma getSession_two now r : handles r (getSession now r).
Proof.
  unfold getSession. two_runs.
Qed.

(** The answers to whole requests *)
Lemma getHostTasks_two now r host : handles r (getHostTasks now r host).
Proof.
  unfold getHostTasks. apply (handles_list now r host_task _ PTasks public_task); [by apply (rel_get now r (CHostTasks host))|].
  intros a b [= E1 E2 E3]. unfold host_task. by rewrite E1, E2, E3.
Qed.
Lemma getTaskRuns_two now r host : handles r (getTaskRuns now r host).
Proof.
  unfold getTaskRuns. apply (handles_list now r toTaskRun _ PRuns public_run); [by apply (rel_get now r (CTaskRuns host _))|].
  intros a b [= E1 E2 E3 E4 E5 E6 E7 E8 E9 E10 E11]. unfold toTaskRun.
  by rewrite E1, E2, E3, E4, E5, E6, E7, E8, E9, E10, E11.
Qed.
Lemma getChannels_two now r : handles r (getChannels now r).
Proof.
  unfold getChannels. apply (handles_list now r toChannel _ PChannels public_channel); [by apply (rel_get now r CNotificationChannels)|].
  intros a b [= E1 E2 E3 E4 E5 E6 E7 E8 E9 E10]. unfold toChannel.
  by rewrite E1, E2, E3, E4, E5, E6, E7, E8, E9, E10.
Qed.
Lemma getNotifications_two now r : handles r (getNotifications now r).
Proof.
  unfold getNotifications.
  apply (handles_list now r shown_notification _ PNotifications public_notification); [by apply (rel_get now r (CRecentNotifications _))|].
  intros a b [= E1 E2 E3 E4 E5 E6 E7 E8 E9 E10 E11 E12 E13].
  unfold shown_notification. by rewrite E1, E2, E3, E4, E5, E6, E7, E8, E9, E10, E11, E12, E13.
Qed.

Lemma rel_checkPassword now r user password : rel (=) (checkPassword now r user password) (checkPassword now r user password).
Proof.
  set (key := sha256_Sum256 (user +:+ str1 0 +:+ password)).
  set (uncached := a ← ask now r (CCheckPassword user password);
    match a with Err e => mret (Err e) | Ok _ => accepted now user password;; with_cache (keepPassword now key);; mret (Ok ()) end : DashM W (result error unit)).
  assert (Hu : rel (=) uncached uncached).
  { apply rel_bind_eq; [same_call|]. intros [a|e]; [|by apply rel_refl].
    apply rel_bind_eq; [by intros s1 s2 Hs|]. intros _. apply rel_bind_eq; [by apply cache_wf_sub|]. intros _. by apply rel_refl. }
  assert (E : ∀ s, checkPassword now r user password s
    = (if cache_password now key (da_cache s) then mret (Ok ()) else uncached) s) by done.
  intros s1 s2 Hs. rewrite !E. rewrite <- (proj1 Hs). destruct (cache_password _ _ _); [done|]. by apply Hu.
Qed.

Lemma getMetrics_two now r : handles r (getMetrics config render now r).
Proof.
  unfold getMetrics, metricsAllowed. destruct (negb _); [apply handles_pure|].
  apply handles_bind_eq; [|intros _; two_runs]. destruct (negb _); [by apply rel_refl|].
  eapply rel_bind; [apply rel_session|]. intros a b [<- _]. destruct a; [by apply rel_refl|].
  destruct (hr_basic r) as [[user password]|]; [|by apply rel_refl].
  eapply rel_bind_eq; [apply rel_checkPassword|]. intros [[]|?]; by apply rel_refl.
Qed.

(** What only admins get to *)
Ltac admin_moves := repeat first
  [ match goal with |- moves (get ?t ?q ?c ≫= ?k) => refine (moves_get t q c k _); by intros ? ? end | apply moves_id; intros ?
  | apply moves_bind; [two_runs|intros ?]
  | by apply moves_rel, rel_refl
  | match goal with |- context [match ?x with _ => _ end] => destruct x end ].

Lemma admin_two now r : 
  (moves (postRule now r) ∧ (∀ id, moves (putRule now r id)) ∧ (∀ id, moves (deleteRule now r id)))
  ∧ moves (postAgentUpdate config now r) ∧ (∀ id, moves (getTaskRun now r id)) ∧ (∀ host, moves (postTaskRun now r host))
  ∧ (moves (postChannel now r) ∧ (∀ id, moves (putChannel now r id)) ∧ (∀ id, moves (deleteChannel now r id))
     ∧ (∀ id, moves (testChannel now r id)))
  ∧ (∀ name, moves (deleteCluster now r name)).
Proof.
  unfold postRule, putRule, deleteRule, saveRule, postAgentUpdate, getTaskRun, postTaskRun, postChannel, putChannel,
    saveChannel, deleteChannel, testChannel, deleteCluster.
  split_and!; intros; admin_moves.
Qed.

Lemma serve_data_two now r route : handles r (serve_data config now r route).
Proof.
  destruct (admin_two now r) as ((? & ? & ?) & ? & ? & ? & (? & ? & ? & ?) & ?).
  destruct route; unfold serve_data; try (apply handles_admin; auto; fail).
  all: try first [apply getHostTasks_two | apply getTaskRuns_two | apply getChannels_two | apply getNotifications_two | apply postPassword_two].
  all: unfold getConfig, getFleet, getHost, getSeries, getProcesses, getProcessUsage, getCustomMetrics, getDiskForecasts,
    getAlerts, getEndpoints, getEndpointSeries, getRules, getClusters, getCluster, getClusterSeries.
  all: two_runs.
Qed.

Lemma handle_two now r : handles r (handle config render now r).
Proof.
  unfold handle. destruct (route r); unfold serve_route; try (apply handles_login, serve_data_two).
  all: try first [apply getMetrics_two | apply postLogout_two | apply getSession_two].
  all: unfold postLogin, getInstallScript, getDownload; two_runs.
Qed.

(** ** What a browser sees of a run *)

(** The bytes of an answer, its cookie and its Cache-Control *)
Definition seen `{JsonText} (a : HttpReply) : (Z * Body) * option (string * Z) * string :=
  (written a, re_cookie a, re_cache_control a).
(** The answers to the requests that come without an admin's cookie *)
Fixpoint viewers_see `{JsonText} (l : list (time * HttpRequest)) (s : Dashboard W) :=
  match l with
  | [] => []
  | (now, r) :: l =>
      let '(a, s) := answer (handle config render now r) s in
      (if from_admin r then None else Some (seen a)) :: viewers_see l s
  end.

Lemma viewers_see_two `{JsonText} l : ∀ s1 s2, srel s1 s2 → viewers_see l s1 = viewers_see l s2.
Proof.
  induction l as [|[now r] l IH]; intros s1 s2 Hs; [done|]. cbn [viewers_see].
  destruct (handle_two now r s1 s2 Hs) as [Hs' Ha].
  destruct (answer _ s1) as [a1 s1'], (answer _ s2) as [a2 s2']. cbn in Hs', Ha. rewrite (IH _ _ Hs'). f_equal.
  destruct (from_admin r) eqn:Ef; [done|]. destruct Ha as [Ha | ->]; [congruence|done].
Qed.
End Viewers.

(** C8: viewers learn nothing that is for admins: when two collectors answer
    alike but for the commands and output of tasks, the settings, secrets and
    errors of channels and the errors of notifications (and whatever the calls
    only admins may make), then whatever requests browsers send in whatever
    order, admins among them, every answer to a request without an admin's
    cookie has the same status, bytes and cookie in both worlds. *)
Theorem viewers_see_the_same {W} `{Collector W, HttpLib, Crypto, Files, Net, JsonText} config render
    (R : W → W → Prop) (admin : string → bool) (w1 w2 : W) (l : list (time * HttpRequest)) :
  indistinct R admin → R w1 w2 →
  viewers_see config render admin l (Dash empty_cache w1 []) = viewers_see config render admin l (Dash empty_cache w2 []).
Proof.
  intros HI Hw. apply (viewers_see_two config render R admin HI). split_and!; [done|done|].
  intros key cached. cbn. by rewrite lookup_empty.
Qed.

(** ** A viewer and an admin ask for the tasks of a host *)

#[local] Instance ex_http : HttpLib := {|
  ParseMediaType := λ _, None; dec_credentials := λ _ _, None; dec_passwords := λ _ _, None; dec_hosts := λ _ _, None;
  dec_task := λ _ _, None; dec_rule := λ _ _, None; dec_channel := λ _ _, None |}.
#[local] Instance ex_crypto : Crypto := {| pbkdf2_Key := λ p s _, p +:+ s; sha256_Sum256 := λ s, s |}.
#[local] Instance ex_files : Files := {|
  fs_stat := λ _, false; index_html := None; file_server := λ _, reply StatusOK PNothing;
  install_script := λ a b, a +:+ b; download := λ _, None |}.
#[local] Instance ex_net : Net := {| SplitHostPort := λ _, None; IsLoopback := λ _, false; JoinHostPort := λ a b, a +:+ b |}.
#[local] Instance ex_json : JsonText := {| number_text := λ _, "0"; raw_message := λ _, None |}.
(** A collector whose host has one task, its command being the world *)
#[local] Instance ex_collector : Collector string := λ c w,
  (match c return result error (reply_of c) with
   | CCheckSession token => Ok {| sei_Token := ""; sei_User := token; sei_Role := if str_eq token "ann" then "admin" else "viewer"; sei_Expires := 1000 |}
   | CHostTasks _ => Ok [{| ti_Name := "backup"; ti_Description := ""; ti_Command := w; ti_TimeoutSeconds := 60 |}]
   | _ => Err (ErrStatus codes_Unavailable "")
   end, w).
Definition tasks_of_web1 (cookie : string) : HttpRequest := {|
  hr_method := "GET"; hr_path := ["api"; "v1"; "hosts"; "web1"; "tasks"]; hr_query := []; hr_cookie := Some cookie;
  hr_content_type := ""; hr_body := ""; hr_host := ""; hr_tls := false; hr_forwarded_proto := ""; hr_basic := None |}.

Lemma viewers_see_the_same_witness :
  let run (command : string) :=
    viewers_see ex_config (λ _, "") (λ key, str_eq key "ann") [(0, tasks_of_web1 "ann"); (0, tasks_of_web1 "bob")] (Dash empty_cache command []) in
  run "/opt/backup --key=1" = run "/opt/backup --key=2" ∧
  (∃ tasks, run "/opt/backup --key=1" = [None; Some ((200, JsonBody (JObject [("tasks", JArray tasks)])), None, "")]) ∧
  (answer (handle ex_config (λ _, "") 0 (tasks_of_web1 "ann")) (Dash empty_cache "/opt/backup --key=1" [])).1
    ≠ (answer (handle ex_config (λ _, "") 0 (tasks_of_web1 "ann")) (Dash empty_cache "/opt/backup --key=2" [])).1.
Proof.
  intros run. split_and!.
  - apply (viewers_see_the_same ex_config (λ _, "") (λ _ _, True) (λ key, str_eq key "ann")); [|done].
    split; [by intros [] w1 w2 _|]. intros token w info [= <-]. cbn. by destruct (str_eq token "ann").
  - eexists. vm_compute. reflexivity.
  - vm_compute. discriminate.
Defined.

(** A number JSON has not, like the NaN a custom metric may be, empties the
    whole answer, and its status still says all is well. *)
Example nan_empties_the_answer :
  written (writeJSON (PSeries {| sres_Metric := "temp"; sres_Source := "raw"; sres_StepSeconds := 10;
    sres_Series := [{| ws_Label := "ok"; ws_Points := [(0, f0)] |}; {| ws_Label := "broken"; ws_Points := [(0, S754_nan)] |}] |}))
  = (200, EmptyBody).
Proof. reflexivity. Qed.
