(* ===== verification/Metrics.v ===== *)
(** * The Prometheus text of /metrics: src/client/internal/server/metrics.go.

    [strconv.FormatFloat] and the JSON of a snapshot are parameters.  The
    writer's map holds pointers into its list of families, so here it holds
    their places in the list. *)
From S2P Require Import Prelude GoStrings GoFloat GoTime Errors Monitor Alerts Json Kube Tasks Database Snapshot StoreIngest StoreQuery Login Api.
Local Open Scope Z_scope.

(** ** metricsWriter *)

Record metricFamily := {
  mf_name : string; mf_kind : string; mf_help : string; mf_samples : list string; mf_seen : gset string }.
Record metricsWriter := { mw_families : list metricFamily; mw_byName : gmap string nat }.
Definition newMetricsWriter : metricsWriter := {| mw_families := []; mw_byName := ∅ |}.

Class FormatFloat := format_float : float64 → string.

Definition backslash : string := str1 92.
Definition newline : string := str1 10.
Definition label_pairs : list (string * string) :=
  [(backslash, backslash +:+ backslash); (dquote, backslash +:+ dquote); (newline, backslash +:+ "n")].
Definition escape_label (value : string) : string := replacer label_pairs value.

Definition label_text (l : string * string) : string := l.1 +:+ "=" +:+ dquote +:+ escape_label l.2 +:+ dquote.
(** The label set of a sample: names and values *)
Definition label_set (labels : list (string * string)) : string := join "," (map label_text labels).

(** One call of [gauge] or [counter] *)
Record Sample := {
  sm_name : string; sm_kind : string; sm_help : string; sm_value : float64; sm_labels : list (string * string) }.

Section Writer.
Context `{FormatFloat}.

Definition sample_line (s : Sample) : string :=
  let set := label_set (sm_labels s) in
  sm_name s +:+ (if str_eq set "" then "" else "{" +:+ set +:+ "}") +:+ " " +:+ format_float (sm_value s) +:+ newline.

Definition add_to_family (s : Sample) (f : metricFamily) : metricFamily :=
  let set := label_set (sm_labels s) in
  if bool_decide (set ∈ mf_seen f) then f
  else {| mf_name := mf_name f; mf_kind := mf_kind f; mf_help := mf_help f;
          mf_samples := mf_samples f ++ [sample_line s]; mf_seen := {[ set ]} ∪ mf_seen f |}.

Definition new_family (s : Sample) : metricFamily :=
  {| mf_name := sm_name s; mf_kind := sm_kind s; mf_help := sm_help s; mf_samples := []; mf_seen := ∅ |}.

Definition add (w : metricsWriter) (s : Sample) : metricsWriter :=
  let '(place, w) :=
    match mw_byName w !! sm_name s with
    | Some place => (place, w)
    | None => (length (mw_families w),
               {| mw_families := mw_families w ++ [new_family s];
                  mw_byName := <[sm_name s := length (mw_families w)]> (mw_byName w) |})
    end in
  {| mw_families := alter (add_to_family s) place (mw_families w); mw_byName := mw_byName w |}.

Definition family_text (f : metricFamily) : string :=
  "# HELP " +:+ mf_name f +:+ " " +:+ mf_help f +:+ newline +:+ "# TYPE " +:+ mf_name f +:+ " " +:+ mf_kind f +:+ newline
  +:+ join "" (mf_samples f).
Definition writeTo (w : metricsWriter) : string := join "" (map family_text (mw_families w)).

(** ** What is measured *)

Definition gauge (name help : string) (value : float64) (labels : list (string * string)) : Sample :=
  {| sm_name := name; sm_kind := "gauge"; sm_help := help; sm_value := value; sm_labels := labels |}.
Definition counter (name help : string) (value : float64) (labels : list (string * string)) : Sample :=
  {| sm_name := name; sm_kind := "counter"; sm_help := help; sm_value := value; sm_labels := labels |}.
Definition boolValue (b : bool) : float64 := if b then of_int 1 else f0.
Definition mib : float64 := of_int 1048576.
Definition some_gauge (name help : string) (value : option float64) (labels : list (string * string)) : list Sample :=
  match value with Some v => [gauge name help v labels] | None => [] end.

Context `{ParseFloat}.

Definition disk_samples (host : string) (disk : Disk) : list Sample :=
  let labels := [("host", host); ("device", dk_FileSystem disk); ("mount", dk_MountedOn disk)] in
  some_gauge "symon_disk_used_percent" "Disk space in use, as df shows it." (parsePercent (du_Usage (dk_Usage disk))) labels
  ++ [gauge "symon_disk_size_bytes" "Disk size." (of_int (du_Size (dk_Usage disk))) labels;
      gauge "symon_disk_used_bytes" "Disk space in use." (of_int (du_Used (dk_Usage disk))) labels]
  ++ some_gauge "symon_disk_inodes_used_percent" "Inodes in use." (parsePercent (iu_Usage (dk_Inodes disk))) labels.
Definition disk_io_samples (host : string) (io : DiskIO) : list Sample :=
  let labels := [("host", host); ("device", "/dev/" +:+ dio_Device io)] in
  [gauge "symon_disk_read_bytes_per_second" "Disk reads." (dio_ReadBytesPerSec io) labels;
   gauge "symon_disk_write_bytes_per_second" "Disk writes." (dio_WriteBytesPerSec io) labels;
   gauge "symon_disk_util_percent" "Time the disk was busy." (dio_UtilPercent io) labels].
Definition network_samples (host : string) (n : Network) : list Sample :=
  let labels := [("host", host); ("iface", nw_Interface n)] in
  [counter "symon_network_receive_bytes_total" "Bytes received since boot." (of_int (nu_RxBytes (nw_Usage n))) labels;
   counter "symon_network_transmit_bytes_total" "Bytes sent since boot." (of_int (nu_TxBytes (nw_Usage n))) labels].
Definition tcp_samples (host : string) (tcp : TCPStates) : list Sample :=
  map (λ state, gauge "symon_tcp_connections" "TCP connections by state." (of_int state.2)
                  [("host", host); ("state", state.1)])
    [("established", tcp_Established tcp); ("syn_sent", tcp_SynSent tcp); ("syn_recv", tcp_SynRecv tcp);
     ("fin_wait1", tcp_FinWait1 tcp); ("fin_wait2", tcp_FinWait2 tcp); ("time_wait", tcp_TimeWait tcp);
     ("close", tcp_Close tcp); ("close_wait", tcp_CloseWait tcp); ("last_ack", tcp_LastAck tcp);
     ("listen", tcp_Listen tcp); ("closing", tcp_Closing tcp)].
Definition pressure_samples (host : string) (p : Pressure) : list Sample :=
  concat (map (λ r,
    let labels := [("host", host); ("resource", r.1)] in
    gauge "symon_pressure_some_percent" "Share of the last 10 seconds some tasks waited on the resource."
      (pm_Avg10 (rp_Some r.2)) labels
    :: (if rp_FullAvailable r.2
        then [gauge "symon_pressure_full_percent" "Share of the last 10 seconds all tasks waited on the resource."
                (pm_Avg10 (rp_Full r.2)) labels] else []))
    [("cpu", psi_CPU p); ("memory", psi_Memory p); ("io", psi_IO p)]).
Definition container_samples (host : string) (c : HostContainer) : list Sample :=
  let labels := [("host", host); ("container", containerName c); ("project", hc_ComposeProject c)] in
  [gauge "symon_container_cpu_percent" "Container CPU usage, as a share of the host." (hcc_PercentOfHost (hc_CPU c)) labels;
   gauge "symon_container_memory_bytes" "Container memory in use." (hcm_Used (hc_Memory c)) labels]
  ++ match hc_Rates c with
     | None => []
     | Some rates =>
         some_gauge "symon_container_receive_bytes_per_second" "Container network traffic received." (hcr_RxBytesPerSec rates) labels
         ++ some_gauge "symon_container_transmit_bytes_per_second" "Container network traffic sent." (hcr_TxBytesPerSec rates) labels
         ++ [gauge "symon_container_read_bytes_per_second" "Container disk reads." (hcr_ReadBytesPerSec rates) labels;
             gauge "symon_container_write_bytes_per_second" "Container disk writes." (hcr_WriteBytesPerSec rates) labels]
     end.

(** [addHostMetrics]: the samples in the order they are added *)
Definition host_samples (host : string) (data : MonitorData) : list Sample :=
  let cpu := md_ProcUsage data in let mem := md_Memory data in let swap := md_Swap data in
  let labels := [("host", host)] in
  [gauge "symon_uptime_seconds" "How long the host has been running." (sys_UpTimeSeconds (md_System data)) labels;
   gauge "symon_cpu_usage_percent" "CPU usage." (of_int (cpu_LoadAvg cpu)) labels;
   gauge "symon_load1" "Load average over 1 minute." (cpu_Load1 cpu) labels;
   gauge "symon_load5" "Load average over 5 minutes." (cpu_Load5 cpu) labels;
   gauge "symon_load15" "Load average over 15 minutes." (cpu_Load15 cpu) labels;
   gauge "symon_memory_used_percent" "Memory in use." (mem_PercentageUsed mem) labels;
   gauge "symon_memory_total_bytes" "Total memory." (fmul (of_int (mem_Total mem)) mib) labels;
   gauge "symon_memory_available_bytes" "Memory available to new programs." (fmul (of_int (mem_Available mem)) mib) labels;
   gauge "symon_swap_used_percent" "Swap in use." (swp_PercentageUsed swap) labels;
   gauge "symon_swap_total_bytes" "Total swap." (fmul (of_int (swp_Total swap)) mib) labels]
  ++ concat (map (disk_samples host) (md_Disk data))
  ++ concat (map (disk_io_samples host) (md_DiskIO data))
  ++ concat (map (network_samples host) (md_Networks data))
  ++ match md_TCPStates data with Some tcp => tcp_samples host tcp | None => [] end
  ++ match md_Pressure data with Some p => pressure_samples host p | None => [] end
  ++ map (λ t, gauge "symon_temperature_celsius" "Sensor temperature." (tmp_Celsius t)
                 [("host", host); ("sensor", sensorName t)]) (md_Temperatures data)
  ++ map (λ s, gauge "symon_service_up" "1 when the service is running." (boolValue (svc_Running s))
                 [("host", host); ("service", svc_Name s)]) (md_Services data)
  ++ concat (map (container_samples host) (md_Containers data)).

Context `{SnapshotJSON}.

(** A host that stopped reporting only has old values, which are left out. *)
Definition snapshot_samples (h : HostSnapshot) : list Sample :=
  gauge "symon_up" "1 when the host reported within the last minute." (boolValue (snap_Up h)) [("host", snap_Host h)]
  :: (if 0 <? snap_LastSeen h
      then [gauge "symon_last_seen_timestamp_seconds" "When the host was last heard from." (of_int (snap_LastSeen h))
              [("host", snap_Host h)]] else [])
  ++ (if negb (snap_Up h) || str_eq (snap_SnapshotJson h) "" then []
      else match unmarshal_data (snap_SnapshotJson h) with
           | Err _ => []
           | Ok data => host_samples (snap_Host h) data
           end).
(** Of several hosts with one name, [up] keeps the last. *)
Definition host_up (hosts : list HostSnapshot) : gmap string bool :=
  fold_left (λ up h, <[snap_Host h := snap_Up h]> up) hosts ∅.
Definition custom_samples (up : gmap string bool) (c : WireValue) : list Sample :=
  if default false (up !! wv_Host c) then
    [gauge "symon_custom_metric" "The newest value of a custom metric sent in the last 2 days." (wv_Value c)
       [("host", wv_Host c); ("name", wv_Name c); ("unit", wv_Unit c)];
     gauge "symon_custom_metric_timestamp_seconds" "When the custom metric was last sent." (of_int (wv_Time c))
       [("host", wv_Host c); ("name", wv_Name c)]]
  else [].

Definition metrics_samples (response : SnapshotList) : list Sample :=
  concat (map snapshot_samples (sl_Hosts response))
  ++ concat (map (custom_samples (host_up (sl_Hosts response))) (sl_CustomMetrics response)).
Definition metrics_text (response : SnapshotList) : string :=
  writeTo (fold_left add (metrics_samples response) newMetricsWriter).
End Writer.
