(* ===== verification/MetricsProps.v ===== *)
(** * What a scrape of /metrics reads: the text of Metrics.v is the samples
    grouped by metric, each set of labels once. *)
From S2P Require Import Prelude GoStrings GoFloat GoTime Errors Monitor Alerts Json Kube Tasks Database Snapshot StoreIngest StoreQuery Login Api Metrics.
From Stdlib Require Import Ascii.
Local Open Scope Z_scope.

(** ** The first elements with a key *)

Section Firsts.
Context {A K : Type} `{EqDecision K} (key : A → K).

Fixpoint firsts_from (seen : list K) (l : list A) : list A :=
  match l with
  | [] => []
  | x :: l' => if decide (key x ∈ seen) then firsts_from seen l' else x :: firsts_from (key x :: seen) l'
  end.
Definition firsts : list A → list A := firsts_from [].

Lemma firsts_tail_ext (l l' : list K) (k : K) (r r' : list A) : (k ∈ l ↔ k ∈ l') →
  (if decide (k ∈ l) then r else r') = (if decide (k ∈ l') then r else r').
Proof. intros E. destruct (decide (k ∈ l)), (decide (k ∈ l')); tauto. Qed.
Lemma firsts_from_snoc seen l x : firsts_from seen (l ++ [x]) =
  firsts_from seen l ++ (if decide (key x ∈ seen ++ map key l) then [] else [x]).
Proof.
  revert seen. induction l as [|y l IH]; intros seen; cbn.
  - rewrite app_nil_r. by destruct (decide (key x ∈ seen)).
  - destruct (decide (key y ∈ seen)) as [Hy|Hy]; cbn; rewrite IH; [|cbn]; do 2 f_equal.
    + apply firsts_tail_ext. rewrite !elem_of_app, elem_of_cons. intuition congruence.
    + apply firsts_tail_ext. cbn. rewrite !elem_of_cons, !elem_of_app, elem_of_cons. tauto.
Qed.

Lemma firsts_snoc l x : firsts (l ++ [x]) = firsts l ++ (if decide (key x ∈ map key l) then [] else [x]).
Proof. apply firsts_from_snoc. Qed.

Lemma elem_of_firsts l x : x ∈ firsts l → x ∈ l.
Proof.
  induction l as [|y l IH] using rev_ind; [done|]. rewrite firsts_snoc, !elem_of_app. intros [Hx|Hx]; [left; auto|].
  destruct (decide _); [by apply not_elem_of_nil in Hx|by right].
Qed.

Lemma firsts_keys l k : k ∈ map key (firsts l) ↔ k ∈ map key l.
Proof.
  induction l as [|y l IH] using rev_ind; [done|]. rewrite firsts_snoc, !map_app, !elem_of_app, IH. cbn.
  destruct (decide (key y ∈ map key l)) as [Hy|Hy]; [|done]. split; intros [Hk|Hk]; auto.
  - by apply not_elem_of_nil in Hk.
  - left. by apply list_elem_of_singleton in Hk as ->.
Qed.

Lemma firsts_NoDup l : NoDup (map key (firsts l)).
Proof.
  induction l as [|y l IH] using rev_ind; [apply NoDup_nil_2|]. rewrite firsts_snoc, map_app.
  destruct (decide (key y ∈ map key l)) as [Hy|Hy]; cbn; [by rewrite app_nil_r|].
  apply NoDup_app. split_and!; [done| |apply NoDup_singleton]. intros k Hk ->%list_elem_of_singleton.
  by rewrite firsts_keys in Hk.
Qed.
End Firsts.

(** Keys that tell the same elements apart pick the same ones. *)
Lemma firsts_ext {A K L} `{EqDecision K, EqDecision L} (key : A → K) (key' : A → L) l :
  (∀ x y, x ∈ l → y ∈ l → key x = key y ↔ key' x = key' y) → firsts key l = firsts key' l.
Proof.
  induction l as [|x l IH] using rev_ind; [done|]. intros H. rewrite !firsts_snoc, IH.
  - f_equal. assert (E : key x ∈ map key l ↔ key' x ∈ map key' l).
    { rewrite !list_elem_of_fmap. split; intros (y & Hk & Hy); exists y; (split; [|done]); apply H; try done; apply elem_of_app; auto.
      all: right; by left. }
    destruct (decide (key x ∈ map key l)), (decide (key' x ∈ map key' l)); tauto.
  - intros y z Hy Hz. apply H; apply elem_of_app; by left.
Qed.

(** ** Label sets can be read back *)

Definition escaped (c : ascii) : string :=
  if Ascii.eqb c (chr 92) then backslash +:+ backslash
  else if Ascii.eqb c (chr 34) then backslash +:+ dquote
  else if Ascii.eqb c (chr 10) then backslash +:+ "n" else String c "".

(** The value up to the closing quote, and what follows it *)
Fixpoint read_value (s : string) : option (string * string) :=
  match s with
  | "" => None
  | String c s' =>
      if Ascii.eqb c (chr 34) then Some ("", s')
      else if Ascii.eqb c (chr 92) then
        match s' with
        | "" => None
        | String d s'' => prod_map (String (if Ascii.eqb d "n" then chr 10 else d)) id <$> read_value s''
        end
      else prod_map (String c) id <$> read_value s'
  end.

Lemma escape_label_cons c s : escape_label (String c s) = escaped c +:+ escape_label s.
Proof.
  unfold escape_label, replacer, escaped. destruct c as [[] [] [] [] [] [] [] []]; reflexivity.
Qed.

Lemma read_value_escape v rest : read_value (escape_label v +:+ dquote +:+ rest) = Some (v, rest).
Proof.
  induction v as [|c v IH]; [done|]. rewrite escape_label_cons, append_assoc.
  revert IH. generalize (escape_label v +:+ dquote +:+ rest). intros t IH.
  transitivity (prod_map (String c) id <$> read_value t); [|by rewrite IH].
  destruct c as [[] [] [] [] [] [] [] []]; reflexivity.
Qed.

Definition labels_rest (l : list (string * string)) : string :=
  match l with [] => "" | _ => "," +:+ label_set l end.
Lemma label_set_cons n v l : label_set ((n, v) :: l) =
  n +:+ "=" +:+ dquote +:+ escape_label v +:+ dquote +:+ labels_rest l.
Proof.
  assert (E : label_set ((n, v) :: l) = label_text (n, v) +:+ labels_rest l)
    by (destruct l; cbn [labels_rest]; [by rewrite append_nil_r|done]).
  rewrite E. unfold label_text. cbn [fst snd]. by rewrite !append_assoc.
Qed.

Lemma label_set_inj l l' : map fst l = map fst l' → label_set l = label_set l' → l = l'.
Proof.
  revert l'. induction l as [|[n v] l IH]; intros [|[n' v'] l']; cbn [map fst]; try done. intros [= <- Hn].
  rewrite !label_set_cons. intros E%(inj _)%(inj _)%(inj _).
  assert (R := read_value_escape v (labels_rest l)). rewrite E, read_value_escape in R. injection R as -> R.
  f_equal. apply IH; [done|]. destruct l, l'; try done. by injection R.
Qed.

Section Text.
Context `{FormatFloat}.

(** ** The reference *)

Definition same_metric (s s' : Sample) : bool := str_eq (sm_name s') (sm_name s).
(** The lines of one metric: those of the first sample with each label set *)
Definition metric_lines {K} `{EqDecision K} (key : Sample → K) (l : list Sample) (s : Sample) : list string :=
  map sample_line (firsts key (List.filter (same_metric s) l)).
Definition metric_text (lines : list string) (s : Sample) : string :=
  "# HELP " +:+ sm_name s +:+ " " +:+ sm_help s +:+ newline +:+ "# TYPE " +:+ sm_name s +:+ " " +:+ sm_kind s +:+ newline
  +:+ join "" lines.
Definition reference_text (l : list Sample) : string :=
  join "" (map (λ s, metric_text (metric_lines sm_labels l s) s) (firsts sm_name l)).

(** ** The writer's invariant *)

Definition set_key (s : Sample) : string := label_set (sm_labels s).
Definition family_of (l : list Sample) (s : Sample) : metricFamily := {|
  mf_name := sm_name s; mf_kind := sm_kind s; mf_help := sm_help s; mf_samples := metric_lines set_key l s;
  mf_seen := list_to_set (map set_key (List.filter (same_metric s) l)) |}.

Record written (l : list Sample) (w : metricsWriter) : Prop := {
  wr_families : mw_families w = map (family_of l) (firsts sm_name l);
  wr_byName : ∀ n i, mw_byName w !! n = Some i ↔ map sm_name (firsts sm_name l) !! i = Some n }.

Lemma filter_snoc_same l s y : same_metric y s = true →
  List.filter (same_metric y) (l ++ [s]) = List.filter (same_metric y) l ++ [s].
Proof. intros E. rewrite List.filter_app. cbn. by rewrite E. Qed.
Lemma filter_snoc_other l s y : same_metric y s = false →
  List.filter (same_metric y) (l ++ [s]) = List.filter (same_metric y) l.
Proof. intros E. rewrite List.filter_app. cbn. by rewrite E, app_nil_r. Qed.

Lemma family_of_add l s y : same_metric y s = true → add_to_family s (family_of l y) = family_of (l ++ [s]) y.
Proof.
  intros E. unfold add_to_family, family_of, metric_lines. cbn [mf_seen mf_name mf_kind mf_help mf_samples].
  rewrite !(filter_snoc_same l s y E), firsts_snoc, !map_app. cbn [map]. fold (set_key s).
  set (keys := map set_key _).
  assert (Es : list_to_set (C := gset string) (keys ++ [set_key s]) = {[set_key s]} ∪ list_to_set keys)
    by (apply set_eq; intros z; rewrite elem_of_list_to_set, elem_of_app, list_elem_of_singleton, elem_of_union,
          elem_of_singleton, elem_of_list_to_set; tauto).
  rewrite Es. destruct (decide (set_key s ∈ keys)) as [Hs|Hs].
  - rewrite bool_decide_true by (by apply elem_of_list_to_set). rewrite app_nil_r.
    replace ({[set_key s]} ∪ list_to_set keys : gset string) with (list_to_set keys : gset string); [done|].
    apply set_eq. intros z. rewrite elem_of_union, elem_of_singleton, !elem_of_list_to_set. intuition congruence.
  - by rewrite bool_decide_false by (by rewrite elem_of_list_to_set).
Qed.

Lemma family_of_other l s y : same_metric y s = false → family_of (l ++ [s]) y = family_of l y.
Proof. intros E. unfold family_of, metric_lines. by rewrite !(filter_snoc_other l s y E). Qed.

Lemma alter_map {A B} (f f' : A → B) g i l :
  (∀ j y, l !! j = Some y → f' y = if decide (j = i) then g (f y) else f y) → alter g i (map f l) = map f' l.
Proof.
  intros E. apply list_eq. intros j. rewrite list_lookup_fmap. destruct (decide (j = i)) as [->|Hj].
  - rewrite list_lookup_alter_eq, list_lookup_fmap. destruct (l !! i) eqn:El; [|done]. cbn. f_equal. rewrite (E i a El).
    by rewrite decide_True.
  - rewrite list_lookup_alter_ne, list_lookup_fmap by done. destruct (l !! j) eqn:El; [|done]. cbn. f_equal.
    rewrite (E j a El). by rewrite decide_False.
Qed.
Lemma filter_same_nil l s : sm_name s ∉ map sm_name l → List.filter (same_metric s) l = [].
Proof.
  induction l as [|y l IH]; cbn; [done|]. rewrite not_elem_of_cons. intros [Hn Hl]. unfold same_metric at 1.
  destruct (str_eq _ _) eqn:E; [|auto]. apply str_eq_spec in E. congruence.
Qed.

Lemma alter_family l s i F : NoDup (map sm_name F) → sm_name <$> F !! i = Some (sm_name s) →
  alter (add_to_family s) i (map (family_of l) F) = map (family_of (l ++ [s])) F.
Proof.
  intros ND Hi. apply alter_map. intros j y Hy.
  assert (E : same_metric y s = true ↔ j = i).
  { unfold same_metric. rewrite str_eq_spec. split; [|intros ->; rewrite Hy in Hi; cbn in Hi; congruence].
    intros E. apply (NoDup_lookup _ j i (sm_name s) ND); rewrite list_lookup_fmap; [rewrite Hy; cbn; congruence|done]. }
  destruct (decide (j = i)) as [Hj|Hj].
  - symmetry. by apply family_of_add, E.
  - apply family_of_other. destruct (same_metric y s); [|done]. tauto.
Qed.

Lemma written_new : written [] newMetricsWriter.
Proof. split; [done|]. intros n i. cbn. by rewrite lookup_empty. Qed.

Lemma written_add l w s : written l w → written (l ++ [s]) (add w s).
Proof.
  intros [F B]. assert (ND := firsts_NoDup sm_name (l ++ [s])). unfold add.
  destruct (mw_byName w !! sm_name s) as [i|] eqn:E.
  - assert (Hi := E). rewrite B in Hi.
    assert (Hin : sm_name s ∈ map sm_name l).
    { rewrite <- firsts_keys. by apply list_elem_of_lookup_2 in Hi. }
    rewrite firsts_snoc in ND. rewrite decide_True, app_nil_r in ND by done.
    split; cbn [mw_families mw_byName]; rewrite firsts_snoc, decide_True, app_nil_r by done; [|done].
    rewrite F. apply alter_family; [done|]. by rewrite <- list_lookup_fmap.
  - assert (Hin : sm_name s ∉ map sm_name l).
    { rewrite <- firsts_keys. intros [i Hi]%list_elem_of_lookup_1. rewrite <- B in Hi. congruence. }
    rewrite firsts_snoc, decide_False in ND by done.
    assert (Hlen : length (mw_families w) = length (firsts sm_name l)) by by rewrite F, length_map.
    split; cbn [mw_families mw_byName]; rewrite firsts_snoc, decide_False by done.
    + assert (Hs : new_family s = family_of l s).
      { unfold new_family, family_of, metric_lines. by rewrite filter_same_nil. }
      rewrite Hlen, F, Hs. change [family_of l s] with (map (family_of l) [s]). rewrite <- map_app. apply alter_family; [done|]. by rewrite lookup_app_r, Nat.sub_diag by done.
    + intros n i. rewrite Hlen, map_app, lookup_app, <- (length_map sm_name), lookup_insert_Some.
      destruct (map sm_name (firsts sm_name l) !! i) as [m|] eqn:Em.
      * apply lookup_lt_Some in Em as Hlt. rewrite B, Em. split; [intros [[_ ?]|[_ ?]]; [lia|done]|].
        intros [= ->]. right. split; [|done]. intros <-. apply Hin. rewrite <- firsts_keys. by apply list_elem_of_lookup_2 in Em.
      * apply lookup_ge_None in Em as Hge. rewrite B, Em. split.
        -- intros [[<- <-]|[_ ?]]; [|done]. by rewrite Nat.sub_diag.
        -- intros Hi. left. cbn in Hi. destruct (i - _)%nat eqn:Ei; [|by destruct n0]. cbn in Hi. injection Hi as <-. split; [done|lia].
Qed.

Lemma written_all l : written l (fold_left add l newMetricsWriter).
Proof.
  induction l as [|s l IH] using rev_ind; [apply written_new|]. rewrite fold_left_app. by apply written_add.
Qed.

(** ** A metric always has the same labels *)

Definition metric_labels (name : string) : list string :=
  if has_prefix name "symon_disk_read" || has_prefix name "symon_disk_write" || has_prefix name "symon_disk_util"
  then ["host"; "device"]
  else if has_prefix name "symon_disk" then ["host"; "device"; "mount"]
  else if has_prefix name "symon_network" then ["host"; "iface"]
  else if has_prefix name "symon_tcp" then ["host"; "state"]
  else if has_prefix name "symon_pressure" then ["host"; "resource"]
  else if has_prefix name "symon_temperature" then ["host"; "sensor"]
  else if has_prefix name "symon_service" then ["host"; "service"]
  else if has_prefix name "symon_container" then ["host"; "container"; "project"]
  else if has_prefix name "symon_custom_metric_timestamp" then ["host"; "name"]
  else if has_prefix name "symon_custom_metric" then ["host"; "name"; "unit"]
  else ["host"].
Definition labelled (s : Sample) : Prop := map fst (sm_labels s) = metric_labels (sm_name s).

Lemma some_gauge_labelled name help v labels :
  map fst labels = metric_labels name → Forall labelled (some_gauge name help v labels).
Proof. intros E. destruct v; [apply Forall_singleton|]; done. Qed.
Lemma concat_map_labelled {A} (f : A → list Sample) l : (∀ x, Forall labelled (f x)) → Forall labelled (concat (map f l)).
Proof. intros E. induction l; [done|]. cbn. apply Forall_app; auto. Qed.
Lemma map_labelled {A} (f : A → Sample) l : (∀ x, labelled (f x)) → Forall labelled (map f l).
Proof. intros E. induction l; constructor; auto. Qed.

Ltac labels := repeat first [ assumption | reflexivity | done | apply Forall_cons; split | apply Forall_app_2 | apply concat_map_labelled
  | apply map_labelled | apply some_gauge_labelled | intros ? ].
Context `{ParseFloat, SnapshotJSON}.


Lemma container_labelled host c : Forall labelled (container_samples host c).
Proof. unfold container_samples. destruct (hc_Rates c); labels. Qed.
Lemma host_labelled host data : Forall labelled (host_samples host data).
Proof.
  unfold host_samples, disk_samples, disk_io_samples, network_samples.
  pose proof (container_labelled host).
  destruct (md_TCPStates data), (md_Pressure data); unfold tcp_samples, pressure_samples;
    labels; destruct (rp_FullAvailable _); labels.
Qed.

Lemma metrics_labelled response : Forall labelled (metrics_samples response).
Proof.
  pose proof host_labelled. unfold metrics_samples. labels; unfold snapshot_samples, custom_samples; labels;
    repeat case_match; labels.
Qed.

(** C36: what /metrics answers is the reference text of the samples: every
    metric once, in the order of its first sample, under one HELP and one TYPE
    line, and of the samples that name the same labels with the same values
    only the first, although the writer tells them apart by the escaped text
    of their labels. *)
Theorem metrics_text_reference response :
  metrics_text response = reference_text (metrics_samples response).
Proof.
  unfold metrics_text, writeTo, reference_text. rewrite (wr_families _ _ (written_all _)), map_map.
  f_equal. apply map_ext. intros s. unfold family_text, metric_text, family_of. cbn [mf_name mf_kind mf_help mf_samples].
  do 9 f_equal. unfold metric_lines. do 3 f_equal. apply firsts_ext. intros x y Hx Hy. unfold set_key.
  split; [|by intros ->]. apply label_set_inj. assert (HL := metrics_labelled response). rewrite Forall_forall in HL.
  rewrite list_elem_of_In, filter_In, <- list_elem_of_In in Hx. rewrite list_elem_of_In, filter_In, <- list_elem_of_In in Hy.
  destruct Hx as [Hx Nx], Hy as [Hy Ny]. unfold same_metric in *. apply str_eq_spec in Nx, Ny.
  rewrite (HL x Hx), (HL y Hy). by rewrite Nx, Ny.
Qed.
End Text.
