(* ===== verification/EvaluatorStore.v ===== *)
(** * The database implements what the evaluator relies on.

    The methods of src/internal/store that make up the source's [alertStore]
    are an instance of [AlertStore], and under the invariant [alerts_wf] of
    the tables they satisfy [AlertStoreLaws]. *)
From S2P Require Import Prelude GoStrings GoFloat GoTime Errors Monitor Alerts Json Notify Kube Database StoreHosts.
From S2P Require Import StoreAlerts StoreKube StoreForecast Texts Evaluator StoreNotifications Notices NoticesProps EvaluatorSpec.
Local Open Scope Z_scope.

Record alerts_wf (d : DB) : Prop := {
  aw_host_ids : NoDup (map h_id (hosts d));
  aw_host_names : NoDup (map h_name (hosts d));
  aw_named : ∀ h, h ∈ hosts d → h_name h ≠ "";
  aw_ids : NoDup (map al_id (alerts d));
  aw_fresh : ∀ a, a ∈ alerts d → al_id a < seq d;
  aw_fk : ∀ a i, a ∈ alerts d → al_host_id a = Some i → i ∈ map h_id (hosts d);
  aw_one : ∀ a b, a ∈ alerts d → b ∈ alerts d → is_open a = true → is_open b = true →
    open_key a = open_key b → a = b }.

(** The clock of a store call that reads [now()]. *)
Class StoreClock := store_now : time.

#[export] Instance DB_AlertStore `{StoreClock, ForecastRows} : AlertStore DB := {
  st_LatestValue := LatestValue;
  st_LastSeen := LastSeen;
  st_DaysUntilFull d := DaysUntilFull d store_now;
  st_LatestEndpointCheck := LatestEndpointCheck;
  st_LatestCertificate := LatestCertificate;
  st_Cluster := Store_Cluster;
  st_RestartsSince d c t := Ok (RestartsSince d c t);
  st_Alerts d f := Ok (Alerts d f);
  st_OpenAlert := OpenAlert;
  st_CreateAlert := CreateAlert;
  st_UpdateAlert := UpdateAlert;
  st_ResolveAlert := ResolveAlert;
  st_notify n d := (queueNotice store_now n d).2 }.

(** ** Hosts by id and by name *)

Lemma host_by_id_lookup d h : NoDup (map h_id (hosts d)) → h ∈ hosts d → host_by_id d (h_id h) = Some h.
Proof.
  intros Hnd Hin. unfold host_by_id. destruct (List.find _ (hosts d)) as [h'|] eqn:E.
  - apply find_some in E as [Hh' He]. rewrite <- list_elem_of_In in Hh'. f_equal.
    apply (NoDup_map_inj h_id (hosts d)); [done..|lia].
  - rewrite list_elem_of_In in Hin. eapply find_none in E; [|exact Hin]. cbn in E. lia.
Qed.

Lemma host_name_inj d i j : alerts_wf d →
  (∀ k, i = Some k → k ∈ map h_id (hosts d)) → (∀ k, j = Some k → k ∈ map h_id (hosts d)) →
  host_name_of d i = host_name_of d j → i = j.
Proof.
  intros Hwf Hi Hj.
  assert (Hname : ∀ k, k ∈ map h_id (hosts d) → ∃ h, h ∈ hosts d ∧ h_id h = k ∧ host_name_of d (Some k) = h_name h).
  { intros k Hk. apply list_elem_of_fmap in Hk as (h & -> & Hh). exists h. split_and!; [done..|].
    cbn. by rewrite (host_by_id_lookup d h (aw_host_ids d Hwf)). }
  destruct i as [i|], j as [j|]; try done.
  - destruct (Hname i (Hi _ eq_refl)) as (h1 & H1 & <- & ->), (Hname j (Hj _ eq_refl)) as (h2 & H2 & <- & ->).
    intros E. do 2 f_equal. by apply (NoDup_map_inj h_name (hosts d) h1 h2 (aw_host_names d Hwf)).
  - destruct (Hname i (Hi _ eq_refl)) as (h1 & H1 & <- & ->). cbn. intros E. by destruct (aw_named d Hwf h1 H1).
  - destruct (Hname j (Hj _ eq_refl)) as (h1 & H1 & <- & ->). cbn. intros E. by destruct (aw_named d Hwf h1 H1).
Qed.

Lemma hostID_spec d name i : alerts_wf d → hostID d name = Ok i →
  i ∈ map h_id (hosts d) ∧ host_name_of d (Some i) = name.
Proof.
  unfold hostID. intros Hwf. destruct (host_by_name d name) as [h|] eqn:E; [|done]. intros [= <-].
  apply host_by_name_some in E as [Hin Hn]. split; [by apply list_elem_of_fmap_2|].
  cbn. by rewrite (host_by_id_lookup d h (aw_host_ids d Hwf)).
Qed.

(** ** OpenAlert finds the one open alert *)

Definition row_key (d : DB) (a : AlertRow) : akey :=
  (host_name_of d (al_host_id a), al_rule a, al_metric a, al_target a).

Lemma alert_is_spec d h r m t a :
  alert_is d h r m t a = true ↔ row_key d a = (h, r, m, t) ∧ is_open a = true.
Proof.
  unfold alert_is, row_key. rewrite !andb_true_iff, !str_eq_spec. split.
  - intros ((((<- & <-) & <-) & <-) & ?). done.
  - intros [[= <- <- <- <-] ?]. done.
Qed.

Lemma row_key_inj d a b : alerts_wf d → a ∈ alerts d → b ∈ alerts d →
  row_key d a = row_key d b → open_key a = open_key b.
Proof.
  intros Hwf Ha Hb. unfold row_key, open_key. intros [= Hh -> -> ->]. do 3 f_equal.
  eapply host_name_inj; [exact Hwf| | |exact Hh]; intros k Hk.
  - by apply (aw_fk d Hwf a).
  - by apply (aw_fk d Hwf b).
Qed.

Section Laws.
Context `{StoreClock, ForecastRows}.

Lemma open_at_db d k : open_at d k =
  Ok (option_map (scanAlert d) (List.find (λ a, bool_decide (row_key d a = k) && is_open a) (alerts d))).
Proof.
  destruct k as [[[h r] m] t]. cbn. unfold OpenAlert. do 2 f_equal.
  induction (alerts d) as [|a l IH]; [done|]. cbn. rewrite IH.
  assert (E : alert_is d h r m t a = bool_decide (row_key d a = (h, r, m, t)) && is_open a); [|by rewrite E].
  apply eq_true_iff_eq. by rewrite alert_is_spec, andb_true_iff, bool_decide_eq_true.
Qed.

Lemma open_at_some d k : alerts_wf d → ∀ a,
  open_at d k = Ok (Some a) ↔ ∃ r, r ∈ alerts d ∧ row_key d r = k ∧ is_open r = true ∧ a = scanAlert d r.
Proof.
  intros Hwf a. rewrite open_at_db. split.
  - destruct (List.find _ _) as [r|] eqn:E; [|done]. intros [= <-].
    apply find_some in E as [Hr Hq]. rewrite <- list_elem_of_In in Hr.
    apply andb_true_iff in Hq as [Hk Ho]. apply bool_decide_eq_true in Hk. eauto.
  - intros (r & Hr & Hk & Ho & ->). destruct (List.find _ _) as [r'|] eqn:E.
    + apply find_some in E as [Hr' Hq]. rewrite <- list_elem_of_In in Hr'.
      apply andb_true_iff in Hq as [Hk' Ho']. apply bool_decide_eq_true in Hk'.
      cbn. do 3 f_equal. apply (aw_one d Hwf); [done..|]. apply (row_key_inj d); [done..|]. congruence.
    + rewrite list_elem_of_In in Hr. eapply find_none in E; [|exact Hr]. cbn in E.
      rewrite (bool_decide_true _ Hk), Ho in E. done.
Qed.

Lemma open_at_none d k : open_at d k = Ok None ↔ ∀ r, r ∈ alerts d → row_key d r = k → is_open r = false.
Proof.
  rewrite open_at_db. split.
  - destruct (List.find _ _) as [r|] eqn:E; [done|]. intros _ r Hr Hk. rewrite list_elem_of_In in Hr.
    eapply find_none in E; [|exact Hr]. cbn in E. by rewrite (bool_decide_true _ Hk) in E.
  - intros Hall. destruct (List.find _ _) as [r|] eqn:E; [|done].
    apply find_some in E as [Hr Hq]. rewrite <- list_elem_of_In in Hr.
    apply andb_true_iff in Hq as [Hk Ho]. apply bool_decide_eq_true in Hk. rewrite (Hall r Hr Hk) in Ho. done.
Qed.

(** Two databases with the same hosts whose open alerts of a key agree. *)
Lemma open_at_ext d d' k : alerts_wf d → alerts_wf d' → hosts d' = hosts d →
  (∀ r, row_key d r = k → is_open r = true → (r ∈ alerts d ↔ r ∈ alerts d')) →
  open_at d' k = open_at d k.
Proof.
  intros Hwf Hwf' Hh Hsame.
  assert (Hn : ∀ i, host_name_of d' i = host_name_of d i) by (intros [i|]; [unfold host_name_of, host_by_id; by rewrite Hh|done]).
  assert (Hk : ∀ r, row_key d' r = row_key d r) by (intros r; unfold row_key; by rewrite Hn).
  assert (Hs : ∀ r, scanAlert d' r = scanAlert d r) by (intros r; unfold scanAlert; by rewrite Hn).
  destruct (open_at d k) as [[a|]|err] eqn:E; [| |rewrite open_at_db in E; done].
  - apply (open_at_some d k Hwf) in E as (r & Hr & Hkr & Ho & ->). apply (open_at_some d' k Hwf').
    exists r. rewrite Hk, Hs. split_and!; try done. by apply Hsame.
  - apply open_at_none. intros r Hr Hkr. rewrite Hk in Hkr. destruct (is_open r) eqn:Ho; [|done].
    apply (Hsame r Hkr Ho) in Hr. rewrite open_at_none in E. by rewrite (E r Hr Hkr) in Ho.
Qed.
End Laws.

(** ** The invariant under the three writes *)

(** Changing one alert's severity, value and times. *)
Lemma alert_set_key sev v t r a : open_key (alert_set sev v t r a) = open_key a.
Proof. done. Qed.

Lemma alerts_wf_update d p f :
  (∀ a, al_id (f a) = al_id a ∧ open_key (f a) = open_key a ∧ (is_open (f a) = true → is_open a = true)) →
  alerts_wf d → alerts_wf (set_alerts (update_where p f (alerts d)) d).
Proof.
  intros Hf [Hi Hn Hnm Hids Hfr Hfk Hone]. constructor; cbn; try done.
  - rewrite map_update_where by (intros a; apply Hf). done.
  - intros a (b & Hb & ->)%elem_of_update_where. destruct (p b); [|by apply Hfr].
    destruct (Hf b) as (-> & _). by apply Hfr.
  - intros a i (b & Hb & ->)%elem_of_update_where. destruct (p b); [|by apply Hfk].
    destruct (Hf b) as (_ & Hk & _). unfold open_key in Hk. injection Hk as -> _ _ _. by apply Hfk.
  - intros a b (a0 & Ha & ->)%elem_of_update_where (b0 & Hb & ->)%elem_of_update_where Hoa Hob Hk.
    assert (Ha0 : is_open a0 = true) by (destruct (p a0); [by apply Hf|done]).
    assert (Hb0 : is_open b0 = true) by (destruct (p b0); [by apply Hf|done]).
    assert (Hk0 : open_key a0 = open_key b0).
    { destruct (Hf a0) as (_ & Ea & _), (Hf b0) as (_ & Eb & _).
      destruct (p a0), (p b0); rewrite ?Ea, ?Eb in Hk; done. }
    by rewrite (Hone a0 b0).
Qed.

(** The invariant reads the hosts, the alerts and the counter only. *)
Lemma alerts_wf_ext d d' : hosts d' = hosts d → alerts d' = alerts d → seq d ≤ seq d' →
  alerts_wf d → alerts_wf d'.
Proof.
  intros Eh Ea Hle [Hi Hn Hnm Hids Hfr Hfk Hone].
  constructor; rewrite ?Eh, ?Ea; try done. intros a Ha. specialize (Hfr a Ha). lia.
Qed.

Lemma alerts_wf_create d row : alerts_wf d → al_id row = seq d → (∀ i, al_host_id row = Some i → i ∈ map h_id (hosts d)) →
  open_taken (open_key row) d = false → alerts_wf (set_alerts (alerts d ++ [row]) (set_seq (seq d + 1) d)).
Proof.
  intros [Hi Hn Hnm Hids Hfr Hfk Hone] Hid Hhost Hfree. constructor; cbn; try done.
  - rewrite map_app. apply NoDup_app. split_and!; [done| |apply NoDup_singleton].
    intros x Hx. apply list_elem_of_fmap in Hx as (a & -> & Ha). cbn. rewrite list_elem_of_singleton, Hid.
    specialize (Hfr a Ha). lia.
  - intros a [Ha| ->%list_elem_of_singleton]%elem_of_app; [specialize (Hfr a Ha)|rewrite Hid]; lia.
  - intros a i [Ha| ->%list_elem_of_singleton]%elem_of_app; [by apply Hfk|apply Hhost].
  - unfold open_taken in Hfree. rewrite exists_where_false in Hfree.
    assert (Hnew : ∀ a, a ∈ alerts d → is_open a = true → open_key a ≠ open_key row).
    { intros a Ha Ho E. specialize (Hfree a Ha). rewrite Ho, (bool_decide_true _ E) in Hfree. done. }
    intros a b [Ha| ->%list_elem_of_singleton]%elem_of_app [Hb| ->%list_elem_of_singleton]%elem_of_app Hoa Hob Hk;
      [by apply Hone|by destruct (Hnew a)|by destruct (Hnew b)|done].
Qed.

Lemma alerts_wf_seq d n : seq d ≤ n → alerts_wf d → alerts_wf (set_seq n d).
Proof.
  intros Hle [Hi Hn Hnm Hids Hfr Hfk Hone]. constructor; cbn; try done.
  intros a Ha. specialize (Hfr a Ha). lia.
Qed.

(** ** The laws *)

Section LawProofs.
Context `{StoreClock, ForecastRows}.

Lemma db_open_law d k a : alerts_wf d → open_at d k = Ok (Some a) → alert_Target a = k.2.
Proof. intros Hwf (r & Hr & <- & _ & ->)%(open_at_some d k Hwf). done. Qed.

Lemma db_create_law d d' a r : alerts_wf d → CreateAlert a d = (r, d') → alerts_wf d' ∧
  match r with
  | Ok id => same_elsewhere d d' (key_of_alert a) ∧
      ∃ a', open_at d' (key_of_alert a) = Ok (Some a') ∧ alert_ID a' = id ∧ alert_Severity a' = alert_Severity a
  | Err _ => True
  end.
Proof.
  intros Hwf. unfold CreateAlert.
  assert (Hhost : ∀ hid, (if str_eq (alert_Host a) "" then Ok None else rbind (hostID d (alert_Host a)) (λ id, Ok (Some id))) = Ok hid →
    host_name_of d hid = alert_Host a ∧ ∀ i, hid = Some i → i ∈ map h_id (hosts d)).
  { intros hid. destruct (str_eq (alert_Host a) "") eqn:E.
    - apply str_eq_spec in E. intros [= <-]. split; [done|]. intros i Hi. discriminate Hi.
    - destruct (hostID d (alert_Host a)) as [i|] eqn:Eh; [|done]. intros [= <-].
      destruct (hostID_spec d _ i Hwf Eh). split; [done|]. intros j [= <-]. done. }
  destruct (if str_eq (alert_Host a) "" then _ else _) as [hid|err] eqn:Eh; [|by intros [= <- <-]].
  destruct (Hhost hid eq_refl) as [Hname Hfk]. cbn [next_id]. unfold next_id.
  set (row := new_alert (seq d) hid a). set (d1 := set_seq (seq d + 1) d).
  destruct (open_taken (open_key row) d1) eqn:Et.
  { intros [= <- <-]. split; [|done]. apply alerts_wf_seq; [lia|done]. }
  intros [= <- <-].
  assert (Hwf' : alerts_wf (set_alerts (alerts d1 ++ [row]) d1)) by (by apply (alerts_wf_create d row)).
  split; [done|]. set (d' := set_alerts (alerts d1 ++ [row]) d1) in *.
  assert (Hkey : row_key d' row = key_of_alert a).
  { change (row_key d' row) with (host_name_of d hid, alert_Rule a, alert_Metric a, alert_Target a). by rewrite Hname. }
  split.
  - intros k Hk. apply open_at_ext; [done|done|done|]. intros b Hb Ho. cbn. rewrite elem_of_app, list_elem_of_singleton.
    split; [by left|]. intros [Hin| ->]; [done|]. destruct Hk. by rewrite <- Hb, <- Hkey.
  - exists (scanAlert d' row). split_and!; [|done|done]. apply (open_at_some d' _ Hwf').
    exists row. split_and!; try done. cbn. apply elem_of_app. right. by apply list_elem_of_singleton.
Qed.

(** Updating the open alert of a key by its id changes that key only. *)
Lemma db_set_elsewhere d k a f : alerts_wf d → open_at d k = Ok (Some a) →
  (∀ x, al_id (f x) = al_id x ∧ open_key (f x) = open_key x ∧ (is_open (f x) = true → is_open x = true)) →
  let d' := set_alerts (update_where (λ x, al_id x =? alert_ID a) f (alerts d)) d in
  alerts_wf d' ∧ same_elsewhere d d' k
  ∧ ∃ r, r ∈ alerts d ∧ row_key d r = k ∧ is_open r = true ∧ a = scanAlert d r ∧ f r ∈ alerts d'
      ∧ ∀ x, x ∈ alerts d' → row_key d' x = k → is_open x = true → x = f r.
Proof.
  intros Hwf Ha Hf d'. assert (Hwf' : alerts_wf d') by (by apply alerts_wf_update).
  apply (open_at_some d k Hwf) in Ha as (r & Hr & Hk & Ho & ->). cbn [alert_ID scanAlert] in d'.
  assert (Hid : ∀ x, x ∈ alerts d → al_id x = al_id r → x = r).
  { intros x Hx E. by apply (NoDup_map_inj al_id (alerts d) x r (aw_ids d Hwf)). }
  assert (Hrk : ∀ x, row_key d' (f x) = row_key d x).
  { intros x. destruct (Hf x) as (_ & E & _). unfold open_key in E. injection E as E1 E2 E3 E4.
    unfold row_key. rewrite E1, E2, E3, E4. done. }
  assert (Hin : ∀ x, x ∈ alerts d' ↔ ∃ y, y ∈ alerts d ∧ x = if al_id y =? al_id r then f y else y).
  { intros x. apply elem_of_update_where. }
  split_and!; [done| |].
  - intros k' Hk'. apply open_at_ext; [done..|]. intros x Hx Hxo. rewrite Hin. split.
    + intros Hxin. exists x. split; [done|]. destruct (Z.eqb_spec (al_id x) (al_id r)) as [E|]; [|done].
      rewrite (Hid x Hxin E), Hk in Hx. congruence.
    + intros (y & Hy & ->). destruct (Z.eqb_spec (al_id y) (al_id r)) as [E|]; [|done].
      exfalso. apply Hk'. rewrite <- Hx, <- Hk, (Hid y Hy E). apply Hrk.
  - exists r. split_and!; [done..| |].
    + apply Hin. exists r. by rewrite Z.eqb_refl.
    + intros x (y & Hy & ->)%Hin Hxk Hxo. destruct (Z.eqb_spec (al_id y) (al_id r)) as [E|Hne]; [by rewrite (Hid y Hy E)|].
      destruct Hne. f_equal. apply (aw_one d Hwf); [done..|]. apply (row_key_inj d); [done..|]. by rewrite Hk, <- Hxk.
Qed.

Lemma db_update_law d d' k a sev v t r : alerts_wf d → open_at d k = Ok (Some a) →
  UpdateAlert (alert_ID a) sev v t d = (r, d') → alerts_wf d' ∧
  match r with
  | Ok _ => same_elsewhere d d' k ∧
      ∃ a', open_at d' k = Ok (Some a') ∧ alert_ID a' = alert_ID a ∧ alert_Severity a' = sev
  | Err _ => True
  end.
Proof.
  intros Hwf Ha. unfold UpdateAlert. intros [= <- <-].
  destruct (db_set_elsewhere d k a (λ x, alert_set sev v t (al_resolved_at x) x) Hwf Ha) as (Hwf' & Hse & x & Hx & Hk & Ho & -> & Hin & _);
    [intros x; by split_and!|].
  split_and!; [done..|]. eexists. split_and!; [apply (open_at_some _ _ Hwf')|..].
  - eexists. split_and!; [exact Hin|exact Hk|exact Ho|reflexivity].
  - done.
  - done.
Qed.

Lemma db_resolve_law d d' k a v t r : alerts_wf d → open_at d k = Ok (Some a) →
  ResolveAlert (alert_ID a) v t d = (r, d') → alerts_wf d' ∧
  match r with
  | Ok _ => same_elsewhere d d' k ∧ open_at d' k = Ok None
  | Err _ => True
  end.
Proof.
  intros Hwf Ha. unfold ResolveAlert. intros [= <- <-].
  destruct (db_set_elsewhere d k a (λ x, alert_set (al_severity x) v t (Some t) x) Hwf Ha) as (Hwf' & Hse & x & Hx & Hk & Ho & -> & Hin & Hall);
    [intros x; by split_and!|].
  split_and!; [done..|]. apply open_at_none. intros y Hy Hyk. destruct (is_open y) eqn:Hyo; [|done].
  by rewrite (Hall y Hy Hyk Hyo) in Hyo.
Qed.

Lemma db_notify_law d n : alerts_wf d → alerts_wf (st_notify n d) ∧ ∀ k, open_at (st_notify n d) k = open_at d k.
Proof.
  intros Hwf. destruct (queueNotice_frame store_now n d) as (rows & E & _).
  assert (Hwf' : alerts_wf (st_notify n d)).
  { cbn [st_notify DB_AlertStore]. rewrite E. apply (alerts_wf_ext d); [done|done|cbn; lia|done]. }
  split; [done|]. intros k. apply open_at_ext; [done|done|..]; cbn [st_notify DB_AlertStore]; by rewrite E.
Qed.

Lemma open_filter_spec d rule a :
  filter_matches d {| filter_Host := ""; filter_Rule := rule; filter_OpenOnly := true;
                      filter_From := zero_time; filter_To := zero_time |} a = true
  ↔ (rule = "" ∨ al_rule a = rule) ∧ is_open a = true.
Proof.
  unfold filter_matches. cbn. rewrite str_eq_refl, !andb_true_r. cbn [orb andb].
  rewrite andb_true_iff, orb_true_iff, !str_eq_spec. tauto.
Qed.

Lemma db_alerts_law d rule l : alerts_wf d →
  Alerts d {| filter_Host := ""; filter_Rule := rule; filter_OpenOnly := true;
              filter_From := zero_time; filter_To := zero_time |} = l →
  (∀ a, a ∈ l → open_at d (key_of_alert a) = Ok (Some a)) ∧ NoDup (map key_of_alert l)
  ∧ (rule ≠ "" → (∀ a, a ∈ l → alert_Rule a = rule)
       ∧ ∀ k a, k.1.1.2 = rule → open_at d k = Ok (Some a) → a ∈ l ∧ key_of_alert a = k).
Proof.
  intros Hwf <-. unfold Alerts. set (f := {| filter_Host := "" |}).
  set (rows := stable_sort _ _).
  assert (Hrows : ∀ r, r ∈ rows ↔ r ∈ alerts d ∧ (rule = "" ∨ al_rule r = rule) ∧ is_open r = true).
  { intros r. unfold rows. rewrite elem_of_stable_sort, elem_of_select_where. subst f. by rewrite open_filter_spec. }
  split_and!.
  - intros a (r & -> & Hr)%list_elem_of_fmap. apply Hrows in Hr as (Hr & Hrule & Ho).
    apply (open_at_some d _ Hwf). exists r. done.
  - rewrite map_map. change (NoDup (map (row_key d) rows)).
    assert (Hnd : NoDup rows).
    { unfold rows. rewrite stable_sort_perm. apply NoDup_ListNoDup, List.NoDup_filter, NoDup_ListNoDup.
      eapply NoDup_fmap_1. apply (aw_ids d Hwf). }
    revert Hnd Hrows. generalize rows. clear rows. intros rows Hnd Hrows.
    assert (Hsub : ∀ r, r ∈ rows → r ∈ alerts d ∧ is_open r = true) by (intros r Hr; apply Hrows in Hr; tauto).
    clear Hrows. induction Hnd as [|r rows Hr Hnd IH]; [constructor|]. cbn. constructor.
    + intros (r' & E & Hr')%list_elem_of_fmap. destruct (Hsub r ltac:(by left)), (Hsub r' ltac:(by right)).
      apply Hr. rewrite (aw_one d Hwf r r'); [done..|]. by apply (row_key_inj d).
    + apply IH. intros x Hx. apply Hsub. by right.
  - intros Hne. split.
    + intros a (r & -> & Hr)%list_elem_of_fmap. apply Hrows in Hr as (_ & [?|Hrule] & _); done.
    + intros k a Hk (r & Hr & <- & Ho & ->)%(open_at_some d k Hwf). split; [|done].
      apply list_elem_of_fmap_2, Hrows. split_and!; [done|by right|done].
Qed.

#[export] Instance DB_AlertStoreLaws : AlertStoreLaws DB := {
  st_inv := alerts_wf;
  open_law := db_open_law;
  create_law := db_create_law;
  update_law := db_update_law;
  resolve_law := db_resolve_law;
  notify_law := db_notify_law;
  alerts_law d rule l Hwf E := db_alerts_law d rule l Hwf ltac:(by injection E) }.
End LawProofs.
