(* ===== verification/Alerting.v ===== *)
(** * The alert checker on the database: what people hear of it.

    [handleAlerts_round] is one tick of handleAlerts (src/collector/alerts.go)
    against the database: the enabled rules and the hosts are read, every
    rule is evaluated, and the notices go to [queueNotice].  [alert_writes] is
    a trace of what an evaluator does to its store: each change of an alert
    followed by its notice.  The trace carries the end-to-end property: no
    alert opens, changes or resolves without a message for every channel that
    should hear of it, and no channel hears of anything else. *)
From S2P Require Import Prelude GoStrings GoFloat GoTime Errors Monitor Alerts Json Notify Kube Database StoreHosts.
From S2P Require Import StoreAlerts StoreKube StoreRules StoreForecast StoreNotifications Texts Evaluator Notices NoticesProps.
From S2P Require Import EvaluatorSpec EvaluatorStore.
Local Open Scope Z_scope.

(** One tick of handleAlerts; the store's clock is the evaluator's. *)
Definition handleAlerts_round `{ForecastRows} (now : time) (e : evaluator DB) : evaluator DB :=
  let d := ev_store e in
  @alert_round DB (@DB_AlertStore now _) now (EnabledRules d) (map host_Name (Hosts d)) e.

(** ** Traces of an evaluator's writes *)

Section Writes.
Context {W : Type} `{AlertStoreLaws W}.
(** The rules being evaluated *)
Variable rules : AlertConfig → Prop.
Implicit Types e : evaluator W.

(** A change of an alert with the notice that follows it, or a change that
    failed and is not told. *)
Inductive alert_write : W → list notice → W → Prop :=
  | write_opened w w1 a id n :
      st_CreateAlert a w = (Ok id, w1) → rules (nt_rule n) →
      alert_Rule a = rule_Name (nt_rule n) → alert_Metric a = rule_MetricName (nt_rule n) →
      nt_alertID n = id → nt_event n = Opened → nt_severity n = alert_Severity a →
      alert_write w [n] (st_notify n w1)
  | write_changed w w1 k a v t n :
      open_at w k = Ok (Some a) → k.1.1.2 = rule_Name (nt_rule n) → k.1.2 = rule_MetricName (nt_rule n) →
      st_UpdateAlert (alert_ID a) (nt_severity n) v t w = (Ok (), w1) → rules (nt_rule n) →
      nt_alertID n = alert_ID a → nt_event n = Changed → nt_severity n ≠ alert_Severity a →
      alert_write w [n] (st_notify n w1)
  | write_resolved w w1 k a v t n :
      open_at w k = Ok (Some a) → st_ResolveAlert (alert_ID a) v t w = (Ok (), w1) →
      nt_alertID n = alert_ID a → nt_event n = Resolved → nt_severity n = SeverityResolved →
      alert_write w [n] (st_notify n w1)
  | write_create_failed w w1 a err : st_CreateAlert a w = (Err err, w1) → alert_write w [] w1
  | write_update_failed w w1 id s v t err : st_UpdateAlert id s v t w = (Err err, w1) → alert_write w [] w1
  | write_resolve_failed w w1 id v t err : st_ResolveAlert id v t w = (Err err, w1) → alert_write w [] w1.

Inductive alert_writes : W → list notice → W → Prop :=
  | writes_nil w : alert_writes w [] w
  | writes_snoc w ns w1 ns1 w2 : alert_writes w ns w1 → alert_write w1 ns1 w2 → alert_writes w (ns ++ ns1) w2.

Lemma writes_app w1 ns1 w2 ns2 w3 : alert_writes w1 ns1 w2 → alert_writes w2 ns2 w3 → alert_writes w1 (ns1 ++ ns2) w3.
Proof.
  intros H1 H2. revert H1. induction H2 as [w|w ns w' ns' w'' Hs IH Hw]; intros H1; [by rewrite app_nil_r|].
  rewrite app_assoc. eapply writes_snoc; eauto.
Qed.

(** What an evaluator has done between two moments. *)
Definition emits e e' : Prop :=
  ∃ ns, ev_sent e' = ev_sent e ++ ns ∧ alert_writes (ev_store e) ns (ev_store e').

Lemma emits_same e e' : ev_sent e' = ev_sent e → ev_store e' = ev_store e → emits e e'.
Proof. intros E1 E2. exists []. rewrite E1, E2, app_nil_r. split; [done|constructor]. Qed.

#[local] Instance emits_preorder : PreOrder emits.
Proof.
  split; [intros e; by apply emits_same|].
  intros e1 e2 e3 (ns1 & E1 & H1) (ns2 & E2 & H2). exists (ns1 ++ ns2).
  rewrite E2, E1, app_assoc. split; [done|]. eapply writes_app; eauto.
Qed.

Lemma emits_one e e' ns : ev_sent e' = ev_sent e ++ ns → alert_write (ev_store e) ns (ev_store e') → emits e e'.
Proof. intros E Hw. exists ns. split; [done|]. apply (writes_snoc _ [] (ev_store e)); [constructor|done]. Qed.

Lemma message_fields rule host target id ev status v t e :
  let n := message rule host target id ev status v t e in
  nt_rule n = rule ∧ nt_alertID n = id ∧ nt_event n = ev ∧ nt_severity n = status_int status.
Proof. unfold message. by set (x := if contains _ _ then _ else _); destruct x. Qed.

Ltac step_monad := unfold mbind, SM_bind, sbind, mret, SM_ret, sret, on_store, read_store, sget, smodify, sfail; cbv beta iota.

Lemma updateOpen_emits rule host key a status v t e : rules rule →
  (∃ target, open_at (ev_store e) (rule_key rule host target) = Ok (Some a)) →
  emits e (updateOpen rule host key a status v t e).2.
Proof.
  intros Hrule (target & Hopen). unfold updateOpen.
  assert (Hchanged : status ≠ Normal → emits e ((delete_pending key;;
      if status_int status =? alert_Severity a then mret ()
      else on_store (st_UpdateAlert (alert_ID a) (status_int status) v t);;
           send rule host (alert_Target a) (alert_ID a) Changed status v t) e).2).
  { intros _. unfold send, delete_pending. step_monad.
    destruct (Z.eqb_spec (status_int status) (alert_Severity a)) as [|Hne]; [by apply emits_same|].
    cbn [ev_store with_pending]. destruct (st_UpdateAlert _ _ _ _ (ev_store e)) as [[[]|err] w'] eqn:Eu.
    - eapply emits_one; [reflexivity|]. unfold notify, smodify. cbn [snd ev_store with_store with_sent].
      edestruct message_fields as (E1 & E2 & E3 & E4).
      eapply write_changed; rewrite ?E1, ?E2, ?E3, ?E4; eauto; done.
    - eapply emits_one; [cbn; by rewrite app_nil_r|]. eapply write_update_failed, Eu. }
  destruct status; [|by apply Hchanged..]. clear Hchanged.
  unfold send, set_pending, delete_pending. step_monad.
  destruct (ev_pending e !! key) as [[[] since]|]; try by apply emits_same.
  destruct (_ <? _); [by apply emits_same|].
  destruct (st_ResolveAlert _ _ _ (ev_store e)) as [[[]|err] w'] eqn:Er.
  - eapply emits_one; [reflexivity|]. cbn [snd ev_store with_store with_sent with_pending notify smodify].
    edestruct message_fields as (E1 & E2 & E3 & E4). eapply write_resolved; [exact Hopen|exact Er|done..].
  - eapply emits_one; [cbn; by rewrite app_nil_r|]. eapply write_resolve_failed, Er.
Qed.

Lemma openIfBreached_emits rule host target key status v t e : rules rule →
  emits e (openIfBreached rule host target key status v t e).2.
Proof.
  intros Hrule. unfold openIfBreached.
  assert (Hopen : ∀ since, emits e ((if time_sub t since <? triggerInterval rule then mret ()
       else id ← on_store (st_CreateAlert (alert_to_open rule host target status v t));
            delete_pending key;;
            send rule host target id Opened status v t) e).2).
  { intros since. destruct (_ <? _); [by apply emits_same|]. unfold send, delete_pending. step_monad.
    destruct (st_CreateAlert _ (ev_store e)) as [[id|err] w'] eqn:Ec.
    - eapply emits_one; [reflexivity|]. cbn [snd ev_store with_store with_sent with_pending notify smodify].
      edestruct message_fields as (E1 & E2 & E3 & E4).
      eapply write_opened; rewrite ?E1, ?E2, ?E3, ?E4; eauto; done.
    - eapply emits_one; [cbn; by rewrite app_nil_r|]. eapply write_create_failed, Ec. }
  destruct status; [by apply emits_same|..]; unfold mbind at 1, SM_bind, sbind, sget; cbv beta iota;
    (destruct (ev_pending e !! key) as [[[] since]|]; [by apply emits_same|apply Hopen|apply Hopen|by apply emits_same]).
Qed.

Lemma check_emits rule host target v t e : rules rule → emits e (check rule host target v t e).2.
Proof.
  intros Hrule. unfold check. unfold mbind, SM_bind, sbind, sget, smodify, read_store. cbv beta iota zeta.
  destruct (match ev_checked e !! _ with Some _ => _ | None => _ end); [by apply emits_same|].
  set (e1 := with_checked _ e). trans e1; [by apply emits_same|].
  destruct (st_OpenAlert (ev_store e1) _ _ _ _) as [[a|]|err] eqn:Ho.
  - apply updateOpen_emits; [done|]. by exists target.
  - by apply openIfBreached_emits.
  - by apply emits_same.
Qed.

Lemma check_targets_emits rule at_ targets : rules rule → ∀ e, emits e (check_targets rule at_ targets e).2.
Proof.
  intros Hrule. induction targets as [|t targets IH]; intros e; [by apply emits_same|].
  cbn [check_targets]. unfold mbind, SM_bind, sbind, smodify. cbv beta iota. set (e1 := with_reasons _ e).
  trans e1; [by apply emits_same|]. pose proof (check_emits rule "" (kt_target t) (kt_value t) at_ e1 Hrule) as Hc.
  destruct (check rule "" (kt_target t) (kt_value t) at_ e1) as [[[]|err] e2]; [|done]. trans e2; [done|apply IH].
Qed.

Lemma resolve_gone_emits rule present at_ open : ∀ e,
  st_inv (ev_store e) → NoDup (map key_of_alert open) →
  (∀ a, a ∈ open → open_at (ev_store e) (key_of_alert a) = Ok (Some a)) →
  emits e (resolve_gone_from rule present at_ open e).2.
Proof.
  induction open as [|a open IH]; intros e Hinv Hnd Hopen; [by apply emits_same|].
  cbn [map] in Hnd. apply NoDup_cons in Hnd as [Ha Hnd]. cbn [resolve_gone_from].
  destruct (_ || _); [apply IH; try done; intros b Hb; apply Hopen; by right|]. unfold notify. step_monad.
  destruct (st_ResolveAlert _ _ _ (ev_store e)) as [[[]|err] w'] eqn:Er.
  - destruct (resolve_law _ _ _ _ _ _ _ Hinv (Hopen a ltac:(by left)) Er) as (Hinv' & Hsame & _).
    destruct (kubeGoneText rule (alert_Target a) at_) as [subject body]. cbv beta iota. etrans; [|apply IH].
    + eapply emits_one; [reflexivity|]. cbn [snd ev_store with_store with_sent with_pending].
      edestruct message_fields as (E1 & E2 & E3 & E4).
      eapply write_resolved; [by apply Hopen; left|exact Er|cbn [nt_alertID nt_event nt_severity]; done..].
    + cbn [ev_store with_store with_sent]. by apply notify_law.
    + done.
    + intros b Hb. cbn [ev_store with_store with_sent].
      match goal with |- context [st_notify ?x w'] => destruct (notify_law w' x Hinv') as [_ Htold] end.
      rewrite Htold, Hsame; [apply Hopen; by right|]. intros E. apply Ha. rewrite <- E. by apply list_elem_of_fmap_2.
  - eapply emits_one; [cbn; by rewrite app_nil_r|]. eapply write_resolve_failed, Er.
Qed.

Lemma resolveGone_emits rule targets at_ e : st_inv (ev_store e) → emits e (resolveGone rule targets at_ e).2.
Proof.
  intros Hinv. unfold resolveGone, mbind, SM_bind, sbind, read_store, smodify. cbv zeta.
  destruct (st_Alerts (ev_store e) _) as [open|err] eqn:Eo; [|by apply emits_same].
  destruct (alerts_law _ _ _ Hinv Eo) as (Hopen & Hnd & _).
  pose proof (resolve_gone_emits rule (map kt_target targets) at_ open e Hinv Hnd Hopen) as Hg.
  destruct (resolve_gone_from rule (map kt_target targets) at_ open e) as [[[]|err] e2]; [|done].
  trans e2; [done|]. by apply emits_same.
Qed.

Lemma evaluateCluster_emits now rule e : rules rule → st_inv (ev_store e) → emits e (evaluateCluster now rule e).2.
Proof.
  intros Hrule Hinv. unfold evaluateCluster, mbind, SM_bind, sbind, stry, read_store, sfail, mret, SM_ret, sret.
  destruct (st_Cluster _ _) as [cluster|[]]; try by apply emits_same.
  destruct (Stale cluster now); [by apply emits_same|].
  set (at_ := unix_time (cs_Time (kc_State cluster))).
  assert (Hmain : ∀ targets, emits e
    (match check_targets rule at_ targets e with
      | (Ok _, s') => resolveGone rule targets at_ s'
      | (Err err, s') => (Err err, s') end).2);
    [|by destruct (str_eq _ _); [destruct (st_RestartsSince _ _ _); [apply Hmain|apply emits_same]|apply Hmain]].
  intros targets. pose proof (check_targets_emits rule at_ targets Hrule e) as Hc.
  pose proof (check_targets_inv rule at_ targets e Hinv) as Hinv1.
  destruct (check_targets rule at_ targets e) as [[[]|err] e1]; [|done]. trans e1; [done|]. by apply resolveGone_emits.
Qed.

Lemma latest_sent now rule host target e : ev_sent (latest now rule host target e).2 = ev_sent e.
Proof.
  unfold latest, mbind, SM_bind, sbind, read_store, smodify, sfail.
  destruct (str_eq _ ENDPOINT); [by destruct (st_LatestEndpointCheck _ _)|].
  destruct (str_eq _ CERTIFICATE); [by destruct (st_LatestCertificate _ _)|].
  destruct (str_eq _ DISK_FORECAST); [by destruct (st_DaysUntilFull _ _ _)|].
  destruct (str_eq _ PING); cbn [negb]; [|done].
  destruct (st_LastSeen _ _); [|done]. by destruct (is_zero _).
Qed.

Lemma evaluate_emits now rule host e : rules rule → st_inv (ev_store e) → emits e (evaluate now rule host e).2.
Proof.
  intros Hrule Hinv. unfold evaluate. destruct (IsKube _); [by apply evaluateCluster_emits|].
  unfold mbind, SM_bind, sbind, stry, sfail, mret, SM_ret, sret.
  pose proof (emits_same _ _ (latest_sent now rule host (ruleTarget rule) e) (latest_store now rule host (ruleTarget rule) e)) as Hl.
  destruct (latest now rule host (ruleTarget rule) e) as [[[v t]|[]] e1]; try done. trans e1; [done|]. by apply check_emits.
Qed.
End Writes.

(** One round evaluates its rules and their certificate rules. *)
Definition in_round (rules : list AlertConfig) (rule : AlertConfig) : Prop :=
  ∃ r, r ∈ rules ∧ (rule = r ∨ certificateRule r = Some rule).

Lemma fold_emits {W} `{AlertStoreLaws W} {A} P (f : evaluator W → A → evaluator W) l :
  (∀ x e, x ∈ l → st_inv (ev_store e) → emits P e (f e x) ∧ st_inv (ev_store (f e x))) →
  ∀ e, st_inv (ev_store e) → emits P e (fold_left f l e) ∧ st_inv (ev_store (fold_left f l e)).
Proof.
  induction l as [|x l IH]; intros Hf e Hinv; [by split; [apply emits_same|]|]. cbn.
  destruct (Hf x e ltac:(by left) Hinv) as [Hx Hinv1].
  destruct (IH (λ y e Hy, Hf y e ltac:(by right)) _ Hinv1) as [Hl Hinv2].
  split; [|done]. by eapply (emits_preorder P).
Qed.

Lemma alert_round_emits {W} `{AlertStoreLaws W} now rules names (e : evaluator W) : st_inv (ev_store e) →
  emits (in_round rules) e (alert_round now rules names e).
Proof.
  intros Hinv. apply fold_emits; [|done]. clear e Hinv. intros rule e Hrule Hinv. split; [|by apply evaluate_rule_inv].
  unfold evaluate_rule.
  destruct (fold_emits (in_round rules) (λ e host, evaluate_logged now rule host e) (ruleHosts rule names)
    (λ host e _ He, conj (evaluate_emits _ now rule host e (ex_intro _ rule (conj Hrule (or_introl eq_refl))) He)
                         (evaluate_inv now rule host e He)) e Hinv) as [Hhosts Hinv1].
  destruct (certificateRule rule) as [c|] eqn:Ec; [|done].
  eapply (emits_preorder _); [exact Hhosts|]. apply evaluate_emits; [|done]. exists rule. by split; [|right].
Qed.

(** ** What CreateAlert does *)

Lemma CreateAlert_ok d d1 a id : CreateAlert a d = (Ok id, d1) →
  ∃ hid, d1 = set_alerts (alerts d ++ [new_alert id hid a]) (set_seq (seq d + 1) d) ∧ id = seq d.
Proof.
  unfold CreateAlert. destruct (if str_eq (alert_Host a) "" then _ else _) as [hid|err]; [|done].
  unfold next_id. destruct (open_taken _ _); [done|]. intros [= <- <-]. by exists hid.
Qed.

Lemma CreateAlert_err d d1 a err : CreateAlert a d = (Err err, d1) → d1 = d ∨ d1 = set_seq (seq d + 1) d.
Proof.
  unfold CreateAlert. destruct (if str_eq (alert_Host a) "" then _ else _) as [hid|e]; [|intros [= _ <-]; by left].
  unfold next_id. destruct (open_taken _ _); [|done]. intros [= _ <-]. by right.
Qed.

(** ** The trace on the database: every change of an alert is told *)

Section Told.
Context `{StoreClock, ForecastRows}.
Variable rules : AlertConfig → Prop.
Variable d0 : DB.

(** The channels that hear of an alert of the rule at a severity. *)
Definition hears (rule : AlertConfig) (severity : Z) (c : ChannelRow) : Prop :=
  ch_enabled c = true ∧ wants rule (scan_channel d0 c) ∧ (ch_skip_warnings c = true → SeverityCritical ≤ severity).

(** A message waiting for a channel. *)
Definition message_for (c : ChannelRow) (id : Z) (n : NoteRow) : Prop :=
  no_alert_id n = id ∧ no_channel_id n = ch_id c ∧ is_pending n = true.

(** The alert is new, or its severity is not what it was. *)
Definition level_changed (a : AlertRow) : Prop := ∀ b, b ∈ alerts d0 → al_id b = al_id a → al_severity b ≠ al_severity a.
(** The alert was not resolved before. *)
Definition was_open (a : AlertRow) : Prop := ∀ b, b ∈ alerts d0 → al_id b = al_id a → is_open b = true.

(** *** The whole story of a round

    What becomes of the table of alerts step by step, with the messages of
    each step: exactly one, pending, for each channel the step is for. *)

(** The messages [new] about an alert: one for each channel with [P]. *)
Definition told_to (P : ChannelRow → Prop) (event : string) (severity id : Z) (new : list NoteRow) : Prop :=
  Forall (λ r, no_alert_id r = id ∧ no_event r = event ∧ no_severity r = severity ∧ is_pending r = true) new
  ∧ (∀ i, i ∈ map no_channel_id new ↔ ∃ c, c ∈ channels d0 ∧ ch_id c = i ∧ P c)
  ∧ (NoDup (map ch_id (channels d0)) → NoDup (map no_channel_id new)).

(** The channel got a message about the alert, in [rows] or before. *)
Definition heard (rows : list NoteRow) (id : Z) (c : ChannelRow) : Prop :=
  ch_enabled c = true ∧ ∃ p, p ∈ notifications d0 ++ rows ∧ no_alert_id p = id ∧ no_channel_id p = ch_id c.

(** A rule that watches what the alert is about *)
Definition rule_of (rule : AlertConfig) (a : AlertRow) : Prop :=
  rules rule ∧ al_rule a = rule_Name rule ∧ al_metric a = rule_MetricName rule.

Definition set_alert (id : Z) (f : AlertRow → AlertRow) (l : list AlertRow) : list AlertRow :=
  update_where (λ x, al_id x =? id) f l.

Inductive story : list AlertRow → list NoteRow → Prop :=
  | Story_start : story (alerts d0) []
  | Story_opened l rows rule a new : story l rows → rule_of rule a → al_id a ∉ map al_id l → is_open a = true →
      told_to (hears rule (al_severity a)) Opened (al_severity a) (al_id a) new → story (l ++ [a]) (rows ++ new)
  | Story_changed l rows rule a severity v t new : story l rows → rule_of rule a → a ∈ l → is_open a = true →
      severity ≠ al_severity a → told_to (hears rule severity) Changed severity (al_id a) new →
      story (set_alert (al_id a) (λ x, alert_set severity v t (al_resolved_at x) x) l) (rows ++ new)
  | Story_resolved l rows a v t new : story l rows → a ∈ l → is_open a = true →
      told_to (heard rows (al_id a)) Resolved SeverityResolved (al_id a) new →
      story (set_alert (al_id a) (λ x, alert_set (al_severity x) v t (Some t) x) l) (rows ++ new).

(** What the messages [rows] queued since [d0] say of the alerts of [d]. *)
Record told (d : DB) (rows : list NoteRow) : Prop := {
  td_wf : alerts_wf d;
  td_seq : seq d0 ≤ seq d;
  td_notes : notifications d = notifications d0 ++ rows;
  td_channels : channels d = channels d0;
  td_level a : a ∈ alerts d → is_open a = true → level_changed a →
    ∃ rule, rules rule ∧ rule_Name rule = al_rule a ∧ rule_MetricName rule = al_metric a ∧
      ∀ c, c ∈ channels d0 → hears rule (al_severity a) c →
        ∃ n, n ∈ rows ∧ message_for c (al_id a) n ∧ no_event n ∈ [Opened; Changed] ∧ no_severity n = al_severity a;
  td_resolved a : a ∈ alerts d → is_open a = false → was_open a → ∀ c, c ∈ channels d0 → ch_enabled c = true →
    (∃ p, p ∈ notifications d ∧ no_alert_id p = al_id a ∧ no_channel_id p = ch_id c) →
    ∃ n, n ∈ rows ∧ message_for c (al_id a) n ∧ no_event n = Resolved;
  td_story : story (alerts d) rows }.

Lemma told_start : alerts_wf d0 → told d0 [].
Proof.
  intros Hwf. constructor; try done; [by rewrite app_nil_r|..].
  - intros a Ha _ Hl. by destruct (Hl a Ha eq_refl).
  - intros a Ha Hc Ho. specialize (Ho a Ha eq_refl). congruence.
  - constructor.
Qed.

(** Who a notice goes to, in terms of the rows of the tables. *)
Lemma queued_ids_spec d n i : channels d = channels d0 → i ∈ queued_ids d n ↔ ∃ c, c ∈ channels d0 ∧ ch_id c = i ∧
  if str_eq (nt_event n) Resolved
  then ch_enabled c = true ∧ ∃ p, p ∈ notifications d ∧ no_alert_id p = nt_alertID n ∧ no_channel_id p = i
  else hears (nt_rule n) (nt_severity n) c.
Proof.
  intros Ec. unfold queued_ids, pickChannels, Channels. rewrite list_elem_of_fmap.
  assert (Hp : ∀ c, channel_ID (scan_channel d c) = i →
    picks (nt_rule n) (nt_event n) (nt_severity n)
      (if str_eq (nt_event n) Resolved then NotifiedChannels d (nt_alertID n) else []) (scan_channel d c) = true ↔
    if str_eq (nt_event n) Resolved
    then ch_enabled c = true ∧ ∃ p, p ∈ notifications d ∧ no_alert_id p = nt_alertID n ∧ no_channel_id p = i
    else hears (nt_rule n) (nt_severity n) c).
  { intros c Hi. rewrite picks_spec, Hi. destruct (str_eq (nt_event n) Resolved); [|done].
    unfold NotifiedChannels. rewrite elem_of_stable_sort, elem_of_remove_dups, list_elem_of_fmap.
    apply Morphisms_Prop.and_iff_morphism; [done|]. apply exist_proper. intros p. rewrite elem_of_select_where.
    split; intros (? & ? & ?); split_and!; (done || lia). }
  split.
  - intros (c & -> & Hc). apply list_elem_of_filter_b in Hc as [Hc Hq].
    apply list_elem_of_fmap in Hc as (r & -> & Hr). rewrite elem_of_stable_sort, Ec in Hr.
    exists r. split_and!; [done|done|]. by apply Hp.
  - intros (c & Hc & Hi & Hq). exists (scan_channel d c). split; [done|]. apply list_elem_of_filter_b. split.
    + apply list_elem_of_fmap_2. by rewrite elem_of_stable_sort, Ec.
    + by apply Hp.
Qed.

Lemma queued_ids_nodup d n : NoDup (map ch_id (channels d)) → NoDup (queued_ids d n).
Proof.
  intros Hnd. unfold queued_ids, pickChannels. apply NoDup_map_filter. unfold Channels. rewrite map_map.
  change (NoDup (map ch_id (stable_sort (λ a b, string_leb (ch_name a) (ch_name b)) (channels d)))).
  by rewrite stable_sort_perm.
Qed.

(** Everybody a notice is for, given the messages of the round so far *)
Definition audience (rows : list NoteRow) (n : notice) (c : ChannelRow) : Prop :=
  if str_eq (nt_event n) Resolved then heard rows (nt_alertID n) c else hears (nt_rule n) (nt_severity n) c.

(** A notice about an alert of the table is queued for everybody it is for,
    and for nobody else. *)
Lemma notify_rows d n rows : channels d = channels d0 → notifications d = notifications d0 ++ rows →
  nt_alertID n ∈ map al_id (alerts d) → ∃ new, st_notify n d = add_notes new d ∧
    told_to (audience rows n) (nt_event n) (nt_severity n) (nt_alertID n) new.
Proof.
  intros Ec En Hin. destruct (queueNotice_frame store_now n d) as (new & E & Hnew). exists new. split; [exact E|].
  rewrite decide_True in Hnew by done. subst new. split_and!.
  - eapply Forall_impl; [apply queued_Forall|]. cbn. intros r (E1 & E2 & E3 & E4 & _). by split_and!.
  - intros i. rewrite queued_channels, (queued_ids_spec d n i Ec). apply exist_proper. intros c. unfold audience, heard.
    rewrite En. destruct (str_eq _ _); [|done]. split; intros (Hc & <- & Hq); (split; [done|]); (split; [done|exact Hq]).
  - intros Hnd. rewrite queued_channels. apply queued_ids_nodup. by rewrite Ec.
Qed.

Lemma told_to_message P ev sev id new c : told_to P ev sev id new → c ∈ channels d0 → P c →
  ∃ r, r ∈ new ∧ message_for c id r ∧ no_event r = ev ∧ no_severity r = sev.
Proof.
  intros (Hall & Hids & _) Hc HP.
  pose proof (proj2 (Hids (ch_id c)) (ex_intro _ c (conj Hc (conj eq_refl HP)))) as (r & Ei & Hr)%list_elem_of_fmap.
  rewrite Forall_forall in Hall. destruct (Hall r Hr) as (E1 & E2 & E3 & E4). exists r. unfold message_for. by split_and!.
Qed.

(** One change of the alerts of [d] into those of [d1], and the notice that
    follows it. *)
Lemma told_step d d1 rows n : told d rows → alerts_wf d1 → seq d ≤ seq d1 →
  notifications d1 = notifications d → channels d1 = channels d → nt_alertID n ∈ map al_id (alerts d1) →
  (∀ a, a ∈ alerts d1 → al_id a ≠ nt_alertID n → a ∈ alerts d) →
  (∀ a, a ∈ alerts d1 → al_id a = nt_alertID n →
     if is_open a
     then nt_event n ∈ [Opened; Changed] ∧ nt_severity n = al_severity a
          ∧ rules (nt_rule n) ∧ rule_Name (nt_rule n) = al_rule a ∧ rule_MetricName (nt_rule n) = al_metric a
     else nt_event n = Resolved) →
  (∀ new, told_to (audience rows n) (nt_event n) (nt_severity n) (nt_alertID n) new → story (alerts d1) (rows ++ new)) →
  ∃ new, told (st_notify n d1) (rows ++ new).
Proof.
  intros [Hwf Hseq Hnotes Hch Hlevel Hres _] Hwf1 Hseq1 En Ec Hin Hold Hevent Hstory. rewrite Hch in Ec. rewrite Hnotes in En.
  destruct (notify_rows d1 n rows Ec En Hin) as (new & E & Htold). exists new.
  destruct (db_notify_law d1 n Hwf1) as [Hwf2 _]. rewrite E in *. constructor; cbn; try done.
  - lia.
  - by rewrite En, app_assoc.
  - intros a Ha Ho Hl. destruct (decide (al_id a = nt_alertID n)) as [Ei|Hne].
    + specialize (Hevent a Ha Ei). rewrite Ho in Hevent. destruct Hevent as (Hev & Hsev & Hr & Hn & Hm).
      exists (nt_rule n). split_and!; [done..|]. intros c Hc Hh.
      destruct (told_to_message _ _ _ _ _ c Htold Hc) as (r & Hr' & Hmsg & E1 & E2).
      { unfold audience. rewrite Hsev. by apply elem_of_cons in Hev as [->| ->%list_elem_of_singleton]. }
      exists r. rewrite Ei, E1, E2. split_and!; [apply elem_of_app; by right|done..].
    + destruct (Hlevel a (Hold a Ha Hne) Ho Hl) as (rule & ? & ? & ? & Hc). exists rule. split_and!; [done..|].
      intros c Hcin Hh. destruct (Hc c Hcin Hh) as (r & Hr & ?). exists r. split; [apply elem_of_app; by left|done].
  - intros a Ha Hcl Hwas c Hc Hen (p & Hp & Hpa & Hpc). destruct (decide (al_id a = nt_alertID n)) as [Ei|Hne].
    + specialize (Hevent a Ha Ei). rewrite Hcl in Hevent. rewrite En in Hp. apply elem_of_app in Hp as [Hp|Hp].
      * destruct (told_to_message _ _ _ _ _ c Htold Hc) as (r & Hr & Hmsg & E1 & _).
        { unfold audience. rewrite Hevent, str_eq_refl, <- Ei. split; [done|]. by exists p. }
        exists r. rewrite Ei, E1. split_and!; [apply elem_of_app; by right|done..].
      * destruct Htold as (Hall & _). rewrite Forall_forall in Hall. destruct (Hall p Hp) as (_ & Hpe & _ & Hpend).
        exists p. split; [apply elem_of_app; by right|]. split; [by split_and!|by rewrite Hpe].
    + destruct (Hres a (Hold a Ha Hne) Hcl Hwas c Hc Hen) as (r & Hr & ?).
      { exists p. split_and!; [|done..]. apply elem_of_app in Hp as [Hp|Hp]; [by rewrite Hnotes, <- En|].
        destruct Htold as (Hall & _). rewrite Forall_forall in Hall. destruct (Hall p Hp) as (Hpid & _). congruence. }
      exists r. split; [apply elem_of_app; by left|done].
  - by apply Hstory.
Qed.

(** The three changes of an alert. *)
Lemma told_opened d d1 rows a n : told d rows → CreateAlert a d = (Ok (nt_alertID n), d1) →
  nt_event n = Opened → nt_severity n = alert_Severity a → rules (nt_rule n) →
  alert_Rule a = rule_Name (nt_rule n) → alert_Metric a = rule_MetricName (nt_rule n) →
  ∃ new, told (st_notify n d1) (rows ++ new).
Proof.
  intros Ht Hc He Hs Hr Hn Hm. destruct (db_create_law d d1 a _ (td_wf _ _ Ht) Hc) as [Hwf1 _].
  destruct (CreateAlert_ok d d1 a _ Hc) as (hid & -> & Eid). pose proof (aw_fresh d (td_wf _ _ Ht)) as Hfr.
  eapply (told_step d _ rows n Ht Hwf1); cbn; try done; [lia|..].
  - rewrite map_app. apply elem_of_app. right. by apply list_elem_of_singleton.
  - intros b [Hb| ->%list_elem_of_singleton]%elem_of_app Hne; [done|]. by destruct Hne.
  - intros b [Hb| ->%list_elem_of_singleton]%elem_of_app Ei; [specialize (Hfr b Hb); lia|]. cbn.
    rewrite He, Hs. split_and!; [by left|done..].
  - unfold audience. rewrite He, Hs. intros new Hnew. eapply Story_opened; [apply Ht|by split_and!|..|exact Hnew]; [|done].
    cbn. rewrite Eid. intros (b & Eb & Hb)%list_elem_of_fmap. specialize (Hfr b Hb). lia.
Qed.

(** Setting the open alert of a notice, with the story's step *)
Lemma told_set d rows n k a f : told d rows → open_at d k = Ok (Some a) → nt_alertID n = alert_ID a →
  (∀ x, al_id (f x) = al_id x ∧ open_key (f x) = open_key x ∧ (is_open (f x) = true → is_open x = true)) →
  (∀ r, r ∈ alerts d → a = scanAlert d r → al_id r = nt_alertID n → is_open r = true → row_key d r = k →
     (if is_open (f r)
      then nt_event n ∈ [Opened; Changed] ∧ nt_severity n = al_severity (f r)
           ∧ rules (nt_rule n) ∧ rule_Name (nt_rule n) = al_rule r ∧ rule_MetricName (nt_rule n) = al_metric r
      else nt_event n = Resolved)
     ∧ ∀ new, told_to (audience rows n) (nt_event n) (nt_severity n) (nt_alertID n) new →
         story (set_alert (al_id r) f (alerts d)) (rows ++ new)) →
  ∃ new, told (st_notify n (set_alerts (set_alert (nt_alertID n) f (alerts d)) d)) (rows ++ new).
Proof.
  intros Ht Ho Hi Hf Hstep. pose proof (td_wf _ _ Ht) as Hwf. apply (open_at_some d k Hwf) in Ho as (r & Hr & Hk & Hop & ->).
  cbn in Hi. destruct (Hstep r Hr eq_refl (eq_sym Hi) Hop Hk) as [Hev Hstory].
  eapply (told_step d _ rows n Ht); cbn; try done; unfold set_alert.
  - by apply alerts_wf_update.
  - apply list_elem_of_fmap. exists (f r). split; [rewrite (proj1 (Hf r)); done|].
    apply elem_of_update_where. exists r. split; [done|]. by rewrite Hi, Z.eqb_refl.
  - intros b (x & Hx & ->)%elem_of_update_where. destruct (Z.eqb_spec (al_id x) (nt_alertID n)) as [E|]; [|done].
    intros Hne. destruct Hne. by rewrite (proj1 (Hf x)).
  - intros b (x & Hx & ->)%elem_of_update_where. destruct (Z.eqb_spec (al_id x) (nt_alertID n)) as [E|]; [|done].
    intros _. assert (x = r) as -> by (apply (NoDup_map_inj al_id (alerts d) x r (aw_ids d Hwf)); [done..|]; by rewrite E, Hi).
    destruct (Hf r) as (_ & Ek & _). unfold open_key in Ek. injection Ek as _ Er Em _. by rewrite Er, Em.
  - intros new Hnew. specialize (Hstory new Hnew). unfold set_alert in Hstory. by rewrite <- Hi in Hstory.
Qed.

Lemma told_write d ns d' rows : told d rows → alert_write rules d ns d' → ∃ new, told d' (rows ++ new).
Proof.
  intros Ht Hw. pose proof (td_wf _ _ Ht) as Hwf.
  destruct Hw as [d d1 a id n Hc Hr Hn Hm Hi He Hs|d d1 k a v t n Ho Hn Hm Hu Hr Hi He Hs|d d1 k a v t n Ho Hc Hi He Hs
    |d d1 a err Hc|d d1 id s v t err Hc|d d1 id v t err Hc].
  - subst id. eapply told_opened; eauto.
  - cbn in Hu. unfold UpdateAlert in Hu. injection Hu as <-. rewrite <- Hi.
    apply (told_set d rows n k a); [done|done|done|by intros x; split_and!|].
    intros r Hrin -> Ei Hop <-. change (is_open (alert_set (nt_severity n) v t (al_resolved_at r) r)) with (is_open r).
    rewrite Hop, He. split; [split_and!; [by right; left|done..]|]. unfold audience. rewrite He, <- Ei. intros new Hnew.
    eapply Story_changed; [apply Ht|by split_and!|done|done|exact Hs|exact Hnew].
  - cbn in Hc. unfold ResolveAlert in Hc. injection Hc as <-. rewrite <- Hi.
    apply (told_set d rows n k a); [done|done|done|by intros x; split_and!|].
    intros r Hrin -> Ei Hop <-. change (is_open (alert_set (al_severity r) v t (Some t) r)) with false.
    split; [done|]. unfold audience. rewrite He, Hs, <- Ei. intros new Hnew. eapply Story_resolved; [apply Ht|done|done|exact Hnew].
  - exists []. rewrite app_nil_r. destruct Ht as [? ? ? ? ? ? ?].
    pose proof (db_create_law d d1 a _ Hwf Hc) as [Hwf1 _]. destruct (CreateAlert_err d d1 a _ Hc) as [->| ->]; constructor; cbn; (done || lia).
  - discriminate Hc.
  - discriminate Hc.
Qed.

Lemma told_writes ns d' : alerts_wf d0 → alert_writes rules d0 ns d' → ∃ rows, told d' rows.
Proof.
  intros Hwf0 Hw. remember d0 as d eqn:Ed in Hw. induction Hw as [d|d ns d1 ns1 d2 Hs IH Hw].
  - subst d. exists []. by apply told_start.
  - destruct (IH Ed) as (rows & Ht). destruct (told_write _ _ _ _ Ht Hw) as (rows' & Ht'). eauto.
Qed.
End Told.

(** ** Properties *)

(** C2: Nothing happens to an alert without the right people hearing of it,
    and nobody hears of anything else.  In one round of the alert checker on
    a well-formed database (rounds keep it so): an alert that is open
    afterwards and is new, or has another severity than before, has a message
    about just that severity waiting for every enabled channel that a rule of
    the round with the alert's name and metric picks; an alert that was
    resolved in the round has its resolution waiting for every enabled
    channel that ever got a message about it.  And the round's messages and
    its changes of the alerts are one story: each step opens an alert, gives
    an open one another severity or resolves one, and queues exactly one
    pending message for each channel the rule picks at that severity, for a
    resolution each enabled channel that was told of the alert, and no other
    message. *)
Theorem round_tells `{ForecastRows} (now : time) (e : evaluator DB) (Hwf : alerts_wf (ev_store e)) :
  let d := ev_store e in
  let d' := ev_store (handleAlerts_round now e) in
  ∃ rows, notifications d' = notifications d ++ rows
  ∧ (∀ a, a ∈ alerts d' → is_open a = true → level_changed d a →
       ∃ rule, in_round (EnabledRules d) rule ∧ rule_Name rule = al_rule a ∧ rule_MetricName rule = al_metric a
       ∧ ∀ c, c ∈ channels d → hears d rule (al_severity a) c →
           ∃ n, n ∈ rows ∧ message_for c (al_id a) n ∧ no_event n ∈ [Opened; Changed] ∧ no_severity n = al_severity a)
  ∧ (∀ a, a ∈ alerts d' → is_open a = false → was_open d a → ∀ c, c ∈ channels d → ch_enabled c = true →
       (∃ p, p ∈ notifications d' ∧ no_alert_id p = al_id a ∧ no_channel_id p = ch_id c) →
       ∃ n, n ∈ rows ∧ message_for c (al_id a) n ∧ no_event n = Resolved)
  ∧ story (in_round (EnabledRules d)) d (alerts d') rows.
Proof.
  intros d d'.
  destruct (@alert_round_emits DB (@DB_AlertStore now _) (@DB_AlertStoreLaws now _) now (EnabledRules d) (map host_Name (Hosts d)) e Hwf)
    as (ns & _ & Hw).
  destruct (@told_writes now _ (in_round (EnabledRules d)) d ns d' Hwf Hw) as (rows & [_ _ Hn _ Hl Hr Ho]).
  by exists rows.
Qed.

(** *** A host that stops reporting *)

#[local] Instance ex_forecasts : ForecastRows := λ _ _, [].

Definition heartbeat_row : RuleRow := {|
  ru_id := 2; ru_name := rule_Name DefaultHeartbeat; ru_rule := DefaultHeartbeat; ru_enabled := true;
  ru_updated_at := 0; ru_updated_by := "SyMon" |}.
Definition silent_db : DB :=
  set_alert_rules [heartbeat_row]
    (set_hosts [host_with_last_seen (Some second) (new_host 1 "web1" "")] (set_channels [ops_channel] (set_seq 10 empty_db))).
(** The breach is seen at 400 s, and again at 800 s. *)
Definition silent_e1 : evaluator DB := handleAlerts_round (400 * second) (newEvaluator silent_db).
Definition silent_e2 : evaluator DB := handleAlerts_round (800 * second) silent_e1.

Definition silent_alert : AlertRow := {|
  al_id := 10; al_host_id := Some 1; al_rule := "Host not reporting"; al_metric := PING; al_target := "";
  al_severity := 2; al_value := of_int 799; al_started_at := 800 * second; al_updated_at := 800 * second;
  al_resolved_at := None |}.

Lemma silent_db_wf : alerts_wf silent_db.
Proof.
  constructor; cbn; try (intros; by match goal with H : _ ∈ [] |- _ => apply not_elem_of_nil in H end);
    [apply NoDup_singleton|apply NoDup_singleton|by intros h ->%list_elem_of_singleton|constructor].
Qed.

Lemma silent_opened : ev_store silent_e1 = silent_db ∧ alerts (ev_store silent_e2) = [silent_alert].
Proof. split; vm_compute; reflexivity. Qed.

Lemma round_tells_witness : ∃ n, n ∈ notifications (ev_store silent_e2) ∧ message_for ops_channel 10 n ∧ no_severity n = 2.
Proof.
  destruct silent_opened as [E1 E2].
  assert (Hwf : alerts_wf (ev_store silent_e1)) by (rewrite E1; apply silent_db_wf).
  destruct (round_tells (800 * second) silent_e1 Hwf) as (rows & En & Hl & _).
  destruct (Hl silent_alert) as (rule & Hin & _ & _ & Hc).
  - change (handleAlerts_round (800 * second) silent_e1) with silent_e2. rewrite E2. by apply list_elem_of_singleton.
  - reflexivity.
  - intros b Hb. rewrite E1 in Hb. change (alerts silent_db) with (@nil AlertRow) in Hb. destruct (not_elem_of_nil _ Hb).
  - rewrite E1 in Hc, Hin. destruct (Hc ops_channel) as (n & Hn & Hm & _ & Hs).
    + by apply list_elem_of_singleton.
    + destruct Hin as (r & Hr & [->|Hcert]).
      * change (EnabledRules silent_db) with [DefaultHeartbeat] in Hr. apply list_elem_of_singleton in Hr as ->.
        split; [reflexivity|]. split; [do 4 right; split_and!; reflexivity|discriminate].
      * change (EnabledRules silent_db) with [DefaultHeartbeat] in Hr. apply list_elem_of_singleton in Hr as ->.
        discriminate Hcert.
    + exists n. split; [|by split].
      change (ev_store (handleAlerts_round (800 * second) silent_e1)) with (ev_store silent_e2) in En.
      rewrite En. apply elem_of_app. by right.
Defined.
