(* ===== verification/Pipeline.v ===== *)
(** * From a reading on the host to the check of a rule.

    The agent's tick ([CollectJSON]), the collector's handler
    ([HandleMonitorData]) and the evaluator ([evaluate]) put together: the
    value a rule is checked on is the value the agent read, at the time it
    read it. *)
From S2P Require Import Prelude GoStrings GoFloat GoTime Errors Monitor Alerts Json Kube Database StoreHosts Snapshot StoreIngest.
From S2P Require Import StoreAlerts StoreForecast Config Systats AgentCollect Evaluator EvaluatorSpec EvaluatorStore Login Api.
Local Open Scope Z_scope.

(** ** The newest row *)

Lemma newest_row_last {A} (at_ : A → time) l x : (∀ y, y ∈ l → at_ y ≤ at_ x) → newest_row at_ (l ++ [x]) = Some x.
Proof.
  induction l as [|y l IH]; intros Hl; [done|]. cbn [app newest_row]. rewrite IH by (intros z Hz; apply Hl; by right).
  by rewrite (proj2 (Z.leb_le _ _) (Hl y ltac:(by left))).
Qed.

(** Of rows added at the end, the only one that matches is what is read when
    no older row is newer. *)
Lemma newest_value_new {A} (at_ : A → time) value p old new x :
  (∀ y, y ∈ old → p y = true → at_ y ≤ at_ x) → select_where p new = [x] →
  newest_value at_ value p (old ++ new) = match value x with None => Err ErrNotFound | Some v => Ok (v, at_ x) end.
Proof.
  intros Hold Hnew. unfold newest_value, select_where in *. rewrite List.filter_app, Hnew, newest_row_last; [done|].
  intros y [Hy Hp]%list_elem_of_filter_b. by apply Hold.
Qed.

Lemma filter_unique {A} (f : A → string) l t x : NoDup (map f l) → List.find (λ y, str_eq (f y) t) l = Some x →
  List.filter (λ y, str_eq (f y) t) l = [x] ∧ f x = t.
Proof.
  induction l as [|y l IH]; [done|]. cbn. intros [Hy Hnd]%NoDup_cons.
  destruct (str_eq (f y) t) eqn:E; [|by apply IH].
  intros [= <-]. apply str_eq_spec in E. split; [|done]. f_equal. clear IH Hnd. induction l as [|z l IH]; [done|].
  cbn in *. apply not_elem_of_cons in Hy as [Hne Hy]. rewrite IH by done.
  destruct (str_eq (f z) t) eqn:Ez; [|done]. apply str_eq_spec in Ez. congruence.
Qed.

Lemma select_map {A B} (g : A → B) (p : B → bool) (q : A → bool) l : (∀ x, p (g x) = q x) →
  select_where p (map g l) = map g (List.filter q l).
Proof.
  intros Hq. unfold select_where. induction l as [|x l IH]; [done|]. cbn. rewrite Hq, IH. by destruct (q x).
Qed.

(** ** The reading a rule is about *)

Section Sample.
Context {Hfloat : ParseFloat} `{Systats}.

Definition kept_disks (config : Agent_config) (rd : Readings) : list systats.Disk :=
  List.filter (keepDisk (ag_DisksToIgnore config)) (rd_Disks rd).1.

(** The value of a built-in metric in the readings of a tick. *)
Definition sample_value (config : Agent_config) (rd : Readings) (metric target : string) : option float64 :=
  if str_eq metric PROC_USAGE then Some (of_int (systats.c_LoadAvg (rd_CPU rd).1))
  else if str_eq metric MEMORY then Some (systats.m_PercentageUsed (rd_Memory rd).1)
  else if str_eq metric SWAP then Some (systats.w_PercentageUsed (rd_Swap rd).1)
  else if str_eq metric DISKS then
    d ← List.find (λ d, str_eq (systats.d_FileSystem d) target) (kept_disks config rd);
    parsePercent (systats.du_Usage (systats.d_Usage d))
  else if str_eq metric SERVICES then
    s ← List.find (λ s, str_eq (stm_Name s) target) (ag_Services config);
    Some (if (rd_Running rd (stm_ServiceName s)).1 then f1 else f0)
  else None.

(** A tick's snapshot, whatever happened before. *)
Definition tick_data (config : Agent_config) (version : string) (rd : Readings) (c : Collector) : MonitorData :=
  (Collect config version rd c).1.1.

Lemma tick_fields config version rd c : let m := tick_data config version rd c in
  md_UnixTime m = itoa (to_unix (rd_Now rd)) ∧ md_ServerId m = ag_ServerId config
  ∧ md_ProcUsage m = fromSystatsCPU (rd_CPU rd).1 ∧ md_Memory m = fromSystatsMemory (rd_Memory rd).1
  ∧ md_Swap m = fromSystatsSwap (rd_Swap rd).1 ∧ md_Disk m = map fromSystatsDisk (kept_disks config rd)
  ∧ md_Services m = (services config (itoa (to_unix (rd_Now rd))) (rd_Running rd)).1.
Proof.
  unfold tick_data, Collect. cbn [system memory swap disks cpu processes].
  destruct (networks _ _ _ _) as [nets current]. cbv beta iota zeta.
  destruct (services config _ _) as [svcs log7].
  destruct (if is_enabled _ CollectorDiskIO then _ else _) as [[io log9] c1].
  destruct (when_enabled c1 CollectorTCP _ _) as [tcp log10].
  destruct (when_enabled c1 CollectorPressure _ _) as [psi log11].
  destruct (when_enabled c1 CollectorTemps _ _) as [temps log12].
  destruct (if is_enabled c1 CollectorContainers then _ else _) as [[cts log13] c2].
  cbn. split_and!; done.
Qed.

(** Nothing the store has of the host is newer. *)
Definition none_newer (d : DB) (id : Z) (at_ : time) : Prop :=
  (∀ r, r ∈ host_metrics d → hm_host_id r = id → hm_time r ≤ at_)
  ∧ (∀ r, r ∈ disk_metrics d → dm_host_id r = id → dm_time r ≤ at_)
  ∧ (∀ r, r ∈ service_status d → ss_host_id r = id → ss_time r ≤ at_).
End Sample.

Lemma hostID_update p f d host : (∀ h, h_name (f h) = h_name h ∧ h_id (f h) = h_id h) →
  hostID (update_hosts p f d) host = hostID d host.
Proof.
  intros Hf. unfold hostID, host_by_name, update_hosts. cbn. unfold update_where, host_named.
  induction (hosts d) as [|h l IH]; [done|]. cbn. destruct (p h); [rewrite (proj1 (Hf h))|];
    (destruct (str_eq (h_name h) host); [by rewrite ?(proj2 (Hf h))|done]).
Qed.

Lemma snapshot_tables `{ParseFloat} now at_ id data snapshot processes d :
  let d' := snapshot_rows now at_ id data snapshot processes d in
  host_metrics d' = host_metrics d ++ [host_row at_ id data]
  ∧ disk_metrics d' = disk_metrics d ++ map (disk_row at_ id) (md_Disk data)
  ∧ service_status d' = service_status d ++ map (service_row at_ id) (md_Services data)
  ∧ ∀ host, hostID d' host = hostID d host.
Proof.
  unfold snapshot_rows, seen_now. cbv zeta. split_and!; [| | |intros host; rewrite hostID_update by done];
    unfold save_latest; by destruct (exists_where _ _).
Qed.

Section Stored.
Context {Hfloat : ParseFloat} `{Systats}.
Variables (config : Agent_config) (version : string) (rd : Readings) (c : Collector).
Hypothesis Hdisks : NoDup (map systats.d_FileSystem (kept_disks config rd)).
Hypothesis Hservices : NoDup (map stm_Name (ag_Services config)).

(** The tables answer with the reading once the tick's snapshot is stored. *)
Lemma snapshot_latest now at_ id host data snapshot processes d metric target v :
  hostID d host = Ok id → none_newer d id at_ →
  md_ProcUsage data = fromSystatsCPU (rd_CPU rd).1 → md_Memory data = fromSystatsMemory (rd_Memory rd).1 →
  md_Swap data = fromSystatsSwap (rd_Swap rd).1 → md_Disk data = map fromSystatsDisk (kept_disks config rd) →
  md_Services data = (services config (itoa (to_unix (rd_Now rd))) (rd_Running rd)).1 →
  sample_value config rd metric target = Some v →
  LatestValue (snapshot_rows now at_ id data snapshot processes d) host metric target false = Ok (v, at_).
Proof.
  intros Hid (Hh & Hd & Hs) Ecpu Emem Eswap Edisk Esvc.
  destruct (snapshot_tables now at_ id data snapshot processes d) as (Th & Td & Ts & Hid').
  unfold LatestValue, sample_value. rewrite Hid', Hid, Th, Td, Ts. cbn [mbind result_bind rbind].
  assert (Hhost : ∀ value, newest_value hm_time value (λ r, hm_host_id r =? id) (host_metrics d ++ [host_row at_ id data])
    = match value (host_row at_ id data) with None => Err ErrNotFound | Some v => Ok (v, at_) end).
  { intros value. apply (newest_value_new hm_time); [intros y Hy Hq; apply Hh; [done|lia]|].
    unfold select_where. cbn. by rewrite Z.eqb_refl. }
  destruct (str_eq metric PROC_USAGE); [intros [= <-]; rewrite Hhost; cbn; by rewrite Ecpu|].
  destruct (str_eq metric MEMORY); [intros [= <-]; rewrite Hhost; cbn; by rewrite Emem|].
  destruct (str_eq metric SWAP); [intros [= <-]; rewrite Hhost; cbn; by rewrite Eswap|].
  destruct (str_eq metric DISKS).
  { destruct (List.find _ (kept_disks config rd)) as [dk|] eqn:Ef; [|done]. cbn [mbind option_bind]. intros Hv.
    destruct (filter_unique _ _ _ _ Hdisks Ef) as [Hq <-].
    rewrite (newest_value_new _ _ _ _ _ (disk_row at_ id (fromSystatsDisk dk))).
    - cbn. by rewrite Hv.
    - intros y Hy Hp. apply andb_true_iff in Hp as [Hp _]. apply Hd; [done|lia].
    - rewrite Edisk, map_map, (select_map _ _ (λ y, str_eq (systats.d_FileSystem y) (systats.d_FileSystem dk))); [by rewrite Hq|].
      intros x. cbn. by rewrite Z.eqb_refl. }
  destruct (str_eq metric SERVICES); [|done].
  destruct (List.find _ (ag_Services config)) as [sv|] eqn:Ef; [|done]. cbn [mbind option_bind]. intros [= <-].
  destruct (filter_unique _ _ _ _ Hservices Ef) as [Hq <-].
  rewrite (newest_value_new _ _ _ _ _ (service_row at_ id {| svc_Name := stm_Name sv;
    svc_Running := (rd_Running rd (stm_ServiceName sv)).1; svc_Time := itoa (to_unix (rd_Now rd)) |})); [done|..].
  - intros y Hy Hp. apply andb_true_iff in Hp as [Hp _]. apply Hs; [done|lia].
  - rewrite Esvc. cbn [services fst]. rewrite map_map, (select_map _ _ (λ y, str_eq (stm_Name y) (stm_Name sv))); [by rewrite Hq|].
    intros x. cbn. by rewrite Z.eqb_refl.
Qed.
End Stored.

(** A rule on a built-in metric is checked on what [LatestValue] answers. *)
Lemma evaluate_latest `{StoreClock, ForecastRows} now rule host (e : evaluator DB) v at_ :
  rule_IsCustom rule = false → rule_MetricName rule ∈ [PROC_USAGE; MEMORY; SWAP; DISKS; SERVICES] →
  LatestValue (ev_store e) host (rule_MetricName rule) (ruleTarget rule) false = Ok (v, at_) →
  evaluate now rule host e = check rule host (ruleTarget rule) v at_ e.
Proof.
  intros Hc Hm Hl.
  assert (Hk : IsKube (rule_MetricName rule) = false ∧ str_eq (rule_MetricName rule) ENDPOINT = false
    ∧ str_eq (rule_MetricName rule) CERTIFICATE = false ∧ str_eq (rule_MetricName rule) DISK_FORECAST = false
    ∧ str_eq (rule_MetricName rule) PING = false).
  { repeat (apply elem_of_cons in Hm as [->|Hm]; [by split_and!|]). by apply not_elem_of_nil in Hm. }
  destruct Hk as (H1 & H2 & H3 & H4 & H5).
  unfold evaluate, latest. rewrite H1, H2, H3, H4, H5, Hc. cbn [negb].
  unfold mbind, SM_bind, sbind, stry, read_store. cbn [st_LatestValue DB_AlertStore]. by rewrite Hl.
Qed.

Lemma sample_metric `{ParseFloat, Systats} config rd metric target v : sample_value config rd metric target = Some v →
  metric ∈ [PROC_USAGE; MEMORY; SWAP; DISKS; SERVICES].
Proof.
  unfold sample_value.
  destruct (str_eq metric PROC_USAGE) eqn:E1; [apply str_eq_spec in E1 as ->; intros _; by apply contains_spec|].
  destruct (str_eq metric MEMORY) eqn:E2; [apply str_eq_spec in E2 as ->; intros _; by apply contains_spec|].
  destruct (str_eq metric SWAP) eqn:E3; [apply str_eq_spec in E3 as ->; intros _; by apply contains_spec|].
  destruct (str_eq metric DISKS) eqn:E4; [apply str_eq_spec in E4 as ->; intros _; by apply contains_spec|].
  destruct (str_eq metric SERVICES) eqn:E5; [apply str_eq_spec in E5 as ->; intros _; by apply contains_spec|done].
Qed.

(** ** Properties *)

(** C3: What the host measured is what the rule is checked on.  Take a tick of
    the agent whose snapshot the collector accepts, with no newer data of the
    host in the tables.  Then a rule on CPU, memory, swap, a disk or a service
    of that host, evaluated on the database as it then is, is checked on
    exactly the value of the agent's reading (the load, the used percentages,
    the disk's usage as a number, 1 or 0 for the service), at the second the
    agent read it: nothing on the way, from the library's structs through the
    JSON text, the tables and the newest row, changes it.  encoding/json is
    asked to read back the snapshot it wrote. *)
Theorem reading_is_checked `{ParseFloat, SnapshotJSON, Systats, StoreClock, ForecastRows}
  (config : Agent_config) (version : string) (rd : Readings) (c : Collector) (text : string) (log : list string)
  (c' : Collector) (ctx : option string) (now now' : time) (s s' : Server) (rule : AlertConfig) (host : string) (id : Z)
  (v : float64) (e : evaluator DB)
  (Hjson : ∀ t, marshal_data (tick_data config version rd c) = Ok t → unmarshal_data t = Ok (tick_data config version rd c))
  (Htick : CollectJSON config version rd c = (text, log, c')) (Hsent : text ≠ "")
  (Hclock : int64_min ≤ to_unix (rd_Now rd) ≤ int64_max)
  (Hdisks : NoDup (map systats.d_FileSystem (kept_disks config rd)))
  (Hservices : NoDup (map stm_Name (ag_Services config)))
  (Hstored : HandleMonitorData ctx now text s = (Ok "ok", s'))
  (Hhost : host = default (ag_ServerId config) ctx) (Hid : hostID (sv_db s) host = Ok id)
  (Hnewer : none_newer (sv_db s) id (unix_time (to_unix (rd_Now rd))))
  (Hcustom : rule_IsCustom rule = false) (Hstore : ev_store e = sv_db s')
  (Hvalue : sample_value config rd (rule_MetricName rule) (ruleTarget rule) = Some v) :
  evaluate now' rule host e = check rule host (ruleTarget rule) v (unix_time (to_unix (rd_Now rd))) e.
Proof.
  apply evaluate_latest; [done|by eapply sample_metric|]. rewrite Hstore. clear Hstore.
  pose proof (tick_fields config version rd c) as Hf. cbv zeta in Hf.
  unfold CollectJSON in Htick. unfold tick_data in *.
  destruct (Collect config version rd c) as [[data log0] c0]. cbn [fst] in *.
  destruct (marshal_data data) as [t|err] eqn:Em; [|by injection Htick as <-]. injection Htick as -> _ _.
  specialize (Hjson text eq_refl). unfold HandleMonitorData in Hstored. rewrite Hjson in Hstored.
  set (sent := match ctx with Some h => with_server h data | None => data end) in Hstored.
  destruct Hf as (Eunix & Eserver & Ecpu & Emem & Eswap & Edisk & Esvc).
  assert (Hfields : md_UnixTime sent = itoa (to_unix (rd_Now rd)) ∧ md_ServerId sent = host
    ∧ md_ProcUsage sent = md_ProcUsage data ∧ md_Memory sent = md_Memory data ∧ md_Swap sent = md_Swap data
    ∧ md_Disk sent = md_Disk data ∧ md_Services sent = md_Services data).
  { subst sent host. destruct ctx; cbn; split_and!; done. }
  destruct Hfields as (Sunix & Sserver & Scpu & Smem & Sswap & Sdisk & Ssvc).
  revert Hstored. unfold mbind, SM_bind, sbind, store, SaveSnapshot, parseUnixTime.
  rewrite Sunix, parse_int_itoa, Sserver, Hid by done. cbn [rbind].
  destruct (marshal_data sent) as [snapshot|]; [|done]. destruct (marshal_processes _) as [processes|]; [|done].
  cbn [rbind]. intros [= <-]. cbn [sv_db set_db].
  apply (snapshot_latest config rd Hdisks Hservices); congruence.
Qed.

(** *** A host whose disk is at 91 per cent *)

#[local] Instance ex_float : ParseFloat := λ s, option_map of_int (parse_int s).
#[local] Instance ex_systats : Systats := {|
  systats_New := {| st_ContainerAware := false; st_ContainerSocketPath := ""; st_ContainerLayerSize := false |};
  ContainerSample := Empty_set; cts_fields s := match s with end; cts_RatesSince s _ _ := match s with end;
  DiskSample := Empty_set; dks_Device s := match s with end; dks_RatesSince s _ _ := match s with end |}.

Definition web1_agent : Agent_config := @GetAgent (λ _, Ok []) (λ _, Ok "") "web1" ∅.
Definition sda : systats.Disk := {|
  systats.d_FileSystem := "/dev/sda1"; systats.d_Type := "ext4"; systats.d_MountedOn := "/";
  systats.d_Usage := {| systats.du_Size := of_int 100; systats.du_Used := of_int 91; systats.du_Available := of_int 9;
                        systats.du_Usage := "91%"; systats.du_Unit := "MB" |};
  systats.d_Inodes := {| systats.i_Inodes := 10; systats.i_Available := 9; systats.i_Used := 1; systats.i_Usage := "10%" |};
  systats.d_Time := 100 |}.
Definition web1_readings : Readings := {|
  rd_Now := 100 * second + 5;
  rd_System := ({| systats.s_HostName := "web1"; systats.s_OS := ""; systats.s_Kernel := ""; systats.s_UpTime := "";
                   systats.s_LastBootDate := 0; systats.s_LoggedInUsers := []; systats.s_Time := 100;
                   systats.s_TimeZone := ""; systats.s_UpTimeSeconds := f0 |}, None);
  rd_Memory := ({| systats.m_PercentageUsed := of_int 40; systats.m_Available := f0; systats.m_Free := f0;
                   systats.m_Used := f0; systats.m_Time := 100; systats.m_Total := f0; systats.m_Unit := "MB";
                   systats.m_Limited := false |}, None);
  rd_Swap := ({| systats.w_PercentageUsed := f0; systats.w_Free := f0; systats.w_Used := f0; systats.w_Time := 100;
                 systats.w_Total := f0; systats.w_Unit := "MB" |}, Some (ErrOther "no swap"));
  rd_Disks := ([sda], None);
  rd_CPU := ({| systats.c_LoadAvg := 12; systats.c_CoreAvg := [12]; systats.c_Model := ""; systats.c_NoOfCores := 1;
                systats.c_Freq := ""; systats.c_Cache := ""; systats.c_Time := 100; systats.c_Load1 := f0;
                systats.c_Load5 := f0; systats.c_Load15 := f0; systats.c_PhysicalCores := 1; systats.c_Sockets := 1;
                systats.c_Limited := false; systats.c_AllocatedCores := f1 |}, None);
  rd_NetTime := 100 * second + 6; rd_Networks := ([], None); rd_Running _ := (true, None);
  rd_TopCPU := ([], None); rd_TopMemory := ([], None); rd_DiskIO := Ok []; rd_DiskIOTime := 100 * second + 7;
  rd_TCPStates := Err (ErrOther "no /proc/net/tcp"); rd_Pressure := Err (ErrOther "no PSI"); rd_Temperatures := Ok [];
  rd_Containers := Ok []; rd_ContainersTime := 100 * second + 8; rd_CRIClient := None;
  rd_CRIContainers := Ok []; rd_CRISandboxes := Ok [] |}.
Definition web1_collector : Collector := (NewCollector web1_agent).1.
Definition web1_data : MonitorData := tick_data web1_agent "v1.2.0" web1_readings web1_collector.

#[local] Instance ex_json : SnapshotJSON := {|
  marshal_data _ := Ok "snapshot"; marshal_processes _ := Ok "processes"; unmarshal_data _ := Ok web1_data;
  unmarshal_metric _ := Err (ErrOther "no metric") |}.
#[local] Instance ex_store_clock : StoreClock := 0.
#[local] Instance ex_forecast_rows : ForecastRows := λ _ _, [].

Definition disk_rule : AlertConfig := {|
  rule_Name := "Disk"; rule_Description := ""; rule_MetricName := DISKS; rule_IsCustom := false; rule_Op := ">";
  rule_Template := ""; rule_WarnThreshold := 80; rule_CriticalThreshold := 90; rule_TriggerIntveral := 60;
  rule_Servers := ["*"]; rule_Endpoint := ""; rule_ExpectedHTTPCode := 0; rule_Method := ""; rule_CustomCACert := "";
  rule_POSTContentType := ""; rule_POSTBody := ""; rule_Disk := "/dev/sda1"; rule_Service := ""; rule_Cluster := "";
  rule_Namespace := ""; rule_Channels := []; rule_Email := false; rule_Pagerduty := false; rule_Slack := false;
  rule_SlackChannel := ""; rule_CertWarnDays := None; rule_CertCriticalDays := None |}.
Definition web1_server : Server := start_server (set_hosts [new_host 1 "web1" ""] (set_seq 10 empty_db)).
Definition web1_stored : Server := (HandleMonitorData (Some "web1") (101 * second) "snapshot" web1_server).2.

Lemma web1_handled : HandleMonitorData (Some "web1") (101 * second) "snapshot" web1_server = (Ok "ok", web1_stored).
Proof. vm_compute. reflexivity. Qed.
Lemma web1_ticked : CollectJSON web1_agent "v1.2.0" web1_readings web1_collector
  = ("snapshot", ["no swap"; "no /proc/net/tcp"; "no PSI"], (Collect web1_agent "v1.2.0" web1_readings web1_collector).2).
Proof. vm_compute. reflexivity. Qed.

Lemma reading_is_checked_witness :
  evaluate (110 * second) disk_rule "web1" (newEvaluator (sv_db web1_stored))
  = check disk_rule "web1" "/dev/sda1" (of_int 91) (100 * second) (newEvaluator (sv_db web1_stored))
  ∧ ruleStatus disk_rule (of_int 91) = Critical.
Proof.
  split; [|vm_compute; reflexivity].
  refine (reading_is_checked web1_agent "v1.2.0" web1_readings web1_collector "snapshot" _ _ (Some "web1") (101 * second)
    (110 * second) web1_server web1_stored disk_rule "web1" 1 (of_int 91) _ _ web1_ticked _ _ _ _ web1_handled _ _ _ _ _ _).
  - intros t _. reflexivity.
  - discriminate.
  - vm_compute. split; discriminate.
  - apply NoDup_singleton.
  - constructor.
  - reflexivity.
  - reflexivity.
  - split_and!; intros r Hr; destruct (not_elem_of_nil _ Hr).
  - reflexivity.
  - reflexivity.
  - vm_compute. reflexivity.
Defined.
