(* ===== verification/StoreRulesProps.v ===== *)
(** * What holds of the rules the dashboard edits.

    [rules_wf] is the invariant of the tables alert_rules and alerts under
    the operations of StoreRules: names and ids differ, every rule kept is a
    valid one, and every open alert belongs to an enabled rule. *)
From S2P Require Import Prelude GoStrings GoFloat GoTime Errors Monitor Alerts Json Notify Kube Tasks Database StoreHosts.
From S2P Require Import StoreAlerts StoreKube StoreRules StoreForecast Texts Evaluator EvaluatorSpec.
From S2P Require Import EvaluatorStore.
Local Open Scope Z_scope.

Section Rules.
Context `{UrlParse}.

Record rules_wf (d : DB) : Prop := {
  rw_alerts : alerts_wf d;
  rw_ids : NoDup (map ru_id (alert_rules d));
  rw_fresh : ∀ r, r ∈ alert_rules d → ru_id r < seq d;
  rw_names : NoDup (map ru_name (alert_rules d));
  rw_valid : ∀ r, r ∈ alert_rules d → ru_name r = rule_Name (ru_rule r) ∧ valid_rule (ru_rule r);
  rw_owned : ∀ a, a ∈ alerts d → is_open a = true →
    ∃ r, r ∈ alert_rules d ∧ ru_enabled r = true ∧ ru_name r = al_rule a }.

(** One change to the rules, by any of the operations *)
Inductive rules_step (d d' : DB) : Prop :=
  | step_create now rule enabled by_ : d' = snd (CreateRule now rule enabled by_ d) → rules_step d d'
  | step_update now id rule enabled by_ : d' = snd (UpdateRule now id rule enabled by_ d) → rules_step d d'
  | step_delete now id : d' = snd (DeleteRule now id d) → rules_step d d'
  | step_setup now rules source : d' = snd (SetupRules now rules source d) → rules_step d d'
  | step_import now rules by_ : d' = snd (ImportRules now rules by_ d) → rules_step d d'.

(** ** The parts *)

Lemma checkRule_spec rule : match checkRule rule with
  | Ok r => r = normalise rule ∧ valid_rule r
  | Err e => ¬ valid_rule (normalise rule) ∧ ∃ m, e = ErrInvalid m
  end.
Proof.
  unfold checkRule. pose proof (Validate_spec rule) as Hs.
  destruct (Validate rule) as [[u|e] r]; [done|]. eauto.
Qed.

Lemma DefaultHeartbeat_valid : valid_rule DefaultHeartbeat.
Proof.
  pose proof (Validate_spec DefaultHeartbeat) as Hs. revert Hs.
  replace (Validate DefaultHeartbeat) with (@Ok error unit (), DefaultHeartbeat) by (by vm_compute).
  by intros [_ Hv].
Qed.

Lemma name_taken_spec d name : name_taken d name = true ↔ name ∈ map ru_name (alert_rules d).
Proof.
  unfold name_taken. rewrite exists_where_true, list_elem_of_fmap. unfold rule_with.
  split; intros (r & Hr); exists r; rewrite str_eq_spec in *; naive_solver.
Qed.

(** A row added under a free name. *)
Lemma rules_wf_insert d row : rules_wf d → ru_id row = seq d → ru_name row ∉ map ru_name (alert_rules d) →
  ru_name row = rule_Name (ru_rule row) → valid_rule (ru_rule row) →
  rules_wf (set_alert_rules (alert_rules d ++ [row]) (set_seq (seq d + 1) d)).
Proof.
  intros [Ha Hids Hfr Hn Hv Ho] Hid Hname Hsame Hval. constructor; cbn.
  - apply (alerts_wf_ext d); cbn; [done..|lia|done].
  - rewrite map_app. apply NoDup_app. split_and!; [done| |apply NoDup_singleton].
    intros x (r & -> & Hr)%list_elem_of_fmap. cbn. rewrite list_elem_of_singleton, Hid. specialize (Hfr r Hr). lia.
  - intros r [Hr| ->%list_elem_of_singleton]%elem_of_app; [specialize (Hfr r Hr)|]; lia.
  - rewrite map_app. apply NoDup_app. split_and!; [done| |apply NoDup_singleton].
    intros x Hx. cbn. rewrite list_elem_of_singleton. by intros ->.
  - intros r [Hr| ->%list_elem_of_singleton]%elem_of_app; auto.
  - intros a Hin Hop. destruct (Ho a Hin Hop) as (r & Hr & He & Hrn). exists r. split_and!; [|done..].
    apply elem_of_app. by left.
Qed.

Lemma insert_rule_spec now rule enabled by_ d : rules_wf d → valid_rule rule →
  match insert_rule now rule enabled by_ d with
  | (Ok id, d') => rules_wf d' ∧ rule_Name rule ∉ map ru_name (alert_rules d) ∧ id = seq d
      ∧ d' = set_alert_rules (alert_rules d ++ [new_rule now id rule enabled by_]) (set_seq (seq d + 1) d)
  | (Err e, _) => e = ErrRuleExists ∧ rule_Name rule ∈ map ru_name (alert_rules d)
  end.
Proof.
  intros Hwf Hv. unfold insert_rule, next_id.
  change (name_taken (set_seq (seq d + 1) d)) with (name_taken d).
  destruct (name_taken d (rule_Name rule)) eqn:E; [by apply name_taken_spec in E|].
  assert (rule_Name rule ∉ map ru_name (alert_rules d)) by (rewrite <- name_taken_spec; congruence).
  split_and!; try done. by apply (rules_wf_insert d).
Qed.

(** The rows an UPDATE changes keep id and name, or take a name free
    outside them. *)
Lemma rules_wf_update d p f : rules_wf d →
  (∀ r, r ∈ alert_rules d → p r = true → ru_id (f r) = ru_id r ∧ ru_enabled (f r) = ru_enabled r ∧
     ru_name (f r) = ru_name r ∧ ru_name (f r) = rule_Name (ru_rule (f r)) ∧ valid_rule (ru_rule (f r))) →
  rules_wf (set_alert_rules (update_where p f (alert_rules d)) d).
Proof.
  intros [Ha Hids Hfr Hn Hv Ho] Hf.
  assert (Hmap : ∀ B (g : RuleRow → B), (∀ r, r ∈ alert_rules d → p r = true → g (f r) = g r) →
    map g (update_where p f (alert_rules d)) = map g (alert_rules d)).
  { intros B g Hg. unfold update_where. rewrite map_map. apply map_ext_in. intros r Hr%list_elem_of_In.
    destruct (p r) eqn:E; auto. }
  constructor; cbn.
  - by apply (alerts_wf_ext d).
  - rewrite Hmap; [done|]. intros r Hr E. by destruct (Hf r Hr E).
  - intros r (x & Hx & ->)%elem_of_update_where. destruct (p x) eqn:E; [|auto].
    destruct (Hf x Hx E) as [-> _]. auto.
  - rewrite Hmap; [done|]. intros r Hr E. by destruct (Hf r Hr E) as (_ & _ & ? & _).
  - intros r (x & Hx & ->)%elem_of_update_where. destruct (p x) eqn:E; [|auto].
    by destruct (Hf x Hx E) as (_ & _ & _ & ?).
  - intros a Hin Hop. destruct (Ho a Hin Hop) as (r & Hr & He & Hrn).
    exists (if p r then f r else r). split_and!; [apply elem_of_update_where; eauto|..];
      destruct (p r) eqn:E; try done; destruct (Hf r Hr E) as (_ & E1 & E2 & _); congruence.
Qed.

(** ** Alerts of a rule, renamed and resolved *)

Lemma open_of_rule_spec rule a : open_of_rule rule a = true ↔ al_rule a = rule ∧ is_open a = true.
Proof. unfold open_of_rule. by rewrite andb_true_iff, str_eq_spec. Qed.

Lemma alerts_wf_resolve now rule d : alerts_wf d →
  alerts_wf (set_alerts (update_where (open_of_rule rule) (resolve_row now) (alerts d)) d).
Proof. apply alerts_wf_update. intros a. split_and!; done. Qed.

Lemma resolved_none now rule d a : a ∈ update_where (open_of_rule rule) (resolve_row now) (alerts d) →
  is_open a = true → a ∈ alerts d ∧ al_rule a ≠ rule.
Proof.
  intros (x & Hx & ->)%elem_of_update_where. destruct (open_of_rule rule x) eqn:E; [done|].
  intros Ho. split; [done|]. intros Hr. assert (open_of_rule rule x = true) by (by apply open_of_rule_spec). congruence.
Qed.

Lemma rename_open_spec old name d : alerts_wf d → match rename_open old name d with
  | (Ok _, d') => alerts_wf d' ∧ d' = set_alerts (update_where (open_of_rule old) (rename_alert name) (alerts d)) d
  | (Err e, _) => e = unique_violation ∧ ∃ a b, a ∈ alerts d ∧ b ∈ alerts d ∧ open_of_rule old a = true
      ∧ is_open b = true ∧ open_key b = open_key (rename_alert name a)
  end.
Proof.
  intros [Hi Hn Hnm Hids Hfr Hfk Hone]. unfold rename_open.
  destruct (existsb _ (alerts d)) eqn:E.
  - split; [done|]. apply existsb_exists in E as (a & Ha & [Hoa Ht]%andb_true_iff).
    apply exists_where_true in Ht as (b & Hb & [Hob Hk]%andb_true_iff). rewrite <- list_elem_of_In in Ha.
    apply bool_decide_eq_true in Hk. by exists a, b.
  - change (exists_where (λ a, open_of_rule old a && open_taken (open_key (rename_alert name a)) d) (alerts d) = false) in E.
    rewrite exists_where_false in E. split; [|done]. constructor; cbn; try done.
    + by rewrite map_update_where.
    + intros a (x & Hx & ->)%elem_of_update_where. specialize (Hfr x Hx). by destruct (open_of_rule old x).
    + intros a i (x & Hx & ->)%elem_of_update_where. specialize (Hfk x i Hx). by destruct (open_of_rule old x).
    + assert (Hclash : ∀ x y, x ∈ alerts d → y ∈ alerts d → open_of_rule old x = true → is_open y = true →
        open_key y ≠ open_key (rename_alert name x)).
      { intros x y Hx Hy Hox Hoy Hk. specialize (E x Hx). rewrite Hox in E. cbn [andb] in E.
        unfold open_taken in E. rewrite exists_where_false in E. specialize (E y Hy).
        rewrite Hoy, (bool_decide_true _ Hk) in E. done. }
      assert (Hop : ∀ x, is_open (if open_of_rule old x then rename_alert name x else x) = is_open x).
      { intros x. by destruct (open_of_rule old x). }
      intros a b (x & Hx & ->)%elem_of_update_where (y & Hy & ->)%elem_of_update_where. rewrite !Hop. intros Hox Hoy.
      destruct (open_of_rule old x) eqn:Ex, (open_of_rule old y) eqn:Ey; intros Hk.
      * f_equal. apply Hone; [done..|]. apply open_of_rule_spec in Ex as [Ex _], Ey as [Ey _].
        unfold open_key in *. cbn in Hk. congruence.
      * by destruct (Hclash x y).
      * by destruct (Hclash y x).
      * by apply Hone.
Qed.

(** ** UpdateRule and DeleteRule *)

Lemma rename_alert_same a : rename_alert (al_rule a) a = a.
Proof. by destruct a. Qed.

Lemma rename_same old d : update_where (open_of_rule old) (rename_alert old) (alerts d) = alerts d.
Proof.
  unfold update_where. rewrite <- (map_id (alerts d)) at 2. apply map_ext. intros a.
  destruct (open_of_rule old a) eqn:E; [|done]. apply open_of_rule_spec in E as [<- _]. apply rename_alert_same.
Qed.

Lemma rename_check_same old d :
  update_where (λ c, str_eq (ec_Name c) old) (rename_check old) (endpoint_checks d) = endpoint_checks d.
Proof.
  unfold update_where. rewrite <- (map_id (endpoint_checks d)) at 2. apply map_ext. intros c.
  destruct (str_eq (ec_Name c) old) eqn:E; [|done]. apply str_eq_spec in E as <-. by destruct c.
Qed.

(** What an update leaves of the alerts: the open ones of the old name move
    to the new one, and are resolved when the rule is switched off. *)
Definition moved_alerts (now : time) (old name : string) (enabled : bool) (l : list AlertRow) : list AlertRow :=
  let moved := update_where (open_of_rule old) (rename_alert name) l in
  if enabled then moved else update_where (open_of_rule name) (resolve_row now) moved.

Definition moved (now : time) (id : Z) (old : string) (rule : AlertConfig) (enabled : bool) (by_ : string)
    (d d' : DB) : Prop :=
  alert_rules d' = update_where (λ r, ru_id r =? id) (λ r, new_rule now (ru_id r) rule enabled by_) (alert_rules d)
  ∧ alerts d' = moved_alerts now old (rule_Name rule) enabled (alerts d)
  ∧ endpoint_checks d' = update_where (λ c, str_eq (ec_Name c) old) (rename_check (rule_Name rule)) (endpoint_checks d)
  ∧ hosts d' = hosts d ∧ seq d' = seq d.

Definition free_for (d : DB) (id : Z) (name : string) : Prop :=
  ∀ r, r ∈ alert_rules d → ru_name r = name → ru_id r = id.

Lemma replace_rule_spec now id rule enabled by_ d : match replace_rule now id rule enabled by_ d with
  | (Ok _, d') => free_for d id (rule_Name rule) ∧ d' = set_alert_rules
      (update_where (λ r, ru_id r =? id) (λ r, new_rule now (ru_id r) rule enabled by_) (alert_rules d)) d
  | (Err e, _) => e = ErrRuleExists ∧ ¬ free_for d id (rule_Name rule)
  end.
Proof.
  unfold replace_rule, free_for, rule_with. destruct (exists_where _ _) eqn:E.
  - split; [done|]. apply exists_where_true in E as (r & Hr & [Hn Hi]%andb_true_iff).
    apply str_eq_spec in Hn. intros Hf. specialize (Hf r Hr Hn). lia.
  - split; [|done]. rewrite exists_where_false in E. intros r Hr Hn. specialize (E r Hr).
    rewrite Hn, str_eq_refl in E. cbn in E. lia.
Qed.

Lemma update_rule_spec now id rule enabled by_ d row : alerts_wf d → rule_by_id d id = Some row →
  match update_rule now id rule enabled by_ d with
  | (Ok _, d') => free_for d id (rule_Name rule) ∧ alerts_wf d' ∧ moved now id (ru_name row) rule enabled by_ d d'
  | (Err e, _) => (e = ErrRuleExists ∧ ¬ free_for d id (rule_Name rule)) ∨
      (free_for d id (rule_Name rule) ∧ rule_Name rule ≠ ru_name row ∧ ∃ a b, a ∈ alerts d ∧ b ∈ alerts d ∧
         open_of_rule (ru_name row) a = true ∧ is_open b = true ∧ open_key b = open_key (rename_alert (rule_Name rule) a))
  end.
Proof.
  intros Hwf Hrow. unfold update_rule. rewrite Hrow.
  unfold mbind, SM_bind, sbind. pose proof (replace_rule_spec now id rule enabled by_ d) as Hr.
  destruct (replace_rule now id rule enabled by_ d) as [[u|e] d1]; [|left; done]. destruct Hr as [Hfree Hd1].
  assert (Hwf1 : alerts_wf d1) by (subst d1; by apply (alerts_wf_ext d)).
  assert (Hmid : match carry_over (ru_name row) (rule_Name rule) d1 with
    | (Ok _, d2) => alerts_wf d2 ∧ alert_rules d2 = alert_rules d1 ∧ hosts d2 = hosts d ∧ seq d2 = seq d ∧
        alerts d2 = update_where (open_of_rule (ru_name row)) (rename_alert (rule_Name rule)) (alerts d) ∧
        endpoint_checks d2 = update_where (λ c, str_eq (ec_Name c) (ru_name row)) (rename_check (rule_Name rule)) (endpoint_checks d)
    | (Err e, _) => (free_for d id (rule_Name rule) ∧ rule_Name rule ≠ ru_name row ∧ ∃ a b, a ∈ alerts d ∧ b ∈ alerts d ∧
         open_of_rule (ru_name row) a = true ∧ is_open b = true ∧ open_key b = open_key (rename_alert (rule_Name rule) a))
    end).
  { unfold carry_over. destruct (str_eq (rule_Name rule) (ru_name row)) eqn:En.
    - apply str_eq_spec in En. rewrite En. unfold mret, SM_ret, sret. rewrite rename_same, rename_check_same.
      subst d1. split_and!; try done.
    - assert (rule_Name rule ≠ ru_name row) by (rewrite <- str_eq_spec; congruence).
      unfold mbind, SM_bind, sbind. pose proof (rename_open_spec (ru_name row) (rule_Name rule) d1 Hwf1) as Ho.
      destruct (rename_open _ _ d1) as [[u2|e2] d2].
      + destruct Ho as [Hwf2 ->]. unfold rename_checks. subst d1. split_and!; try done.
        eapply alerts_wf_ext; [..|exact Hwf2]; done.
      + destruct Ho as (-> & a & b & Ho). subst d1. do 2 (split; [done|]). by exists a, b. }
  revert Hmid. destruct (carry_over _ _ d1) as [[u2|e2] d2]; [|by right].
  intros (Hwf2 & Hr2 & Hh2 & Hs2 & Ha2 & Hc2). unfold moved, moved_alerts. subst d1.
  destruct enabled; unfold mret, SM_ret, sret, resolveRuleAlerts; split; try done.
  split; [by apply alerts_wf_resolve|]. rewrite <- Ha2. split_and!; done.
Qed.

Lemma rule_by_id_some d id row : rule_by_id d id = Some row → row ∈ alert_rules d ∧ ru_id row = id.
Proof.
  unfold rule_by_id. intros Hf. apply find_some in Hf as [Hin He]. rewrite list_elem_of_In. split; [done|lia].
Qed.

Lemma rule_by_id_none d id : rule_by_id d id = None ↔ id ∉ map ru_id (alert_rules d).
Proof.
  unfold rule_by_id. split.
  - intros Hf (r & -> & Hr)%list_elem_of_fmap. rewrite list_elem_of_In in Hr. eapply find_none in Hf; [|exact Hr].
    cbn in Hf. lia.
  - intros Hn. destruct (List.find _ _) as [r|] eqn:E; [|done]. apply find_some in E as [Hr He].
    rewrite <- list_elem_of_In in Hr. destruct Hn. apply list_elem_of_fmap. exists r. split; [lia|done].
Qed.

Lemma rules_wf_moved now id row rule enabled by_ d d' : rules_wf d → rule_by_id d id = Some row → valid_rule rule →
  free_for d id (rule_Name rule) → alerts_wf d' → moved now id (ru_name row) rule enabled by_ d d' → rules_wf d'.
Proof.
  intros [Ha Hids Hfr Hn Hv Ho] Hrow Hval Hfree Hwf' (Er & Ea & _ & _ & Es).
  apply rule_by_id_some in Hrow as [Hrow Hid].
  assert (Huniq : ∀ x, x ∈ alert_rules d → ru_id x = id → x = row).
  { intros x Hx E. apply (NoDup_map_inj ru_id (alert_rules d)); [done..|lia]. }
  constructor; rewrite ?Er, ?Ea, ?Es; try done.
  - by rewrite map_update_where.
  - intros r (x & Hx & ->)%elem_of_update_where. specialize (Hfr x Hx). by destruct (ru_id x =? id).
  - apply NoDup_map_update; [done|..].
    + intros x y Hx Hy Hpx Hpy. rewrite (Huniq x), (Huniq y); [done|done|lia|done|lia].
    + intros x y Hx Hy Hpx Hpy E. cbn in E. symmetry in E. apply (Hfree y Hy) in E. lia.
  - intros r (x & Hx & ->)%elem_of_update_where. destruct (ru_id x =? id); [done|auto].
  - set (A := update_where (open_of_rule (ru_name row)) (rename_alert (rule_Name rule)) (alerts d)) in *.
    assert (Hmoved : ∀ a, a ∈ moved_alerts now (ru_name row) (rule_Name rule) enabled (alerts d) → is_open a = true →
      a ∈ A ∧ (enabled = false → al_rule a ≠ rule_Name rule)).
    { intros a. unfold moved_alerts. fold A. destruct enabled; [done|]. intros Hin Hop.
      destruct (resolved_none _ _ (set_alerts A d) _ Hin Hop). done. }
    intros a Hin Hop. destruct (Hmoved a Hin Hop) as [(x & Hx & ->)%elem_of_update_where Hen]. clear Hmoved Hin.
    assert (Hxo : is_open x = true) by (by destruct (open_of_rule (ru_name row) x)).
    destruct (Ho x Hx Hxo) as (r & Hr & He & Hrn). destruct (open_of_rule (ru_name row) x) eqn:Ex.
    + exists (new_rule now (ru_id row) rule enabled by_). split_and!; [|by destruct enabled; [|destruct Hen]|done].
      apply elem_of_update_where. exists row. split; [done|]. assert (E : (ru_id row =? id) = true) by lia. by rewrite E.
    + exists r. split_and!; [|done..]. apply elem_of_update_where. exists r. split; [done|].
      destruct (Z.eqb_spec (ru_id r) id) as [E|]; [|done]. exfalso. apply (Huniq r Hr) in E as ->.
      assert (open_of_rule (ru_name row) x = true) by (by apply open_of_rule_spec). congruence.
Qed.

Lemma rules_wf_delete now id row d : rules_wf d → rule_by_id d id = Some row →
  rules_wf (set_alerts (update_where (open_of_rule (ru_name row)) (resolve_row now) (alerts d))
              (set_alert_rules (delete_where (λ r, ru_id r =? id) (alert_rules d)) d)).
Proof.
  intros [Ha Hids Hfr Hn Hv Ho] Hrow. apply rule_by_id_some in Hrow as [Hrow Hid].
  assert (Hsub : ∀ r, r ∈ delete_where (λ r, ru_id r =? id) (alert_rules d) ↔ r ∈ alert_rules d ∧ ru_id r ≠ id).
  { intros r. rewrite elem_of_delete_where. split; intros [? ?]; split; (done || lia). }
  constructor; cbn.
  - apply (alerts_wf_ext (set_alerts (update_where (open_of_rule (ru_name row)) (resolve_row now) (alerts d)) d)); try done.
    by apply alerts_wf_resolve.
  - by apply NoDup_map_filter.
  - intros r [Hr _]%Hsub. auto.
  - by apply NoDup_map_filter.
  - intros r [Hr _]%Hsub. auto.
  - intros a Hin Hop. destruct (resolved_none _ _ d _ Hin Hop) as [Hin' Hne].
    destruct (Ho a Hin' Hop) as (r & Hr & He & Hrn). exists r. split_and!; [|done..]. apply Hsub. split; [done|].
    intros E. assert (r = row) as -> by (apply (NoDup_map_inj ru_id (alert_rules d)); [done..|lia]). done.
Qed.

(** The consequences of an update for every row *)
Lemma moved_spec now id row rule enabled by_ d d' : row ∈ alert_rules d → ru_id row = id →
  moved now id (ru_name row) rule enabled by_ d d' →
  new_rule now id rule enabled by_ ∈ alert_rules d'
  ∧ (∀ r, ru_id r ≠ id → r ∈ alert_rules d' ↔ r ∈ alert_rules d)
  ∧ map al_id (alerts d') = map al_id (alerts d)
  ∧ (∀ a, a ∈ alerts d → is_open a = false → a ∈ alerts d')
  ∧ (enabled = true → ∀ a, a ∈ alerts d → al_rule a = ru_name row → is_open a = true →
       rename_alert (rule_Name rule) a ∈ alerts d')
  ∧ (enabled = false → ∀ a, a ∈ alerts d' → is_open a = true → al_rule a ≠ rule_Name rule)
  ∧ (∀ c, c ∈ endpoint_checks d → ec_Name c = ru_name row → rename_check (rule_Name rule) c ∈ endpoint_checks d').
Proof.
  intros Hrow Hid (Er & Ea & Ec & _ & _). rewrite Er, Ea, Ec. unfold moved_alerts.
  set (A := update_where (open_of_rule (ru_name row)) (rename_alert (rule_Name rule)) (alerts d)).
  assert (Hkeep : ∀ a, a ∈ alerts d → is_open a = false → a ∈ A).
  { intros a Ha Ho. apply elem_of_update_where. exists a. unfold open_of_rule. by rewrite Ho, andb_false_r. }
  split_and!.
  - apply elem_of_update_where. exists row. by rewrite Hid, Z.eqb_refl.
  - intros r Hne. rewrite elem_of_update_where. split.
    + intros (x & Hx & ->). by destruct (Z.eqb_spec (ru_id x) id).
    + intros Hr. exists r. by destruct (Z.eqb_spec (ru_id r) id).
  - destruct enabled; unfold A; by rewrite !map_update_where.
  - intros a Ha Ho. destruct enabled; [by apply Hkeep|]. apply elem_of_update_where. exists a.
    split; [by apply Hkeep|]. unfold open_of_rule. by rewrite Ho, andb_false_r.
  - intros -> a Ha Hr Ho. apply elem_of_update_where. exists a.
    assert (E : open_of_rule (ru_name row) a = true) by (by apply open_of_rule_spec). by rewrite E.
  - intros -> a Ha Ho. by eapply (resolved_none _ _ (set_alerts A d)).
  - intros c Hc Hn. apply elem_of_update_where. exists c. by rewrite Hn, str_eq_refl.
Qed.

(** ** SetupRules *)

Definition for_all_hosts (rule : AlertConfig) : bool :=
  str_eq (rule_MetricName rule) PING && contains (rule_Servers rule) AllHosts.

Lemma setup_rules_spec now rules : ∀ names ah imp d, rules_wf d →
  match setup_rules now names ah imp rules d with
  | (Ok (names', ah', imp'), d') => rules_wf d' ∧ imp' = imp + len rules ∧ rule_setup d' = rule_setup d ∧
      (∃ rows, alert_rules d' = alert_rules d ++ rows ∧ map ru_rule rows = map normalise rules ∧
         Forall (λ r, ru_enabled r = true) rows) ∧
      (∀ n, n ∈ names' ↔ n ∈ names ∨ n ∈ map rule_Name (map normalise rules)) ∧
      ah' = ah || existsb for_all_hosts (map normalise rules)
  | (Err _, _) => ¬ (Forall valid_rule (map normalise rules) ∧ NoDup (map rule_Name (map normalise rules)) ∧
      ∀ n, n ∈ map rule_Name (map normalise rules) → n ∉ map ru_name (alert_rules d))
  end.
Proof.
  induction rules as [|rule rules IH]; intros names ah imp d Hwf; cbn -[existsb].
  { unfold mret, SM_ret, sret. split_and!; try done; [unfold len; cbn; lia|..].
    - exists []. rewrite app_nil_r. done.
    - intros n. pose proof (not_elem_of_nil n). tauto.
    - by rewrite orb_false_r. }
  pose proof (checkRule_spec rule) as Hc. destruct (checkRule rule) as [r|e].
  2:{ cbn. destruct Hc as [Hc _]. rewrite Forall_cons. tauto. }
  destruct Hc as [-> Hv]. unfold mbind, SM_bind, sbind, stry.
  pose proof (insert_rule_spec now (normalise rule) true "" d Hwf Hv) as Hi.
  destruct (insert_rule _ _ _ _ d) as [[id|e] d1].
  2:{ destruct Hi as [_ Hi]. intros (_ & _ & Hn). apply (Hn (rule_Name (normalise rule))); [by left|done]. }
  destruct Hi as (Hwf1 & Hfree & _ & Ed1).
  specialize (IH (rule_Name (normalise rule) :: names) (ah || for_all_hosts (normalise rule)) (imp + 1) d1 Hwf1).
  unfold for_all_hosts in IH at 1. destruct (setup_rules _ _ _ _ rules d1) as [[[[names' ah'] imp']|e] d'].
  - destruct IH as (Hwf' & -> & Es & (rows & Er & Em & Een) & Hnames & ->). split_and!; [done|unfold len; cbn; lia|by subst d1|..].
    + exists (new_rule now id (normalise rule) true "" :: rows). cbn. rewrite Em, Er. subst d1. cbn.
      rewrite <- app_assoc. split_and!; [done..|]. by constructor.
    + intros n. rewrite Hnames, !elem_of_cons. tauto.
    + cbn. by rewrite orb_assoc.
  - intros (Hval & Hnd & Hn). apply IH. cbn in Hnd. apply NoDup_cons in Hnd as [Hnot Hnd].
    apply Forall_cons in Hval as [_ Hval]. split_and!; [done..|]. intros n Hin. subst d1. cbn. rewrite map_app, not_elem_of_app.
    split; [apply Hn; by right|]. cbn. rewrite list_elem_of_singleton. by intros ->.
Qed.

Lemma rules_wf_setup d v : rules_wf d → rules_wf (set_rule_setup v d).
Proof. intros [Ha Hids Hfr Hn Hv Ho]. constructor; cbn; try done. by apply (alerts_wf_ext d). Qed.

Lemma SetupRules_spec now rules source d : rules_wf d →
  match SetupRules now rules source d with
  | (Ok s, d') => rules_wf d' ∧ RulesSetUp d' = true ∧
      if setup_Done s then d' = d ∧ RulesSetUp d = true else
      setup_Imported s = len rules ∧ (∃ rows, alert_rules d' = alert_rules d ++ rows ∧
        Forall (λ r, ru_enabled r = true) rows ∧
        map ru_rule rows = map normalise rules ++
          (if existsb for_all_hosts (map normalise rules) || contains (map rule_Name (map normalise rules)) (rule_Name DefaultHeartbeat)
           then [] else [DefaultHeartbeat]))
  | (Err _, d') => d' = d
  end.
Proof.
  intros Hwf. destruct (SetupRules now rules source d) as [[s|e] d'] eqn:Hs; unfold SetupRules in Hs.
  2:{ destruct (RulesSetUp d); [done|]. by eapply transaction_err. }
  destruct (RulesSetUp d) eqn:Ed; [by injection Hs as <- <-|].
  rewrite transaction_ok in Hs. unfold mbind, SM_bind, sbind in Hs. cbv beta in Hs.
  pose proof (setup_rules_spec now rules [] false 0 d Hwf) as Hr.
  destruct (setup_rules now [] false 0 rules d) as [[[[names ah] imp]|e] d1]; [|done].
  destruct Hr as (Hwf1 & -> & Es & (rows & Er & Em & Een) & Hnames & ->). cbn [orb] in Hs.
  assert (Ec : contains names (rule_Name DefaultHeartbeat) =
    contains (map rule_Name (map normalise rules)) (rule_Name DefaultHeartbeat)).
  { apply eq_true_iff_eq. rewrite !contains_spec, Hnames. pose proof (not_elem_of_nil (rule_Name DefaultHeartbeat)). tauto. }
  rewrite Ec in Hs. clear Ec. rewrite <- negb_orb in Hs.
  destruct (existsb _ _ || contains _ _) eqn:E; cbn [negb] in Hs.
  - injection Hs as <- <-. cbn -[len]. split_and!; [by apply rules_wf_setup|unfold RulesSetUp; cbn; by destruct (rule_setup d1)|lia|].
    exists rows. rewrite app_nil_r. done.
  - pose proof (insert_rule_spec now DefaultHeartbeat true "" d1 Hwf1 DefaultHeartbeat_valid) as Hi.
    destruct (insert_rule _ _ _ _ d1) as [[id|e] d2]; [|done]. destruct Hi as (Hwf2 & _ & _ & Ed2).
    injection Hs as <- <-. cbn -[len DefaultHeartbeat]. split_and!; [by apply rules_wf_setup|unfold RulesSetUp; cbn; by destruct (rule_setup d2)|lia|].
    exists (rows ++ [new_rule now id DefaultHeartbeat true ""]).
    rewrite Ed2. cbn -[DefaultHeartbeat]. rewrite Er, <- app_assoc, map_app, Em. split_and!; [done| |done].
    apply Forall_app. split; [done|]. by repeat constructor.
Qed.

(** ** ImportRules *)

Lemma check_rules_spec rules : match check_rules rules with
  | Ok l => l = map normalise rules ∧ Forall valid_rule l
  | Err _ => ¬ Forall valid_rule (map normalise rules)
  end.
Proof.
  induction rules as [|rule rules IH]; cbn; [done|]. pose proof (checkRule_spec rule) as Hc.
  destruct (checkRule rule) as [r|e].
  - destruct Hc as [-> Hv]. destruct (check_rules rules) as [l|e]; cbn; [|rewrite Forall_cons; tauto].
    destruct IH as [-> Hl]. split; [done|]. by constructor.
  - rewrite Forall_cons. tauto.
Qed.

(** A row of the table is kept up to its rule. *)
Definition same_row (r r' : RuleRow) : Prop :=
  ru_id r' = ru_id r ∧ ru_name r' = ru_name r ∧ ru_enabled r' = ru_enabled r.

Lemma import_rule_spec now rule by_ d : rules_wf d → valid_rule rule →
  match import_rule now rule by_ d with
  | (Ok added, d') => rules_wf d' ∧ rule_setup d' = rule_setup d ∧
      len (alert_rules d') = len (alert_rules d) + (if (added : bool) then 1 else 0) ∧
      (∃ r, r ∈ alert_rules d' ∧ ru_name r = rule_Name rule ∧ ru_rule r = rule) ∧
      (∀ r, r ∈ alert_rules d → ∃ r', r' ∈ alert_rules d' ∧ same_row r r' ∧ (ru_name r ≠ rule_Name rule → r' = r))
  | (Err _, _) => False
  end.
Proof.
  intros Hwf Hv. unfold import_rule. destruct (name_taken d (rule_Name rule)) eqn:E.
  - apply name_taken_spec in E. apply list_elem_of_fmap in E as (x & Ex & Hx). cbn [alert_rules set_alert_rules rule_setup].
    split_and!.
    + apply rules_wf_update; [done|]. intros r Hr Hp. apply str_eq_spec in Hp. by split_and!.
    + done.
    + unfold len, update_where. rewrite length_map. lia.
    + eexists. split_and!; [apply elem_of_update_where; exists x; split; [done|reflexivity]|..];
        assert (Hp : rule_with (rule_Name rule) x = true) by (by apply str_eq_spec); by rewrite Hp.
    + intros r Hr. eexists. split_and!; [apply elem_of_update_where; exists r; split; [done|reflexivity]|..].
      * by destruct (rule_with (rule_Name rule) r).
      * intros Hne. destruct (rule_with (rule_Name rule) r) eqn:Ep; [|done]. by apply str_eq_spec in Ep.
  - assert (Hfree : rule_Name rule ∉ map ru_name (alert_rules d)) by (rewrite <- name_taken_spec; congruence).
    unfold next_id. split_and!; cbn.
    + by apply (rules_wf_insert d).
    + done.
    + unfold len. rewrite length_app. cbn. lia.
    + exists (new_rule now (seq d) rule true by_). split_and!; [|done..]. apply elem_of_app. right. by apply list_elem_of_singleton.
    + intros r Hr. exists r. split_and!; [apply elem_of_app; by left|by split_and!|done].
Qed.

Lemma import_rules_spec now by_ rules : ∀ a u d, rules_wf d → Forall valid_rule rules →
  match import_rules now by_ a u rules d with
  | (Ok (a', u'), d') => rules_wf d' ∧ rule_setup d' = rule_setup d ∧ a' + u' = a + u + len rules ∧ 
      len (alert_rules d') = len (alert_rules d) + (a' - a) ∧
      (∀ r, r ∈ alert_rules d → ∃ r', r' ∈ alert_rules d' ∧ same_row r r' ∧ (ru_name r ∉ map rule_Name rules → r' = r)) ∧
      (NoDup (map rule_Name rules) → ∀ rule, rule ∈ rules → ∃ r, r ∈ alert_rules d' ∧ ru_name r = rule_Name rule ∧ ru_rule r = rule)
  | (Err _, _) => False
  end.
Proof.
  induction rules as [|rule rules IH]; intros a u d Hwf Hval; cbn.
  { unfold mret, SM_ret, sret. split_and!; try done; [unfold len; cbn; lia|unfold len; lia|..].
    - intros r Hr. exists r. done.
    - intros _ rule Hin. by apply not_elem_of_nil in Hin. }
  apply Forall_cons in Hval as [Hv Hval]. unfold mbind, SM_bind, sbind.
  pose proof (import_rule_spec now rule by_ d Hwf Hv) as Hi.
  destruct (import_rule now rule by_ d) as [[added|e] d1]; [|done].
  destruct Hi as (Hwf1 & Es1 & Hl1 & (x & Hx & Hxn & Hxr) & Hkeep).
  set (a1 := if (added : bool) then a + 1 else a). set (u1 := if (added : bool) then u else u + 1).
  replace ((if added then import_rules now by_ (a + 1) u rules else import_rules now by_ a (u + 1) rules) d1)
    with (import_rules now by_ a1 u1 rules d1) by (by destruct added).
  specialize (IH a1 u1 d1 Hwf1 Hval). destruct (import_rules now by_ a1 u1 rules d1) as [[[a' u']|e] d']; [|done].
  destruct IH as (Hwf' & Es & Hsum & Hlen & Hkeep' & Hin). split_and!; [done|congruence|..].
  - rewrite Hsum. unfold a1, u1, len. cbn. destruct added; lia.
  - rewrite Hlen, Hl1. unfold a1. destruct added; lia.
  - intros r Hr. destruct (Hkeep r Hr) as (r1 & Hr1 & (E1 & E2 & E3) & Hsame).
    destruct (Hkeep' r1 Hr1) as (r2 & Hr2 & (F1 & F2 & F3) & Hsame'). exists r2.
    split_and!; [done|unfold same_row; split_and!; congruence|]. rewrite not_elem_of_cons. intros [Hne Hnot].
    rewrite Hsame', Hsame; [done|done|]. rewrite Hsame; done.
  - rewrite NoDup_cons. intros [Hnot Hnd] rule' [->|Hr]%elem_of_cons; [|by apply Hin].
    destruct (Hkeep' x Hx) as (r2 & Hr2 & (F1 & F2 & F3) & Hsame'). exists r2. split_and!; [done|congruence|].
    rewrite Hsame'; [done|]. by rewrite Hxn.
Qed.
End Rules.

(** ** Properties *)

Section Properties.
Context `{UrlParse}.

(** C18: every operation on the rules, whatever it is given and whether it
    succeeds or not, keeps [rules_wf]: rule names and ids stay unique, every
    rule kept is valid, the alerts stay well formed and every open alert
    belongs to an enabled rule. *)
Theorem rules_stay_wf (d d' : DB) : rtc rules_step d d' → rules_wf d → rules_wf d'.
Proof.
  apply rtc_invariant. clear d d'. intros d d' Hstep Hwf. destruct Hstep as
    [now rule enabled by_ ->|now id rule enabled by_ ->|now id ->|now rules source ->|now rules by_ ->].
  - unfold CreateRule. pose proof (checkRule_spec rule) as Hc. destruct (checkRule rule) as [r|e]; [|done].
    destruct Hc as [-> Hv]. pose proof (insert_rule_spec now (normalise rule) enabled by_ d Hwf Hv) as Hi.
    unfold transaction. destruct (insert_rule _ _ _ _ d) as [[id|e] d1]; [apply Hi|done].
  - unfold UpdateRule. pose proof (checkRule_spec rule) as Hc. destruct (checkRule rule) as [r|e]; [|done].
    destruct Hc as [-> Hv]. destruct (rule_by_id d id) as [row|] eqn:Er.
    2:{ unfold transaction, update_rule. by rewrite Er. }
    pose proof (update_rule_spec now id (normalise rule) enabled by_ d row (rw_alerts d Hwf) Er) as Hu.
    unfold transaction. destruct (update_rule _ _ _ _ _ d) as [[u|e] d1]; [|done].
    destruct Hu as (Hfree & Hwf1 & Hm). by eapply rules_wf_moved.
  - unfold DeleteRule. destruct (rule_by_id d id) as [row|] eqn:Er; [|done].
    by apply (rules_wf_delete now id row d).
  - pose proof (SetupRules_spec now rules source d Hwf) as Hs.
    destruct (SetupRules _ _ _ d) as [[s|e] d1]; [apply Hs|by subst].
  - unfold ImportRules. pose proof (check_rules_spec rules) as Hc. destruct (check_rules rules) as [l|e]; [|done].
    destruct Hc as [-> Hv]. pose proof (import_rules_spec now by_ (map normalise rules) 0 0 d Hwf Hv) as Hi.
    unfold transaction. destruct (import_rules _ _ _ _ _ d) as [[[a u]|e] d1]; [apply Hi|done].
Qed.

(** [UpdateRule] on well-formed tables.  An error changes nothing, and is
    [ErrNotFound], [ErrInvalid] or [ErrRuleExists], each for its reason: moving
    the open alerts to the new name never runs into their unique index.  Otherwise the rule is replaced
    by its checked form, the open alerts and the endpoint checks of the old
    name continue under the new one, resolved alerts keep theirs, and a rule
    switched off has no open alert left. *)
Lemma UpdateRule_correct (now : time) (id : Z) (rule : AlertConfig) (enabled : bool) (by_ : string) (d : DB) :
  rules_wf d →
  match UpdateRule now id rule enabled by_ d with
  | (Err e, d') => d' = d ∧
      match e with
      | ErrNotFound => id ∉ map ru_id (alert_rules d)
      | ErrInvalid _ => ¬ valid_rule (normalise rule)
      | ErrRuleExists => ¬ free_for d id (rule_Name (normalise rule))
      | _ => False
      end
  | (Ok _, d') => valid_rule (normalise rule) ∧ ∃ row, row ∈ alert_rules d ∧ ru_id row = id
      ∧ new_rule now id (normalise rule) enabled by_ ∈ alert_rules d'
      ∧ (∀ r, ru_id r ≠ id → r ∈ alert_rules d' ↔ r ∈ alert_rules d)
      ∧ map al_id (alerts d') = map al_id (alerts d)
      ∧ (∀ a, a ∈ alerts d → is_open a = false → a ∈ alerts d')
      ∧ (enabled = true → ∀ a, a ∈ alerts d → al_rule a = ru_name row → is_open a = true →
           rename_alert (rule_Name (normalise rule)) a ∈ alerts d')
      ∧ (enabled = false → ∀ a, a ∈ alerts d' → is_open a = true → al_rule a ≠ rule_Name (normalise rule))
      ∧ (∀ c, c ∈ endpoint_checks d → ec_Name c = ru_name row →
           rename_check (rule_Name (normalise rule)) c ∈ endpoint_checks d')
  end.
Proof.
  intros Hwf. unfold UpdateRule. pose proof (checkRule_spec rule) as Hc. destruct (checkRule rule) as [r|e].
  2:{ destruct Hc as [Hc [m ->]]. done. }
  destruct Hc as [-> Hv]. destruct (rule_by_id d id) as [row|] eqn:Er.
  2:{ unfold transaction, update_rule. rewrite Er. split; [done|]. by apply rule_by_id_none. }
  pose proof (update_rule_spec now id (normalise rule) enabled by_ d row (rw_alerts d Hwf) Er) as Hu.
  unfold transaction. destruct (update_rule _ _ _ _ _ d) as [[u|e] d']; [|split; [done|]].
  - destruct Hu as (_ & _ & Hm). split; [done|]. exists row. apply rule_by_id_some in Er as [Hrow Hid].
    do 2 (split; [done|]). by apply (moved_spec now id row _ enabled by_ d).
  - destruct Hu as [[-> Hu]|(Hfree & Hne & a & b & Ha & Hb & Hoa & Hob & Hk)]; [done|]. exfalso.
    unfold open_key in Hk. cbn in Hk. injection Hk as _ Eb _ _.
    destruct (rw_owned d Hwf b Hb Hob) as (r & Hr & _ & Hn). apply rule_by_id_some in Er as [Hrow Hid].
    assert (Hrid : ru_id r = id) by (apply Hfree; [done|congruence]).
    apply Hne. rewrite <- Eb, <- Hn. f_equal. apply (NoDup_map_inj ru_id (alert_rules d)); [apply Hwf|done..|lia].
Qed.

(** [SetupRules] runs once.  The first time it adds the normal forms of
    all the rules, enabled, and the default heartbeat unless a rule has that
    name or a heartbeat for all hosts is among them; any error leaves the
    database as it was; after a success every later call changes nothing. *)
Lemma SetupRules_once (now : time) (rules : list AlertConfig) (source : string) (d : DB) :
  rules_wf d →
  match SetupRules now rules source d with
  | (Err _, d') => d' = d
  | (Ok s, d') =>
      (∀ now' rules' source', SetupRules now' rules' source' d' =
         (Ok {| setup_Done := true; setup_Imported := 0; setup_Added := [] |}, d')) ∧
      if setup_Done s then d' = d ∧ RulesSetUp d = true else
      setup_Imported s = len rules ∧ ∃ rows, alert_rules d' = alert_rules d ++ rows ∧
        Forall (λ r, ru_enabled r = true) rows ∧
        map ru_rule rows = map normalise rules ++
          (if existsb for_all_hosts (map normalise rules)
              || contains (map rule_Name (map normalise rules)) (rule_Name DefaultHeartbeat)
           then [] else [DefaultHeartbeat])
  end.
Proof.
  intros Hwf. pose proof (SetupRules_spec now rules source d Hwf) as Hs.
  destruct (SetupRules now rules source d) as [[s|e] d']; [|done]. destruct Hs as (_ & Hd & Hs).
  split; [|done]. intros now' rules' source'. unfold SetupRules. by rewrite Hd.
Qed.

(** [ImportRules] takes every rule of a file or none.  On an error, which
    is a rule that does not validate, nothing changes.  Otherwise every rule
    counts as added or replaced, the table grows by the added ones, each name
    of the file now has exactly that file's rule, and rows keep their id,
    name and switch, and their rule when the file does not name it. *)
Lemma ImportRules_correct (now : time) (rules : list AlertConfig) (by_ : string) (d : DB) :
  rules_wf d →
  match ImportRules now rules by_ d with
  | (Err _, d') => d' = d ∧ ¬ Forall valid_rule (map normalise rules)
  | (Ok (added, updated), d') =>
      Forall valid_rule (map normalise rules) ∧ added + updated = len rules
      ∧ len (alert_rules d') = len (alert_rules d) + added
      ∧ (∀ r, r ∈ alert_rules d → ∃ r', r' ∈ alert_rules d' ∧ same_row r r' ∧
           (ru_name r ∉ map rule_Name (map normalise rules) → r' = r))
      ∧ (NoDup (map rule_Name (map normalise rules)) → ∀ rule, rule ∈ rules →
           ∃ r, r ∈ alert_rules d' ∧ ru_name r = rule_Name (normalise rule) ∧ ru_rule r = normalise rule)
  end.
Proof.
  intros Hwf. unfold ImportRules. pose proof (check_rules_spec rules) as Hc.
  destruct (check_rules rules) as [l|e]; [|done]. destruct Hc as [-> Hv].
  pose proof (import_rules_spec now by_ (map normalise rules) 0 0 d Hwf Hv) as Hi. unfold transaction.
  destruct (import_rules _ _ _ _ _ d) as [[[a u]|e] d']; [|done].
  destruct Hi as (_ & _ & Hsum & Hlen & Hkeep & Hin). unfold len in *. rewrite length_map in Hsum.
  split_and!; [done|lia|lia|done|]. intros Hnd rule Hr. apply (Hin Hnd). by apply list_elem_of_fmap_2.
Qed.
End Properties.

(** ** Witnesses *)

#[local] Instance ex_urls : UrlParse := λ _, None.

(** A rule with an open alert on a host without rules of its own. *)
Definition swap_rule : AlertConfig := {|
  rule_Name := "Swap"; rule_Description := ""; rule_MetricName := SWAP; rule_IsCustom := false; rule_Op := ">";
  rule_Template := ""; rule_WarnThreshold := 80; rule_CriticalThreshold := 95; rule_TriggerIntveral := 60;
  rule_Servers := ["*"]; rule_Endpoint := ""; rule_ExpectedHTTPCode := 0; rule_Method := ""; rule_CustomCACert := "";
  rule_POSTContentType := ""; rule_POSTBody := ""; rule_Disk := ""; rule_Service := ""; rule_Cluster := "";
  rule_Namespace := ""; rule_Channels := []; rule_Email := false; rule_Pagerduty := false; rule_Slack := false;
  rule_SlackChannel := ""; rule_CertWarnDays := None; rule_CertCriticalDays := None |}.
Definition rules_db : DB :=
  set_alert_rules [new_rule 0 2 swap_rule true "ann"]
    (set_alerts [{| al_id := 3; al_host_id := Some 1; al_rule := "Swap"; al_metric := SWAP; al_target := "";
                    al_severity := 1; al_value := f0; al_started_at := 5; al_updated_at := 5; al_resolved_at := None |}]
      (set_seq 10 (set_hosts [new_host 1 "web1" ""] empty_db))).

Lemma rules_db_wf : rules_wf rules_db.
Proof.
  assert (Hv : valid_rule swap_rule).
  { pose proof (Validate_spec swap_rule) as Hs. revert Hs.
    replace (Validate swap_rule) with (@Ok error unit (), swap_rule) by (by vm_compute). by intros [_ Hv]. }
  constructor; cbn -[swap_rule]; try apply NoDup_singleton.
  - constructor; cbn; try apply NoDup_singleton; try by intros h ->%list_elem_of_singleton.
    + intros a i ->%list_elem_of_singleton [= <-]. by apply list_elem_of_singleton.
    + by intros a b ->%list_elem_of_singleton ->%list_elem_of_singleton.
  - by intros r ->%list_elem_of_singleton.
  - by intros r ->%list_elem_of_singleton.
  - intros a ->%list_elem_of_singleton _. eexists. split; [by apply list_elem_of_singleton|done].
Qed.

Lemma rules_stay_wf_witness :
  rules_wf (snd (UpdateRule 20 2 (set_rule_Name "Swap use" swap_rule) false "bob" rules_db)).
Proof.
  apply (rules_stay_wf rules_db); [|exact rules_db_wf].
  apply rtc_once. by eapply step_update.
Defined.

Lemma UpdateRule_correct_witness :
  rename_alert "Swap use" {| al_id := 3; al_host_id := Some 1; al_rule := "Swap"; al_metric := SWAP; al_target := "";
    al_severity := 1; al_value := f0; al_started_at := 5; al_updated_at := 5; al_resolved_at := None |}
  ∈ alerts (snd (UpdateRule 20 2 (set_rule_Name "Swap use" swap_rule) true "bob" rules_db)).
Proof.
  pose proof (UpdateRule_correct 20 2 (set_rule_Name "Swap use" swap_rule) true "bob" rules_db rules_db_wf) as Hu.
  destruct (UpdateRule 20 2 (set_rule_Name "Swap use" swap_rule) true "bob" rules_db) as [[u|e] d'] eqn:E.
  - destruct Hu as (_ & row & Hrow & _ & _ & _ & _ & _ & Hu & _). apply list_elem_of_singleton in Hrow as ->.
    apply Hu; [done|by apply list_elem_of_singleton|done|done].
  - exfalso. vm_compute in E. discriminate E.
Defined.

Lemma SetupRules_once_witness :
  snd (SetupRules 30 [] "" (snd (SetupRules 20 [set_rule_Name "Swap use" swap_rule] "alerts.json" rules_db)))
  = snd (SetupRules 20 [set_rule_Name "Swap use" swap_rule] "alerts.json" rules_db).
Proof.
  pose proof (SetupRules_once 20 [set_rule_Name "Swap use" swap_rule] "alerts.json" rules_db rules_db_wf) as Hs.
  destruct (SetupRules 20 [set_rule_Name "Swap use" swap_rule] "alerts.json" rules_db) as [[s|e] d'] eqn:E.
  - destruct Hs as [Hs _]. cbn [snd]. by rewrite Hs.
  - exfalso. vm_compute in E. discriminate E.
Defined.

Lemma ImportRules_correct_witness :
  ∃ r, r ∈ alert_rules (snd (ImportRules 20 [set_rule_Name "Swap use" swap_rule] "cli" rules_db)) ∧ ru_name r = "Swap use".
Proof.
  pose proof (ImportRules_correct 20 [set_rule_Name "Swap use" swap_rule] "cli" rules_db rules_db_wf) as Hi.
  destruct (ImportRules 20 [set_rule_Name "Swap use" swap_rule] "cli" rules_db) as [[[a u]|e] d'] eqn:E.
  - destruct Hi as (_ & _ & _ & _ & Hi).
    destruct (Hi ltac:(apply NoDup_singleton) (set_rule_Name "Swap use" swap_rule) ltac:(by apply list_elem_of_singleton))
      as (r & Hr & Hn & _). exists r. split; [exact Hr|]. rewrite Hn. by vm_compute.
  - exfalso. vm_compute in E. discriminate E.
Defined.
