(* ===== verification/EvaluatorProps.v ===== *)
(** * Properties of the evaluator, with witnesses on the database. *)
From S2P Require Import Prelude GoStrings GoFloat GoTime Errors Monitor Alerts Json Notify Kube Database StoreHosts.
From S2P Require Import StoreAlerts StoreKube StoreForecast Texts Evaluator EvaluatorSpec EvaluatorStore.
Local Open Scope Z_scope.

(** ** Concrete inputs *)

#[local] Instance ex_clock : StoreClock := 0.
#[local] Instance ex_rows : ForecastRows := λ _ _, [].

Definition ex_rule (name metric op : string) (warn critical interval : Z) : AlertConfig := {|
  rule_Name := name; rule_Description := ""; rule_MetricName := metric; rule_IsCustom := false; rule_Op := op;
  rule_Template := ""; rule_WarnThreshold := warn; rule_CriticalThreshold := critical;
  rule_TriggerIntveral := interval; rule_Servers := ["*"]; rule_Endpoint := ""; rule_ExpectedHTTPCode := 0;
  rule_Method := ""; rule_CustomCACert := ""; rule_POSTContentType := ""; rule_POSTBody := ""; rule_Disk := "";
  rule_Service := ""; rule_Cluster := "homelab"; rule_Namespace := ""; rule_Channels := []; rule_Email := false;
  rule_Pagerduty := false; rule_Slack := false; rule_SlackChannel := ""; rule_CertWarnDays := None;
  rule_CertCriticalDays := None |}.
Definition cpu_rule : AlertConfig := ex_rule "CPU" PROC_USAGE ">" 80 95 60.

Definition ex_db : DB := set_seq 10 (set_hosts [new_host 1 "web1" ""] empty_db).

Lemma ex_db_wf : alerts_wf ex_db.
Proof.
  constructor; cbn; try (intros; by match goal with H : _ ∈ [] |- _ => apply not_elem_of_nil in H end).
  - apply NoDup_singleton.
  - apply NoDup_singleton.
  - by intros h ->%list_elem_of_singleton.
  - constructor.
Qed.

Lemma ex_idle host rule target : at_phase (newEvaluator ex_db) host rule target Idle.
Proof. exists None. split; [apply open_at_none; intros r Hr; by apply not_elem_of_nil in Hr|by cbn; rewrite lookup_empty]. Qed.

Lemma ex_fresh key (t : time) : fresh (newEvaluator ex_db) key t.
Proof. intros last Hl. cbn in Hl. by rewrite lookup_empty in Hl. Qed.

Lemma ex_fresh_samples key samples : StronglySorted Z.lt (map snd samples) → fresh_samples (newEvaluator ex_db) key samples.
Proof. intros Hs. split; [done|]. intros s _. apply ex_fresh. Qed.

(** ** The alert machine *)

(** C1: [check] refines the alert state machine.  For a sample newer than the
    target's last one, a successful check takes one step of the machine
    (idle, pending, firing, recovering) on the sample's status, sends exactly
    the step's notices, and leaves every other alert and every other target's
    memory alone; a check whose store call fails sends nothing.  A sample
    that is not newer changes nothing at all. *)
Theorem check_refines_machine {W} `{AlertStoreLaws W} (e : evaluator W) (host : string) (rule : AlertConfig)
  (target : string) (v : float64) (t : time) (p : phase)
  (Hinv : st_inv (ev_store e)) (Hp : at_phase e host rule target p) :
  match check rule host target v t e with
  | (Ok _, e') =>
      (e' = e ∧ ∃ last : time, ev_checked e !! alertKey host rule target = Some last ∧ t ≤ last)
      ∨ (fresh e (alertKey host rule target) t
         ∧ ∃ evs q, step (triggerInterval rule) p (ruleStatus rule v, t) evs q ∧ at_phase e' host rule target q
         ∧ map event_of_notice (ev_sent e') = map event_of_notice (ev_sent e) ++ evs
         ∧ untouched e e' host rule target ∧ st_inv (ev_store e')
         ∧ ev_checked e' !! alertKey host rule target = Some t)
  | (Err _, e') => ev_sent e' = ev_sent e ∧ st_inv (ev_store e')
  end.
Proof.
  destruct (ev_checked e !! alertKey host rule target) as [last|] eqn:El; [destruct (Z.leb_spec t last)|].
  - rewrite (check_stale _ _ _ _ _ _ _ El) by done. left. eauto.
  - assert (Hf : fresh e (alertKey host rule target) t) by (intros l Hl; rewrite El in Hl; by injection Hl as <-).
    pose proof (check_refines e host rule target v t p Hinv Hp Hf) as Hs.
    destruct (check rule host target v t e) as [[[]|err] e']; destruct Hs as (Hi & Hch & Hs); cbn [fst snd] in *; [|done].
    destruct Hs as (evs & q & ? & ? & ? & ?). right. split; [done|]. exists evs, q. split_and!; try done.
    rewrite Hch. apply lookup_insert_eq.
  - assert (Hf : fresh e (alertKey host rule target) t) by (intros l Hl; congruence).
    pose proof (check_refines e host rule target v t p Hinv Hp Hf) as Hs.
    destruct (check rule host target v t e) as [[[]|err] e']; destruct Hs as (Hi & Hch & Hs); cbn [fst snd] in *; [|done].
    destruct Hs as (evs & q & ? & ? & ? & ?). right. split; [done|]. exists evs, q. split_and!; try done.
    rewrite Hch. apply lookup_insert_eq.
Qed.

Lemma check_refines_machine_witness :
  ∃ q evs, step (60 * second) Idle (Critical, 100) evs q.
Proof.
  pose proof (check_refines_machine (newEvaluator ex_db) "web1" cpu_rule "" (of_int 99) 100 Idle ex_db_wf (ex_idle _ _ _)) as H.
  destruct (check _ _ _ _ _ _) as [[[]|err] e'] eqn:E; [|vm_compute in E; discriminate E].
  destruct H as [(_ & last & Hl & _)|(_ & evs & q & Hst & _)].
  - cbn in Hl. rewrite lookup_empty in Hl. discriminate Hl.
  - exists q, evs. exact Hst.
Defined.

(** What [lasted] says of the samples themselves. *)
Lemma lasted_samples (P : StatusType * time → Prop) rule samples t0 : lasted P (statuses rule samples) t0 →
  ∃ before first since, samples = before ++ first :: since ∧ first.2 = t0
    ∧ Forall (λ s, P (ruleStatus rule s.1, s.2)) (first :: since).
Proof.
  intros (l1 & x & l2 & E & Ht & Hall). unfold statuses in E.
  apply map_eq_app in E as (before & rest & -> & <- & E). apply map_eq_cons in E as (first & since & -> & <- & <-).
  exists before, first, since. split_and!; [done|done|].
  change (Forall P (map (λ s, (ruleStatus rule s.1, s.2)) (first :: since))) in Hall. by rewrite Forall_map in Hall.
Qed.

(** C4: No alert opens early and none resolves early.  Over any run of fresh
    samples of a target that starts idle, the notices of one sample more are
    of three kinds.  That an alert opened means that every sample since one
    at least the trigger interval ago was breached; that it resolved, that
    every sample since one at least the interval ago was back to normal.
    Only a change of severity comes at once: it is of the alert that is open,
    on a breached sample, to the severity of this sample, which is another
    than the alert had. *)
Theorem alert_changes_last {W} `{AlertStoreLaws W} (e0 e1 e2 : evaluator W) (host : string) (rule : AlertConfig)
  (target : string) (samples : list (float64 * time)) (v : float64) (t : time)
  (Hinv : st_inv (ev_store e0)) (Hidle : at_phase e0 host rule target Idle)
  (Hfresh : fresh_samples e0 (alertKey host rule target) (samples ++ [(v, t)]))
  (Hrun : check_all rule host target samples e0 = (Ok (), e1))
  (Hlast : check rule host target v t e1 = (Ok (), e2))
  (Hint : 0 ≤ rule_TriggerIntveral rule ≤ 9223372036) :
  ∃ evs, map event_of_notice (ev_sent e2) = map event_of_notice (ev_sent e1) ++ evs ∧
    ∀ ev id sev, (ev, id, sev) ∈ evs →
      let since P := ∃ before first since, samples = before ++ first :: since
            ∧ rule_TriggerIntveral rule * second ≤ t - first.2
            ∧ Forall (λ s, P (ruleStatus rule s.1)) (first :: since) ∧ P (ruleStatus rule v) in
      (ev = Opened ∧ since (λ s, s ≠ Normal)) ∨ (ev = Resolved ∧ since (λ s, s = Normal))
      ∨ (ev = Changed ∧ ruleStatus rule v ≠ Normal ∧ sev = status_int (ruleStatus rule v)
         ∧ ∃ a, open_at (ev_store e1) (host, rule_Name rule, rule_MetricName rule, target) = Ok (Some a)
             ∧ alert_ID a = id ∧ alert_Severity a ≠ sev).
Proof.
  destruct Hfresh as [Hsort Hfr].
  assert (Hf0 : fresh_samples e0 (alertKey host rule target) samples).
  { split; [|intros s Hs; apply Hfr; apply elem_of_app; by left].
    rewrite map_app in Hsort. by apply StronglySorted_app_1_l in Hsort. }
  destruct (check_all_steps rule host target samples e0 e1 Idle Hinv Hidle Hf0 Hrun)
    as (Hinv1 & evs0 & q & Hsts & Hq & _ & Hf).
  assert (Hf1 : fresh e1 (alertKey host rule target) t).
  { apply Hf; [|apply (Hfr (v, t)); apply elem_of_app; right; by apply list_elem_of_singleton].
    intros s Hs. rewrite map_app in Hsort. eapply StronglySorted_app_1_elem_of in Hsort; [exact Hsort|..].
    - by apply list_elem_of_fmap_2.
    - by apply list_elem_of_singleton. }
  pose proof (check_refines e1 host rule target v t q Hinv1 Hq Hf1) as Hs. rewrite Hlast in Hs.
  destruct Hs as (_ & _ & evs & r & Hst & _ & Hsent & _). exists evs. split; [done|].
  intros ev id sev Hin. pose proof (steps_explained _ _ _ _ Hsts) as Hex.
  destruct (step_event _ _ _ _ _ _ _ _ Hst Hin) as [(-> & Hb & s0 & t0 & -> & Ht)|[(-> & Hb & sev0 & t0 & -> & Ht)|(-> & Hb & -> & sev0 & Hne & Hph)]];
    cbn in Hex; try (cbn in Ht).
  - left. split; [done|]. destruct (lasted_samples _ _ _ _ Hex) as (b & f & s & -> & <- & Hall). exists b, f, s.
    split_and!; [done|by apply interval_exact|exact Hall|exact Hb].
  - right. left. split; [done|]. destruct (lasted_samples _ _ _ _ Hex) as (b & f & s & -> & <- & Hall). exists b, f, s.
    split_and!; [done|by apply interval_exact|exact Hall|exact Hb].
  - right. right. split_and!; [done|exact Hb|done|]. destruct Hq as (o & Ho & ->).
    destruct (phase_of_open _ _ _ _ Hph) as (a & -> & Eid & Esev). exists a. split_and!; [done|done|]. rewrite Esev. by apply not_eq_sym.
Qed.

(** The evaluators of the witnesses: two breached samples a minute apart. *)
Definition ex_e0 : evaluator DB := newEvaluator ex_db.
Definition ex_e1 : evaluator DB := (check_all cpu_rule "web1" "" [(of_int 99, 0)] ex_e0).2.
Definition ex_e2 : evaluator DB := (check cpu_rule "web1" "" (of_int 97) minute ex_e1).2.

Lemma alert_changes_last_witness :
  map event_of_notice (ev_sent ex_e2) = [(Opened, 10, 2)]
  ∧ ∃ evs, map event_of_notice (ev_sent ex_e2) = map event_of_notice (ev_sent ex_e1) ++ evs ∧
    ∀ ev id sev, (ev, id, sev) ∈ evs → ev = Opened → ruleStatus cpu_rule (of_int 97) ≠ Normal.
Proof.
  split; [vm_compute; reflexivity|].
  destruct (alert_changes_last ex_e0 ex_e1 ex_e2 "web1" cpu_rule "" [(of_int 99, 0)] (of_int 97) minute) as (evs & He & Hall).
  - apply ex_db_wf.
  - apply ex_idle.
  - apply ex_fresh_samples. repeat constructor.
  - vm_compute. reflexivity.
  - vm_compute. reflexivity.
  - cbn. lia.
  - exists evs. split; [exact He|]. intros ev id sev Hin E.
    destruct (Hall ev id sev Hin) as [(_ & _ & _ & _ & _ & _ & _ & Hb)|[(E' & _)|(E' & _)]]; [exact Hb|..];
      rewrite E in E'; discriminate E'.
Defined.

(** C5: A breach that lasts opens exactly one alert.  Over a run of fresh
    breached samples of an idle target, nothing is sent while no sample after
    the first is as late as the trigger interval, and from the first one that
    is, exactly one alert has been opened and the target is firing. *)
Theorem lasting_breach_opens_once {W} `{AlertStoreLaws W} (e0 e1 : evaluator W) (host : string) (rule : AlertConfig)
  (target : string) (v0 : float64) (t0 : time) (samples : list (float64 * time))
  (Hinv : st_inv (ev_store e0)) (Hidle : at_phase e0 host rule target Idle)
  (Hfresh : fresh_samples e0 (alertKey host rule target) ((v0, t0) :: samples))
  (Hbreached : Forall (λ s, ruleStatus rule s.1 ≠ Normal) ((v0, t0) :: samples))
  (Hrun : check_all rule host target ((v0, t0) :: samples) e0 = (Ok (), e1))
  (Hint : 0 ≤ rule_TriggerIntveral rule ≤ 9223372036) :
  ∃ evs, map event_of_notice (ev_sent e1) = map event_of_notice (ev_sent e0) ++ evs ∧
    ((∃ s, s ∈ samples ∧ rule_TriggerIntveral rule * second ≤ s.2 - t0) →
       opened_count evs = 1%nat ∧ ∃ id sev, at_phase e1 host rule target (Firing id sev))
    ∧ ((∀ s, s ∈ samples → s.2 - t0 < rule_TriggerIntveral rule * second) → opened_count evs = 0%nat).
Proof.
  apply Forall_cons in Hbreached as [Hb0 Hb]. destruct Hfresh as [Hsort Hfr].
  apply check_all_cons in Hrun as (e' & Hc & Hrun).
  assert (Hf0 : fresh e0 (alertKey host rule target) t0) by (apply (Hfr (v0, t0)); by left).
  pose proof (check_refines e0 host rule target v0 t0 Idle Hinv Hidle Hf0) as Hs. rewrite Hc in Hs.
  destruct Hs as (Hinv' & Hch & evs0 & q & Hst & Hq & Hsent0 & _). cbn [fst snd] in *.
  apply StronglySorted_inv in Hsort as [Hsort Hlt]. rewrite Forall_forall in Hlt.
  destruct (check_all_steps rule host target samples e' e1 q Hinv' Hq) as (_ & evs & r & Hsts & Hr & Hsent & _); [|done|].
  { split; [done|]. intros s Hs last Hl. rewrite Hch, lookup_insert_eq in Hl. injection Hl as <-.
    apply Hlt. by apply list_elem_of_fmap_2. }
  inversion Hst; subst; [by destruct Hb0|]. rewrite app_nil_r in Hsent0.
  assert (Hb' : Forall breached (statuses rule samples)).
  { unfold statuses. rewrite Forall_map. exact Hb. }
  exists evs. split; [by rewrite Hsent, Hsent0|].
  destruct (steps_breach _ _ _ _ _ _ _ Hsts eq_refl Hb') as [(-> & Hn & Hw)|((id & sev & ->) & Hn & x & Hx & Hxt)].
  - split; [|done]. intros (s & Hin & Hs). exfalso.
    unfold statuses in Hw. rewrite Forall_map, Forall_forall in Hw. specialize (Hw s Hin).
    change (time_sub s.2 t0 < triggerInterval rule) in Hw.
    pose proof (interval_reached rule s.2 t0 Hint Hs). lia.
  - split; [by eauto|]. intros Hshort. exfalso.
    unfold statuses in Hx. apply list_elem_of_fmap in Hx as (s & -> & Hin). cbn [snd] in Hxt.
    specialize (Hshort s Hin).
    apply (Zlt_not_le _ _ Hshort), (interval_exact rule s.2 t0 Hint Hxt).
Qed.

Lemma lasting_breach_opens_once_witness :
  ∃ evs, map event_of_notice (ev_sent ex_e2) = [] ++ evs ∧ opened_count evs = 1%nat.
Proof.
  destruct (lasting_breach_opens_once ex_e0 ex_e2 "web1" cpu_rule "" (of_int 99) 0 [(of_int 97, minute)]) as (evs & He & Hall & _).
  - apply ex_db_wf.
  - apply ex_idle.
  - apply ex_fresh_samples. repeat constructor.
  - repeat constructor; vm_compute; discriminate.
  - vm_compute. reflexivity.
  - cbn. lia.
  - exists evs. split; [exact He|]. apply Hall. exists (of_int 97, minute). split; [by left|]. vm_compute. discriminate.
Defined.

(** ** Kubernetes rules *)







(** A node of the state that is not ready is checked. *)
Definition node_rule : AlertConfig := ex_rule "Nodes" KUBE_NODE "" 0 0 0.
Definition node_db : DB :=
  set_kube_clusters [{| cl_id := 2; cl_name := "homelab"; cl_host_id := Some 1; cl_error := ""; cl_reported_at := 0;
    cl_state := {| cs_Cluster := "homelab"; cs_Time := 100; cs_Error := ""; cs_Workloads := []; cs_Pods := []; cs_Events := [];
      cs_Nodes := [{| node_Name := "n1"; node_Ready := false; node_ReadyChanged := 0; node_Roles := []; node_KubeletVersion := "";
        node_Unschedulable := false; node_Pressure := []; node_CPUCores := f1; node_MemoryBytes := f1 |}] |} |}] ex_db.
Example node_checked :
  let e := (evaluateCluster (unix_time 110) node_rule (newEvaluator node_db)).2 in
  ev_checked e !! alertKey "" node_rule "n1" = Some (unix_time 100)
  ∧ ev_pending e !! alertKey "" node_rule "n1" = Some {| pn_status := Critical; pn_since := unix_time 100 |}.
Proof. vm_compute. split; reflexivity. Qed.



(** ** Levels *)

(** The comparison of a rule's operator, by how the value compares with the
    threshold ([None] when one of them is NaN). *)
Definition op_holds (op : string) (c : option comparison) : Prop :=
  (op = "==" ∧ c = Some Eq) ∨ (op = "!=" ∧ c ≠ Some Eq) ∨ (op = ">" ∧ c = Some Gt) ∨ (op = "<" ∧ c = Some Lt)
  ∨ (op = ">=" ∧ (c = Some Gt ∨ c = Some Eq)) ∨ (op = "<=" ∧ (c = Some Lt ∨ c = Some Eq)).

Lemma compare_swap x y : SFcompare y x = option_map CompOpp (SFcompare x y).
Proof. rewrite SFcompare_antisym. by destruct (SFcompare x y). Qed.

(** What a threshold rule's value means.  With one of the six operators,
    the value is critical exactly when it is in the operator's relation to
    the critical threshold, a warning exactly when it is not but is in that
    relation to the warning threshold, and normal otherwise; a NaN is
    critical for != and normal for the others.  A service rule is critical
    exactly in the state it names, and any other operator alerts on nothing. *)
Lemma getAlertType_levels (rule : AlertConfig) (v : float64) :
  let critical := op_holds (rule_Op rule) (SFcompare v (of_int (rule_CriticalThreshold rule))) in
  let warn := op_holds (rule_Op rule) (SFcompare v (of_int (rule_WarnThreshold rule))) in
  (rule_Op rule ∈ thresholdOps →
     (getAlertType rule v = Critical ↔ critical) ∧ (getAlertType rule v = Warning ↔ ¬ critical ∧ warn)
     ∧ (getAlertType rule v = Normal ↔ ¬ critical ∧ ¬ warn)
     ∧ (is_nan v = true → getAlertType rule v = if str_eq (rule_Op rule) "!=" then Critical else Normal))
  ∧ (rule_Op rule ∉ thresholdOps →
     (getAlertType rule v = Critical ↔ (rule_Op rule = "inactive" ∧ SFcompare v f0 = Some Eq)
                                       ∨ (rule_Op rule = "active" ∧ SFcompare v f1 = Some Eq))
     ∧ getAlertType rule v ≠ Warning).
Proof.
  intros critical warn. split.
  - intros Hop. subst critical warn.
    assert (Hnan : is_nan v = true → ∀ y, SFcompare v y = None) by (intros Hn y; apply SFcompare_nan; by left).
    unfold op_holds, getAlertType, feq, fne, fgt, flt, fge, fle, SFeqb, SFltb, SFleb.
    rewrite !(compare_swap v).
    unfold thresholdOps in Hop.
    repeat (apply elem_of_cons in Hop as [Hop|Hop]; [rewrite Hop; cbn [str_eq]|]);
      [| | | | | |by apply not_elem_of_nil in Hop];
      unfold str_eq; repeat (first [rewrite bool_decide_true by done | rewrite bool_decide_false by done]);
      (split_and!; [| | |intros Hn; rewrite !(Hnan Hn); reflexivity]);
      destruct (SFcompare v (of_int (rule_CriticalThreshold rule))) as [[]|],
        (SFcompare v (of_int (rule_WarnThreshold rule))) as [[]|]; cbn; intuition congruence.
  - intros Hop. unfold getAlertType.
    assert (Hne : ∀ o, o ∈ thresholdOps → str_eq (rule_Op rule) o = false).
    { intros o Ho. apply not_true_iff_false. rewrite str_eq_spec. by intros <-. }
    rewrite !Hne by (by apply contains_spec). unfold feq, SFeqb.
    destruct (str_eq (rule_Op rule) "inactive") eqn:E1; [apply str_eq_spec in E1|].
    + rewrite E1. destruct (SFcompare v f0) as [[]|]; intuition congruence.
    + assert (rule_Op rule ≠ "inactive") by (rewrite <- str_eq_spec; congruence).
      destruct (str_eq (rule_Op rule) "active") eqn:E2; [apply str_eq_spec in E2|].
      * rewrite E2. destruct (SFcompare v f1) as [[]|]; intuition congruence.
      * assert (rule_Op rule ≠ "active") by (rewrite <- str_eq_spec; congruence). intuition congruence.
Qed.

(** ** Keys *)

Definition no_pipe (s : string) : Prop := char_in (chr 124) s = false.

Lemma pipe_split s1 t1 s2 t2 : no_pipe s1 → no_pipe s2 → s1 +:+ "|" +:+ t1 = s2 +:+ "|" +:+ t2 → s1 = s2 ∧ t1 = t2.
Proof. intros H1 H2 E. by apply (sep_split (chr 124)). Qed.

(** The evaluator's memory never mixes targets up, as long as host names,
    rule names and metrics hold no '|': two targets share a key only when
    they are the same host, rule name, metric and target. *)
Lemma alertKey_injective (h1 h2 t1 t2 : string) (r1 r2 : AlertConfig)
  (Hh : no_pipe h1 ∧ no_pipe h2) (Hn : no_pipe (rule_Name r1) ∧ no_pipe (rule_Name r2))
  (Hm : no_pipe (rule_MetricName r1) ∧ no_pipe (rule_MetricName r2)) (E : alertKey h1 r1 t1 = alertKey h2 r2 t2) :
  rule_key r1 h1 t1 = rule_key r2 h2 t2.
Proof.
  unfold alertKey in E. apply pipe_split in E as [-> E]; [|tauto..].
  apply pipe_split in E as [En E]; [|tauto..]. apply pipe_split in E as [Em ->]; [|tauto..].
  unfold rule_key. by rewrite En, Em.
Qed.

Lemma alertKey_injective_witness : rule_key cpu_rule "web1" "" = rule_key cpu_rule "web1" "".
Proof. by apply (alertKey_injective "web1" "web1" "" "" cpu_rule cpu_rule). Defined.

(** A rule whose name starts with another kubernetes rule's name and metric
    loses what it has pending whenever the other rule finds its own targets:
    its breaches start over on every round. *)
Lemma resolveGone_forgets_other_rule (a b : AlertConfig) (x t : string) (present : list string)
  (m : gmap string pendingStatus) :
  rule_Name b = rule_Name a +:+ "|" +:+ rule_MetricName a +:+ "|" +:+ x →
  x +:+ "|" +:+ rule_MetricName b +:+ "|" +:+ t ∉ present →
  forget (alertKey "" a "") present m !! alertKey "" b t = None.
Proof.
  intros Hb Ht.
  assert (E : alertKey "" b t = alertKey "" a (x +:+ "|" +:+ rule_MetricName b +:+ "|" +:+ t)).
  { unfold alertKey. rewrite Hb, !append_assoc. done. }
  rewrite E. by apply forget_gone.
Qed.

(** ** Limits and surprises the code has *)

Lemma getAlertType_below rule v : rule_Op rule = "<" →
  getAlertType rule v = if flt v (of_int (rule_CriticalThreshold rule)) then Critical
                        else if flt v (of_int (rule_WarnThreshold rule)) then Warning else Normal.
Proof. intros Ho. unfold getAlertType. by rewrite Ho. Qed.

(** A certificate level of 0 days does not switch the critical alert off:
    for an HTTPS endpoint rule with a warning level and CertCriticalDays 0, an
    expired certificate (fewer than 0 days left) is critical. *)
Lemma certificate_zero_still_critical (rule : AlertConfig) (warn : Z) (days : float64)
  (Hm : rule_MetricName rule = ENDPOINT) (Hs : has_prefix (to_lower (rule_Endpoint rule)) "https://" = true)
  (Hw : rule_CertWarnDays rule = Some warn) (Hpos : 0 < warn) (Hc : rule_CertCriticalDays rule = Some 0)
  (Hexp : flt days f0 = true) :
  ∃ c, certificateRule rule = Some c ∧ ruleStatus c days = Critical.
Proof.
  unfold certificateRule, CertDays. rewrite Hm, Hs, str_eq_refl, Hw, Hc. cbn [negb orb default].
  unfold id. destruct (Z.eqb_spec warn 0); [lia|]. cbn [andb]. eexists. split; [reflexivity|].
  match goal with |- ruleStatus ?c days = _ => change (getAlertType c days = Critical) end.
  rewrite getAlertType_below by done. change (of_int (rule_CriticalThreshold _)) with f0. by rewrite Hexp.
Qed.

Definition shop_rule : AlertConfig := {|
  rule_Name := "Shop"; rule_Description := ""; rule_MetricName := ENDPOINT; rule_IsCustom := false; rule_Op := "";
  rule_Template := ""; rule_WarnThreshold := 0; rule_CriticalThreshold := 0;
  rule_TriggerIntveral := 0; rule_Servers := []; rule_Endpoint := "https://shop.example.com"; rule_ExpectedHTTPCode := 0;
  rule_Method := ""; rule_CustomCACert := ""; rule_POSTContentType := ""; rule_POSTBody := ""; rule_Disk := "";
  rule_Service := ""; rule_Cluster := ""; rule_Namespace := ""; rule_Channels := []; rule_Email := false;
  rule_Pagerduty := false; rule_Slack := false; rule_SlackChannel := ""; rule_CertWarnDays := Some 14;
  rule_CertCriticalDays := Some 0 |}.

Lemma certificate_zero_still_critical_witness :
  ∃ c, certificateRule shop_rule = Some c ∧ ruleStatus c (of_int (-1)) = Critical.
Proof. by apply (certificate_zero_still_critical shop_rule 14). Defined.

(** The comment above certificateRule says it alerts on the first check below
    a level; from idle a first check never opens an alert. *)
Lemma first_check_never_opens interval x evs q : step interval Idle x evs q → evs = [].
Proof. by inversion 1. Qed.

(** The trigger interval of a rule [Validate] accepts is exact up to
    9223372036 seconds.  The next value is accepted too, and wraps around to
    a negative [time.Duration]: such a rule alerts on its second breached
    sample, however soon it comes. *)
Lemma triggerInterval_bounds `{UrlParse} :
  (∀ rule, valid_rule rule → rule_TriggerIntveral rule ≤ 9223372036 →
     triggerInterval rule = rule_TriggerIntveral rule * second ∧ 0 ≤ triggerInterval rule ≤ int64_max)
  ∧ (∃ rule, valid_rule rule ∧ triggerInterval rule < 0
      ∧ ∀ s t0 t id, s ≠ Normal → t0 ≤ t → step (triggerInterval rule) (Pending s t0) (s, t) [(Opened, id, status_int s)] (Firing id (status_int s))).
Proof.
  split.
  - intros rule [_ Ht _ _] Hmax. unfold triggerInterval. rewrite seconds_exact by lia.
    split; [done|]. unfold second, int64_max. lia.
  - exists (ex_rule "CPU" PROC_USAGE ">" 80 95 9223372037).
    assert (Hneg : triggerInterval (ex_rule "CPU" PROC_USAGE ">" 80 95 9223372037) < 0) by (by vm_compute).
    split_and!; [|done|].
    + constructor; cbn.
      * split; [done|]. by vm_compute.
      * lia.
      * split; constructor.
      * apply ok_usage; cbn; try done; [by apply contains_spec| |by apply contains_spec].
        split; [done|]. cbn. apply Forall_singleton. by vm_compute.
    + intros s t0 t id Hs Hle. constructor; [done|]. unfold time_sub, int64_min, int64_max. lia.
Qed.

(** A custom rule named after a built-in metric passes validation, but
    its custom values are never read: here the custom metric "ping" of a host
    that sends it is 100, over both thresholds, and the rule watches the
    host's heartbeat instead. *)
Definition shadow_rule : AlertConfig := {|
  rule_Name := "Latency"; rule_Description := ""; rule_MetricName := PING; rule_IsCustom := true; rule_Op := ">";
  rule_Template := ""; rule_WarnThreshold := 50; rule_CriticalThreshold := 80;
  rule_TriggerIntveral := 60; rule_Servers := ["*"]; rule_Endpoint := ""; rule_ExpectedHTTPCode := 0;
  rule_Method := ""; rule_CustomCACert := ""; rule_POSTContentType := ""; rule_POSTBody := ""; rule_Disk := "";
  rule_Service := ""; rule_Cluster := ""; rule_Namespace := ""; rule_Channels := []; rule_Email := false;
  rule_Pagerduty := false; rule_Slack := false; rule_SlackChannel := ""; rule_CertWarnDays := None;
  rule_CertCriticalDays := None |}.

Lemma custom_rule_shadowed `{UrlParse} {W} `{AlertStore W} (now : time) (e : evaluator W) (host target : string) :
  (∃ r, Validate shadow_rule = (Ok (), r))
  ∧ (latest now shadow_rule host target e).1 =
      (match st_LastSeen (ev_store e) host with
       | Ok t => if is_zero t then Err ErrNotFound else Ok (dur_seconds (time_sub now t), now)
       | Err err => Err err
       end)
  ∧ ∀ v, ruleStatus shadow_rule v = if fgt v (of_int 60) then Critical else Normal.
Proof.
  split_and!.
  - eexists. vm_compute. reflexivity.
  - unfold latest, mbind, SM_bind, sbind, read_store, sfail.
    change (str_eq (rule_MetricName shadow_rule) ENDPOINT) with false.
    change (str_eq (rule_MetricName shadow_rule) CERTIFICATE) with false.
    change (str_eq (rule_MetricName shadow_rule) DISK_FORECAST) with false.
    change (str_eq (rule_MetricName shadow_rule) PING) with true. cbn [negb].
    destruct (st_LastSeen _ _) as [t|err]; [|done]. by destruct (is_zero t).
  - intros v. reflexivity.
Qed.
