(* ===== verification/RuleTransfer.v ===== *)
(** * The alert rules of a collector as a file: src/collector/rules.go.

    What -export-rules prints is taken by -import-rules, and importing it
    into the database it came from changes no rule. *)
From S2P Require Import Prelude GoStrings GoTime Errors Monitor Alerts Kube Tasks Database StoreHosts StoreAlerts.
From S2P Require Import StoreRules Config CollectorMain StoreRulesProps.
Local Open Scope Z_scope.

Section Transfer.
Context `{UrlParse}.

(** Every rule of the table is one [Validate] has nothing to say about and
    nothing to trim off. *)
Definition checked (rule : AlertConfig) : Prop := Validate rule = (Ok (), rule).
Definition rules_checked (d : DB) : Prop := ∀ r, r ∈ alert_rules d → checked (ru_rule r).

(** ** The operations keep it *)

Lemma checkRule_checked rule r : checkRule rule = Ok r → checked r.
Proof. unfold checkRule. destruct (Validate rule) as [[[]|e] r'] eqn:E; [|done]. intros [= <-]. exact (Validate_valid rule r' E). Qed.

Lemma checkRule_fixed rule : checked rule → checkRule rule = Ok rule.
Proof. unfold checkRule. by intros ->. Qed.

Lemma DefaultHeartbeat_checked : checked DefaultHeartbeat.
Proof. by vm_compute. Qed.

Lemma insert_checked now rule enabled by_ d id d' : rules_checked d → checked rule →
  insert_rule now rule enabled by_ d = (Ok id, d') → rules_checked d'.
Proof.
  intros Hd Hr. unfold insert_rule, next_id. destruct (name_taken _ _); intros [= <- <-].
  intros r [Hin| ->%list_elem_of_singleton]%elem_of_app; [by apply Hd|done].
Qed.

Lemma setup_checked now rules : ∀ names ah imp d res d', rules_checked d →
  setup_rules now names ah imp rules d = (Ok res, d') → rules_checked d'.
Proof.
  induction rules as [|rule rules IH]; intros names ah imp d res d' Hd; cbn [setup_rules]; [by intros [= <- <-]|].
  destruct (checkRule rule) as [r|e] eqn:Er; [|done]. unfold mbind, SM_bind, sbind, stry.
  destruct (insert_rule now r true "" d) as [[id|e] d1] eqn:Ei; [|done].
  apply IH. apply (insert_checked now r true "" d id d1); [done| |done]. by apply (checkRule_checked rule).
Qed.

Lemma check_rules_checked rules l : check_rules rules = Ok l → Forall checked l.
Proof.
  revert l. induction rules as [|rule rules IH]; intros l; cbn; [by intros [= <-]|].
  destruct (checkRule rule) as [r|e] eqn:Er; [|done]. destruct (check_rules rules) as [l'|e]; [|done].
  intros [= <-]. constructor; [by apply (checkRule_checked rule)|by apply IH].
Qed.

Lemma check_rules_fixed l : Forall checked l → check_rules l = Ok l.
Proof. induction 1 as [|rule l Hr _ IH]; [done|]. cbn. by rewrite (checkRule_fixed rule Hr), IH. Qed.

Lemma import_checked now by_ rules : ∀ a u d, rules_checked d → Forall checked rules →
  rules_checked (import_rules now by_ a u rules d).2.
Proof.
  induction rules as [|rule rules IH]; intros a u d Hd Hr; [done|]. apply Forall_cons in Hr as [Hc Hr].
  cbn [import_rules]. unfold mbind, SM_bind, sbind, import_rule, next_id.
  destruct (name_taken d (rule_Name rule)); apply IH; try done; intros r Hin; cbn in Hin.
  - apply elem_of_update_where in Hin as (x & Hx & ->). destruct (rule_with _ x); [done|by apply Hd].
  - apply elem_of_app in Hin as [Hin| ->%list_elem_of_singleton]; [by apply Hd|done].
Qed.

Lemma update_checked now id rule enabled by_ d d' : rules_checked d → checked rule →
  update_rule now id rule enabled by_ d = (Ok (), d') → rules_checked d'.
Proof.
  intros Hd Hr. unfold update_rule. destruct (rule_by_id d id); [|done].
  unfold carry_over, replace_rule, rename_open, mbind, SM_bind, sbind. destruct (exists_where _ _); [done|].
  set (d1 := set_alert_rules _ d). assert (Hd1 : rules_checked d1).
  { intros x Hx. cbn in Hx. apply elem_of_update_where in Hx as (y & Hy & ->). by destruct (_ =? _); [|apply Hd]. }
  clearbody d1. assert (Hend : ∀ d2, alert_rules d2 = alert_rules d1 →
    (if enabled then mret () else resolveRuleAlerts now (rule_Name rule)) d2 = (Ok (), d') → rules_checked d').
  { intros d2 E. destruct enabled; intros [= <-]; intros x Hx; apply Hd1; by rewrite <- E. }
  destruct (str_eq _ _); [by apply Hend|]. destruct (existsb _ _); [done|]. by apply Hend.
Qed.

Lemma rules_step_checked d d' : rules_step d d' → rules_checked d → rules_checked d'.
Proof.
  intros [now rule enabled by_ ->|now id rule enabled by_ ->|now id ->|now rules source ->|now rules by_ ->] Hd.
  - unfold CreateRule, transaction. destruct (checkRule rule) as [r|e] eqn:Er; [|done].
    destruct (insert_rule now r enabled by_ d) as [[i|e] d1] eqn:Ei; [|done].
    apply (insert_checked now r enabled by_ d i d1); [done| |done]. by apply (checkRule_checked rule).
  - unfold UpdateRule, transaction. destruct (checkRule rule) as [r|e] eqn:Er; [|done].
    destruct (update_rule now id r enabled by_ d) as [[[]|e] d1] eqn:Ei; [|done].
    apply (update_checked now id r enabled by_ d d1); [done| |done]. by apply (checkRule_checked rule).
  - unfold DeleteRule, transaction, resolveRuleAlerts. destruct (rule_by_id d id); [|done].
    intros x Hx. cbn in Hx. by apply elem_of_delete_where in Hx as [Hx _]; apply Hd.
  - unfold SetupRules. destruct (RulesSetUp d); [done|]. destruct (transaction _ d) as [[s|e] d1] eqn:Et.
    2:{ apply transaction_err in Et as ->. done. }
    rewrite transaction_ok in Et. unfold mbind, SM_bind, sbind in Et. cbv beta in Et.
    destruct (setup_rules now [] false 0 rules d) as [[[[names ah] imp]|e] d2] eqn:Es; [|done].
    apply setup_checked in Es; [|done]. destruct (_ && _).
    + destruct (insert_rule now DefaultHeartbeat true "" d2) as [[i|e] d3] eqn:Ei; [|done].
      injection Et as <- <-. apply (insert_checked now DefaultHeartbeat true "" d2 i d3); [done|apply DefaultHeartbeat_checked|done].
    + by injection Et as <- <-.
  - unfold ImportRules, transaction. destruct (check_rules rules) as [l|e] eqn:Ec; [|done].
    apply check_rules_checked in Ec. pose proof (import_checked now by_ l 0 0 d Hd Ec) as Hi.
    by destruct (import_rules now by_ 0 0 l d) as [[r|e] d1].
Qed.

(** ** Importing the rules that are there *)

(** A row an import wrote over with the rule it had *)
Definition touched (now : time) (by_ : string) (r : RuleRow) : RuleRow := {|
  ru_id := ru_id r; ru_name := ru_name r; ru_rule := ru_rule r; ru_enabled := ru_enabled r; ru_updated_at := now;
  ru_updated_by := by_ |}.

Lemma update_where_same {A} (p q : A → bool) f l : (∀ x, x ∈ l → p x = q x) → update_where p f l = update_where q f l.
Proof. intros Hpq. apply map_ext_in. intros x Hx%list_elem_of_In. by rewrite Hpq. Qed.

(** Updates of different rows, as one *)
Lemma update_where_or {A} (p q : A → bool) f (l : list A) : (∀ x, q (f x) = q x) → (∀ x, f (f x) = f x) →
  update_where q f (update_where p f l) = update_where (λ x, p x || q x) f l.
Proof.
  intros Hq Hf. unfold update_where. rewrite map_map. apply map_ext. intros x.
  destruct (p x) eqn:Ep; rewrite ?Hq; destruct (q x) eqn:Eq; cbn; by rewrite ?Hf.
Qed.

Lemma import_kept now by_ rules : ∀ a u d,
  (∀ rule, rule ∈ rules → rule_Name rule ∈ map ru_name (alert_rules d)) →
  (∀ rule r, rule ∈ rules → r ∈ alert_rules d → ru_name r = rule_Name rule → ru_rule r = rule) →
  import_rules now by_ a u rules d =
    (Ok (a, u + len rules),
     set_alert_rules (update_where (λ r, contains (map rule_Name rules) (ru_name r)) (touched now by_) (alert_rules d)) d).
Proof.
  induction rules as [|rule rules IH]; intros a u d Hin Hsame.
  { cbn. rewrite update_where_none by done. unfold mret, SM_ret, sret, len. cbn. rewrite Z.add_0_r. by destruct d. }
  cbn [import_rules]. unfold mbind, SM_bind, sbind, import_rule.
  rewrite (proj2 (name_taken_spec d (rule_Name rule))) by (apply Hin; left).
  rewrite (update_where_ext _ _ (touched now by_)).
  2:{ intros r Hr Hp%str_eq_spec. unfold touched. by rewrite (Hsame rule r) by (done || left). }
  rewrite IH; cbn [alert_rules set_alert_rules].
  - f_equal; [unfold len; cbn [length]; do 2 f_equal; lia|].
    rewrite update_where_or by done. unfold set_alert_rules; cbn. f_equal. apply update_where_same. intros r Hr.
    apply eq_true_iff_eq. unfold rule_with. cbn [map]. rewrite orb_true_iff, !contains_spec, str_eq_spec, elem_of_cons. done.
  - intros rule' Hr. rewrite map_update_where by done. apply Hin. by right.
  - intros rule' r Hr (x & Hx & ->)%elem_of_update_where. destruct (rule_with _ x); apply (Hsame rule' x); (done || by right).
Qed.

Lemma elem_of_enabled d rule : rule ∈ EnabledRules d ↔ ∃ r, r ∈ alert_rules d ∧ ru_enabled r = true ∧ ru_rule r = rule.
Proof.
  unfold EnabledRules, queryRules. rewrite map_map, list_elem_of_fmap. cbn.
  setoid_rewrite elem_of_stable_sort. setoid_rewrite elem_of_select_where. naive_solver.
Qed.

Lemma enabled_names d : rules_wf d → NoDup (map rule_Name (EnabledRules d)).
Proof.
  intros Hwf. unfold EnabledRules, queryRules. rewrite !map_map. cbn.
  rewrite (map_ext_in _ ru_name).
  - rewrite stable_sort_perm. by apply NoDup_map_filter, (rw_names d).
  - intros r Hr%list_elem_of_In. apply elem_of_stable_sort, elem_of_select_where in Hr as [Hr _].
    symmetry. by apply (rw_valid d Hwf).
Qed.

(** The rules of the table are a file [ParseRules] takes as it is. *)
Lemma enabled_parse d : rules_wf d → rules_checked d → ParseRules (EnabledRules d) = Ok (EnabledRules d).
Proof.
  intros Hwf Hc. assert (Hall : ∀ rule, rule ∈ EnabledRules d → checked rule ∧ valid_rule rule).
  { intros rule (r & Hr & _ & <-)%elem_of_enabled. split; [by apply Hc|by apply (rw_valid d Hwf)]. }
  assert (Hn : map normalise (EnabledRules d) = EnabledRules d).
  { rewrite <- (map_id (EnabledRules d)) at 2. apply map_ext_in. intros rule Hr%list_elem_of_In.
    apply Hall in Hr as [Hr _]. pose proof (Validate_spec rule) as Hs. rewrite Hr in Hs. by destruct Hs as [<- _]. }
  pose proof (parse_from_spec (EnabledRules d) 0 []) as Hp. unfold ParseRules. rewrite Hn in Hp.
  destruct (parse_from 0 [] (EnabledRules d)) as [out|e]; [destruct Hp as [-> _]; done|].
  destruct Hp. split_and!; [|by apply enabled_names|].
  - apply Forall_forall. intros rule Hr%list_elem_of_In. by apply Hall, list_elem_of_In.
  - apply Forall_forall. intros rule Hr. by apply not_elem_of_nil.
Qed.

Lemma enabled_rows d r : rules_wf d → r ∈ alert_rules d → contains (map rule_Name (EnabledRules d)) (ru_name r) = ru_enabled r.
Proof.
  intros Hwf Hr. apply eq_true_iff_eq. rewrite contains_spec, list_elem_of_fmap. setoid_rewrite elem_of_enabled. split.
  - intros (rule & E & r' & Hr' & He & <-). rewrite <- (proj1 (rw_valid d Hwf r' Hr')) in E.
    rewrite (NoDup_map_inj ru_name (alert_rules d) r r'); [done|apply (rw_names d Hwf)|done..].
  - intros He. exists (ru_rule r). split; [by apply (rw_valid d Hwf)|by exists r].
Qed.

(** C40: what -export-rules prints, read back the way it was encoded, is taken by
    -import-rules: every enabled rule counts as replaced, none is added, and
    the database stays as it was but for who touched those rules last. *)
Theorem export_import (encode : list AlertConfig → result error string) (decode : string → result error (list AlertConfig))
    (text path : string) (now : time) (d : DB) :
  rules_wf d → rules_checked d → encode (EnabledRules d) = Ok text → decode text = Ok (EnabledRules d) →
  exportRules encode d = Prints text ∧
  importRules decode now path (Ok text) d =
    (Prints ("Added 0 rules and replaced " +:+ itoa (len (EnabledRules d)) +:+ ". The collector checks them within 15 seconds."),
     set_alert_rules (update_where ru_enabled (touched now "command line") (alert_rules d)) d).
Proof.
  intros Hwf Hc He Hd. split; [unfold exportRules; by rewrite He|].
  unfold importRules, LoadRules, ImportRules, transaction. rewrite Hd. cbn [rbind]. rewrite enabled_parse by done.
  assert (Hr : check_rules (EnabledRules d) = Ok (EnabledRules d)).
  { apply check_rules_fixed, Forall_forall. intros rule Hin. apply elem_of_enabled in Hin as (r & Hr & _ & <-). by apply Hc. }
  rewrite Hr, import_kept.
  - f_equal. f_equal. apply update_where_same. intros r Hin. by apply enabled_rows.
  - intros rule (r & Hin & _ & <-)%elem_of_enabled. rewrite <- (proj1 (rw_valid d Hwf r Hin)). by apply list_elem_of_fmap_2.
  - intros rule r (r' & Hin' & _ & <-)%elem_of_enabled Hin E. rewrite <- (proj1 (rw_valid d Hwf r' Hin')) in E.
    by rewrite (NoDup_map_inj ru_name (alert_rules d) r r' (rw_names d Hwf) Hin Hin' E).
Qed.
End Transfer.

#[local] Instance no_urls : UrlParse := λ _, None.

Lemma rules_db_checked : @rules_checked no_urls rules_db.
Proof. by intros r ->%list_elem_of_singleton. Qed.

Lemma export_import_witness :
  exportRules (λ _, Ok "[]") rules_db = Prints "[]" ∧
  importRules (λ _, Ok [swap_rule]) 7 "alerts.json" (Ok "[]") rules_db =
    (Prints "Added 0 rules and replaced 1. The collector checks them within 15 seconds.",
     set_alert_rules (update_where ru_enabled (touched 7 "command line") (alert_rules rules_db)) rules_db).
Proof.
  exact (export_import (λ _, Ok "[]") (λ _, Ok [swap_rule]) "[]" "alerts.json" 7 rules_db
    rules_db_wf rules_db_checked eq_refl eq_refl).
Defined.
